(** * LBBS core: node registry, node lifecycle, IRC channel engine, SFTP read
      and write

    A shallow embedding of the parts of [bbs/node.c], [nets/net_irc.c] and
    [nets/net_ssh.c] that the testable properties of the specification
    talk about, and of the functions next to them, together with the
    statements that hold of them.

    Conventions.
    - C integers are [Z]; every arithmetic step that can leave the range
      of its C type is written with the wrap-around functions of [CInt].
    - A pointer to a heap object is the address of that object: nodes
      carry the address [ptr] they were allocated at, IRC users are
      addressed through a store from addresses to [irc_user] records.
    - Calls that leave the translated files (the terminal layer, the
      authentication backend, the operating system) are recorded as
      events; what they return comes from the environment as an argument.
    - Diagnostics ([bbs_debug], [bbs_verb]) are not recorded; [bbs_error]
      is recorded where a statement distinguishes it. *)

From Stdlib Require Import String Ascii ZArith List Bool Lia Sorted.
Import ListNotations.
Open Scope Z_scope.

(* ================================================================== *)
(** * Machine integers *)
(* ================================================================== *)

Module CInt.

Definition UINT_MAX : Z := 4294967295.
Definition INT_MAX : Z := 2147483647.

(** [unsigned int] arithmetic is modulo 2^32. *)
Definition wrap_uint (z : Z) : Z := z mod 4294967296.

(** [int] arithmetic, two's complement. *)
Definition wrap_int (z : Z) : Z := (z + 2147483648) mod 4294967296 - 2147483648.

(** Conversion to [unsigned short] (the fields of [struct winsize]). *)
Definition wrap_ushort (z : Z) : Z := z mod 65536.

(** Modelled from the spec: the macro [MIN_MS] of include/bbs.h, which
    is not among the translated files. It gives minutes in milliseconds:
    the ping task "wakes every ping interval (~2 min)", the code sleeps
    [usleep(PING_TIME * 1000)] to turn milliseconds into microseconds,
    and the read timeouts built with it are in milliseconds. *)
Definition MIN_MS (x : Z) : Z := 60000 * x.

End CInt.

(** The result of a function that may hit [bbs_assert] or dereference a
    null pointer: the process does not survive either. *)
Inductive outcome (A : Type) : Type :=
| Done (a : A)
| Aborted.
Arguments Done {A} a.
Arguments Aborted {A}.

(* ================================================================== *)
(** * C functions as state transformers *)
(* ================================================================== *)

(** A C function body threads the variables it can reach through its
    statements. A statement goes on to the next one, or makes the
    function return, or stops the thread: on a failed [bbs_assert], on a
    null pointer, or on a mutex the thread itself holds. *)
Module CMonad.

Inductive stop : Type := AssertFailed | NullDeref | Deadlock.

Inductive flow (A : Type) : Type :=
| Next (a : A)
| Return (r : Z)
| Stop (why : stop).
Arguments Next {A} a.
Arguments Return {A} r.
Arguments Stop {A} why.

Section WithState.

Variable S : Type.

Definition M (A : Type) : Type := S -> flow A * S.

Definition ret {A : Type} (a : A) : M A := fun s => (Next a, s).

Definition bind {A B : Type} (c : M A) (k : A -> M B) : M B :=
  fun s =>
    match c s with
    | (Next a, s') => k a s'
    | (Return r, s') => (Return r, s')
    | (Stop w, s') => (Stop w, s')
    end.

Definition return_ {A : Type} (r : Z) : M A := fun s => (Return r, s).
Definition stop_ {A : Type} (w : stop) : M A := fun s => (Stop w, s).
Definition get : M S := fun s => (Next s, s).
Definition gets {A : Type} (f : S -> A) : M A := fun s => (Next (f s), s).
Definition modify (f : S -> S) : M unit := fun s => (Next tt, f s).

(** Calling a function: its return value is the value of the call. *)
Definition call (body : M Z) : M Z :=
  fun s =>
    match body s with
    | (Next a, s') => (Next a, s')
    | (Return r, s') => (Next r, s')
    | (Stop w, s') => (Stop w, s')
    end.

(** [for] over the elements of a list. *)
Fixpoint for_each {A : Type} (l : list A) (body : A -> M unit) : M unit :=
  match l with
  | [] => ret tt
  | x :: rest => bind (body x) (fun _ => for_each rest body)
  end.

(** [c], started where [P] holds, goes on where [Q] holds, or leaves the
    function or stops where [R] holds. *)
Definition triple {A : Type} (P : S -> Prop) (c : M A)
    (Q : A -> S -> Prop) (R : S -> Prop) : Prop :=
  forall s, P s ->
    match c s with
    | (Next a, s') => Q a s'
    | (Return _, s') => R s'
    | (Stop _, s') => R s'
    end.

(** However [c] ends, the state it ends in is related by [R] to the
    state it started in. *)
Definition keeps {A : Type} (R : S -> S -> Prop) (c : M A) : Prop :=
  forall s, R s (snd (c s)).

End WithState.

Arguments ret {S A} a.
Arguments bind {S A B} c k.
Arguments return_ {S A} r.
Arguments stop_ {S A} w.
Arguments get {S}.
Arguments gets {S A} f.
Arguments modify {S} f.
Arguments call {S} body.
Arguments for_each {S A} l body.
Arguments triple {S A} P c Q R.
Arguments keeps {S A} R c.

Declare Scope cfun_scope.
Delimit Scope cfun_scope with cfun.
Notation "x <- c ;; k" := (bind c (fun x => k))
  (at level 61, c at next level, right associativity) : cfun_scope.
Notation "c ;; k" := (bind c (fun _ => k))
  (at level 61, right associativity) : cfun_scope.

End CMonad.

(* ================================================================== *)
(** * bbs/node.c *)
(* ================================================================== *)

Module Node.
Import CInt.

(** [struct bbs_user], as far as the node code looks into it. *)
Record bbs_user : Type := mk_user {
  user_id : Z;
  user_priv : Z;
  user_name : string
}.

(** [struct bbs_node]. [ptr] is the address [calloc] returned. *)
Record bbs_node : Type := mk_node {
  ptr : nat;
  id : Z;                  (* unsigned int *)
  fd : Z;
  rfd : Z;
  wfd : Z;
  amaster : Z;
  slavefd : Z;
  spyfd : Z;
  spyfdin : Z;
  user : option bbs_user;
  active : bool;
  created : Z;
  echo : bool;
  buffered : bool;
  protname : string;
  ansi : bool;
  module : Z;              (* void * *)
  cols : Z;                (* unsigned int *)
  rows : Z;                (* unsigned int *)
  childpid : Z;
  inmenu : bool;
  ptythread : Z;           (* pthread_t, 0 when there is none *)
  spy : bool;
  thread : Z;              (* pthread_t *)
  skipjoin : bool
}.

Definition set_active (b : bool) (n : bbs_node) : bbs_node :=
  mk_node (ptr n) (id n) (fd n) (rfd n) (wfd n) (amaster n) (slavefd n)
    (spyfd n) (spyfdin n) (user n) b (created n) (echo n) (buffered n)
    (protname n) (ansi n) (module n) (cols n) (rows n) (childpid n)
    (inmenu n) (ptythread n) (spy n) (thread n) (skipjoin n).

Definition set_user (u : option bbs_user) (n : bbs_node) : bbs_node :=
  mk_node (ptr n) (id n) (fd n) (rfd n) (wfd n) (amaster n) (slavefd n)
    (spyfd n) (spyfdin n) u (active n) (created n) (echo n) (buffered n)
    (protname n) (ansi n) (module n) (cols n) (rows n) (childpid n)
    (inmenu n) (ptythread n) (spy n) (thread n) (skipjoin n).

Definition set_fd (v : Z) (n : bbs_node) : bbs_node :=
  mk_node (ptr n) (id n) v (rfd n) (wfd n) (amaster n) (slavefd n)
    (spyfd n) (spyfdin n) (user n) (active n) (created n) (echo n)
    (buffered n) (protname n) (ansi n) (module n) (cols n) (rows n)
    (childpid n) (inmenu n) (ptythread n) (spy n) (thread n) (skipjoin n).

Definition set_amaster (v : Z) (n : bbs_node) : bbs_node :=
  mk_node (ptr n) (id n) (fd n) (rfd n) (wfd n) v (slavefd n)
    (spyfd n) (spyfdin n) (user n) (active n) (created n) (echo n)
    (buffered n) (protname n) (ansi n) (module n) (cols n) (rows n)
    (childpid n) (inmenu n) (ptythread n) (spy n) (thread n) (skipjoin n).

Definition set_slavefd (v : Z) (n : bbs_node) : bbs_node :=
  mk_node (ptr n) (id n) (fd n) (rfd n) (wfd n) (amaster n) v
    (spyfd n) (spyfdin n) (user n) (active n) (created n) (echo n)
    (buffered n) (protname n) (ansi n) (module n) (cols n) (rows n)
    (childpid n) (inmenu n) (ptythread n) (spy n) (thread n) (skipjoin n).

Definition set_spy (b : bool) (n : bbs_node) : bbs_node :=
  mk_node (ptr n) (id n) (fd n) (rfd n) (wfd n) (amaster n) (slavefd n)
    (spyfd n) (spyfdin n) (user n) (active n) (created n) (echo n)
    (buffered n) (protname n) (ansi n) (module n) (cols n) (rows n)
    (childpid n) (inmenu n) (ptythread n) b (thread n) (skipjoin n).

Definition set_term (e b : bool) (n : bbs_node) : bbs_node :=
  mk_node (ptr n) (id n) (fd n) (rfd n) (wfd n) (amaster n) (slavefd n)
    (spyfd n) (spyfdin n) (user n) (active n) (created n) e b
    (protname n) (ansi n) (module n) (cols n) (rows n) (childpid n)
    (inmenu n) (ptythread n) (spy n) (thread n) (skipjoin n).

Definition set_winsize (c r : Z) (n : bbs_node) : bbs_node :=
  mk_node (ptr n) (id n) (fd n) (rfd n) (wfd n) (amaster n) (slavefd n)
    (spyfd n) (spyfdin n) (user n) (active n) (created n) (echo n)
    (buffered n) (protname n) (ansi n) (module n) c r (childpid n)
    (inmenu n) (ptythread n) (spy n) (thread n) (skipjoin n).

(** What the node code does to the world outside its own structures. *)
Inductive event : Type :=
| EvError (what : string)              (* bbs_error *)
| EvKillChild (pid : Z)                (* kill_pid: INT, then TERM, then KILL *)
| EvUserDestroy (u : bbs_user)         (* bbs_user_destroy *)
| EvBufferInput (nodeid : Z)           (* bbs_node_buffer_input(node, 1) *)
| EvWrite (to : Z) (data : string)     (* write, SWRITE, bbs_dprintf *)
| EvSocketClose (which : Z)            (* bbs_socket_close *)
| EvJoin (th : Z)                      (* bbs_pthread_join *)
| EvShortSession (nodeid : Z)          (* bbs_event_dispatch(EVENT_NODE_SHORT_SESSION) *)
| EvModuleUnref (m : Z)                (* bbs_module_unref *)
| EvFree (p : nat)                     (* free(node) *)
| EvWinsize (master r c : Z)           (* ioctl(TIOCSWINSZ) *)
| EvSignal (pid : Z) (sig : string)    (* kill *)
| EvMenuRefresh (master : Z).          (* write(amaster, &c, 1), c = MENU_REFRESH_KEY *)

Definition COLOR_RESET : string := "<COLOR_RESET>".

(** [bbs_node_kill_child]: the escalation of [kill_pid] runs only when
    the node has a child. *)
Definition bbs_node_kill_child (n : bbs_node) : list event :=
  if childpid n =? 0 then [] else [EvKillChild (childpid n)].

(** [bbs_node_logout] *)
Definition bbs_node_logout (n : bbs_node) : bbs_node * list event :=
  (set_user None n,
   match user n with Some u => [EvUserDestroy u] | None => [] end).

(** [node_shutdown(node, unique)]. [shutting_down] is the global of that
    name, [now] the result of [time(NULL)].  [bbs_socket_close] takes the
    address of the descriptor and leaves -1 in it; [bbs_node_buffer_input]
    puts the terminal back in canonical mode with echo. *)
Definition node_shutdown (shutting_down now : Z) (node : bbs_node) (unique : Z)
  : bbs_node * list event :=
  if negb (active node) then
    (node, [EvError "Attempt to shut down already inactive node"])
  else
    let n0 := set_active false node in
    let e_kill := bbs_node_kill_child n0 in
    let wasloggedin := match user n0 with Some _ => true | None => false end in
    let '(n1, e_logout) :=
      match user n0 with
      | Some _ => bbs_node_logout n0
      | None => (n0, [])
      end in
    let '(n2, e_term) :=
      if negb (slavefd n1 =? -1) then
        (set_term true true n1, [EvBufferInput (id n1); EvWrite (wfd n1) COLOR_RESET])
      else (n1, []) in
    let '(n3, e_pty) :=
      if negb (ptythread n2 =? 0) then
        let '(a, ea) :=
          if negb (amaster n2 =? -1)
          then (set_amaster (-1) n2, [EvSocketClose (amaster n2)])
          else (n2, []) in
        let '(b, eb) :=
          if negb (slavefd a =? -1)
          then (set_slavefd (-1) a, [EvSocketClose (slavefd a)])
          else (a, []) in
        let '(c, ec) :=
          if spy b
          then (set_spy false b, [EvWrite (spyfd b) "Node has disconnected."])
          else (b, []) in
        (c, ea ++ eb ++ [EvJoin (ptythread n2)] ++ ec)
      else (n2, []) in
    let '(n4, e_fd) :=
      if negb (fd n3 =? 0)
      then (set_fd (-1) n3, [EvSocketClose (fd n3)])
      else (n3, []) in
    let e_short :=
      if negb wasloggedin && (shutting_down =? 0) && (now <? created n4 + 5)
      then [EvShortSession (id n4)] else [] in
    let e_join :=
      if unique =? 0 then
        if skipjoin n4 then [] else [EvJoin (thread n4)]
      else [] in
    (n4, e_kill ++ e_logout ++ e_term ++ e_pty ++ e_fd ++ e_short ++ e_join).

(** [node_free] *)
Definition node_free (node : bbs_node) : list event :=
  (if module node =? 0 then [] else [EvModuleUnref (module node)])
  ++ [EvFree (ptr node)].

(** ** The registry *)

(** The file-scope variables of node.c: the list [nodes], [shutting_down],
    [maxnodes], [lifetime_nodes]; [next_ptr] is the allocator's next
    fresh address. *)
Record registry : Type := mk_registry {
  nodes : list bbs_node;
  shutting_down : Z;
  maxnodes : Z;            (* unsigned int *)
  lifetime_nodes : Z;
  next_ptr : nat
}.

Definition with_nodes (l : list bbs_node) (st : registry) : registry :=
  mk_registry l (shutting_down st) (maxnodes st) (lifetime_nodes st) (next_ptr st).

Definition empty_registry (max : Z) : registry := mk_registry [] 0 max 0 1%nat.

Definition ids (st : registry) : list Z := map id (nodes st).

(** [bbs_node_count] *)
Definition bbs_node_count (st : registry) : Z :=
  fold_left (fun count _ => wrap_uint (count + 1)) (nodes st) 0.

(** The locals of [__bbs_node_request] that the traversal updates. *)
Record scan : Type := mk_scan {
  count : Z;
  newnodenumber : Z;
  keeplooking : bool;
  prev : option bbs_node
}.

(** The [RWLIST_TRAVERSE] loop of [__bbs_node_request]. *)
Fixpoint traverse (l : list bbs_node) (s : scan) : outcome scan :=
  match l with
  | [] => Done s
  | node :: rest =>
    let c := wrap_uint (count s + 1) in
    if keeplooking s then
      if id node =? newnodenumber s then
        traverse rest (mk_scan c (wrap_uint (newnodenumber s + 1)) true (Some node))
      else if id node >? newnodenumber s then
        traverse rest (mk_scan c (newnodenumber s) false (prev s))
      else Aborted                       (* bbs_assert(node->id > newnodenumber) *)
    else traverse rest (mk_scan c (newnodenumber s) false (prev s))
  end.

(** [RWLIST_INSERT_AFTER]: link [n] behind the element at address [p]. *)
Fixpoint insert_after (p : nat) (n : bbs_node) (l : list bbs_node) : list bbs_node :=
  match l with
  | [] => []
  | x :: rest =>
    if Nat.eqb (ptr x) p then x :: n :: rest else x :: insert_after p n rest
  end.

(** The node [__bbs_node_request] fills in after [calloc]. *)
Definition fresh_node (p : nat) (newid fd0 now : Z) (pn : string) (md : Z) : bbs_node :=
  mk_node p newid fd0 fd0 fd0 (-1) (-1) (-1) (-1) None true now true true pn
    true md 0 0 0 false 0 false 0 false.

(** [__bbs_node_request(fd, protname, mod)]. [now] is [time(NULL)],
    [alloc_ok] tells whether [calloc] succeeds. *)
Definition __bbs_node_request (fd0 : Z) (pn : string) (md : Z) (now : Z)
    (alloc_ok : bool) (st : registry) : outcome (option bbs_node * registry) :=
  if fd0 <=? 2 then Done (None, st)
  else if negb (shutting_down st =? 0) then Done (None, st)
  else
    match traverse (nodes st) (mk_scan 0 1 true None) with
    | Aborted => Aborted
    | Done s =>
      if count s >=? maxnodes st then Done (None, st)
      else if negb alloc_ok then Done (None, st)
      else
        let node := fresh_node (next_ptr st) (newnodenumber s) fd0 now pn md in
        let l := match prev s with
                 | Some p => insert_after (ptr p) node (nodes st)
                 | None => node :: nodes st
                 end in
        Done (Some node,
              mk_registry l (shutting_down st) (maxnodes st)
                (wrap_int (lifetime_nodes st + 1)) (S (next_ptr st)))
    end.

(** [RWLIST_REMOVE]: unlink the element at address [p], if it is linked. *)
Fixpoint remove_ptr (p : nat) (l : list bbs_node) : list bbs_node :=
  match l with
  | [] => []
  | x :: rest => if Nat.eqb (ptr x) p then rest else x :: remove_ptr p rest
  end.

(** [bbs_node_unlink(node)] *)
Definition bbs_node_unlink (now : Z) (node : bbs_node) (st : registry)
  : registry * list event :=
  let st' := with_nodes (remove_ptr (ptr node) (nodes st)) st in
  let '(n', ev) := node_shutdown (shutting_down st) now node 1 in
  (st', ev ++ node_free n').

(** [RWLIST_REMOVE_BY_FIELD(&nodes, id, nodenum, entry)] *)
Fixpoint remove_by_id (nodenum : Z) (l : list bbs_node) : option bbs_node * list bbs_node :=
  match l with
  | [] => (None, [])
  | x :: rest =>
    if id x =? nodenum then (Some x, rest)
    else let '(r, rest') := remove_by_id nodenum rest in (r, x :: rest')
  end.

(** [bbs_node_shutdown_node(nodenum)] *)
Definition bbs_node_shutdown_node (now : Z) (nodenum : Z) (st : registry)
  : Z * registry * list event :=
  match remove_by_id nodenum (nodes st) with
  | (Some n, l) =>
    (0, with_nodes l st, snd (node_shutdown (shutting_down st) now n 0))
  | (None, l) => (-1, with_nodes l st, [EvError "Node not found in node list?"])
  end.

(** [bbs_node_shutdown_all(shutdown)]: the flag is stored first, then
    [RWLIST_REMOVE_ALL] empties the list and shuts every node down. *)
Definition bbs_node_shutdown_all (now : Z) (shutdown : Z) (st : registry)
  : registry * list event :=
  (mk_registry [] shutdown (maxnodes st) (lifetime_nodes st) (next_ptr st),
   flat_map (fun n => snd (node_shutdown shutdown now n 0)) (nodes st)).

(** ** Window size *)

(** The first step of [bbs_node_update_winsize]: the new size is stored
    when neither number is negative. *)
Definition store_winsize (node : bbs_node) (cols0 rows0 : Z) : bbs_node :=
  if (rows0 >=? 0) && (cols0 >=? 0)
  then set_winsize (wrap_uint cols0) (wrap_uint rows0) node
  else node.

(** [bbs_node_update_winsize(node, cols, rows)]. [ioctl_ok] and [kill_ok]
    tell whether the two system calls succeed, [wres] is what [write]
    returns. The result is the return value, the node and the events. *)
Definition bbs_node_update_winsize (ioctl_ok kill_ok : bool) (wres : Z)
    (node : bbs_node) (cols0 rows0 : Z) : Z * bbs_node * list event :=
  let oldcols := cols node in
  let oldrows := rows node in
  let n1 := store_winsize node cols0 rows0 in
  let child := childpid n1 in
  if amaster n1 =? -1 then (0, n1, [])
  else if negb (child =? 0) then
    (0, n1,
     [EvWinsize (amaster n1) (wrap_ushort (rows n1)) (wrap_ushort (cols n1))]
     ++ (if ioctl_ok then [] else [EvError "TIOCSWINSZ failed"])
     ++ [EvSignal child "SIGWINCH"]
     ++ (if kill_ok then [] else [EvError "SIGWINCH failed"]))
  else if inmenu n1 then
    if (cols n1 <? oldcols) || ((rows n1 <? oldrows) && (cols n1 >? oldcols)) then
      if negb (buffered n1) then
        (0, n1,
         [EvMenuRefresh (amaster n1)]
         ++ (if wres =? 1 then [] else [EvError "Screen refresh failed"]))
      else (0, n1, [EvError "In menu but input is buffered?"])
    else (0, n1, [])
  else (0, n1, []).

(** ** States of the registry

    The registry starts empty, with the configured [maxnodes], and moves
    only through the functions above. A request may be made with any
    arguments and may fail. *)
Inductive reachable (max : Z) : registry -> Prop :=
| reach_init : reachable max (empty_registry max)
| reach_request fd0 pn md now alloc_ok st r st' :
    reachable max st ->
    __bbs_node_request fd0 pn md now alloc_ok st = Done (r, st') ->
    reachable max st'
| reach_unlink now node st :
    reachable max st ->
    reachable max (fst (bbs_node_unlink now node st))
| reach_shutdown_node now nodenum st :
    reachable max st ->
    reachable max (snd (fst (bbs_node_shutdown_node now nodenum st)))
| reach_shutdown_all now shutdown st :
    reachable max st ->
    reachable max (fst (bbs_node_shutdown_all now shutdown st)).

(** What every reachable registry satisfies. *)
Record registry_ok (st : registry) : Prop := mk_registry_ok {
  ok_sorted : StronglySorted Z.lt (ids st);
  ok_range : Forall (fun n => 1 <= id n <= UINT_MAX) (nodes st);
  ok_ptrs : NoDup (map ptr (nodes st));
  ok_fresh : Forall (fun n => (ptr n < next_ptr st)%nat) (nodes st);
  ok_max : 0 <= maxnodes st <= UINT_MAX;
  ok_capacity : Z.of_nat (length (nodes st)) <= maxnodes st
}.

(** ** Sequences of operations

    A request that is granted, or the unlinking of a node that is live. *)
Inductive op : Type :=
| OpRequest (fd0 : Z) (pn : string) (md : Z) (now : Z)
| OpUnlink (nodenum : Z) (now : Z).

(** [bbs_node_get] without the lock: the live node with that number. *)
Definition node_by_id (nodenum : Z) (st : registry) : option bbs_node :=
  find (fun n => id n =? nodenum) (nodes st).

(** Run a sequence of operations; [None] when one of them does not
    succeed. *)
Fixpoint run (ops : list op) (st : registry) : option registry :=
  match ops with
  | [] => Some st
  | OpRequest fd0 pn md now :: rest =>
    match __bbs_node_request fd0 pn md now true st with
    | Done (Some _, st') => run rest st'
    | _ => None
    end
  | OpUnlink nodenum now :: rest =>
    match node_by_id nodenum st with
    | Some n => run rest (fst (bbs_node_unlink now n st))
    | None => None
    end
  end.

(** Scenario S5: allocate nodes 1..5, unlink 2 and 4. *)
Definition s5_ops : list op :=
  [OpRequest 10 "Telnet" 1 100; OpRequest 11 "Telnet" 1 101;
   OpRequest 12 "SSH" 2 102; OpRequest 13 "Telnet" 1 103;
   OpRequest 14 "IRC" 3 104; OpUnlink 2 200; OpUnlink 4 201].

Definition s5_registry : registry :=
  match run s5_ops (empty_registry 64) with
  | Some st => st
  | None => empty_registry 64
  end.

(** The nodes are at capacity, or the server is shutting down. *)
Definition refusing (st : registry) : Prop :=
  maxnodes st <= Z.of_nat (length (nodes st)) \/ shutting_down st <> 0.

(** The contract of the request with only those two reasons to refuse. *)
Definition request_contract_two_reasons : Prop :=
  forall max st fd0 pn md now alloc_ok,
    0 <= max <= UINT_MAX -> reachable max st ->
    (refusing st ->
       __bbs_node_request fd0 pn md now alloc_ok st = Done (None, st)) /\
    (~ refusing st ->
       exists node st',
         __bbs_node_request fd0 pn md now alloc_ok st = Done (Some node, st')).

(** ** Classifying the events of a shutdown *)

Definition is_kill (e : event) : bool :=
  match e with EvKillChild _ => true | _ => false end.
Definition is_logout (e : event) : bool :=
  match e with EvUserDestroy _ => true | _ => false end.
Definition is_restore (e : event) : bool :=
  match e with EvBufferInput _ => true | _ => false end.
Definition is_close (e : event) : bool :=
  match e with EvSocketClose _ => true | _ => false end.
Definition is_diagnostic (e : event) : bool :=
  match e with EvError _ => true | _ => false end.

(** What an observer of the node sees: everything but the diagnostics. *)
Definition observable (l : list event) : list event :=
  filter (fun e => negb (is_diagnostic e)) l.

Definition occurrences (f : event -> bool) (l : list event) : nat :=
  length (filter f l).

(** ** The window-size update as the specification words it *)

Definition is_winsize (e : event) : bool :=
  match e with EvWinsize _ _ _ => true | _ => false end.
Definition is_signal (e : event) : bool :=
  match e with EvSignal _ _ => true | _ => false end.
Definition is_refresh (e : event) : bool :=
  match e with EvMenuRefresh _ => true | _ => false end.

(** The menu got narrower, or it got shorter while getting wider. *)
Definition menu_shrank (oldcols oldrows newcols newrows : Z) : bool :=
  (newcols <? oldcols) || ((newrows <? oldrows) && (newcols >? oldcols)).

(** "If a PTY is allocated, the window-size set is performed on the
    master; with a child, the child is also signalled; without a child,
    in a menu that shrank, one refresh byte is written." *)
Definition winsize_contract_as_worded : Prop :=
  forall ioctl_ok kill_ok wres node c r,
    let '(_, n', ev) := bbs_node_update_winsize ioctl_ok kill_ok wres node c r in
    (0 <= c -> 0 <= r -> cols n' = wrap_uint c /\ rows n' = wrap_uint r) /\
    (amaster node <> -1 ->
       In (EvWinsize (amaster node) (wrap_ushort (rows n')) (wrap_ushort (cols n'))) ev) /\
    (amaster node <> -1 -> childpid node <> 0 ->
       In (EvSignal (childpid node) "SIGWINCH") ev) /\
    (amaster node <> -1 -> childpid node = 0 -> inmenu node = true ->
       menu_shrank (cols node) (rows node) (cols n') (rows n') = true ->
       filter is_refresh ev = [EvMenuRefresh (amaster node)]).

(** A node on a PTY (master 5, slave 6), 80x24, with no child. *)
Definition pty_node : bbs_node :=
  mk_node 1%nat 1 10 10 10 5 6 (-1) (-1) None true 100 true false "SSH"
    true 2 80 24 0 false 7 false 8 false.

(** The same node while it displays a menu. *)
Definition menu_node : bbs_node :=
  mk_node 1%nat 1 10 10 10 5 6 (-1) (-1) None true 100 true false "SSH"
    true 2 80 24 0 true 7 false 8 false.

End Node.

(* ================================================================== *)
(** * bbs/node.c: the login dialogue *)
(* ================================================================== *)

Module Login.
Import CInt CMonad.

(** What the environment answers to one call that leaves node.c: the
    value the call returns and, for a read, the characters that came in. *)
Record reply : Type := mk_reply { res : Z; text : string }.

Inductive buffer_name : Type := BufUsername | BufPassword.

(** The calls [authenticate] makes, with what they returned. *)
Inductive call : Type :=
| CError (what : string)
| CBuffer (r : Z)                                  (* bbs_node_buffer *)
| CWritef (what : string) (r : Z)                  (* bbs_node_writef *)
| CReadline (into : buffer_name) (ms : Z) (got : string) (r : Z)
                                                   (* bbs_node_readline *)
| CRegister (r : Z)                                (* bbs_user_register *)
| CGetResponse (prompt : string) (r : Z)           (* bbs_get_response *)
| CInputReplace                                    (* bbs_node_input_replace *)
| CInputUnreplace                                  (* bbs_node_input_unreplace *)
| CAuthenticate (u : option string) (p : option (list Z)) (r : Z)
                                                   (* bbs_authenticate *)
| CGuestInfoSet                                    (* bbs_user_guest_info_set *)
| CEchoOff (r : Z)                                 (* bbs_node_echo_off *)
| CEchoOn (r : Z)                                  (* bbs_node_echo_on *)
| CMemzero (which : buffer_name) (len : Z).        (* bbs_memzero *)

(** The locals of [authenticate] and what it can see of the node.
    [calls] is in the order the calls were made. *)
Record login_state : Type := mk_login {
  replies : list reply;
  username : string;       (* char username[64] *)
  password : list Z;       (* char password[64] *)
  logged_in : bool;        (* bbs_node_logged_in(node) *)
  calls : list call
}.

Definition PASSWORD_SIZE : nat := 64.
Definition MAX_AUTH_ATTEMPTS : Z := 3.

Definition M (A : Type) : Type := CMonad.M login_state A.

Local Open Scope cfun_scope.

(** ** Primitives *)

Definition log (c : call) : M unit :=
  fun s => (Next tt,
            mk_login (replies s) (username s) (password s) (logged_in s)
              (calls s ++ [c])).

(** The next answer of the environment; once they are used up, every
    call fails with -1. *)
Definition next_reply : M reply :=
  fun s =>
    match replies s with
    | [] => (Next (mk_reply (-1) EmptyString), s)
    | r :: rest =>
      (Next r, mk_login rest (username s) (password s) (logged_in s) (calls s))
    end.

Definition external (mk : Z -> call) : M Z :=
  r <- next_reply ;; log (mk (res r)) ;; ret (res r).

Definition set_username (u : string) : M unit :=
  fun s => (Next tt, mk_login (replies s) u (password s) (logged_in s) (calls s)).

Definition set_password (p : list Z) : M unit :=
  fun s => (Next tt, mk_login (replies s) (username s) p (logged_in s) (calls s)).

Definition set_logged_in : M unit :=
  fun s => (Next tt, mk_login (replies s) (username s) (password s) true (calls s)).

Definition get_username : M string := fun s => (Next (username s), s).
Definition get_password : M (list Z) := fun s => (Next (password s), s).
Definition get_logged_in : M bool := fun s => (Next (logged_in s), s).

Definition bytes_of (t : string) : list Z :=
  map (fun c => Z.of_N (N_of_ascii c)) (list_ascii_of_string t).

(** A line of at most [len - 1] characters and its terminator, written
    at the start of a buffer. *)
Definition store_line (data : list Z) (buf : list Z) : list Z :=
  let d := firstn (length buf - 1) data in
  d ++ firstn (length buf - length d) (0 :: skipn (S (length d)) buf).

Definition bbs_node_buffer : M Z := external CBuffer.
Definition bbs_node_writef (what : string) : M Z := external (CWritef what).
Definition bbs_node_echo_off : M Z := external CEchoOff.
Definition bbs_node_echo_on : M Z := external CEchoOn.
Definition bbs_user_register : M Z :=
  r <- external CRegister ;;
  (if r =? 0 then set_logged_in else ret tt) ;;
  ret r.
Definition bbs_get_response (prompt : string) : M Z := external (CGetResponse prompt).

(** The characters that had come in when a read gave up, at the start
    of a buffer (at most [len - 1] of them, as for a line): no
    terminator follows them, the rest of the buffer is as it was. *)
Definition store_partial (data : list Z) (buf : list Z) : list Z :=
  let d := firstn (length buf - 1) data in
  d ++ skipn (length d) buf.

(** Modelled from the spec: [bbs_node_readline(node, ms, buf, len)] is
    not in node.c, and the spec gives only its timeout. Its result and
    the characters that came in are the answer of the environment. A
    positive result is a line, which is in the buffer with its
    terminator. Any other result is a read that gave up (0 when the time
    is over, a negative value when the peer is gone): the characters
    that had come in by then are in the buffer, none if [text] is empty.
    The buffer of the user name is modelled by the string it holds,
    which is the one the environment gives. *)
Definition bbs_node_readline (into : buffer_name) (ms : Z) : M Z :=
  r <- next_reply ;;
  log (CReadline into ms (text r) (res r)) ;;
  match into with
  | BufUsername => set_username (text r)
  | BufPassword =>
    p <- get_password ;;
    set_password (if 0 <? res r then store_line (bytes_of (text r)) p
                  else store_partial (bytes_of (text r)) p)
  end ;;
  ret (res r).

(** [bbs_authenticate(node, username, password)]: 0 logs the node in. *)
Definition bbs_authenticate (u : option string) (p : option (list Z)) : M Z :=
  r <- external (CAuthenticate u p) ;;
  (if r =? 0 then set_logged_in else ret tt) ;;
  ret r.

(** [bbs_memzero(password, sizeof(password))] *)
Definition bbs_memzero_password : M unit :=
  log (CMemzero BufPassword (Z.of_nat PASSWORD_SIZE)) ;;
  set_password (repeat 0 PASSWORD_SIZE).

(** The early-return macros of bbs.h. *)
Definition NEG_RETURN (c : M Z) : M unit :=
  r <- c ;; if r <? 0 then return_ (-1) else ret tt.
Definition NONPOS_RETURN (c : M Z) : M unit :=
  r <- c ;; if r <=? 0 then return_ (-1) else ret tt.
Definition NONZERO_NEGRETURN (c : M Z) : M unit :=
  r <- c ;; if negb (r =? 0) then return_ (-1) else ret tt.

(** [strcasecmp(a, b) == 0] *)
Definition tolower (c : ascii) : ascii :=
  let n := N_of_ascii c in
  if (65 <=? n)%N && (n <=? 90)%N then ascii_of_N (n + 32) else c.

Fixpoint lower (t : string) : string :=
  match t with
  | EmptyString => EmptyString
  | String c rest => String (tolower c) (lower rest)
  end.

Definition same_nocase (a b : string) : bool := String.eqb (lower a) (lower b).

(** ** [authenticate] *)

Inductive loop_exit : Type := Break | Continue.

Section Authenticate.

(** [NODE_IS_TDD(node)] and the globals [allow_guest], [guest_ask_info]. *)
Variables (tdd allow_guest guest_ask_info : bool).

(** The guest branch of the loop body. *)
Definition guest_login : M loop_exit :=
  if allow_guest then
    if guest_ask_info then
      NONZERO_NEGRETURN
        (bbs_get_response (if tdd then "Name/alias: "
                           else "Please enter your name or alias:  ")) ;;
      (if tdd then
         log CInputReplace ;;
         NONZERO_NEGRETURN (bbs_get_response "E-Mail (use ! for at): ") ;;
         log CInputUnreplace
       else
         NONZERO_NEGRETURN (bbs_get_response "Please enter your e-mail address: ")) ;;
      NONZERO_NEGRETURN
        (bbs_get_response (if tdd then "Location (City,St): "
                           else "Please enter your location (City, State): ")) ;;
      NEG_RETURN (bbs_authenticate None None) ;;
      log CGuestInfoSet ;;
      ret Break
    else
      NEG_RETURN (bbs_authenticate None None) ;;
      ret Break
  else
    bbs_node_writef "Sorry, guest login is not permitted" ;;
    ret Continue.

(** The branch for an ordinary user name. *)
Definition password_login (u : string) : M loop_exit :=
  NEG_RETURN bbs_node_echo_off ;;
  NEG_RETURN (bbs_node_writef "Password: ") ;;
  NONPOS_RETURN (bbs_node_readline BufPassword 20000) ;;
  p <- get_password ;;
  r <- bbs_authenticate (Some u) (Some p) ;;
  bbs_memzero_password ;;
  NEG_RETURN bbs_node_echo_on ;;
  if r =? 0 then ret Break
  else bbs_node_writef "Login Failed" ;; ret Continue.

(** One pass through the body of the [for] loop. *)
Definition attempt : M loop_exit :=
  NEG_RETURN bbs_node_buffer ;;
  (if negb tdd then
     NEG_RETURN (bbs_node_writef "Enter Username or New") ;;
     (if allow_guest then NEG_RETURN (bbs_node_writef " or Guest") else ret tt) ;;
     NEG_RETURN (bbs_node_writef "\n")
   else ret tt) ;;
  NEG_RETURN (bbs_node_writef "Login: ") ;;
  NONPOS_RETURN (bbs_node_readline BufUsername (MIN_MS 1)) ;;
  u <- get_username ;;
  if same_nocase u "Quit" || same_nocase u "Exit" then return_ (-1)
  else if same_nocase u "New" then
    r <- bbs_user_register ;;
    if r =? 0 then ret Break
    else
      (if 0 <? r
       then bbs_node_writef "User registration aborted by system." ;; ret tt
       else ret tt) ;;
      return_ (-1)
  else if same_nocase u "Guest" then guest_login
  else password_login u.

(** [for (attempts = 0; attempts < MAX_AUTH_ATTEMPTS; attempts++)]:
    [fuel] is the number of passes left; the result is [attempts] when
    the loop is left. *)
Fixpoint attempts_loop (fuel : nat) (attempts : Z) : M Z :=
  match fuel with
  | O => ret attempts
  | S fuel' =>
    x <- attempt ;;
    match x with
    | Break => ret attempts
    | Continue => attempts_loop fuel' (attempts + 1)
    end
  end.

Definition authenticate : M Z :=
  li <- get_logged_in ;;
  (if li then log (CError "Node is already logged in") else ret tt) ;;
  attempts <- attempts_loop (Z.to_nat MAX_AUTH_ATTEMPTS) 0 ;;
  if attempts >=? MAX_AUTH_ATTEMPTS then return_ (-1)
  else
    li' <- get_logged_in ;;
    if li' then return_ 0 else stop_ AssertFailed.   (* bbs_assert(bbs_node_logged_in(node)) *)

End Authenticate.

(** A read into the buffer of the password, whatever its result. *)
Definition is_password_read (c : call) : bool :=
  match c with
  | CReadline BufPassword _ _ _ => true
  | _ => false
  end.

Definition password_was_read (s : login_state) : bool :=
  existsb is_password_read (calls s).

(** The state [authenticate] starts in: nothing called yet, the buffers
    hold whatever the stack held. *)
Definition initial (rs : list reply) (user_garbage : string) (pw_garbage : list Z)
  : login_state :=
  mk_login rs user_garbage pw_garbage false [].

(** A failed login followed by a successful one. *)
Definition two_attempts : list reply :=
  [mk_reply 0 ""; mk_reply 0 ""; mk_reply 0 ""; mk_reply 0 ""; mk_reply 0 "";
   mk_reply 5 "alice"; mk_reply 0 ""; mk_reply 0 ""; mk_reply 6 "wrong1";
   mk_reply (-1) ""; mk_reply 0 ""; mk_reply 0 "";
   mk_reply 0 ""; mk_reply 0 ""; mk_reply 0 ""; mk_reply 0 ""; mk_reply 0 "";
   mk_reply 5 "alice"; mk_reply 0 ""; mk_reply 0 ""; mk_reply 6 "secret";
   mk_reply 0 ""; mk_reply 0 ""].

(** ** Assertions about a run *)

Definition zeroed (s : login_state) : Prop :=
  password s = repeat 0 PASSWORD_SIZE.

(** The password buffer is clean: it holds zeros, or it still holds
    what it held at the start and nothing was ever read into it. *)
Definition clean (pw0 : list Z) (s : login_state) : Prop :=
  zeroed s \/ (password s = pw0 /\ password_was_read s = false).

(** The last call was a read of the password that gave up: the buffer
    is as that read left it, with the characters that had come in on top
    of the zeros, or of what it held at the start. *)
Definition left_by_failed_read (pw0 : list Z) (s : login_state) : Prop :=
  exists earlier got r before,
    calls s = earlier ++ [CReadline BufPassword 20000 got r] /\
    r <= 0 /\
    (before = pw0 \/ before = repeat 0 PASSWORD_SIZE) /\
    password s = store_partial (bytes_of got) before.

(** How [authenticate] can leave the password buffer. *)
Definition ends (pw0 : list Z) (s : login_state) : Prop :=
  clean pw0 s \/ left_by_failed_read pw0 s.

(** [bbs_memzero] was called. *)
Definition is_memzero (c : call) : bool :=
  match c with
  | CMemzero _ _ => true
  | _ => false
  end.

(** The names [authenticate] does not take for the name of a user. *)
Definition reserved (u : string) : bool :=
  same_nocase u "Quit" || same_nocase u "Exit" || same_nocase u "New"
  || same_nocase u "Guest".

(** A dialogue in which the read of the password gives up: the prompts
    go out, the line [u] comes in as the user name, and the read of the
    password ends with [r] when [got] has come in. *)
Definition gives_up_at_password (tdd allow_guest : bool) (n : Z) (u : string)
    (r : Z) (got : string) : list reply :=
  repeat (mk_reply 0 "") (if tdd then 2 else if allow_guest then 5 else 4)
  ++ [mk_reply n u; mk_reply 0 ""; mk_reply 0 ""; mk_reply r got].

(** [s'] has the password buffer of [s], and no password was read in
    between. *)
Definition same_password (s s' : login_state) : Prop :=
  password s' = password s /\ password_was_read s' = password_was_read s.

Abbreviation neutral := (keeps same_password).

End Login.

(* ================================================================== *)
(** * nets/net_irc.c: users, channels, members *)
(* ================================================================== *)

Module Irc.
Import CInt CMonad.
Local Open Scope cfun_scope.

(** [enum channel_modes] *)
Definition CHANNEL_MODE_NONE : Z := 0.
Definition CHANNEL_MODE_THROTTLED : Z := Z.shiftl 1 0.
Definition CHANNEL_MODE_LIMIT : Z := Z.shiftl 1 1.
Definition CHANNEL_MODE_MODERATED : Z := Z.shiftl 1 2.
Definition CHANNEL_MODE_NO_EXTERNAL : Z := Z.shiftl 1 3.
Definition CHANNEL_MODE_PRIVATE : Z := Z.shiftl 1 4.
Definition CHANNEL_MODE_REGISTERED_ONLY : Z := Z.shiftl 1 5.
Definition CHANNEL_MODE_SECRET : Z := Z.shiftl 1 6.
Definition CHANNEL_MODE_TOPIC_PROTECTED : Z := Z.shiftl 1 7.
Definition CHANNEL_MODE_REDUCED_MODERATION : Z := Z.shiftl 1 8.
Definition CHANNEL_MODE_TLS_ONLY : Z := Z.shiftl 1 9.

(** [enum channel_user_modes] *)
Definition CHANNEL_USER_MODE_NONE : Z := 0.
Definition CHANNEL_USER_MODE_FOUNDER : Z := Z.shiftl 1 0.
Definition CHANNEL_USER_MODE_ADMIN : Z := Z.shiftl 1 1.
Definition CHANNEL_USER_MODE_HALFOP : Z := Z.shiftl 1 2.
Definition CHANNEL_USER_MODE_OP : Z := Z.shiftl 1 3.
Definition CHANNEL_USER_MODE_VOICE : Z := Z.shiftl 1 4.

(** [enum user_modes] *)
Definition USER_MODE_NONE : Z := 0.
Definition USER_MODE_INVISIBLE : Z := Z.shiftl 1 0.
Definition USER_MODE_OPERATOR : Z := Z.shiftl 1 1.
Definition USER_MODE_SECURE : Z := Z.shiftl 1 2.

Definition MAX_CHANNEL_LENGTH : Z := 50.
Definition MAX_CHANNELS : Z := 50.
Definition PING_TIME : Z := MIN_MS 2.

(** [flags & bit] as a condition. *)
Definition has (flags bit : Z) : bool := negb (Z.land flags bit =? 0).

(** [struct irc_user]; [registered], [node_user_id] and [node_fd] are
    what the code reads through [user->node]. *)
Record irc_user : Type := mk_irc_user {
  channelcount : Z;        (* int *)
  username : string;
  nickname : string;
  umodes : Z;
  lastactive : Z;          (* int *)
  lastping : Z;            (* int *)
  lastpong : Z;            (* int *)
  away : bool;
  awaymsg : string;
  registered : bool;       (* bbs_user_is_registered(user->node->user) *)
  node_user_id : Z;        (* user->node->user->id *)
  node_fd : Z              (* user->node->fd *)
}.

Definition set_channelcount (v : Z) (u : irc_user) : irc_user :=
  mk_irc_user v (username u) (nickname u) (umodes u) (lastactive u)
    (lastping u) (lastpong u) (away u) (awaymsg u) (registered u)
    (node_user_id u) (node_fd u).

Definition set_lastactive (v : Z) (u : irc_user) : irc_user :=
  mk_irc_user (channelcount u) (username u) (nickname u) (umodes u) v
    (lastping u) (lastpong u) (away u) (awaymsg u) (registered u)
    (node_user_id u) (node_fd u).

Definition set_lastping (v : Z) (u : irc_user) : irc_user :=
  mk_irc_user (channelcount u) (username u) (nickname u) (umodes u)
    (lastactive u) v (lastpong u) (away u) (awaymsg u) (registered u)
    (node_user_id u) (node_fd u).

(** [struct irc_member]: [m_user] is the address of the user. *)
Record irc_member : Type := mk_member {
  m_user : Z;
  m_modes : Z
}.

(** [struct irc_channel] *)
Record irc_channel : Type := mk_channel {
  name : string;
  membercount : Z;         (* unsigned int *)
  topic : option string;
  members : list irc_member;
  cmodes : Z;
  limit : Z;               (* unsigned int *)
  fp : bool                (* a log file is attached *)
}.

Definition with_members (ms : list irc_member) (c : Z) (ch : irc_channel) : irc_channel :=
  mk_channel (name ch) c (topic ch) ms (cmodes ch) (limit ch) (fp ch).

(** Why a user leaves all channels. *)
Inductive reason : Type :=
| Text (t : string)
| PingTimeout (seconds : Z).       (* "Ping timeout: %d seconds" *)

(** What is written to a client. A user address stands for the prefix
    nick!~user@host of that user. *)
Inductive irc_msg : Type :=
| Numeric (n : Z) (text : string)
| MsgJoin (who : Z) (chan : string)
| MsgPart (who : Z) (chan : string)
| MsgQuit (who : Z) (chan : string) (why : reason)
| MsgKick (kicker kicked : Z) (chan : string) (why : string)
| MsgPrivmsg (notice : bool) (from : Z) (target : string) (text : string)
| MsgMode (chan modestr : string) (whom : Z)
| MsgPing (now : Z)
| MsgError (text : string).

Inductive event : Type :=
| EvSend (to : Z) (m : irc_msg)            (* written to the descriptor of user [to] *)
| EvLogLine (chan : string) (m : irc_msg)  (* written to the log file of the channel *)
| EvWarning (text : string)
| EvShutdown (nodefd : Z).                 (* shutdown(user->node->fd, SHUT_RDWR) *)

(** The state of the module, as one thread sees it: the user structures
    by address, the lists [users] and [channels], whether this thread
    holds the write lock of [channels], the user mutexes it holds, what
    it has written; and what a reader of [channels] could have seen:
    every content the list had while the write lock was not held. *)
Record irc_state : Type := mk_state {
  user_at : Z -> irc_user;
  users : list Z;
  channels : list irc_channel;
  channels_wrlocked : bool;
  observed : list (list irc_channel);
  held : list Z;
  sent : list event
}.

Definition I (A : Type) : Type := M irc_state A.

(** ** Locks and output *)

Definition emit (e : event) : I unit :=
  modify (fun st => mk_state (user_at st) (users st) (channels st)
                      (channels_wrlocked st) (observed st) (held st)
                      (sent st ++ [e])).

Definition holds (u : Z) (st : irc_state) : bool :=
  existsb (Z.eqb u) (held st).

(** [pthread_mutex_lock(&user->lock)]: the mutexes have default
    attributes, so a thread that locks one it holds waits for itself. *)
Definition lock_user (u : Z) : I unit :=
  st <- get ;;
  if holds u st then stop_ Deadlock
  else modify (fun st => mk_state (user_at st) (users st) (channels st)
                           (channels_wrlocked st) (observed st)
                           (u :: held st) (sent st)).

Definition unlock_user (u : Z) : I unit :=
  modify (fun st => mk_state (user_at st) (users st) (channels st)
                      (channels_wrlocked st) (observed st)
                      (filter (fun k => negb (k =? u)) (held st)) (sent st)).

(** [RWLIST_WRLOCK(&channels)] *)
Definition wrlock_channels : I unit :=
  st <- get ;;
  if channels_wrlocked st then stop_ Deadlock
  else modify (fun st => mk_state (user_at st) (users st) (channels st) true
                           (observed st) (held st) (sent st)).

(** [RWLIST_UNLOCK(&channels)]: from here on readers see the list. *)
Definition unlock_channels : I unit :=
  modify (fun st => mk_state (user_at st) (users st) (channels st) false
                      (observed st ++ [channels st]) (held st) (sent st)).

(** A write to the list or to a channel in it; without the write lock
    readers see the result at once. *)
Definition set_channels (l : list irc_channel) : I unit :=
  modify (fun st => mk_state (user_at st) (users st) l (channels_wrlocked st)
                      (if channels_wrlocked st then observed st
                       else observed st ++ [l])
                      (held st) (sent st)).

Definition update_user (u : Z) (f : irc_user -> irc_user) : I unit :=
  modify (fun st => mk_state
                      (fun k => if k =? u then f (user_at st k) else user_at st k)
                      (users st) (channels st) (channels_wrlocked st)
                      (observed st) (held st) (sent st)).

(** [send_reply] *)
Definition send_reply (u : Z) (m : irc_msg) : I unit :=
  lock_user u ;; emit (EvSend u m) ;; unlock_user u.

(** [send_numeric], [send_numeric2] *)
Definition send_numeric (u : Z) (n : Z) (text : string) : I unit :=
  send_reply u (Numeric n text).

(** [user_setactive] *)
Definition user_setactive (u : Z) (now : Z) : I unit :=
  lock_user u ;; update_user u (set_lastactive now) ;; unlock_user u.

(** ** Looking things up *)

Definition find_channel (nm : string) (l : list irc_channel) : option irc_channel :=
  find (fun c => String.eqb (name c) nm) l.

Definition find_member (u : Z) (ms : list irc_member) : option irc_member :=
  find (fun m => m_user m =? u) ms.

Definition is_member (u : Z) (ch : irc_channel) : bool :=
  existsb (fun m => m_user m =? u) (members ch).

(** Replace the channel of that name. *)
Fixpoint put_channel (ch : irc_channel) (l : list irc_channel) : list irc_channel :=
  match l with
  | [] => []
  | c :: rest =>
    if String.eqb (name c) (name ch) then ch :: rest else c :: put_channel ch rest
  end.

(** [RWLIST_REMOVE_CURRENT] at the first channel of that name. *)
Fixpoint drop_channel (nm : string) (l : list irc_channel) : list irc_channel :=
  match l with
  | [] => []
  | c :: rest =>
    if String.eqb (name c) nm then rest else c :: drop_channel nm rest
  end.

(** [RWLIST_REMOVE_CURRENT] at the first member with that user. *)
Fixpoint drop_member (u : Z) (ms : list irc_member) : list irc_member :=
  match ms with
  | [] => []
  | m :: rest => if m_user m =? u then rest else m :: drop_member u rest
  end.

(** [get_user]: the first user in [users] with that user name. *)
Definition get_user (nm : string) (st : irc_state) : option Z :=
  find (fun u => String.eqb (username (user_at st u)) nm) (users st).

(** ** Privileges *)

(** [authorized_atleast]: the [switch] falls through from the level
    asked for to every level below it in the enumeration's order of
    cases. *)
Definition authorized_atleast (member : irc_member) (atleast : Z) : Z :=
  let bit b := Z.land (m_modes member) b in
  let founder := bit CHANNEL_USER_MODE_FOUNDER in
  let admin := Z.lor (bit CHANNEL_USER_MODE_ADMIN) founder in
  let op := Z.lor (bit CHANNEL_USER_MODE_OP) admin in
  let halfop := Z.lor (bit CHANNEL_USER_MODE_HALFOP) op in
  let voice := Z.lor (bit CHANNEL_USER_MODE_VOICE) halfop in
  if atleast =? CHANNEL_USER_MODE_VOICE then voice
  else if atleast =? CHANNEL_USER_MODE_HALFOP then halfop
  else if atleast =? CHANNEL_USER_MODE_OP then op
  else if atleast =? CHANNEL_USER_MODE_ADMIN then admin
  else if atleast =? CHANNEL_USER_MODE_FOUNDER then founder
  else 0.

(** [get_channel_user_modes]: [None] when the member has no mode. *)
Definition get_channel_user_modes (member : irc_member) : option string :=
  if m_modes member =? 0 then None
  else
    let letter b c := if has (m_modes member) b then c else ""%string in
    Some ("+" ++ letter CHANNEL_USER_MODE_ADMIN "a"
              ++ letter CHANNEL_USER_MODE_HALFOP "h"
              ++ letter CHANNEL_USER_MODE_OP "o"
              ++ letter CHANNEL_USER_MODE_FOUNDER "q"
              ++ letter CHANNEL_USER_MODE_VOICE "v")%string.

(** [top_channel_membership_prefix] *)
Definition top_channel_membership_prefix (member : irc_member) : string :=
  if has (m_modes member) CHANNEL_USER_MODE_FOUNDER then "~"
  else if has (m_modes member) CHANNEL_USER_MODE_ADMIN then "&"
  else if has (m_modes member) CHANNEL_USER_MODE_OP then "@"
  else if has (m_modes member) CHANNEL_USER_MODE_HALFOP then "%"
  else if has (m_modes member) CHANNEL_USER_MODE_VOICE then "+"
  else "".

(** ** Channel names *)

Definition strlen (t : string) : Z := Z.of_nat (String.length t).

Definition is_hash_or_amp (c : ascii) : bool :=
  Ascii.eqb c "#" || Ascii.eqb c "&".

(** [IS_CHANNEL_NAME] *)
Definition IS_CHANNEL_NAME (t : string) : bool :=
  match t with
  | EmptyString => false
  | String c _ => is_hash_or_amp c
  end.

(** [VALID_CHANNEL_NAME] *)
Definition VALID_CHANNEL_NAME (t : string) : bool :=
  negb (strlen t =? 0) && IS_CHANNEL_NAME t.

Definition isalnum (c : ascii) : bool :=
  let n := N_of_ascii c in
  ((48 <=? n) && (n <=? 57) || (65 <=? n) && (n <=? 90)
   || (97 <=? n) && (n <=? 122))%N.

(** [valid_channame]; [first] is [!i]. *)
Fixpoint valid_channame_from (first : bool) (t : string) : bool :=
  match t with
  | EmptyString => true
  | String c rest =>
    if negb (isalnum c) && negb (first && is_hash_or_amp c)
       && negb (Ascii.eqb c "-")
    then false
    else valid_channame_from false rest
  end.

Definition valid_channame (t : string) : bool := valid_channame_from true t.

(** ** Fan-out *)

(** Whether [__channel_broadcast] skips a member. *)
Definition skipped (exclude : option Z) (minmode : Z) (member : irc_member) : bool :=
  match exclude with
  | Some u => u =? m_user member
  | None => false
  end
  || (negb (minmode =? 0) && (authorized_atleast member minmode =? 0)).

(** [__channel_broadcast(lock, channel, user, minmode, fmt, ...)]; the
    members lock of the channel is not modelled. *)
Definition channel_broadcast (ch : irc_channel) (exclude : option Z)
    (minmode : Z) (m : irc_msg) : I Z :=
  for_each (members ch)
    (fun member =>
       if skipped exclude minmode member then ret tt
       else
         lock_user (m_user member) ;;
         emit (EvSend (m_user member) m) ;;
         unlock_user (m_user member)) ;;
  (if fp ch then emit (EvLogLine (name ch) m) else ret tt) ;;
  (if forallb (skipped exclude minmode) (members ch)
      && match exclude with None => true | Some _ => false end
   then emit (EvWarning "Message was broadcast to 0 users in channel")
   else ret tt) ;;
  ret 0.

(** ** PRIVMSG and NOTICE *)

(** [privmsg(user, channame, notice, message)]; [now] is [time(NULL)]. *)
Definition privmsg (user : Z) (channame : string) (notice : bool)
    (message : string) (now : Z) : I Z :=
  user_setactive user now ;;
  if strlen message =? 0 then
    send_numeric user 412 "No text to send" ;; return_ (-1)
  else if strlen message >=? 510 then
    send_numeric user 416 "Input too large" ;; return_ (-1)
  else if negb (IS_CHANNEL_NAME channame) then
    st <- get ;;
    match get_user channame st with
    | None => send_numeric user 401 "No such nick/channel" ;; return_ (-1)
    | Some user2 =>
      lock_user user2 ;;
      emit (EvSend user2 (MsgPrivmsg notice user (nickname (user_at st user2)) message)) ;;
      unlock_user user2 ;;
      (if away (user_at st user2)
       then send_numeric user 301 (awaymsg (user_at st user2))
       else ret tt) ;;
      return_ 0
    end
  else
    st <- get ;;
    match find_channel channame (channels st) with
    | None => send_numeric user 403 "No such channel" ;; return_ (-1)
    | Some channel =>
      let m := find_member user (members channel) in
      if match m with None => true | Some _ => false end
         && has (cmodes channel) CHANNEL_MODE_NO_EXTERNAL
      then send_numeric user 442 "You're not on that channel" ;; return_ (-1)
      else
        minmode <-
          (if has (cmodes channel) CHANNEL_MODE_MODERATED then
             match m with
             | None => stop_ NullDeref       (* authorized_atleast(NULL, ...) *)
             | Some mm =>
               if authorized_atleast mm CHANNEL_USER_MODE_VOICE =? 0 then
                 if has (cmodes channel) CHANNEL_MODE_REDUCED_MODERATION
                 then ret CHANNEL_USER_MODE_HALFOP
                 else
                   send_numeric user 489
                     "You're neither voiced nor a channel operator" ;;
                   return_ (-1)
               else ret CHANNEL_USER_MODE_NONE
             end
           else ret CHANNEL_USER_MODE_NONE) ;;
        channel_broadcast channel (Some user) minmode
          (MsgPrivmsg notice user (name channel) message) ;;
        return_ 0
    end.

(** ** JOIN *)

(** [channel_print_topic] with a user to answer to. *)
Definition channel_print_topic (user : Z) (ch : irc_channel) : I unit :=
  match topic ch with
  | Some t => send_numeric user 332 t ;; send_numeric user 333 (name ch)
  | None => send_numeric user 331 "No topic is set"
  end.

(** The loop of [send_channel_members]: [buf] holds the names since the
    last line was sent, [len] their length. *)
Fixpoint names_loop (user : Z) (st : irc_state) (ms : list irc_member)
    (buf : string) (len : Z) : I (string * Z) :=
  match ms with
  | [] => ret (buf, len)
  | member :: rest =>
    let sep := if len =? 0 then ""%string else " "%string in
    let kept := if len =? 0 then ""%string else buf in
    let piece := (sep ++ top_channel_membership_prefix member
                      ++ nickname (user_at st (m_user member)))%string in
    let buf' := (kept ++ piece)%string in
    let len' := len + strlen piece in
    if len' >=? 400 then
      send_numeric user 353 buf' ;; names_loop user st rest buf' 0
    else names_loop user st rest buf' len'
  end.

(** [send_channel_members] *)
Definition send_channel_members (user : Z) (ch : irc_channel) : I Z :=
  st <- get ;;
  last <- names_loop user st (members ch) "" 0 ;;
  (if 0 <? snd last then send_numeric user 353 (fst last) else ret tt) ;;
  send_numeric user 366 "End of /NAMES list." ;;
  ret 0.

(** The channel [join_channel] creates. *)
Definition new_channel (nm : string) (creator : irc_user) (logfile : bool) : irc_channel :=
  mk_channel nm 0 None []
    (Z.lor (Z.lor CHANNEL_MODE_NO_EXTERNAL CHANNEL_MODE_TOPIC_PROTECTED)
       (if registered creator then CHANNEL_MODE_REGISTERED_ONLY else CHANNEL_MODE_NONE))
    0 logfile.

(** The member [join_channel] adds. *)
Definition new_member (user : Z) (u : irc_user) (newchan : bool) : irc_member :=
  mk_member user
    (if newchan then
       Z.lor CHANNEL_USER_MODE_OP
         (if node_user_id u =? 1 then CHANNEL_USER_MODE_FOUNDER
          else CHANNEL_USER_MODE_NONE)
     else CHANNEL_USER_MODE_NONE).

(** The checks [join_channel] makes on a channel that exists; a failed
    check unlocks, answers and returns -1. *)
Definition join_checks (user : Z) (u : irc_user) (ch : irc_channel) : I unit :=
  if has (cmodes ch) CHANNEL_MODE_TLS_ONLY && negb (has (umodes u) USER_MODE_SECURE) then
    unlock_channels ;;
    send_numeric user 477 "Cannot join channel (+S) - you need to use a secure connection" ;;
    return_ (-1)
  else if has (cmodes ch) CHANNEL_MODE_REGISTERED_ONLY && negb (registered u) then
    unlock_channels ;;
    send_numeric user 477 "Cannot join channel (+r) - you need to be logged into your account" ;;
    return_ (-1)
  else if has (cmodes ch) CHANNEL_MODE_LIMIT && negb (limit ch =? 0)
          && (membercount ch >=? limit ch) then
    unlock_channels ;;
    send_numeric user 471 "Cannot join channel (+l) - channel is full, try again later" ;;
    return_ (-1)
  else ret tt.

(** [join_channel(user, name)]. [logfile] tells whether a log file gets
    attached to a channel that is created ([log_channels] is set and
    [fopen] succeeds); both allocations are taken to succeed. *)
Definition join_channel (user : Z) (nm : string) (now : Z) (logfile : bool) : I Z :=
  if negb (VALID_CHANNEL_NAME nm) || (strlen nm >? MAX_CHANNEL_LENGTH)
     || negb (valid_channame nm) then
    send_numeric user 479 "Illegal channel name" ;; return_ 0
  else
    u <- gets (fun st => user_at st user) ;;
    if channelcount u >? MAX_CHANNELS then
      send_numeric user 405 "You have joined too many channels" ;; return_ 0
    else
      wrlock_channels ;;
      st <- get ;;
      found <-
        match find_channel nm (channels st) with
        | None =>
          let ch := new_channel nm u logfile in
          set_channels (ch :: channels st) ;; ret (true, ch)
        | Some ch => join_checks user u ch ;; ret (false, ch)
        end ;;
      let '(newchan, ch) := found in
      if is_member user ch then
        send_numeric user 714 "You're already on that channel" ;;
        unlock_channels ;;
        return_ (-1)
      else
        let member := new_member user u newchan in
        let ch' := with_members (member :: members ch)
                     (wrap_uint (membercount ch + 1)) ch in
        st1 <- get ;;
        set_channels (put_channel ch' (channels st1)) ;;
        update_user user (fun x => set_channelcount (wrap_int (channelcount x + 1)) x) ;;
        unlock_channels ;;
        user_setactive user now ;;
        channel_broadcast ch' None 0 (MsgJoin user (name ch')) ;;
        (match topic ch' with
         | Some _ => channel_print_topic user ch'
         | None => ret tt
         end) ;;
        send_channel_members user ch' ;;
        (match get_channel_user_modes member with
         | Some modestr =>
           channel_broadcast ch' None 0 (MsgMode (name ch') modestr user) ;; ret tt
         | None => ret tt
         end) ;;
        return_ 0.

(** ** PART, QUIT, KICK *)

(** [channel_free] asserts that no member is left. *)
Definition channel_free (ch : irc_channel) : I unit :=
  if membercount ch =? 0 then ret tt else stop_ AssertFailed.

(** [remove_channel(channel)]: "must be called with WRLOCK on channels". *)
Definition remove_channel (ch : irc_channel) : I Z :=
  st <- get ;;
  match find_channel (name ch) (channels st) with
  | Some _ =>
    set_channels (drop_channel (name ch) (channels st)) ;;
    channel_free ch ;;
    ret 0
  | None => ret (-1)
  end.

(** [if (RWLIST_EMPTY(&channel->members)) remove_channel(channel);] *)
Definition remove_if_empty (ch : irc_channel) : I unit :=
  match members ch with
  | [] => remove_channel ch ;; ret tt
  | _ :: _ => ret tt
  end.

(** [leave_channel(user, name)] *)
Definition leave_channel (user : Z) (nm : string) (now : Z) : I Z :=
  user_setactive user now ;;
  wrlock_channels ;;
  st <- get ;;
  match find_channel nm (channels st) with
  | None =>
    unlock_channels ;;
    send_numeric user 403 "No such channel" ;;
    return_ (-1)
  | Some ch =>
    ch' <-
      (if is_member user ch then
         channel_broadcast ch None 0 (MsgPart user (name ch)) ;;
         let ch' := with_members (drop_member user (members ch))
                      (wrap_uint (membercount ch - 1)) ch in
         st1 <- get ;;
         set_channels (put_channel ch' (channels st1)) ;;
         update_user user (fun x => set_channelcount (wrap_int (channelcount x - 1)) x) ;;
         ret ch'
       else ret ch) ;;
    remove_if_empty ch' ;;
    unlock_channels ;;
    if is_member user ch then return_ 0
    else send_numeric user 442 "You're not on that channel" ;; return_ (-1)
  end.

(** [drop_member_if_present(channel, user, message)] *)
Definition drop_member_if_present (ch : irc_channel) (user : Z) (why : reason) : I unit :=
  ch' <-
    (if is_member user ch then
       let ch' := with_members (drop_member user (members ch))
                    (wrap_uint (membercount ch - 1)) ch in
       st1 <- get ;;
       set_channels (put_channel ch' (channels st1)) ;;
       update_user user (fun x => set_channelcount (wrap_int (channelcount x - 1)) x) ;;
       channel_broadcast ch' (Some user) 0 (MsgQuit user (name ch) why) ;;
       ret ch'
     else ret ch) ;;
  remove_if_empty ch'.

(** [kick_member(channel, kicker, kicked, message)] *)
Definition kick_member (ch : irc_channel) (kicker kicked : Z) (why : string) : I unit :=
  ch' <-
    (if is_member kicked ch then
       let ch' := with_members (drop_member kicked (members ch))
                    (wrap_uint (membercount ch - 1)) ch in
       st1 <- get ;;
       set_channels (put_channel ch' (channels st1)) ;;
       channel_broadcast ch' None 0 (MsgKick kicker kicked (name ch) why) ;;
       ret ch'
     else ret ch) ;;
  remove_if_empty ch'.

(** [leave_all_channels(user, message)]: the safe traversal visits the
    channels that were in the list when it started. *)
Definition leave_all_channels (user : Z) (why : reason) : I Z :=
  wrlock_channels ;;
  st <- get ;;
  for_each (channels st) (fun ch => drop_member_if_present ch user why) ;;
  unlock_channels ;;
  ret 0.

(** [get_member_by_channel_name] *)
Definition get_member_by_channel_name (user : Z) (channame : string)
    (st : irc_state) : option irc_member :=
  match find_channel channame (channels st) with
  | None => None
  | Some ch => find_member user (members ch)
  end.

(** [get_member_by_username] *)
Definition get_member_by_username (nm channame : string) (st : irc_state)
  : option irc_member :=
  match get_user nm st with
  | None => None
  | Some u => get_member_by_channel_name u channame st
  end.

(** The KICK command of [handle_client], once both parameters are there. *)
Definition handle_kick (user : Z) (channame kickusername why : string) : I Z :=
  st <- get ;;
  match get_member_by_channel_name user channame st with
  | None => send_numeric user 482 "You're not a channel operator" ;; ret 0
  | Some member =>
    if authorized_atleast member CHANNEL_USER_MODE_HALFOP =? 0 then
      send_numeric user 482 "You're not a channel operator" ;; ret 0
    else
      match find_channel channame (channels st) with
      | None => send_numeric user 403 "No such channel" ;; ret 0
      | Some kickchan =>
        match get_member_by_username kickusername (name kickchan) st with
        | None => send_numeric user 401 "No such nick/channel" ;; ret 0
        | Some kickuser =>
          kick_member kickchan user (m_user kickuser) why ;; ret 0
        end
      end
  end.

(** ** The ping thread *)

(** One pass of the loop of [ping_thread] over one user. *)
Definition ping_user (now : Z) (user : Z) : I unit :=
  lock_user user ;;
  u <- gets (fun st => user_at st user) ;;
  (if negb (lastping u =? 0) && (lastpong u <? wrap_int (now - PING_TIME)) then
     call (leave_all_channels user (PingTimeout (wrap_int (now - lastpong u)))) ;;
     send_reply user (MsgError "Connection timeout") ;;
     emit (EvShutdown (node_fd u))
   else
     emit (EvSend user (MsgPing now)) ;;
     update_user user (set_lastping now)) ;;
  unlock_user user.

(** What [ping_thread] does each time it wakes. *)
Definition ping_pass (now : Z) : I unit :=
  st <- get ;;
  for_each (users st) (ping_user now).

(** ** States and runs *)

(** The thread is between two commands: it holds no lock. *)
Definition idle (st : irc_state) : Prop :=
  held st = [] /\ channels_wrlocked st = false.

Definition add_sent (ev : list event) (st : irc_state) : irc_state :=
  mk_state (user_at st) (users st) (channels st) (channels_wrlocked st)
    (observed st) (held st) (sent st ++ ev).

(** [user_setactive] on a state where it can take the mutex. *)
Definition touch (u : Z) (now : Z) (st : irc_state) : irc_state :=
  mk_state (fun k => if k =? u then set_lastactive now (user_at st k) else user_at st k)
    (users st) (channels st) (channels_wrlocked st) (observed st) (held st) (sent st).

(** What [set_channels] leaves. *)
Definition store_channels (l : list irc_channel) (st : irc_state) : irc_state :=
  mk_state (user_at st) (users st) l (channels_wrlocked st)
    (if channels_wrlocked st then observed st else observed st ++ [l])
    (held st) (sent st).

(** What [update_user] leaves. *)
Definition store_user (u : Z) (f : irc_user -> irc_user) (st : irc_state) : irc_state :=
  mk_state (fun k => if k =? u then f (user_at st k) else user_at st k)
    (users st) (channels st) (channels_wrlocked st) (observed st) (held st) (sent st).

(** [c] only writes to clients: with no user mutex held it goes on, and
    nothing but [sent] has changed. *)
Definition quiet {A : Type} (c : I A) : Prop :=
  forall st, held st = [] -> exists a ev, c st = (Next a, add_sent ev st).

(** The function [c], called in [st], returns in [st']. *)
Definition completes (c : I Z) (st st' : irc_state) : Prop :=
  exists r, call c st = (Next r, st').

Definition b2z (b : bool) : Z := if b then 1 else 0.

(** In how many channels of a list the user is. *)
Definition count_in (u : Z) (l : list irc_channel) : Z :=
  Z.of_nat (length (filter (is_member u) l)).

(** In how many channels the user is. *)
Definition memberships (u : Z) (st : irc_state) : Z :=
  count_in u (channels st).

(** The channel after the user has been taken out of it. *)
Definition without_member (u : Z) (ch : irc_channel) : irc_channel :=
  with_members (drop_member u (members ch)) (wrap_uint (membercount ch - 1)) ch.

(** The list after the user has been taken out of a channel: the
    channel goes when that was its last member. *)
Definition channels_without (u : Z) (ch : irc_channel) (l : list irc_channel)
  : list irc_channel :=
  match members (without_member u ch) with
  | [] => drop_channel (name ch) (put_channel (without_member u ch) l)
  | _ :: _ => put_channel (without_member u ch) l
  end.

(** The channel after a member has been added. *)
Definition with_member (m : irc_member) (ch : irc_channel) : irc_channel :=
  with_members (m :: members ch) (wrap_uint (membercount ch + 1)) ch.

(** [channelcount] as the user structure has it. *)
Definition counted (u : Z) (st : irc_state) : Z := channelcount (user_at st u).

(** A channel as the list may show it. *)
Record chan_ok (ch : irc_channel) : Prop := mk_chan_ok {
  ok_nonempty : members ch <> [];
  ok_count : membercount ch = wrap_uint (Z.of_nat (length (members ch)));
  ok_distinct : NoDup (map m_user (members ch))
}.

Record state_ok (st : irc_state) : Prop := mk_state_ok {
  ok_channels : Forall chan_ok (channels st);
  ok_names : NoDup (map name (channels st));
  ok_counted : forall u, 0 <= memberships u st <= counted u st /\ counted u st <= MAX_CHANNELS + 1;
  ok_idle : idle st
}.

(** A rejected command changes neither the channels nor the counts. *)
Definition untouched (st st' : irc_state) : Prop :=
  channels st' = channels st /\
  (forall k, counted k st' = counted k st) /\
  (observed st' = observed st \/ observed st' = observed st ++ [channels st]).

(** By how much the count of the user exceeds the channels he is in. *)
Definition excess (u : Z) (st : irc_state) : Z := counted u st - memberships u st.

(** One command that changes memberships: JOIN, PART, QUIT, or a kick
    from a channel that is in the list. *)
Inductive step : irc_state -> irc_state -> Prop :=
| step_join user nm now logfile st st' :
    completes (join_channel user nm now logfile) st st' -> step st st'
| step_part user nm now st st' :
    completes (leave_channel user nm now) st st' -> step st st'
| step_quit user why st st' :
    completes (leave_all_channels user why) st st' -> step st st'
| step_kick ch kicker kicked why st st' :
    In ch (channels st) ->
    completes (kick_member ch kicker kicked why ;; ret 0) st st' -> step st st'.

Inductive steps : irc_state -> irc_state -> Prop :=
| steps_refl st : steps st st
| steps_step st st' st'' : steps st st' -> step st' st'' -> steps st st''.

(** The server before anyone joined anything. *)
Definition fresh (st : irc_state) : Prop :=
  channels st = [] /\ (forall u, counted u st = 0) /\ idle st.

(** ** Sample users and states *)

Definition sample_user (nm : string) (uid : Z) : irc_user :=
  mk_irc_user 0 nm nm USER_MODE_NONE 0 0 0 false "" true uid (100 + uid).

(** Three users: alice (the sysop) at address 1, bob at 2, carol at 3. *)
Definition sample_users (k : Z) : irc_user :=
  if k =? 1 then sample_user "alice" 1
  else if k =? 2 then sample_user "bob" 2
  else sample_user "carol" 3.

Definition sample_start : irc_state :=
  mk_state sample_users [1; 2; 3] [] false [] [] [].

(** The state a function leaves, whether it returned or not. *)
Definition after (c : I Z) (st : irc_state) : irc_state := snd (call c st).

(** alice creates #room, bob joins. *)
Definition room_state : irc_state :=
  after (join_channel 2 "#room" 11 false)
    (after (join_channel 1 "#room" 10 false) sample_start).

(** alice alone in #solo. *)
Definition solo_state : irc_state :=
  after (join_channel 1 "#solo" 10 false) sample_start.

(** #solo as the list has it. *)
Definition solo_channel : irc_channel :=
  hd (new_channel "#solo" (sample_user "alice" 1) false) (channels solo_state).

(** alice, the only member and operator of #solo, has sent
    KICK #solo alice :bye. *)
Definition solo_kicked_state : irc_state :=
  after (handle_kick 1 "#solo" "alice" "bye") solo_state.

(** #room as bob, its second member, finds it. *)
Definition room_channel : irc_channel :=
  hd (new_channel "#room" (sample_user "alice" 1) false) (channels room_state).

(** alice has kicked bob out of #room. *)
Definition room_kicked_state : irc_state :=
  after (kick_member room_channel 1 2 "out" ;; ret 0) room_state.

(** alice creates #solo and kicks herself out of it, [n] times. *)
Fixpoint join_and_kick (n : nat) (st : irc_state) : irc_state :=
  match n with
  | O => st
  | S k =>
    after (handle_kick 1 "#solo" "alice" "bye")
      (after (join_channel 1 "#solo" 10 false) (join_and_kick k st))
  end.

(** #room with alice as its operator, after she has sent MODE #room -n
    and MODE #room +m: moderated, and open to messages from outside. *)
Definition moderated_room : irc_channel :=
  mk_channel "#room" 1 None
    [mk_member 1 (Z.lor CHANNEL_USER_MODE_OP CHANNEL_USER_MODE_FOUNDER)]
    (Z.lor CHANNEL_MODE_TOPIC_PROTECTED CHANNEL_MODE_MODERATED) 0 false.

Definition moderated_state : irc_state :=
  mk_state
    (fun k => if k =? 1 then set_channelcount 1 (sample_user "alice" 1)
              else sample_users k)
    [1; 2; 3] [moderated_room] false [[moderated_room]] [] [].

(** ** What readers and clients get to see *)

(** Every content of the list that was visible held channels with
    members only. *)
Definition seen_ok (st : irc_state) : Prop :=
  Forall (Forall chan_ok) (observed st).

(** A command that holds the write lock of [channels] while it changes
    the list: JOIN, PART or QUIT. *)
Inductive locked_step : irc_state -> irc_state -> Prop :=
| locked_join user nm now logfile st st' :
    completes (join_channel user nm now logfile) st st' -> locked_step st st'
| locked_part user nm now st st' :
    completes (leave_channel user nm now) st st' -> locked_step st st'
| locked_quit user why st st' :
    completes (leave_all_channels user why) st st' -> locked_step st st'.

(** The members a broadcast writes to. *)
Definition recipients (exclude : option Z) (minmode : Z) (ch : irc_channel) : list Z :=
  map m_user (filter (fun m => negb (skipped exclude minmode m)) (members ch)).

(** What a broadcast writes: to the members, to the log file of the
    channel, and a warning when nobody was there to be written to. *)
Definition broadcast_events (ch : irc_channel) (exclude : option Z) (minmode : Z)
    (m : irc_msg) : list event :=
  map (fun u => EvSend u m) (recipients exclude minmode ch)
  ++ (if fp ch then [EvLogLine (name ch) m] else [])
  ++ (if forallb (skipped exclude minmode) (members ch)
         && match exclude with None => true | Some _ => false end
      then [EvWarning "Message was broadcast to 0 users in channel"]
      else []).

(** [privmsg] has turned the message away with a numeric, and has
    written nothing else. *)
Definition rejected (user now : Z) (st : irc_state) (n : Z) (t : string)
  : flow Z * irc_state :=
  (Return (-1), add_sent [EvSend user (Numeric n t)] (touch user now st)).

(** ** The ping pass, as far as it pings *)

(** What the pass leaves at a user it pings. *)
Definition pinged (now : Z) (st : irc_state) (user : Z) : irc_state :=
  store_user user (set_lastping now) (add_sent [EvSend user (MsgPing now)] st).

(** The pass as the words have it, with the interval in the unit of the
    time stamps: a user whose last PONG is older than now minus the
    interval has the connection closed, every other user is pinged. *)
Definition ping_contract_as_worded (interval : Z) : Prop :=
  forall now st user,
    state_ok st -> In user (users st) -> 0 <= now <= INT_MAX ->
    let st' := snd (ping_user now user st) in
    if lastpong (user_at st user) <? now - interval
    then In (EvShutdown (node_fd (user_at st user))) (sent st')
    else In (EvSend user (MsgPing now)) (sent st') /\
         lastping (user_at st' user) = now.

(** bob has been pinged at 1000 and has not answered since. *)
Definition silent_state : irc_state :=
  mk_state
    (fun k => if k =? 2 then set_lastping 1000 (sample_user "bob" 2)
              else sample_users k)
    [1; 2; 3] [] false [] [] [].

End Irc.

(* ================================================================== *)
(** * nets/net_irc.c: SASL PLAIN *)
(* ================================================================== *)

Module Sasl.
Import CInt CMonad.
Local Open Scope cfun_scope.

(** What [do_sasl_auth] does to the outside, in order. [CFree] carries
    what the block held when it was given back. *)
Inductive call : Type :=
| CWarning (what : string)                          (* bbs_warning *)
| CStrdup (bytes : list Z)                          (* strdup *)
| CAuthenticate (username password : list Z) (r : Z) (* bbs_authenticate *)
| CFree (contents : list Z)                         (* free(decoded) *)
| CNumeric (n : Z) (text : string).                 (* send_numeric *)

(** What the function sees of [struct irc_user]. *)
Record sasl_state : Type := mk_sasl {
  nickname : list Z;             (* user->nickname *)
  username : option (list Z);    (* user->username *)
  calls : list call
}.

Definition S (A : Type) : Type := M sasl_state A.

Definition log (c : call) : S unit :=
  modify (fun st => mk_sasl (nickname st) (username st) (calls st ++ [c])).

Definition set_username (u : list Z) : S unit :=
  modify (fun st => mk_sasl (nickname st) (Some u) (calls st)).

(** The C string that starts at the head of a piece of memory. *)
Fixpoint c_string (mem : list Z) : list Z :=
  match mem with
  | [] => []
  | c :: rest => if c =? 0 then [] else c :: c_string rest
  end.

(** The C string at [p + off]. *)
Definition string_at (off : Z) (mem : list Z) : list Z :=
  c_string (skipn (Z.to_nat off) mem).

Definition strlen (t : list Z) : Z := Z.of_nat (length t).

(** [memset(p, c, n)] on a block. *)
Definition memset (block : list Z) (c : Z) (n : Z) : list Z :=
  repeat c (Nat.min (Z.to_nat n) (length block)) ++ skipn (Z.to_nat n) block.

(** [STARTS_WITH] *)
Definition STARTS_WITH (s p : string) : bool := String.prefix p s.

(** [STRLEN("AUTHENTICATE ")] *)
Definition AUTHENTICATE_LEN : nat := 13.

(** [s + STRLEN("AUTHENTICATE ")] *)
Definition encoded (s : string) : string :=
  substring AUTHENTICATE_LEN (String.length s - AUTHENTICATE_LEN) s.

Section DoSaslAuth.

(** [base64_decode] is outside the translated files: it gives the block
    it allocated, of the length it stores in [outlen], or no block.
    [beyond] is what lies behind the block in memory, where a string
    without terminator runs on. [authenticate] is the verdict of
    [bbs_authenticate] on a user name and a password. *)
Variable base64_decode : string -> option (list Z).
Variable beyond : list Z.
Variable authenticate : list Z -> list Z -> Z.

(** [do_sasl_auth(user, s)] *)
Definition do_sasl_auth (s : string) : S Z :=
  if negb (STARTS_WITH s "AUTHENTICATE ") then
    log (CWarning "Unhandled message") ;; return_ (-1)
  else
    match base64_decode (encoded s) with
    | None => return_ (-1)
    | Some decoded =>
      let outlen := Z.of_nat (length decoded) in
      let mem := decoded ++ beyond in
      let nick := string_at 0 mem in
      let runlen := wrap_int (0 + (strlen nick + 1)) in
      if runlen >=? outlen then
        log (CWarning "No data after nickname?") ;;
        log (CFree decoded) ;;
        return_ (-1)
      else
        let uname := string_at runlen mem in
        let runlen' := wrap_int (runlen + (strlen uname + 1)) in
        if runlen' >=? outlen then
          log (CWarning "No data after username?") ;;
          log (CFree decoded) ;;
          return_ (-1)
        else
          let password := string_at runlen' mem in
          st <- get ;;
          if negb (if list_eq_dec Z.eq_dec nick (nickname st) then true else false) then
            log (CWarning "Nickname received does not match initial nick") ;;
            log (CFree decoded) ;;
            return_ (-1)
          else
            log (CStrdup uname) ;;
            set_username uname ;;
            let res := authenticate uname password in
            log (CAuthenticate uname password res) ;;
            let decoded' := memset decoded 0 outlen in
            log (CFree decoded') ;;
            if negb (res =? 0) then
              log (CNumeric 904 "SASL authentication failed") ;;
              return_ (-1)
            else
              log (CNumeric 903 "SASL authentication successful") ;;
              log (CNumeric 900 "You are now logged in") ;;
              return_ 0
    end.

End DoSaslAuth.

(** The function went past the comparison of the nicknames: it is only
    then that it asks [bbs_authenticate]. *)
Definition asked (cs : list call) : bool :=
  existsb (fun c => match c with CAuthenticate _ _ _ => true | _ => false end) cs.

(** The blocks that were given back. *)
Definition freed (cs : list call) : list (list Z) :=
  flat_map (fun c => match c with CFree b => [b] | _ => [] end) cs.

(** A client that has sent NICK alice. *)
Definition start (nick : list Z) : sasl_state := mk_sasl nick None [].

Definition bytes_of (t : string) : list Z :=
  map (fun c => Z.of_N (N_of_ascii c)) (list_ascii_of_string t).

(** alice NUL alice NUL secret *)
Definition plain_alice : list Z :=
  bytes_of "alice" ++ [0] ++ bytes_of "alice" ++ [0] ++ bytes_of "secret".

End Sasl.

(* ================================================================== *)
(** * nets/net_ssh.c: SFTP READ *)
(* ================================================================== *)

Module Sftp.
Import CInt.

Definition TYPE_DIR : Z := 0.
Definition TYPE_FILE : Z := 1.

(** The status codes of libssh that the function uses, by name. *)
Inductive sftp_status : Type :=
| SSH_FX_EOF
| SSH_FX_NO_SUCH_FILE
| SSH_FX_PERMISSION_DENIED
| SSH_FX_FAILURE
| SSH_FX_BAD_MESSAGE
| SSH_FX_INVALID_HANDLE
| SSH_FX_FILE_ALREADY_EXISTS.

Inductive errno : Type := EPERM | EACCES | ENOENT | ENOTDIR | EEXIST | EIO.

(** An open [FILE]: what the file holds, why reading it fails when it
    does, and the largest offset the file system takes for the file. *)
Record stream : Type := mk_stream {
  contents : list Z;
  read_error : option errno;
  seek_max : Z
}.

(** [struct sftp_info] *)
Record sftp_info : Type := mk_info {
  info_type : Z;           (* unsigned int type:1 *)
  file : stream
}.

(** What [handle_read] reads of the message; [handle] is what
    [sftp_handle(msg->sftp, msg->handle)] finds. *)
Record sftp_client_message : Type := mk_msg {
  len : Z;                 (* uint32_t *)
  offset : Z;              (* uint64_t *)
  handle : option sftp_info
}.

Inductive event : Type :=
| EvReplyStatus (status : sftp_status) (text : option string)
| EvReplyData (data : list Z) (n : Z)
| EvMalloc (size : Z)
| EvFree
| EvError (what : string).

(** [handle_errno] *)
Definition handle_errno (e : errno) : list event :=
  match e with
  | EPERM | EACCES => [EvReplyStatus SSH_FX_PERMISSION_DENIED (Some "Permission denied"%string)]
  | ENOENT => [EvReplyStatus SSH_FX_NO_SUCH_FILE (Some "No such file or directory"%string)]
  | ENOTDIR => [EvReplyStatus SSH_FX_FAILURE (Some "Not a directory"%string)]
  | EEXIST => [EvReplyStatus SSH_FX_FILE_ALREADY_EXISTS (Some "File already exists"%string)]
  | EIO => [EvReplyStatus SSH_FX_FAILURE None]
  end.

(** [(off_t) msg->offset]: 64 bits, signed. *)
Definition to_off_t (z : Z) : Z :=
  (z + 9223372036854775808) mod 18446744073709551616 - 9223372036854775808.

(** The largest [off_t]. *)
Definition OFF_T_MAX : Z := 9223372036854775807.

(** The last place of the stream [fseeko] goes to: the bound of the
    file system, which is not before the end of the file, and is an
    [off_t]. *)
Definition seekable (f : stream) : Z :=
  Z.min OFF_T_MAX (Z.max (seek_max f) (Z.of_nat (length (contents f)))).

(** [fseeko(file, off, SEEK_SET)] of the C library: the new position.
    The call fails (EINVAL) on a negative offset and on one beyond
    what the file system takes. *)
Definition fseeko (f : stream) (off : Z) : option Z :=
  if (off <? 0) || (seekable f <? off) then None else Some off.

(** [fread(data, 1, n, file)] at a position: what was read. *)
Definition fread (f : stream) (pos : Z) (n : Z) : list Z :=
  match read_error f with
  | Some _ => []
  | None => firstn (Z.to_nat n) (skipn (Z.to_nat pos) (contents f))
  end.

(** [handle_read(msg)]; [alloc_ok] tells whether [malloc] succeeds. *)
Definition handle_read (alloc_ok : bool) (msg : sftp_client_message) : Z * list event :=
  let invalid := (-1, [EvReplyStatus SSH_FX_INVALID_HANDLE (Some "Invalid handle"%string)]) in
  match handle msg with
  | None => invalid
  | Some info =>
    if negb (info_type info =? TYPE_FILE) then invalid
    else if len msg <? 1 then
      (-1, [EvReplyStatus SSH_FX_BAD_MESSAGE (Some "Insufficient length"%string)])
    else
      let len' := if len msg >? Z.shiftl 2 15 then Z.shiftl 2 15 else len msg in
      if negb alloc_ok then
        (-1, [EvMalloc len';
              EvReplyStatus SSH_FX_BAD_MESSAGE (Some "Allocation failed"%string)])
      else
        match fseeko (file info) (to_off_t (offset msg)) with
        | None =>
          (-1, [EvMalloc len'; EvError "fseeko failed";
                EvReplyStatus SSH_FX_BAD_MESSAGE (Some "Offset failed"%string);
                EvFree])
        | Some pos =>
          let data := fread (file info) pos len' in
          let r := Z.of_nat (length data) in
          (0, [EvMalloc len']
              ++ (if r <=? 0 then
                    match read_error (file info) with
                    | None => [EvReplyStatus SSH_FX_EOF (Some "EOF"%string)]
                    | Some e => handle_errno e
                    end
                  else [EvReplyData data (wrap_int r)])
              ++ [EvFree])
        end
  end.

(** The size of the buffer the function asked [malloc] for. *)
Definition allocated (ev : list event) : option Z :=
  match ev with
  | EvMalloc n :: _ => Some n
  | _ => None
  end.

(** The bytes the function sent back. *)
Definition returned (ev : list event) : list Z :=
  flat_map (fun e => match e with EvReplyData d _ => d | _ => [] end) ev.

(** A file of 100000 bytes, open for reading, where offsets go up to
    16 TiB less one block. *)
Definition big_file : sftp_info :=
  mk_info TYPE_FILE (mk_stream (repeat 120 (Z.to_nat 100000)) None 17592186040320).

End Sftp.


(* ================================================================== *)
(** * bbs/node.c: counting, kicking, input translation, speed *)
(* ================================================================== *)

Module NodeOps.
Import CInt Node.

(** [bbs_node_mod_count(mod)] *)
Definition bbs_node_mod_count (md : Z) (st : registry) : Z :=
  fold_left (fun count n => if module n =? md then wrap_uint (count + 1) else count)
    (nodes st) 0.

(** [bbs_max_nodenum]: the traversal overwrites [maxnodenum] with the
    number of every node it passes. *)
Definition bbs_max_nodenum (st : registry) : Z :=
  fold_left (fun _ n => id n) (nodes st) 0.

(** [bbs_user_online(userid)] *)
Definition bbs_user_online (userid : Z) (st : registry) : Z :=
  match find (fun n => match user n with
                       | Some u => user_id u =? userid
                       | None => false
                       end) (nodes st) with
  | Some _ => 1
  | None => 0
  end.

(** The traversal of [bbs_node_shutdown_mod] up to its [break]: the first
    node of the module is taken out of the list. *)
Fixpoint remove_by_module (md : Z) (l : list bbs_node) : option bbs_node * list bbs_node :=
  match l with
  | [] => (None, [])
  | x :: rest =>
    if negb (module x =? md)
    then let '(r, rest') := remove_by_module md rest in (r, x :: rest')
    else (Some x, rest)
  end.

(** [bbs_node_shutdown_mod(mod)] *)
Definition bbs_node_shutdown_mod (now : Z) (md : Z) (st : registry)
  : Z * registry * list event :=
  match remove_by_module md (nodes st) with
  | (Some n, l) =>
    (1, with_nodes l st, snd (node_shutdown (shutting_down st) now n 0))
  | (None, l) => (0, with_nodes l st, [])
  end.

(** [cli_kick]: [node] is [atoi(a->argv[1])], [fdout] is [a->fdout]. *)
Definition cli_kick (fdout : Z) (node : Z) (now : Z) (st : registry)
  : Z * registry * list event :=
  if node <=? 0 then (-1, st, [EvWrite fdout "Invalid node"])
  else bbs_node_shutdown_node now (wrap_uint node) st.

(** [cli_kickall] *)
Definition cli_kickall (now : Z) (st : registry) : Z * registry * list event :=
  let '(st', ev) := bbs_node_shutdown_all now 0 st in (0, st', ev).

(** ** Input translation

    The part of [struct bbs_node] that the three functions touch: the
    table [ioreplace] of pairs (character read, character delivered),
    whose length is [ARRAY_LEN(node->ioreplace)] and in which a pair
    with first component 0 is free, and the counter [ioreplaces] (taken
    to be an [unsigned int]). Characters are [char] values. *)
Record io_node : Type := mk_io {
  ioreplace : list (Z * Z);
  ioreplaces : Z
}.

(** The first pair whose first component is [c]. *)
Fixpoint find_replace (c : Z) (t : list (Z * Z)) : option Z :=
  match t with
  | [] => None
  | (k, v) :: rest => if k =? c then Some v else find_replace c rest
  end.

(** [bbs_node_input_translate(node, c)] *)
Definition bbs_node_input_translate (n : io_node) (c : Z) : Z :=
  if negb (ioreplaces n =? 0) then
    match find_replace c (ioreplace n) with
    | Some v => v
    | None => c
    end
  else c.

(** Overwrite the first pair whose first component is [k]. *)
Fixpoint set_first (k : Z) (p : Z * Z) (t : list (Z * Z)) : list (Z * Z) :=
  match t with
  | [] => []
  | (k', v) :: rest => if k' =? k then p :: rest else (k', v) :: set_first k p rest
  end.

(** [bbs_node_input_replace(node, in, out)] *)
Definition bbs_node_input_replace (n : io_node) (c_in c_out : Z)
  : Z * io_node * list event :=
  match find_replace c_in (ioreplace n) with
  | Some _ => (-1, n, [EvError "Character is currently being replaced"])
  | None =>
    match find_replace 0 (ioreplace n) with
    | Some _ =>
      (0, mk_io (set_first 0 (c_in, c_out) (ioreplace n)) (wrap_uint (ioreplaces n + 1)),
       [])
    | None => (-1, n, [EvError "Character replacement table is full"])
    end
  end.

(** [bbs_node_input_unreplace(node, in)] *)
Definition bbs_node_input_unreplace (n : io_node) (c_in : Z)
  : Z * io_node * list event :=
  match find_replace c_in (ioreplace n) with
  | Some _ =>
    (0, mk_io (set_first c_in (0, 0) (ioreplace n)) (wrap_uint (ioreplaces n - 1)), [])
  | None => (-1, n, [EvError "Character is not currently being translated"])
  end.

(** The characters that are being replaced. *)
Definition replaced (n : io_node) : list Z :=
  filter (fun k => negb (k =? 0)) (map fst (ioreplace n)).

(** A table as the three functions leave it when no caller passes the
    character 0: free pairs are (0, 0), no character is entered twice,
    and the counter is the number of pairs in use. *)
Record io_ok (n : io_node) : Prop := mk_io_ok {
  io_free : forall v, In (0, v) (ioreplace n) -> v = 0;
  io_distinct : NoDup (replaced n);
  io_counter : ioreplaces n = Z.of_nat (length (replaced n));
  io_size : Z.of_nat (length (ioreplace n)) <= UINT_MAX
}.

(** A node fresh from [calloc], with a table of [size] pairs. *)
Definition io_fresh (size : nat) : io_node := mk_io (repeat (0, 0) size) 0.

(** ** Emulated speed *)

(** [bbs_node_set_speed(node, bps)]: the values stored in [node->bps]
    and [node->speed]; [None] when the function divides by zero. *)
Definition bbs_node_set_speed (bps : Z) : option (Z * Z) :=
  if bps =? 0 then Some (0, 0)
  else
    let cps := wrap_uint (bps + (8 - 1)) / 8 in
    if cps =? 0 then None
    else
      let pauseus := 1000000 / cps in
      Some (bps, pauseus).

End NodeOps.


(* ================================================================== *)
(** * bbs/node.c: what the login dialogue asks of the backend *)
(* ================================================================== *)

Module LoginOps.
Import CMonad Login.

(** A call of [bbs_authenticate]. *)
Definition is_authenticate (c : call) : bool :=
  match c with
  | CAuthenticate _ _ _ => true
  | _ => false
  end.

(** How often the backend has been asked. *)
Definition auth_calls (s : login_state) : nat :=
  length (filter is_authenticate (calls s)).

(** [s'] has seen as many calls of [bbs_authenticate] as [s]. *)
Definition same_auth_calls (s s' : login_state) : Prop :=
  auth_calls s' = auth_calls s.

(** The backend has been asked [n] times at most. *)
Definition asked_at_most (n : nat) (s : login_state) : Prop :=
  (auth_calls s <= n)%nat.

(** What [authenticate] promises about the value it returns. *)
Definition login_result (r : Z) (s : login_state) : Prop :=
  (r = 0 /\ logged_in s = true) \/ r = -1.

(** Whenever [c] makes the function return, [P] holds of the value
    returned and of the state. *)
Definition returns_with {A : Type} (P : Z -> login_state -> Prop) (c : M A) : Prop :=
  forall s,
    match c s with
    | (Return r, s') => P r s'
    | _ => True
    end.

End LoginOps.

(* ================================================================== *)
(** * nets/net_irc.c: the commands of a registered client *)
(* ================================================================== *)

(** The branches of [handle_client] for MODE, TOPIC, AWAY, PONG, PRIVMSG
    and NOTICE, over the state of [Irc]. The argument [s] of a command
    is what is left of the line after the command word: [None] is the
    null pointer [strsep] leaves when the line ends there. *)
Module IrcCommands.
Import CInt CMonad Irc.
Local Open Scope cfun_scope.

Definition MAX_TOPIC_LENGTH : Z := 390.
Definition MAX_AWAY_LEN : Z := 90.

(** ** The C library *)

(** The token up to the first [delim], and what follows that [delim]. *)
Fixpoint split_at (delim : ascii) (t : string) : string * option string :=
  match t with
  | EmptyString => (EmptyString, None)
  | String c rest =>
    if Ascii.eqb c delim then (EmptyString, Some rest)
    else let '(tok, after) := split_at delim rest in (String c tok, after)
  end.

(** [strsep(&s, delim)] with one delimiter: the token, and the new [s]. *)
Definition strsep (s : option string) (delim : ascii)
  : option string * option string :=
  match s with
  | None => (None, None)
  | Some t => let '(tok, after) := split_at delim t in (Some tok, after)
  end.

(** [if (s && *s == ':') s++;] *)
Definition skip_colon (s : option string) : option string :=
  match s with
  | Some (String ":" rest) => Some rest
  | _ => s
  end.

(** [strlen_zero] *)
Definition strlen_zero (s : option string) : bool :=
  match s with
  | None => true
  | Some t => strlen t =? 0
  end.

Definition isspace (c : ascii) : bool :=
  let n := N_of_ascii c in
  ((n =? 32) || (9 <=? n) && (n <=? 13))%N.

Definition digit_of (c : ascii) : option Z :=
  let n := N_of_ascii c in
  if ((48 <=? n) && (n <=? 57))%N then Some (Z.of_N n - 48) else None.

Fixpoint skip_spaces (t : string) : string :=
  match t with
  | String c rest => if isspace c then skip_spaces rest else t
  | EmptyString => t
  end.

Fixpoint digits (t : string) (acc : Z) : Z :=
  match t with
  | String c rest =>
    match digit_of c with
    | Some d => digits rest (10 * acc + d)
    | None => acc
    end
  | EmptyString => acc
  end.

(** The bounds of a [long] where it has 64 bits. *)
Definition LONG_MAX : Z := 9223372036854775807.
Definition LONG_MIN : Z := -9223372036854775808.

(** [strtol(t, NULL, 10)] of the C library: white space, a sign, decimal
    digits; 0 when there is no digit. A value that does not fit a [long]
    is replaced by the bound it went past. *)
Definition strtol (t : string) : Z :=
  let value :=
    match skip_spaces t with
    | String "-" rest => - digits rest 0
    | String "+" rest => digits rest 0
    | rest => digits rest 0
    end in
  Z.max LONG_MIN (Z.min LONG_MAX value).

(** [atoi(t)] of the C library is [(int) strtol(t, NULL, 10)]: the
    [long] is cut to its low 32 bits, so that a number past [LONG_MAX]
    gives -1. *)
Definition atoi (t : string) : Z := wrap_int (strtol t).

(** The word holds no blank: [strsep] takes it whole. *)
Fixpoint one_word (t : string) : bool :=
  match t with
  | EmptyString => true
  | String c rest => negb (Ascii.eqb c " ") && one_word rest
  end.

(** ** Writes to one field *)

Definition set_cmodes (v : Z) (ch : irc_channel) : irc_channel :=
  mk_channel (name ch) (membercount ch) (topic ch) (members ch) v (limit ch) (fp ch).

Definition set_limit (v : Z) (ch : irc_channel) : irc_channel :=
  mk_channel (name ch) (membercount ch) (topic ch) (members ch) (cmodes ch) v (fp ch).

Definition set_topic (t : option string) (ch : irc_channel) : irc_channel :=
  mk_channel (name ch) (membercount ch) t (members ch) (cmodes ch) (limit ch) (fp ch).

(** A write to [member->modes], for the first member with that user. *)
Fixpoint set_member_modes (u : Z) (v : Z) (ms : list irc_member) : list irc_member :=
  match ms with
  | [] => []
  | m :: rest =>
    if m_user m =? u then mk_member (m_user m) v :: rest
    else m :: set_member_modes u v rest
  end.

Definition set_umodes (v : Z) (u : irc_user) : irc_user :=
  mk_irc_user (channelcount u) (username u) (nickname u) v (lastactive u)
    (lastping u) (lastpong u) (away u) (awaymsg u) (registered u)
    (node_user_id u) (node_fd u).

Definition set_lastpong (v : Z) (u : irc_user) : irc_user :=
  mk_irc_user (channelcount u) (username u) (nickname u) (umodes u) (lastactive u)
    (lastping u) v (away u) (awaymsg u) (registered u)
    (node_user_id u) (node_fd u).

Definition set_away (a : bool) (msg : string) (u : irc_user) : irc_user :=
  mk_irc_user (channelcount u) (username u) (nickname u) (umodes u) (lastactive u)
    (lastping u) (lastpong u) a msg (registered u)
    (node_user_id u) (node_fd u).

(** ** MODE *)

(** [get_channel_modes]: the buffer of 16 bytes holds all ten letters. *)
Definition get_channel_modes (ch : irc_channel) : string :=
  if cmodes ch =? 0 then ""
  else
    let letter b c := if has (cmodes ch) b then c else ""%string in
    ("+" ++ letter CHANNEL_MODE_TLS_ONLY "S"
         ++ letter CHANNEL_MODE_THROTTLED "j"
         ++ letter CHANNEL_MODE_LIMIT "l"
         ++ letter CHANNEL_MODE_MODERATED "m"
         ++ letter CHANNEL_MODE_NO_EXTERNAL "n"
         ++ letter CHANNEL_MODE_PRIVATE "p"
         ++ letter CHANNEL_MODE_REGISTERED_ONLY "r"
         ++ letter CHANNEL_MODE_SECRET "s"
         ++ letter CHANNEL_MODE_TOPIC_PROTECTED "t"
         ++ letter CHANNEL_MODE_REDUCED_MODERATION "z")%string.

(** [get_user_modes] *)
Definition get_user_modes (u : irc_user) : string :=
  if umodes u =? 0 then ""
  else
    let letter b c := if has (umodes u) b then c else ""%string in
    ("+" ++ letter USER_MODE_INVISIBLE "i"
         ++ letter USER_MODE_OPERATOR "o"
         ++ letter USER_MODE_SECURE "Z")%string.

(** A MODE line is written as [MsgMode target modestr whom]: the channel
    or nickname the line is about, the mode string, and the user the
    line names: the member whose mode it gives or, where the line names
    nobody else, the user who asked. *)

(** [print_channel_mode] with a user to answer to. *)
Definition print_channel_mode (user : Z) (channel : option irc_channel) : I Z :=
  match channel with
  | None => send_numeric user 403 "No such channel" ;; ret (-1)
  | Some ch => send_reply user (MsgMode (name ch) (get_channel_modes ch) user) ;; ret 0
  end.

(** [print_user_mode] *)
Definition print_user_mode (user : Z) : I Z :=
  st <- get ;;
  send_reply user
    (MsgMode (nickname (user_at st user)) (get_user_modes (user_at st user)) user) ;;
  ret 0.

(** What [SET_MODE] writes to [modes], when it writes. *)
Definition set_mode (modes : Z) (set : bool) (mode : Z) : option Z :=
  if set && negb (has modes mode) then Some (Z.lor modes mode)
  else if negb set && has modes mode then Some (Z.land modes (Z.lnot mode))
  else None.

(** A sign and the letters after it. *)
Definition mode_change_sign (set : bool) (letters : string) : string :=
  String (if set then "+" else "-")%char letters.

(** The sign and the letter of one change. *)
Definition mode_change (set : bool) (mode : ascii) : string :=
  mode_change_sign set (String mode EmptyString).

(** [SET_MODE(channel->modes, set, mode)]; the value is [changed]. *)
Definition set_channel_mode (channel_name : string) (set : bool) (mode : Z)
    (changed : Z) : I Z :=
  st <- get ;;
  match find_channel channel_name (channels st) with
  | None => stop_ NullDeref
  | Some ch =>
    match set_mode (cmodes ch) set mode with
    | Some v =>
      set_channels (put_channel (set_cmodes v ch) (channels st)) ;;
      ret (wrap_int (changed + 1))
    | None => ret changed
    end
  end.

(** [SET_MODE(targetmember->modes, set, mode)]; the value is [changed]. *)
Definition set_target_mode (channel_name : string) (target : Z) (set : bool)
    (mode : Z) (changed : Z) : I Z :=
  st <- get ;;
  match find_channel channel_name (channels st) with
  | None => stop_ NullDeref
  | Some ch =>
    match find_member target (members ch) with
    | None => stop_ NullDeref
    | Some m =>
      match set_mode (m_modes m) set mode with
      | Some v =>
        set_channels
          (put_channel
             (with_members (set_member_modes target v (members ch)) (membercount ch) ch)
             (channels st)) ;;
        ret (wrap_int (changed + 1))
      | None => ret changed
      end
    end
  end.

(** [channel_broadcast(channel, NULL, ...)] on the channel as it is now. *)
Definition broadcast_mode (channel_name modestr : string) (whom : Z) : I unit :=
  st <- get ;;
  match find_channel channel_name (channels st) with
  | None => stop_ NullDeref
  | Some ch => channel_broadcast ch None 0 (MsgMode (name ch) modestr whom) ;; ret tt
  end.

(** What follows the [switch] for a channel. *)
Definition after_channel_mode (user : Z) (channel_name : string)
    (target : option string) (set : bool) (mode : ascii) (changed : Z) : I Z :=
  match target with
  | None =>
    if changed =? 0 then ret changed
    else broadcast_mode channel_name (mode_change set mode) user ;; ret changed
  | Some _ => ret changed
  end.

(** The cases ['o'], ['h'] and ['v'], and ['q'] and ['a'] once the
    founder has been found. *)
Definition member_mode (user : Z) (channel_name : string) (target : option string)
    (targetmember : option Z) (set : bool) (mode : ascii) (changed : Z) : I Z :=
  match target with
  | None => send_numeric user 461 "Not enough parameters" ;; ret changed
  | Some _ =>
    match targetmember with
    | None => send_numeric user 441 "They aren't on that channel" ;; ret changed
    | Some tu =>
      let bit :=
        if Ascii.eqb mode "q" then CHANNEL_USER_MODE_FOUNDER
        else if Ascii.eqb mode "a" then CHANNEL_USER_MODE_ADMIN
        else if Ascii.eqb mode "o" then CHANNEL_USER_MODE_OP
        else if Ascii.eqb mode "h" then CHANNEL_USER_MODE_HALFOP
        else CHANNEL_USER_MODE_VOICE in
      changed' <- set_target_mode channel_name tu set bit changed ;;
      (if changed' =? 0 then ret tt
       else broadcast_mode channel_name (mode_change set mode) tu) ;;
      after_channel_mode user channel_name target set mode changed'
    end
  end.

(** The cases that switch one mode of the channel. *)
Definition plain_mode (user : Z) (channel_name : string) (target : option string)
    (set : bool) (mode : ascii) (bit : Z) (changed : Z) : I Z :=
  changed' <- set_channel_mode channel_name set bit changed ;;
  after_channel_mode user channel_name target set mode changed'.

(** The cases ['q'] and ['a']: [MIN_MODE(member, CHANNEL_USER_MODE_FOUNDER,
    ...)], then as for ['o']. *)
Definition founder_mode (user : Z) (channel_name : string) (target : option string)
    (targetmember : option Z) (set : bool) (mode : ascii) (changed : Z) : I Z :=
  st <- get ;;
  match get_member_by_channel_name user channel_name st with
  | None => stop_ NullDeref
  | Some member =>
    if authorized_atleast member CHANNEL_USER_MODE_FOUNDER =? 0 then
      send_numeric user 482 "You're not a channel founder" ;; ret changed
    else member_mode user channel_name target targetmember set mode changed
  end.

(** The case ['l']. *)
Definition limit_mode (user : Z) (channel_name : string) (target : option string)
    (set : bool) (mode : ascii) (changed : Z) : I Z :=
  if set && strlen_zero target then
    send_numeric user 461 "Not enough parameters" ;; ret changed
  else
    changed' <- set_channel_mode channel_name set CHANNEL_MODE_LIMIT changed ;;
    st <- get ;;
    match find_channel channel_name (channels st) with
    | None => stop_ NullDeref
    | Some ch =>
      let v := if set
               then match target with
                    | Some t => wrap_uint (atoi t)
                    | None => 0
                    end
               else 0 in
      set_channels (put_channel (set_limit v ch) (channels st)) ;;
      after_channel_mode user channel_name target set mode changed'
    end.

(** The case ['j'] and the default. *)
Definition unknown_mode (user : Z) (channel_name : string) (target : option string)
    (set : bool) (mode : ascii) (changed : Z) : I Z :=
  emit (EvWarning "Unknown channel mode") ;;
  send_numeric user 472 "is an unknown mode char to me" ;;
  after_channel_mode user channel_name target set mode changed.

(** One letter of a mode string for a channel: the [switch];
    [targetmember] is the user of the member the target names. *)
Definition channel_mode (user : Z) (channel_name : string) (target : option string)
    (targetmember : option Z) (set : bool) (mode : ascii) (changed : Z) : I Z :=
  let plain := plain_mode user channel_name target set mode in
  match mode with
  | "S"%char => plain CHANNEL_MODE_TLS_ONLY changed
  | "q"%char => founder_mode user channel_name target targetmember set mode changed
  | "a"%char => founder_mode user channel_name target targetmember set mode changed
  | "o"%char => member_mode user channel_name target targetmember set mode changed
  | "h"%char => member_mode user channel_name target targetmember set mode changed
  | "v"%char => member_mode user channel_name target targetmember set mode changed
  | "l"%char => limit_mode user channel_name target set mode changed
  | "m"%char => plain CHANNEL_MODE_MODERATED changed
  | "n"%char => plain CHANNEL_MODE_NO_EXTERNAL changed
  | "p"%char => plain CHANNEL_MODE_PRIVATE changed
  | "r"%char => plain CHANNEL_MODE_REGISTERED_ONLY changed
  | "s"%char => plain CHANNEL_MODE_SECRET changed
  | "t"%char => plain CHANNEL_MODE_TOPIC_PROTECTED changed
  | "z"%char => plain CHANNEL_MODE_REDUCED_MODERATION changed
  | _ => unknown_mode user channel_name target set mode changed
  end.

(** [SET_MODE(user->modes, set, mode)]; the value is [changed]. *)
Definition set_user_mode (user : Z) (set : bool) (mode : Z) (changed : Z) : I Z :=
  st <- get ;;
  match set_mode (umodes (user_at st user)) set mode with
  | Some v => update_user user (set_umodes v) ;; ret (wrap_int (changed + 1))
  | None => ret changed
  end.

(** One letter of a mode string for the user himself: the [switch]. *)
Definition user_mode_switch (user : Z) (set : bool) (mode : ascii) (changed : Z) : I Z :=
  match mode with
  | "i"%char => set_user_mode user set USER_MODE_INVISIBLE changed
  | "o"%char =>
    st <- get ;;
    if node_user_id (user_at st user) =? 1
    then set_user_mode user set USER_MODE_OPERATOR changed
    else
      send_numeric user 491 "No appropriate operator blocks were found for your host" ;;
      ret changed
  | _ =>
    emit (EvWarning "Unknown user mode") ;;
    send_numeric user 472 "is an unknown mode char to me" ;;
    ret changed
  end.

(** The [switch] and what follows it. *)
Definition user_mode (user : Z) (set : bool) (mode : ascii) (changed : Z) : I Z :=
  changed' <- user_mode_switch user set mode changed ;;
  if changed' =? 0 then ret changed'
  else
    st <- get ;;
    send_reply user (MsgMode (nickname (user_at st user)) (mode_change set mode) user) ;;
    ret changed'.

(** [for (modes++; *modes; modes++)] *)
Fixpoint modes_loop (letter : ascii -> Z -> I Z) (modes : string) (changed : Z)
  : I unit :=
  match modes with
  | EmptyString => ret tt
  | String mode rest =>
    changed' <- letter mode changed ;;
    modes_loop letter rest changed'
  end.

(** [handle_modes], with no mode string: the modes are listed. *)
Definition show_modes (user : Z) (channel_name : string) : I unit :=
  st <- get ;;
  if IS_CHANNEL_NAME channel_name then
    print_channel_mode user (find_channel channel_name (channels st)) ;; ret tt
  else if negb (String.eqb channel_name (username (user_at st user))) then
    send_numeric user 502 "Can't change mode for other users"
  else print_user_mode user ;; ret tt.

(** [handle_modes], with a mode string; [target] is what is left of the
    line. *)
Definition change_modes (user : Z) (channel_name modes : string)
    (target : option string) : I unit :=
  st <- get ;;
  match modes with
  | EmptyString => send_numeric user 501 "Unknown MODE flag"
  | String sign letters =>
    if negb (Ascii.eqb sign "+") && negb (Ascii.eqb sign "-") then
      send_numeric user 501 "Unknown MODE flag"
    else
      let set := Ascii.eqb sign "+" in
      let targetmember :=
        match target with
        | Some t => option_map m_user (get_member_by_username t channel_name st)
        | None => None
        end in
      if IS_CHANNEL_NAME channel_name then
        match get_member_by_channel_name user channel_name st with
        | None => send_numeric user 482 "You're not a channel operator"
        | Some member =>
          if authorized_atleast member CHANNEL_USER_MODE_OP =? 0 then
            send_numeric user 482 "You're not a channel operator"
          else
            match find_channel channel_name (channels st) with
            | None => send_numeric user 403 "No such channel"
            | Some _ =>
              modes_loop (channel_mode user channel_name target targetmember set)
                letters 0
            end
        end
      else if negb (String.eqb (nickname (user_at st user)) channel_name) then
        send_numeric user 502 "Can't change mode for other users"
      else modes_loop (user_mode user set) letters 0
  end.

(** [handle_modes(user, s)] *)
Definition handle_modes (user : Z) (s : option string) : I unit :=
  let '(channel_name, s) := strsep s " " in
  match channel_name with
  | None => stop_ NullDeref      (* strcmp(channel->name, NULL), *channel_name *)
  | Some channel_name =>
    let '(modes, s) := strsep s " " in
    match skip_colon modes with
    | None => show_modes user channel_name
    | Some modes => change_modes user channel_name modes s
    end
  end.

(** The arguments of MODE as a client writes them: the channel or
    nickname, the sign and the letters, and the target if there is one. *)
Definition mode_args (channel_name : string) (set : bool) (letters : string)
    (target : option string) : string :=
  (channel_name ++ " " ++ mode_change_sign set letters
   ++ match target with
      | Some t => " " ++ t
      | None => ""
      end)%string.

(** The channel modes that a letter switches on and off by itself. *)
Definition plain_channel_modes : list (ascii * Z) :=
  [("S"%char, CHANNEL_MODE_TLS_ONLY); ("m"%char, CHANNEL_MODE_MODERATED);
   ("n"%char, CHANNEL_MODE_NO_EXTERNAL); ("p"%char, CHANNEL_MODE_PRIVATE);
   ("r"%char, CHANNEL_MODE_REGISTERED_ONLY); ("s"%char, CHANNEL_MODE_SECRET);
   ("t"%char, CHANNEL_MODE_TOPIC_PROTECTED);
   ("z"%char, CHANNEL_MODE_REDUCED_MODERATION)].

(** The modes of a member, by letter. *)
Definition member_modes : list (ascii * Z) :=
  [("q"%char, CHANNEL_USER_MODE_FOUNDER); ("a"%char, CHANNEL_USER_MODE_ADMIN);
   ("o"%char, CHANNEL_USER_MODE_OP); ("h"%char, CHANNEL_USER_MODE_HALFOP);
   ("v"%char, CHANNEL_USER_MODE_VOICE)].

(** ** TOPIC *)

(** [channel_print_topic(NULL, channel)]: to everyone in the channel. *)
Definition channel_broadcast_topic (ch : irc_channel) : I unit :=
  match topic ch with
  | Some t =>
    channel_broadcast ch None 0 (Numeric 332 t) ;;
    channel_broadcast ch None 0 (Numeric 333 (name ch)) ;;
    ret tt
  | None => channel_broadcast ch None 0 (Numeric 331 "No topic is set") ;; ret tt
  end.

(** [handle_topic(user, s)]; [strdup] is taken to succeed. *)
Definition handle_topic (user : Z) (s : option string) : I unit :=
  let '(channame, s) := strsep s " " in
  let s := skip_colon s in
  st <- get ;;
  match channame with
  | None =>
    (* get_channel(NULL): strcmp with the name of the first channel *)
    match channels st with
    | [] => send_numeric user 403 "No such channel"
    | _ :: _ => stop_ NullDeref
    end
  | Some channame =>
    match find_channel channame (channels st) with
    | None => send_numeric user 403 "No such channel"
    | Some channel =>
      match s with
      | None => channel_print_topic user channel
      | Some t =>
        if strlen t >? MAX_TOPIC_LENGTH then
          send_numeric user 416 "Topic is too long"
        else
          let refused :=
            match get_member_by_username (nickname (user_at st user)) (name channel) st with
            | None => true
            | Some m =>
              has (cmodes channel) CHANNEL_MODE_TOPIC_PROTECTED
              && (authorized_atleast m CHANNEL_USER_MODE_HALFOP =? 0)
            end in
          if refused then send_numeric user 482 "You're not a channel operator"
          else
            let channel' := set_topic (Some t) channel in
            set_channels (put_channel channel' (channels st)) ;;
            channel_broadcast_topic channel'
      end
    end
  end.

(** ** AWAY, PONG, PRIVMSG, NOTICE *)

(** The AWAY command; [free_if] leaves a null pointer, which reads as
    the empty string. *)
Definition handle_away (user : Z) (s : option string) : I unit :=
  match s with
  | Some t =>
    if negb (strlen t =? 0) && (strlen t >? MAX_AWAY_LEN) then
      send_numeric user 416 "Input too large"
    else
      lock_user user ;;
      update_user user
        (if strlen t =? 0 then set_away false "" else set_away true t) ;;
      unlock_user user ;;
      st <- get ;;
      if away (user_at st user)
      then send_numeric user 306 "You have been marked as being away"
      else send_numeric user 305 "You are no longer marked as being away"
  | None =>
    lock_user user ;;
    update_user user (set_away false "") ;;
    unlock_user user ;;
    st <- get ;;
    if away (user_at st user)
    then send_numeric user 306 "You have been marked as being away"
    else send_numeric user 305 "You are no longer marked as being away"
  end.

(** The PONG command; [now] is [time(NULL)]. *)
Definition handle_pong (user : Z) (now : Z) : I unit :=
  lock_user user ;;
  update_user user (set_lastpong now) ;;
  unlock_user user.

(** The PRIVMSG and NOTICE commands. *)
Definition handle_privmsg (user : Z) (notice : bool) (s : option string) (now : Z)
  : I unit :=
  let '(channel, s) := strsep s " " in
  match channel with
  | None => ret tt
  | Some channel =>
    match s with
    | None => stop_ NullDeref            (* *s == ':' *)
    | Some t =>
      let message := match t with
                     | String ":" rest => rest
                     | _ => t
                     end in
      call (privmsg user channel notice message now) ;; ret tt
    end
  end.

(** ** What a command leaves alone *)

(** Who is where: the name of a channel, its member count and the
    users on it. *)
Definition roster (ch : irc_channel) : string * Z * list Z :=
  (name ch, membercount ch, map m_user (members ch)).

(** The same channels with the same users on them, and the same channel
    count for every user. *)
Definition same_members (st st' : irc_state) : Prop :=
  map roster (channels st') = map roster (channels st) /\
  (forall k, counted k st' = counted k st).

(** ** Sample states *)

(** alice has created #room and is alone in it. *)
Definition room_made_state : irc_state :=
  after (join_channel 1 "#room" 10 false) sample_start.

(** #room as alice has made it. *)
Definition room_made : irc_channel :=
  mk_channel "#room" 1 None
    [mk_member 1 (Z.lor CHANNEL_USER_MODE_OP CHANNEL_USER_MODE_FOUNDER)]
    (Z.lor (Z.lor CHANNEL_MODE_NO_EXTERNAL CHANNEL_MODE_TOPIC_PROTECTED)
       CHANNEL_MODE_REGISTERED_ONLY)
    0 false.

(** #room after [user] has joined alice in it. *)
Definition room_with (user : Z) : irc_channel :=
  mk_channel "#room" 2 None
    [mk_member user CHANNEL_USER_MODE_NONE;
     mk_member 1 (Z.lor CHANNEL_USER_MODE_OP CHANNEL_USER_MODE_FOUNDER)]
    (Z.lor (Z.lor CHANNEL_MODE_NO_EXTERNAL CHANNEL_MODE_TOPIC_PROTECTED)
       CHANNEL_MODE_REGISTERED_ONLY)
    0 false.

(** alice has sent MODE #room +l 1. *)
Definition room_limited_state : irc_state :=
  snd (handle_modes 1 (Some "#room +l 1"%string) room_made_state).

End IrcCommands.

(* ================================================================== *)
(** * nets/net_ssh.c: SFTP READ and WRITE, what goes out *)
(* ================================================================== *)

Module SftpOps.
Import CInt Sftp.

(** How many answers went to the client. *)
Definition replies (ev : list event) : nat :=
  length (filter (fun e => match e with
                           | EvReplyStatus _ _ | EvReplyData _ _ => true
                           | _ => false
                           end) ev).

Definition mallocs (ev : list event) : nat :=
  length (filter (fun e => match e with EvMalloc _ => true | _ => false end) ev).

Definition frees (ev : list event) : nat :=
  length (filter (fun e => match e with EvFree => true | _ => false end) ev).

(** The status the client was sent, if it was sent one. *)
Definition status_sent (ev : list event) : option sftp_status :=
  match filter (fun e => match e with EvReplyStatus _ _ => true | _ => false end) ev with
  | EvReplyStatus s _ :: _ => Some s
  | _ => None
  end.

(** What [handle_write] reads of the message: [w_data] holds the
    [string_len(msg->data)] bytes at [string_data(msg->data)]. *)
Record write_message : Type := mk_wmsg {
  w_data : list Z;
  w_offset : Z;            (* uint64_t *)
  w_handle : option sftp_info
}.

Inductive write_event : Type :=
| WStatus (ev : list event)              (* sftp_reply_status, as [handle_read] records it *)
| WOk                                    (* sftp_reply_status(msg, SSH_FX_OK, NULL) *)
| WError (what : string)                 (* bbs_error *)
| WFwrite (bytes : list Z) (taken : Z).  (* fwrite(ptr, 1, n, file): the n bytes at ptr,
                                            and how many of them the file took *)

(** The loop of [handle_write]. [taken] has what the calls of [fwrite]
    return, one after the other, cut to what a call can return; when
    the list is used up a call writes all it is given. [e] is [errno]
    after a call that wrote nothing. *)
Fixpoint write_loop (taken : list Z) (e : errno) (data : list Z) (len : Z)
  : Z * list write_event :=
  match taken with
  | [] => (0, [WFwrite (firstn (Z.to_nat len) data) len; WOk])
  | r0 :: rest =>
    let r := Z.max 0 (Z.min r0 len) in
    let call := WFwrite (firstn (Z.to_nat len) data) r in
    if (r <=? 0) && (0 <? len) then (-1, [call; WStatus (handle_errno e)])
    else
      let len' := len - r in
      if 0 <? len' then
        let '(res, ev) := write_loop rest e data len' in (res, call :: ev)
      else (0, [call; WOk])
  end.

(** [handle_write(msg)] *)
Definition handle_write (taken : list Z) (e : errno) (msg : write_message)
  : Z * list write_event :=
  let invalid :=
    (-1, [WStatus [EvReplyStatus SSH_FX_INVALID_HANDLE (Some "Invalid handle"%string)]]) in
  match w_handle msg with
  | None => invalid
  | Some info =>
    if negb (info_type info =? TYPE_FILE) then invalid
    else
      let len := Z.of_nat (length (w_data msg)) in
      match fseeko (file info) (to_off_t (w_offset msg)) with
      | None =>
        (-1, [WError "fseeko failed";
              WStatus [EvReplyStatus SSH_FX_BAD_MESSAGE (Some "Offset failed"%string)]])
      | Some _ => write_loop taken e (w_data msg) len
      end
  end.

(** The bytes that went to the file, in the order they went. *)
Definition written (ev : list write_event) : list Z :=
  flat_map (fun e => match e with
                     | WFwrite bytes r => firstn (Z.to_nat r) bytes
                     | _ => []
                     end) ev.

(** What the calls of [fwrite] were handed. *)
Definition handed (ev : list write_event) : list (list Z) :=
  flat_map (fun e => match e with
                     | WFwrite bytes _ => [bytes]
                     | _ => []
                     end) ev.

(** A file of ten bytes, open, where offsets go up to 16 TiB less one
    block. *)
Definition small_file : sftp_info :=
  mk_info TYPE_FILE (mk_stream [1; 2; 3; 4; 5; 6; 7; 8; 9; 10] None 17592186040320).

End SftpOps.

(* ================================================================== *)
(** * Statements and proofs *)
(* ================================================================== *)

Module CIntFacts.
Import CInt.

Lemma wrap_uint_id (z : Z) : 0 <= z <= UINT_MAX -> wrap_uint z = z.
Proof. unfold wrap_uint, UINT_MAX. intros H. apply Z.mod_small. lia. Qed.

Lemma wrap_int_id (z : Z) : - INT_MAX - 1 <= z <= INT_MAX -> wrap_int z = z.
Proof.
  unfold wrap_int, INT_MAX. intros H.
  rewrite Z.mod_small by lia. lia.
Qed.

Lemma wrap_uint_range (z : Z) : 0 <= wrap_uint z <= UINT_MAX.
Proof.
  unfold wrap_uint, UINT_MAX.
  pose proof (Z.mod_pos_bound z 4294967296). lia.
Qed.

End CIntFacts.

(** Lists sorted by [Z.lt]. *)
Module SortedFacts.

Lemma sorted_app (a b : list Z) :
  StronglySorted Z.lt (a ++ b) <->
  StronglySorted Z.lt a /\ StronglySorted Z.lt b /\
  (forall x y, In x a -> In y b -> x < y).
Proof.
  induction a as [|h a IH]; simpl.
  - split.
    + intros H. repeat split; [constructor | exact H | contradiction].
    + intros (_ & H & _). exact H.
  - split.
    + intros H. apply StronglySorted_inv in H. destruct H as [Hs Hf].
      apply IH in Hs. destruct Hs as (Ha & Hb & Hab).
      rewrite Forall_app in Hf. destruct Hf as [Hfa Hfb].
      repeat split; auto.
      * constructor; assumption.
      * intros x y [<-|Hx] Hy.
        -- rewrite Forall_forall in Hfb. auto.
        -- auto.
    + intros (Ha & Hb & Hab).
      apply StronglySorted_inv in Ha. destruct Ha as [Ha Hfa].
      constructor.
      * apply IH. repeat split; auto.
      * rewrite Forall_app. split; [assumption|].
        rewrite Forall_forall. intros y Hy. apply Hab; auto.
Qed.

Lemma sorted_delete (a b : list Z) (x : Z) :
  StronglySorted Z.lt (a ++ x :: b) -> StronglySorted Z.lt (a ++ b).
Proof.
  rewrite !sorted_app. intros (Ha & Hb & Hab).
  apply StronglySorted_inv in Hb. destruct Hb as [Hb _].
  repeat split; auto. intros u v Hu Hv. apply Hab; simpl; auto.
Qed.

Lemma sorted_insert (a b : list Z) (x : Z) :
  StronglySorted Z.lt (a ++ b) ->
  (forall u, In u a -> u < x) -> (forall v, In v b -> x < v) ->
  StronglySorted Z.lt (a ++ x :: b).
Proof.
  rewrite !sorted_app. intros (Ha & Hb & Hab) Hlo Hhi.
  repeat split; auto.
  - constructor; [assumption|]. rewrite Forall_forall. exact Hhi.
  - intros u v Hu [<-|Hv]; auto.
Qed.

(** A strictly increasing list inside [lo..hi] has at most [hi - lo + 1]
    elements. *)
Lemma sorted_length_bound (l : list Z) :
  forall lo hi,
  StronglySorted Z.lt l -> Forall (fun z => lo <= z <= hi) l ->
  lo <= hi + 1 ->
  Z.of_nat (length l) <= hi - lo + 1.
Proof.
  induction l as [|z l IH]; intros lo hi Hs Hf Hle; simpl length.
  - simpl. lia.
  - apply StronglySorted_inv in Hs. destruct Hs as [Hs Hz].
    inversion Hf as [|? ? Hz0 Hf']; subst.
    assert (Hb : Z.of_nat (length l) <= hi - (z + 1) + 1).
    { apply IH; [assumption| |lia].
      rewrite Forall_forall in *. intros y Hy.
      specialize (Hz y Hy). specialize (Hf' y Hy). lia. }
    lia.
Qed.

End SortedFacts.

(** ** The node registry *)
Module RegistryFacts.
Import CInt CIntFacts SortedFacts Node.

Lemma traverse_not_looking (l : list bbs_node) :
  forall s,
  keeplooking s = false ->
  0 <= count s -> count s + Z.of_nat (length l) <= UINT_MAX ->
  traverse l s =
  Done (mk_scan (count s + Z.of_nat (length l)) (newnodenumber s) false (prev s)).
Proof.
  induction l as [|x l IH]; intros s Hk Hc Hlen; simpl traverse.
  - destruct s as [c n k p]; simpl in *. subst k.
    rewrite Z.add_0_r. reflexivity.
  - rewrite Hk. simpl length in Hlen.
    rewrite wrap_uint_id by lia.
    rewrite IH; simpl; try lia; try reflexivity.
    f_equal. f_equal. lia.
Qed.

(** The traversal over a sorted list: the nodes split into the run
    [pre] numbered [n, n+1, ...] from the candidate on and the rest
    [post], which lies above the number found. *)
Lemma traverse_looking (l : list bbs_node) :
  forall s,
  keeplooking s = true ->
  StronglySorted Z.lt (map id l) ->
  Forall (fun n => newnodenumber s <= id n <= UINT_MAX) l ->
  0 <= newnodenumber s <= UINT_MAX ->
  0 <= count s -> count s + Z.of_nat (length l) <= UINT_MAX ->
  exists pre post s',
    l = pre ++ post /\
    traverse l s = Done s' /\
    count s' = count s + Z.of_nat (length l) /\
    newnodenumber s' = wrap_uint (newnodenumber s + Z.of_nat (length pre)) /\
    ((pre = [] /\ prev s' = prev s) \/
     (exists pre0 p, pre = pre0 ++ [p] /\ prev s' = Some p)) /\
    Forall (fun n => newnodenumber s <= id n < newnodenumber s + Z.of_nat (length pre)) pre /\
    (forall k, newnodenumber s <= k < newnodenumber s + Z.of_nat (length pre) ->
               In k (map id pre)) /\
    Forall (fun n => newnodenumber s + Z.of_nat (length pre) < id n) post.
Proof.
  induction l as [|x l IH]; intros s Hk Hs Hr Hn Hc Hlen.
  - exists [], [], s. simpl. repeat split; auto; try lia.
    rewrite Z.add_0_r, wrap_uint_id; lia.
  - simpl traverse. rewrite Hk.
    simpl map in Hs. apply StronglySorted_inv in Hs. destruct Hs as [Hs Hx].
    inversion Hr as [|? ? Hx0 Hr']; subst.
    simpl length in Hlen.
    rewrite (wrap_uint_id (count s + 1)) by lia.
    destruct (id x =? newnodenumber s) eqn:E.
    + apply Z.eqb_eq in E.
      destruct l as [|y l'].
      * exists [x], [], (mk_scan (count s + 1) (wrap_uint (newnodenumber s + 1)) true (Some x)).
        simpl. repeat split; auto; try lia.
        all: try solve [right; exists [], x; auto].
        all: try solve [constructor; [lia | constructor]].
        all: try solve [intros k Hk'; left; lia].
      * assert (Hy : newnodenumber s < id y <= UINT_MAX).
        { inversion Hx; subst. inversion Hr'; subst. lia. }
        rewrite (wrap_uint_id (newnodenumber s + 1)) by lia.
        destruct (IH (mk_scan (count s + 1) (newnodenumber s + 1) true (Some x)))
          as (pre & post & s' & Hl & Ht & Hcnt & Hnn & Hprev & Hpre & Hin & Hpost);
          simpl; auto; try lia.
        { rewrite Forall_forall in *. intros z Hz.
          assert (Hz1 : In (id z) (map id (y :: l'))) by (apply in_map; exact Hz).
          specialize (Hx _ Hz1). specialize (Hr' _ Hz). lia. }
        { simpl length in *. lia. }
        simpl in Hcnt, Hnn, Hprev, Hpre, Hin, Hpost.
        exists (x :: pre), post, s'. simpl length.
        repeat split.
        -- simpl. rewrite <- Hl. reflexivity.
        -- exact Ht.
        -- simpl length in *. lia.
        -- rewrite Hnn. f_equal. lia.
        -- right. destruct Hprev as [[-> Hp]|(pre0 & p & -> & Hp)].
           ++ exists [], x. auto.
           ++ exists (x :: pre0), p. auto.
        -- constructor; [lia|].
           rewrite Forall_forall in *. intros z Hz. specialize (Hpre z Hz). lia.
        -- intros k Hk'. simpl.
           destruct (Z.eq_dec k (newnodenumber s)) as [->|Hne]; [left; lia|].
           right. apply Hin. lia.
        -- rewrite Forall_forall in *. intros z Hz. specialize (Hpost z Hz). lia.
    + apply Z.eqb_neq in E.
      assert (Hgt : (id x >? newnodenumber s) = true) by (apply Z.gtb_lt; lia).
      rewrite Hgt.
      rewrite traverse_not_looking; simpl; auto; try lia.
      exists [], (x :: l), (mk_scan (count s + 1 + Z.of_nat (length l)) (newnodenumber s) false (prev s)).
      simpl. repeat split; auto; try lia.
      * rewrite Z.add_0_r, wrap_uint_id; lia.
      * constructor; [lia|].
        rewrite Forall_forall in *. intros z Hz.
        assert (Hz1 : In (id z) (map id l)) by (apply in_map; exact Hz).
        specialize (Hx _ Hz1). lia.
Qed.

Lemma insert_after_at (a b : list bbs_node) (p n : bbs_node) :
  NoDup (map ptr (a ++ p :: b)) ->
  insert_after (ptr p) n (a ++ p :: b) = a ++ p :: n :: b.
Proof.
  induction a as [|x a IH]; simpl; intros Hnd.
  - rewrite Nat.eqb_refl. reflexivity.
  - inversion Hnd as [|? ? Hnotin Hnd']; subst.
    destruct (Nat.eqb (ptr x) (ptr p)) eqn:E.
    + apply Nat.eqb_eq in E. exfalso. apply Hnotin.
      rewrite E, map_app. apply in_or_app. right. simpl. auto.
    + rewrite IH by assumption. reflexivity.
Qed.

Lemma registry_length_bound (st : registry) :
  StronglySorted Z.lt (ids st) ->
  Forall (fun n => 1 <= id n <= UINT_MAX) (nodes st) ->
  Z.of_nat (length (nodes st)) <= UINT_MAX.
Proof.
  intros Hs Hr.
  pose proof (sorted_length_bound (ids st) 1 UINT_MAX Hs) as H.
  unfold ids in H. rewrite length_map in H.
  assert (Hf : Forall (fun z => 1 <= z <= UINT_MAX) (map id (nodes st))).
  { rewrite Forall_forall in *. intros z Hz.
    apply in_map_iff in Hz. destruct Hz as (n & <- & Hn). auto. }
  specialize (H Hf). unfold UINT_MAX in *. lia.
Qed.

(** What a granted request did. *)
Lemma request_granted fd0 pn md now alloc_ok st node st' :
  registry_ok st ->
  __bbs_node_request fd0 pn md now alloc_ok st = Done (Some node, st') ->
  exists pre post,
    nodes st = pre ++ post /\
    nodes st' = pre ++ node :: post /\
    node = fresh_node (next_ptr st) (1 + Z.of_nat (length pre)) fd0 now pn md /\
    Forall (fun n => 1 <= id n < 1 + Z.of_nat (length pre)) pre /\
    (forall k, 1 <= k < 1 + Z.of_nat (length pre) -> In k (map id pre)) /\
    Forall (fun n => 1 + Z.of_nat (length pre) < id n) post /\
    next_ptr st' = S (next_ptr st) /\
    maxnodes st' = maxnodes st /\
    shutting_down st' = shutting_down st /\
    Z.of_nat (length (nodes st)) < maxnodes st /\
    shutting_down st = 0 /\ 2 < fd0 /\ alloc_ok = true.
Proof.
  intros [Hs Hr Hp Hf Hm Hcap] Hreq.
  unfold __bbs_node_request in Hreq.
  destruct (fd0 <=? 2) eqn:Efd; [discriminate|].
  destruct (shutting_down st =? 0) eqn:Esd; simpl in Hreq; [|discriminate].
  pose proof (registry_length_bound st Hs Hr) as Hlen.
  destruct (traverse_looking (nodes st) (mk_scan 0 1 true None) eq_refl Hs Hr)
    as (pre & post & s' & Hl & Ht & Hcnt & Hnn & Hprev & Hpre & Hin & Hpost);
    [simpl; unfold UINT_MAX; lia | simpl; lia | simpl; lia |].
  cbn [count newnodenumber prev] in Hcnt, Hnn, Hprev, Hpre, Hin, Hpost.
  rewrite Ht in Hreq.
  destruct (count s' >=? maxnodes st) eqn:Ecap; [discriminate|].
  destruct alloc_ok; simpl in Hreq; [|discriminate].
  assert (Hlt : Z.of_nat (length (nodes st)) < maxnodes st).
  { rewrite Z.geb_leb in Ecap. apply Z.leb_gt in Ecap. lia. }
  assert (Hpl : (Z.of_nat (length pre) <= Z.of_nat (length (nodes st)))).
  { rewrite Hl, length_app. lia. }
  rewrite wrap_uint_id in Hnn by lia.
  injection Hreq as Hnode Hst'.
  exists pre, post. rewrite Hnn in Hnode.
  assert (Hnodes : nodes st' = pre ++ node :: post).
  { subst st'. simpl.
    destruct Hprev as [[-> Hp0]|(pre0 & p & -> & Hp0)].
    - rewrite Hp0, Hl, Hnn, Hnode. reflexivity.
    - rewrite Hp0, Hl, <- app_assoc, Hnn, Hnode. simpl.
      rewrite insert_after_at; [rewrite <- app_assoc; reflexivity|].
      rewrite Hl, <- app_assoc in Hp. exact Hp. }
  apply Z.leb_gt in Efd. apply Z.eqb_eq in Esd.
  repeat split; auto; try lia.
  - subst st'. reflexivity.
  - subst st'. reflexivity.
  - subst st'. reflexivity.
Qed.

(** The request never trips its assertion on a well-formed registry. *)
Lemma request_total fd0 pn md now alloc_ok st :
  registry_ok st ->
  exists r st', __bbs_node_request fd0 pn md now alloc_ok st = Done (r, st').
Proof.
  intros [Hs Hr Hp Hf Hm Hcap].
  unfold __bbs_node_request.
  destruct (fd0 <=? 2); [eauto|].
  destruct (negb (shutting_down st =? 0)); [eauto|].
  pose proof (registry_length_bound st Hs Hr) as Hlen.
  destruct (traverse_looking (nodes st) (mk_scan 0 1 true None) eq_refl Hs Hr)
    as (pre & post & s' & Hl & Ht & _);
    [simpl; unfold UINT_MAX; lia | simpl; lia | simpl; lia |].
  rewrite Ht.
  destruct (count s' >=? maxnodes st); [eauto|].
  destruct (negb alloc_ok); eauto.
Qed.

(** A refused request leaves the registry as it was. *)
Lemma request_refused fd0 pn md now alloc_ok st st' :
  __bbs_node_request fd0 pn md now alloc_ok st = Done (None, st') -> st' = st.
Proof.
  unfold __bbs_node_request.
  destruct (fd0 <=? 2); [congruence|].
  destruct (negb (shutting_down st =? 0)); [congruence|].
  destruct (traverse (nodes st) (mk_scan 0 1 true None)) as [s|]; [|discriminate].
  destruct (count s >=? maxnodes st); [congruence|].
  destruct (negb alloc_ok); [congruence|discriminate].
Qed.

(** *** Removing one node *)

Lemma remove_ptr_split (p : nat) (l : list bbs_node) :
  remove_ptr p l = l \/
  exists a x b, l = a ++ x :: b /\ remove_ptr p l = a ++ b.
Proof.
  induction l as [|y l IH]; simpl.
  - left. reflexivity.
  - destruct (Nat.eqb (ptr y) p).
    + right. exists [], y, l. split; reflexivity.
    + destruct IH as [->|(a & x & b & -> & ->)].
      * left. reflexivity.
      * right. exists (y :: a), x, b. split; reflexivity.
Qed.

Lemma remove_by_id_split (k : Z) (l : list bbs_node) :
  snd (remove_by_id k l) = l \/
  exists a x b, l = a ++ x :: b /\ snd (remove_by_id k l) = a ++ b.
Proof.
  induction l as [|y l IH]; simpl.
  - left. reflexivity.
  - destruct (id y =? k).
    + right. exists [], y, l. split; reflexivity.
    + destruct (remove_by_id k l) as [r rest]. simpl in *.
      destruct IH as [->|(a & x & b & -> & ->)].
      * left. reflexivity.
      * right. exists (y :: a), x, b. split; reflexivity.
Qed.

Lemma registry_ok_delete (st : registry) (a b : list bbs_node) (x : bbs_node) :
  registry_ok st -> nodes st = a ++ x :: b ->
  registry_ok (with_nodes (a ++ b) st).
Proof.
  intros [Hs Hr Hp Hf Hm Hcap] Hl.
  unfold ids in Hs. rewrite Hl in *.
  constructor; unfold ids; simpl.
  - rewrite map_app in *. simpl in Hs. eapply sorted_delete; eauto.
  - rewrite Forall_app in *. destruct Hr as [Ha Hb].
    inversion Hb; subst. split; assumption.
  - rewrite map_app in *. simpl in Hp. eapply NoDup_remove_1; eauto.
  - rewrite Forall_app in *. destruct Hf as [Ha Hb].
    inversion Hb; subst. split; assumption.
  - assumption.
  - rewrite length_app in *. simpl in Hcap. lia.
Qed.

Lemma registry_ok_same_nodes (st : registry) :
  registry_ok st -> registry_ok (with_nodes (nodes st) st).
Proof. destruct st; intros H; exact H. Qed.

Lemma unlink_ok now node st :
  registry_ok st -> registry_ok (fst (bbs_node_unlink now node st)).
Proof.
  intros Hok. unfold bbs_node_unlink.
  destruct (node_shutdown (shutting_down st) now node 1) as [n' ev]. simpl.
  destruct (remove_ptr_split (ptr node) (nodes st)) as [->|(a & x & b & Hl & ->)].
  - apply registry_ok_same_nodes. exact Hok.
  - eapply registry_ok_delete; eauto.
Qed.

Lemma shutdown_node_ok now nodenum st :
  registry_ok st ->
  registry_ok (snd (fst (bbs_node_shutdown_node now nodenum st))).
Proof.
  intros Hok. unfold bbs_node_shutdown_node.
  pose proof (remove_by_id_split nodenum (nodes st)) as H.
  destruct (remove_by_id nodenum (nodes st)) as [[n|] l]; simpl in *;
    (destruct H as [->|(a & x & b & Hl & ->)];
     [apply registry_ok_same_nodes; exact Hok | eapply registry_ok_delete; eauto]).
Qed.

Lemma shutdown_all_ok now shutdown st :
  registry_ok st -> registry_ok (fst (bbs_node_shutdown_all now shutdown st)).
Proof.
  intros [Hs Hr Hp Hf Hm Hcap]. unfold bbs_node_shutdown_all.
  constructor; unfold ids; simpl; try constructor; try assumption; lia.
Qed.

Lemma request_ok fd0 pn md now alloc_ok st r st' :
  registry_ok st ->
  __bbs_node_request fd0 pn md now alloc_ok st = Done (r, st') ->
  registry_ok st'.
Proof.
  intros Hok Hreq. destruct r as [node|].
  - destruct (request_granted _ _ _ _ _ _ _ _ Hok Hreq)
      as (pre & post & Hl & Hl' & Hnode & Hpre & Hin & Hpost & Hnp & Hmx & Hsd & Hlt & _).
    destruct Hok as [Hs Hr Hp Hf Hm Hcap].
    assert (Hid : id node = 1 + Z.of_nat (length pre)) by (subst node; reflexivity).
    assert (Hptr : ptr node = next_ptr st) by (subst node; reflexivity).
    assert (Hbound : Z.of_nat (length pre) <= Z.of_nat (length (nodes st))).
    { rewrite Hl, length_app. lia. }
    unfold ids in *. rewrite Hl in Hs, Hr, Hp, Hf.
    constructor; unfold ids; rewrite ?Hl', ?Hmx, ?Hnp.
    + rewrite map_app in *. simpl. apply sorted_insert; [assumption| |].
      * intros u Hu. apply in_map_iff in Hu. destruct Hu as (n & <- & Hn).
        rewrite Forall_forall in Hpre. specialize (Hpre n Hn). lia.
      * intros v Hv. apply in_map_iff in Hv. destruct Hv as (n & <- & Hn).
        rewrite Forall_forall in Hpost. specialize (Hpost n Hn). lia.
    + rewrite Forall_app in *. destruct Hr as [Ha Hb]. split; [assumption|].
      constructor; [|assumption]. rewrite Hid. lia.
    + rewrite map_app in *. simpl.
      apply NoDup_Add with (a := ptr node) (l := map ptr pre ++ map ptr post).
      * apply Add_app.
      * split; [exact Hp|].
        rewrite Hptr. intros Hin'. rewrite <- map_app in Hin'.
        apply in_map_iff in Hin'. destruct Hin' as (n & Hn & Hn').
        rewrite Forall_forall in Hf.
        specialize (Hf n Hn'). lia.
    + rewrite Forall_app in *. destruct Hf as [Ha Hb]. split.
      * eapply Forall_impl; [|exact Ha]. simpl. intros; lia.
      * constructor; [rewrite Hptr; lia|].
        eapply Forall_impl; [|exact Hb]. simpl. intros; lia.
    + assumption.
    + rewrite length_app in *. simpl. rewrite Hl, length_app in Hlt. lia.
  - apply request_refused in Hreq. subst st'. exact Hok.
Qed.

Lemma empty_registry_ok (max : Z) :
  0 <= max <= UINT_MAX -> registry_ok (empty_registry max).
Proof.
  intros H. constructor; unfold ids; simpl; try constructor; lia.
Qed.

Lemma request_keeps_max fd0 pn md now alloc_ok st r st' :
  __bbs_node_request fd0 pn md now alloc_ok st = Done (r, st') ->
  maxnodes st' = maxnodes st.
Proof.
  unfold __bbs_node_request.
  destruct (fd0 <=? 2); [congruence|].
  destruct (negb (shutting_down st =? 0)); [congruence|].
  destruct (traverse (nodes st) (mk_scan 0 1 true None)) as [s|]; [|discriminate].
  destruct (count s >=? maxnodes st); [congruence|].
  destruct (negb alloc_ok); [congruence|].
  intros H. injection H as _ <-. reflexivity.
Qed.

(** Every reachable registry is well formed and keeps its maximum. *)
Lemma reachable_ok (max : Z) (st : registry) :
  0 <= max <= UINT_MAX -> reachable max st ->
  registry_ok st /\ maxnodes st = max.
Proof.
  intros Hmax Hreach. induction Hreach as
    [ | fd0 pn md now alloc_ok st r st' _ [IH IHm] Hreq
      | now node st _ [IH IHm]
      | now nodenum st _ [IH IHm]
      | now shutdown st _ [IH IHm] ].
  - split; [apply empty_registry_ok; assumption | reflexivity].
  - split; [eapply request_ok; eauto|].
    erewrite request_keeps_max; eauto.
  - split; [apply unlink_ok; assumption|].
    unfold bbs_node_unlink.
    destruct (node_shutdown (shutting_down st) now node 1); assumption.
  - split; [apply shutdown_node_ok; assumption|].
    unfold bbs_node_shutdown_node.
    destruct (remove_by_id nodenum (nodes st)) as [[n|] l]; assumption.
  - split; [apply shutdown_all_ok; assumption | assumption].
Qed.

(** A sequence of granted requests and unlinks stays among the reachable
    registries. *)
Lemma run_reachable (max : Z) (ops : list op) :
  forall st st', reachable max st -> run ops st = Some st' -> reachable max st'.
Proof.
  induction ops as [|o ops IH]; intros st st' Hreach Hrun; simpl in Hrun.
  - injection Hrun as <-. exact Hreach.
  - destruct o as [fd0 pn md now | nodenum now].
    + destruct (__bbs_node_request fd0 pn md now true st) as [[[n|] st1]|] eqn:E;
        try discriminate.
      eapply IH; [|exact Hrun]. eapply reach_request; eauto.
    + destruct (node_by_id nodenum st) as [n|]; [|discriminate].
      eapply IH; [|exact Hrun]. apply reach_unlink. exact Hreach.
Qed.

End RegistryFacts.

Module RegistryClaims.
Import CInt CIntFacts SortedFacts Node RegistryFacts.

(** Scenario S5 of the specification, run on the model. *)
Example s5_ids : ids s5_registry = [1; 3; 5].
Proof. vm_compute. reflexivity. Qed.

Example s5_next_three :
  match run [OpRequest 20 "Telnet"%string 1 300; OpRequest 21 "Telnet"%string 1 301;
             OpRequest 22 "Telnet"%string 1 302] s5_registry with
  | Some st => ids st = [1; 2; 3; 4; 5; 6]
  | None => False
  end.
Proof. vm_compute. reflexivity. Qed.

Lemma s5_reachable : reachable 64 s5_registry.
Proof.
  apply (run_reachable 64 s5_ops (empty_registry 64) s5_registry).
  - apply reach_init.
  - vm_compute. reflexivity.
Defined.

(** C1. After any sequence of granted requests and unlinks (and of the
    other registry operations) from the empty registry, a request that
    is granted gives the new node the smallest positive number that no
    live node uses, and the list of live nodes is sorted by increasing
    number before and after. *)
Theorem request_assigns_smallest_unused_id
    (max : Z) (st st' : registry) (fd0 : Z) (pn : string) (md now : Z)
    (alloc_ok : bool) (node : bbs_node) :
  0 <= max <= UINT_MAX ->
  reachable max st ->
  __bbs_node_request fd0 pn md now alloc_ok st = Done (Some node, st') ->
  1 <= id node /\
  ~ In (id node) (ids st) /\
  (forall k, 1 <= k < id node -> In k (ids st)) /\
  (forall k, In k (ids st') <-> k = id node \/ In k (ids st)) /\
  StronglySorted Z.lt (ids st) /\
  StronglySorted Z.lt (ids st').
Proof.
  intros Hmax Hreach Hreq.
  destruct (reachable_ok max st Hmax Hreach) as [Hok _].
  assert (Hok' : registry_ok st') by (eapply request_ok; eauto).
  destruct (request_granted _ _ _ _ _ _ _ _ Hok Hreq)
    as (pre & post & Hl & Hl' & Hnode & Hpre & Hin & Hpost & _).
  assert (Hid : id node = 1 + Z.of_nat (length pre)) by (subst node; reflexivity).
  unfold ids. rewrite Hl, Hl', !map_app. simpl map.
  repeat split.
  - lia.
  - intros H. apply in_app_or in H. destruct H as [H|H];
      apply in_map_iff in H; destruct H as (n & Hn & Hn').
    + rewrite Forall_forall in Hpre. specialize (Hpre n Hn'). lia.
    + rewrite Forall_forall in Hpost. specialize (Hpost n Hn'). lia.
  - intros k Hk. apply in_or_app. left. apply Hin. lia.
  - intros H. apply in_app_or in H. destruct H as [H|[H|H]]; auto.
    + right. apply in_or_app. auto.
    + right. apply in_or_app. auto.
  - intros [->|H]; apply in_or_app.
    + right. left. reflexivity.
    + apply in_app_or in H. destruct H; [left|right; right]; assumption.
  - rewrite <- map_app, <- Hl. exact (ok_sorted _ Hok).
  - pose proof (ok_sorted _ Hok') as Hs. unfold ids in Hs.
    rewrite Hl', map_app in Hs. exact Hs.
Qed.

Lemma request_assigns_smallest_unused_id_witness :
  exists node st',
    __bbs_node_request 20 "Telnet"%string 1 300 true s5_registry = Done (Some node, st') /\
    id node = 2 /\
    1 <= id node /\
    ~ In (id node) (ids s5_registry) /\
    (forall k, 1 <= k < id node -> In k (ids s5_registry)) /\
    (forall k, In k (ids st') <-> k = id node \/ In k (ids s5_registry)) /\
    StronglySorted Z.lt (ids s5_registry) /\
    StronglySorted Z.lt (ids st').
Proof.
  destruct (__bbs_node_request 20 "Telnet"%string 1 300 true s5_registry)
    as [[[node|] st']|] eqn:E; try (vm_compute in E; discriminate).
  exists node, st'. split; [reflexivity|]. split.
  - vm_compute in E. injection E as <- _. reflexivity.
  - apply (request_assigns_smallest_unused_id 64 s5_registry st' 20 "Telnet"%string 1 300 true node).
    + unfold UINT_MAX. lia.
    + exact s5_reachable.
    + exact E.
Defined.

(** C2, as worded, fails: on an empty registry with room for 64 nodes
    and no shutdown in progress, a request for descriptor 2 is turned
    down. *)
Lemma request_contract_two_reasons_fails : ~ request_contract_two_reasons.
Proof.
  intros H.
  destruct (H 64 (empty_registry 64) 2 "Telnet"%string 1 100 true) as [_ Hgrant].
  - unfold UINT_MAX. lia.
  - apply reach_init.
  - destruct Hgrant as (node & st' & Hreq).
    + unfold refusing. simpl. intros [Hc|Hs]; [lia | apply Hs; reflexivity].
    + vm_compute in Hreq. discriminate.
Qed.

(** C2, amended. On every reachable registry: a request made while the
    live nodes number at least [maxnodes], or while the shutting-down
    flag is set, returns no node and leaves the registry as it was;
    otherwise, when the descriptor is above 2 and the allocation
    succeeds, it returns a new node, which joins the live ones; a
    descriptor of 2 or less and a failed allocation are two more reasons
    to return no node and leave the registry as it was. The live nodes
    never number more than [maxnodes], and [bbs_node_shutdown_all] leaves
    the flag at the value it is called with. *)
Theorem request_capacity_and_shutdown
    (max : Z) (st : registry) (fd0 : Z) (pn : string) (md now : Z)
    (alloc_ok : bool) :
  0 <= max <= UINT_MAX ->
  reachable max st ->
  (refusing st \/ fd0 <= 2 \/ alloc_ok = false ->
     __bbs_node_request fd0 pn md now alloc_ok st = Done (None, st)) /\
  (~ refusing st -> 2 < fd0 -> alloc_ok = true ->
     exists node st',
       __bbs_node_request fd0 pn md now alloc_ok st = Done (Some node, st') /\
       In node (nodes st') /\ ~ In (id node) (ids st) /\
       length (nodes st') = S (length (nodes st)) /\
       Z.of_nat (length (nodes st')) <= max) /\
  Z.of_nat (length (nodes st)) <= max /\
  maxnodes st = max /\
  (forall now' shutdown,
     shutting_down (fst (bbs_node_shutdown_all now' shutdown st)) = shutdown /\
     nodes (fst (bbs_node_shutdown_all now' shutdown st)) = []).
Proof.
  intros Hmax Hreach.
  destruct (reachable_ok max st Hmax Hreach) as [Hok Hm].
  destruct (request_total fd0 pn md now alloc_ok st Hok) as (r & st' & Hreq).
  assert (Hcap := ok_capacity _ Hok).
  repeat split; try (rewrite <- Hm; assumption); try assumption.
  - intros Href. destruct r as [node|].
    + destruct (request_granted _ _ _ _ _ _ _ _ Hok Hreq)
        as (pre & post & _ & _ & _ & _ & _ & _ & _ & _ & _ & Hlt & Hsd & Hfd & Ha).
      exfalso. destruct Href as [[Hc|Hs]|[Hf|Hf]]; try lia; congruence.
    + rewrite Hreq. apply request_refused in Hreq. subst st'. reflexivity.
  - intros Hnref Hfd Halloc. subst alloc_ok.
    destruct r as [node|].
    + destruct (request_granted _ _ _ _ _ _ _ _ Hok Hreq)
        as (pre & post & Hl & Hl' & Hnode & Hpre & Hin & Hpost & _ & Hmx & _ & Hlt & _).
      assert (Hok' : registry_ok st') by (eapply request_ok; eauto).
      exists node, st'. repeat split.
      * exact Hreq.
      * rewrite Hl'. apply in_or_app. right. left. reflexivity.
      * unfold ids. rewrite Hl, map_app. intros H.
        assert (Hid : id node = 1 + Z.of_nat (length pre)) by (subst node; reflexivity).
        apply in_app_or in H. destruct H as [H|H];
          apply in_map_iff in H; destruct H as (n & Hn & Hn').
        -- rewrite Forall_forall in Hpre. specialize (Hpre n Hn'). lia.
        -- rewrite Forall_forall in Hpost. specialize (Hpost n Hn'). lia.
      * rewrite Hl', Hl, !length_app. simpl. lia.
      * pose proof (ok_capacity _ Hok'). rewrite Hmx, Hm in *. lia.
    + exfalso. apply Hnref. unfold refusing.
      unfold __bbs_node_request in Hreq.
      destruct (fd0 <=? 2) eqn:Efd; [apply Z.leb_le in Efd; lia|].
      destruct (shutting_down st =? 0) eqn:Esd; simpl in Hreq;
        [|right; apply Z.eqb_neq; exact Esd].
      pose proof (registry_length_bound st (ok_sorted _ Hok) (ok_range _ Hok)) as Hlen.
      destruct (traverse_looking (nodes st) (mk_scan 0 1 true None) eq_refl
                  (ok_sorted _ Hok) (ok_range _ Hok))
        as (pre & post & s' & Hl & Ht & Hcnt & _);
        [simpl; unfold UINT_MAX; lia | simpl; lia | simpl; lia |].
      rewrite Ht in Hreq. simpl in Hcnt.
      destruct (count s' >=? maxnodes st) eqn:Ecap; [|discriminate].
      left. rewrite Z.geb_leb in Ecap. apply Z.leb_le in Ecap. lia.
Qed.

Lemma request_capacity_and_shutdown_witness :
  (refusing s5_registry \/ 20 <= 2 \/ true = false ->
     __bbs_node_request 20 "Telnet"%string 1 300 true s5_registry = Done (None, s5_registry)) /\
  (~ refusing s5_registry -> 2 < 20 -> true = true ->
     exists node st',
       __bbs_node_request 20 "Telnet"%string 1 300 true s5_registry = Done (Some node, st') /\
       In node (nodes st') /\ ~ In (id node) (ids s5_registry) /\
       length (nodes st') = S (length (nodes s5_registry)) /\
       Z.of_nat (length (nodes st')) <= 64) /\
  Z.of_nat (length (nodes s5_registry)) <= 64 /\
  maxnodes s5_registry = 64 /\
  (forall now' shutdown,
     shutting_down (fst (bbs_node_shutdown_all now' shutdown s5_registry)) = shutdown /\
     nodes (fst (bbs_node_shutdown_all now' shutdown s5_registry)) = []).
Proof.
  apply (request_capacity_and_shutdown 64 s5_registry 20 "Telnet"%string 1 300 true).
  - unfold UINT_MAX. lia.
  - exact s5_reachable.
Defined.

(** After [bbs_node_shutdown_all(1)] every request is turned down. *)
Example request_after_shutdown_all :
  let st := fst (bbs_node_shutdown_all 400 1 s5_registry) in
  __bbs_node_request 20 "Telnet"%string 1 401 true st = Done (None, st).
Proof. vm_compute. reflexivity. Qed.

End RegistryClaims.

(** ** Shutdown and window size *)
Module LifecycleClaims.
Import CInt CIntFacts Node.

Ltac break_if :=
  match goal with
  | |- context [if ?c then _ else _] => destruct c eqn:?
  | |- context [match ?c with Some _ => _ | None => _ end] => destruct c eqn:?
  end.

(** A node that went through [node_shutdown] is inactive. *)
Lemma node_shutdown_inactive sd now node unique :
  active (fst (node_shutdown sd now node unique)) = false.
Proof.
  unfold node_shutdown, bbs_node_logout.
  destruct (active node) eqn:Ha; simpl; [|exact Ha].
  repeat (break_if; simpl); reflexivity.
Qed.

(** Each part of the teardown runs at most once within one shutdown. *)
Lemma node_shutdown_once sd now node unique :
  let ev := snd (node_shutdown sd now node unique) in
  (occurrences is_kill ev <= 1)%nat /\
  (occurrences is_logout ev <= 1)%nat /\
  (occurrences is_restore ev <= 1)%nat /\
  (occurrences is_close ev <= 3)%nat.
Proof.
  unfold node_shutdown, bbs_node_logout, bbs_node_kill_child, occurrences.
  destruct (active node); simpl; [|lia].
  repeat (break_if; simpl); lia.
Qed.

(** C5. Shutting a node down twice is the same as shutting it down once:
    the second call finds the node inactive, leaves it as it is, and does
    nothing but report the attempt; so the observable events of the two
    calls together are those of the first, and the child kill, the
    logout, the terminal restore and each descriptor close happen at most
    once. *)
Theorem node_shutdown_idempotent
    (sd now sd' now' : Z) (node : bbs_node) (unique unique' : Z) :
  let n1 := fst (node_shutdown sd now node unique) in
  let ev1 := snd (node_shutdown sd now node unique) in
  let n2 := fst (node_shutdown sd' now' n1 unique') in
  let ev2 := snd (node_shutdown sd' now' n1 unique') in
  n2 = n1 /\
  ev2 = [EvError "Attempt to shut down already inactive node"] /\
  observable (ev1 ++ ev2) = observable ev1 /\
  (occurrences is_kill (ev1 ++ ev2) <= 1)%nat /\
  (occurrences is_logout (ev1 ++ ev2) <= 1)%nat /\
  (occurrences is_restore (ev1 ++ ev2) <= 1)%nat /\
  (occurrences is_close (ev1 ++ ev2) <= 3)%nat.
Proof.
  intros n1 ev1 n2 ev2.
  assert (Hin : active n1 = false) by apply node_shutdown_inactive.
  assert (H2 : node_shutdown sd' now' n1 unique' =
               (n1, [EvError "Attempt to shut down already inactive node"])).
  { unfold node_shutdown at 1. rewrite Hin. reflexivity. }
  subst n2 ev2. rewrite H2. simpl fst. simpl snd.
  destruct (node_shutdown_once sd now node unique) as (Hk & Hl & Hr & Hc).
  fold ev1 in Hk, Hl, Hr, Hc.
  unfold observable, occurrences in *.
  rewrite !filter_app. simpl. rewrite !app_nil_r.
  repeat split; assumption.
Qed.

(** A logged-in node with a child and a PTY: the teardown in full. *)
Example node_shutdown_full :
  let node := mk_node 1%nat 3 10 10 10 5 6 (-1) (-1)
                (Some (mk_user 7 1 "alice")) true 100 true false "SSH"
                true 2 80 24 4242 false 7 false 8 false in
  snd (node_shutdown 0 200 node 1) =
  [EvKillChild 4242; EvUserDestroy (mk_user 7 1 "alice");
   EvBufferInput 3; EvWrite 10 COLOR_RESET;
   EvSocketClose 5; EvSocketClose 6; EvJoin 7; EvSocketClose 10].
Proof. vm_compute. reflexivity. Qed.

(** C9, as worded, fails: a node on a PTY with no child and outside a
    menu is resized from 80x24 to 100x30, and no window-size set is
    made on the master. *)
Lemma winsize_contract_as_worded_fails : ~ winsize_contract_as_worded.
Proof.
  intros H.
  specialize (H true true 1 pty_node 100 30).
  vm_compute in H.
  destruct H as (_ & Hset & _).
  apply Hset. discriminate.
Qed.

(** C9, amended. New columns and rows are stored when both are supplied
    (neither is negative). Without a PTY nothing else happens. With a PTY
    and a child, the window size is set on the master and then the child
    is sent SIGWINCH; nothing is written to the master. With a PTY and no
    child, no window size is set and no signal sent; and in a menu that
    got narrower, or shorter and wider, with unbuffered input, exactly
    one menu-refresh byte is written to the master. *)
Theorem update_winsize_effects
    (ioctl_ok kill_ok : bool) (wres : Z) (node : bbs_node) (c r : Z) :
  let n' := store_winsize node c r in
  exists ev,
    bbs_node_update_winsize ioctl_ok kill_ok wres node c r = (0, n', ev) /\
    (0 <= c -> 0 <= r -> cols n' = wrap_uint c /\ rows n' = wrap_uint r) /\
    (amaster node = -1 -> ev = []) /\
    (amaster node <> -1 -> childpid node <> 0 ->
       observable ev =
         [EvWinsize (amaster node) (wrap_ushort (rows n')) (wrap_ushort (cols n'));
          EvSignal (childpid node) "SIGWINCH"]) /\
    (amaster node <> -1 -> childpid node = 0 ->
       filter is_winsize ev = [] /\ filter is_signal ev = [] /\
       (inmenu node = true -> buffered node = false ->
        menu_shrank (cols node) (rows node) (cols n') (rows n') = true ->
        observable ev = [EvMenuRefresh (amaster node)]) /\
       (inmenu node = false \/ buffered node = true \/
        menu_shrank (cols node) (rows node) (cols n') (rows n') = false ->
        filter is_refresh ev = [])).
Proof.
  intros n'. unfold bbs_node_update_winsize, menu_shrank, observable.
  fold n'.
  assert (Hm : amaster n' = amaster node)
    by (subst n'; unfold store_winsize; destruct ((r >=? 0) && (c >=? 0)); reflexivity).
  assert (Hc : childpid n' = childpid node)
    by (subst n'; unfold store_winsize; destruct ((r >=? 0) && (c >=? 0)); reflexivity).
  assert (Hi : inmenu n' = inmenu node)
    by (subst n'; unfold store_winsize; destruct ((r >=? 0) && (c >=? 0)); reflexivity).
  assert (Hb : buffered n' = buffered node)
    by (subst n'; unfold store_winsize; destruct ((r >=? 0) && (c >=? 0)); reflexivity).
  assert (Hst : 0 <= c -> 0 <= r -> cols n' = wrap_uint c /\ rows n' = wrap_uint r).
  { intros H1 H2. subst n'. unfold store_winsize.
    assert (E1 : (r >=? 0) = true) by (rewrite Z.geb_leb; apply Z.leb_le; lia).
    assert (E2 : (c >=? 0) = true) by (rewrite Z.geb_leb; apply Z.leb_le; lia).
    rewrite E1, E2. simpl. split; reflexivity. }
  rewrite Hm, Hc, Hi, Hb. clearbody n'.
  destruct (Z.eqb_spec (amaster node) (-1)) as [Em|Em]; simpl.
  { eexists; split; [reflexivity|].
    repeat split; intros; try reflexivity; try contradiction; apply Hst; assumption. }
  destruct (Z.eqb_spec (childpid node) 0) as [Ec|Ec]; simpl.
  2: { eexists; split; [reflexivity|].
       destruct ioctl_ok, kill_ok; simpl;
       repeat split; intros; try reflexivity; try contradiction; apply Hst; assumption. }
  destruct (inmenu node); simpl.
  2: { eexists; split; [reflexivity|].
       repeat split; intros; try reflexivity; try contradiction; try congruence;
       try (apply Hst; assumption). }
  destruct ((cols n' <? cols node) || (rows n' <? rows node) && (cols n' >? cols node));
    simpl.
  2: { eexists; split; [reflexivity|].
       repeat split; intros; try reflexivity; try contradiction; try congruence;
       try (apply Hst; assumption). }
  destruct (buffered node); simpl.
  { eexists; split; [reflexivity|].
    repeat split; intros; try reflexivity; try contradiction; try congruence;
    try (apply Hst; assumption). }
  eexists; split; [reflexivity|].
  destruct (wres =? 1); simpl;
    repeat split; intros; try reflexivity; try contradiction; try congruence;
    try (apply Hst; assumption); intuition congruence.
Qed.

(** Scenario S6: a node in a menu at 80x24 is resized to 60x24. *)
Lemma update_winsize_effects_witness :
  exists ev,
    bbs_node_update_winsize true true 1 menu_node 60 24
      = (0, store_winsize menu_node 60 24, ev) /\
    observable ev = [EvMenuRefresh 5] /\
    filter is_signal ev = [].
Proof.
  destruct (update_winsize_effects true true 1 menu_node 60 24)
    as (ev & Hrun & _ & _ & _ & H).
  exists ev. split; [exact Hrun|].
  destruct H as (_ & Hsig & Hmenu & _); [discriminate | reflexivity |].
  split; [apply Hmenu; reflexivity | exact Hsig].
Defined.

End LifecycleClaims.

(** ** Reasoning about C functions *)
Module CMonadFacts.
Import CMonad.

Section WithState.

Context {S : Type}.

Lemma triple_bind {A B : Type} (P : S -> Prop) (c : M S A) Q (k : A -> M S B) Q' R :
  triple P c Q R -> (forall a, triple (Q a) (k a) Q' R) ->
  triple P (bind c k) Q' R.
Proof.
  intros Hc Hk s HP. unfold bind. specialize (Hc s HP).
  destruct (c s) as [[a| r | w] s']; auto.
  apply Hk. exact Hc.
Qed.

Lemma triple_weaken {A : Type} (P P' : S -> Prop) (c : M S A)
    (Q Q' : A -> S -> Prop) (R R' : S -> Prop) :
  triple P c Q R ->
  (forall s, P' s -> P s) -> (forall a s, Q a s -> Q' a s) ->
  (forall s, R s -> R' s) ->
  triple P' c Q' R'.
Proof.
  intros H HP HQ HR s Hs. specialize (H s (HP s Hs)).
  destruct (c s) as [[a| r | w] s']; auto.
Qed.

Lemma triple_gets {A : Type} (P : S -> Prop) (f : S -> A) (R : S -> Prop) :
  triple P (gets f) (fun a s => P s /\ a = f s) R.
Proof. intros s Hs. simpl. auto. Qed.

Lemma triple_call (P : S -> Prop) (body : M S Z) (Q : S -> Prop) (R : S -> Prop) :
  triple P body (fun _ => Q) Q ->
  (forall s, Q s -> R s) ->
  triple P (call body) (fun _ => Q) R.
Proof.
  intros H HR s Hs. specialize (H s Hs). unfold call.
  destruct (body s) as [[a| r | w] s']; auto.
Qed.

Lemma triple_for_each {A : Type} (I : S -> Prop) (R : S -> Prop)
    (l : list A) (body : A -> M S unit) :
  (forall x, In x l -> triple I (body x) (fun _ => I) R) ->
  triple I (for_each l body) (fun _ => I) R.
Proof.
  induction l as [|x l IH]; intros Hb; simpl.
  - intros s Hs. exact Hs.
  - eapply triple_bind.
    + apply Hb. left. reflexivity.
    + intros ?; cbv beta. apply IH. intros y Hy. apply Hb. right. exact Hy.
Qed.

Section Keeps.

Context (R : S -> S -> Prop).
Hypothesis R_refl : forall s, R s s.
Hypothesis R_trans : forall a b c, R a b -> R b c -> R a c.

Lemma keeps_ret {A : Type} (a : A) : keeps R (ret a).
Proof. intros s. apply R_refl. Qed.

Lemma keeps_return {A : Type} (r : Z) : keeps R (@return_ S A r).
Proof. intros s. apply R_refl. Qed.

Lemma keeps_stop {A : Type} (w : stop) : keeps R (@stop_ S A w).
Proof. intros s. apply R_refl. Qed.

Lemma keeps_get : keeps R get.
Proof. intros s. apply R_refl. Qed.

Lemma keeps_gets {A : Type} (g : S -> A) : keeps R (gets g).
Proof. intros s. apply R_refl. Qed.

Lemma keeps_modify (g : S -> S) :
  (forall s, R s (g s)) -> keeps R (modify g).
Proof. intros H s. simpl. apply H. Qed.

Lemma keeps_bind {A B : Type} (c : M S A) (k : A -> M S B) :
  keeps R c -> (forall a, keeps R (k a)) -> keeps R (bind c k).
Proof.
  intros Hc Hk s. unfold bind.
  specialize (Hc s). destruct (c s) as [[a| r | w] s']; simpl in *; auto.
  eapply R_trans; [exact Hc | apply Hk].
Qed.

Lemma keeps_call (body : M S Z) : keeps R body -> keeps R (call body).
Proof.
  intros H s. unfold call. specialize (H s).
  destruct (body s) as [[a| r | w] s']; exact H.
Qed.

Lemma keeps_for_each {A : Type} (l : list A) (body : A -> M S unit) :
  (forall x, keeps R (body x)) -> keeps R (for_each l body).
Proof.
  intros Hb. induction l as [|x l IH]; simpl.
  - apply keeps_ret.
  - apply keeps_bind; [apply Hb | intros _; exact IH].
Qed.

(** What [R] carries over holds on, however the statement ends. *)
Lemma triple_keeps {A : Type} (P : S -> Prop) (c : M S A) :
  (forall s s', R s s' -> P s -> P s') ->
  keeps R c ->
  triple P c (fun _ => P) P.
Proof.
  intros HP Hc s Hs. specialize (Hc s).
  destruct (c s) as [[a| r | w] s']; simpl in Hc; eapply HP; eauto.
Qed.

End Keeps.

End WithState.

End CMonadFacts.

(** ** The login dialogue *)
Module LoginFacts.
Import CInt CMonad CMonadFacts Login.
Local Open Scope cfun_scope.

Lemma same_password_refl (s : login_state) : same_password s s.
Proof. split; reflexivity. Qed.

Lemma same_password_trans (a b c : login_state) :
  same_password a b -> same_password b c -> same_password a c.
Proof. intros [H1 H2] [H3 H4]. split; congruence. Qed.

Lemma neutral_log (c : call) : is_password_read c = false -> neutral (log c).
Proof.
  intros Hc s. unfold log, same_password, password_was_read. simpl.
  split; [reflexivity|].
  rewrite existsb_app. simpl. rewrite Hc. rewrite !orb_false_r. reflexivity.
Qed.

Lemma neutral_next_reply : neutral next_reply.
Proof.
  intros s. unfold next_reply. destruct (replies s); split; reflexivity.
Qed.

Lemma neutral_set_username (u : string) : neutral (set_username u).
Proof. intros s. split; reflexivity. Qed.

Lemma neutral_set_logged_in : neutral set_logged_in.
Proof. intros s. split; reflexivity. Qed.

Lemma neutral_get_username : neutral get_username.
Proof. intros s. split; reflexivity. Qed.

Lemma neutral_get_password : neutral get_password.
Proof. intros s. split; reflexivity. Qed.

Lemma neutral_get_logged_in : neutral get_logged_in.
Proof. intros s. split; reflexivity. Qed.

Lemma neutral_bind {A B : Type} (c : M A) (k : A -> M B) :
  neutral c -> (forall a, neutral (k a)) -> neutral (bind c k).
Proof. apply keeps_bind. exact same_password_trans. Qed.

Lemma neutral_ret {A : Type} (a : A) : neutral (ret a).
Proof. apply keeps_ret. exact same_password_refl. Qed.

Lemma neutral_return {A : Type} (r : Z) : neutral (@return_ login_state A r).
Proof. apply keeps_return. exact same_password_refl. Qed.

Lemma neutral_stop {A : Type} (w : stop) : neutral (@stop_ login_state A w).
Proof. apply keeps_stop. exact same_password_refl. Qed.

Lemma neutral_external (mk : Z -> call) :
  (forall z, is_password_read (mk z) = false) -> neutral (external mk).
Proof.
  intros Hmk. unfold external.
  apply neutral_bind; [apply neutral_next_reply|]. intros r.
  apply neutral_bind; [apply neutral_log, Hmk|]. intros _.
  apply neutral_ret.
Qed.

Create HintDb login.
#[local] Hint Resolve neutral_next_reply
  neutral_set_username neutral_set_logged_in neutral_get_username
  neutral_get_password neutral_get_logged_in : login.

(** Neutrality follows the structure of the code. *)
Ltac neutral_step :=
  match goal with
  | |- keeps _ (bind _ _) => apply neutral_bind; [|intros]
  | |- keeps _ (ret _) => apply neutral_ret
  | |- keeps _ (return_ _) => apply neutral_return
  | |- keeps _ (stop_ _) => apply neutral_stop
  | |- keeps _ (if ?b then _ else _) => destruct b
  | |- keeps _ (match ?x with Break => _ | Continue => _ end) => destruct x
  | |- keeps _ (external _) => apply neutral_external; intros; reflexivity
  | |- keeps _ (log _) => apply neutral_log; reflexivity
  | |- keeps _ _ => solve [auto with login]
  | |- keeps _ _ =>
    progress unfold NEG_RETURN, NONPOS_RETURN, NONZERO_NEGRETURN,
      bbs_node_buffer, bbs_node_writef, bbs_node_echo_off, bbs_node_echo_on,
      bbs_user_register, bbs_get_response, bbs_authenticate
  end.

Ltac neutral_tac := repeat neutral_step.

Lemma neutral_read_username (ms : Z) : neutral (bbs_node_readline BufUsername ms).
Proof. unfold bbs_node_readline. neutral_tac. Qed.

Lemma neutral_guest_login (tdd ag gai : bool) : neutral (guest_login tdd ag gai).
Proof. unfold guest_login. neutral_tac. Qed.

(** *** Triples *)

Lemma triple_neutral {A : Type} (pw0 : list Z) (c : M A) :
  neutral c -> triple (clean pw0) c (fun _ => clean pw0) (ends pw0).
Proof.
  intros Hn.
  apply (triple_weaken (clean pw0) (clean pw0) c (fun _ => clean pw0)
           (fun _ => clean pw0) (clean pw0) (ends pw0)); auto.
  - apply (triple_keeps same_password); [|exact Hn].
    intros s s' [Hp Hr] Hs. unfold clean, zeroed in *. rewrite Hp, Hr. exact Hs.
  - intros s Hs. left. exact Hs.
Qed.

(** Reading the password: the function goes on with a buffer that holds
    the password, or returns with the buffer as the read left it. *)
Lemma triple_read_password (pw0 : list Z) :
  triple (clean pw0) (NONPOS_RETURN (bbs_node_readline BufPassword 20000))
    (fun _ _ => True) (ends pw0).
Proof.
  intros s Hs.
  assert (Hb : password s = pw0 \/ password s = repeat 0 PASSWORD_SIZE).
  { destruct Hs as [Hz|[Hp _]]; [right; exact Hz | left; exact Hp]. }
  unfold NONPOS_RETURN, bbs_node_readline, bind, next_reply, log,
    get_password, set_password, ret, return_.
  destruct (replies s) as [|r rest]; simpl.
  - right. exists (calls s), EmptyString, (-1), (password s).
    repeat split; [lia | exact Hb].
  - destruct (res r <=? 0) eqn:E; [|exact I].
    apply Z.leb_le in E.
    assert (E' : (0 <? res r) = false) by (apply Z.ltb_ge; exact E).
    rewrite E'.
    right. exists (calls s), (text r), (res r), (password s).
    repeat split; [exact E | exact Hb].
Qed.

(** The backend is asked and the buffer is zeroed: nothing returns in
    between. *)
Lemma triple_authenticate (u : option string) (p : option (list Z))
    (R : login_state -> Prop) :
  triple (fun _ => True) (bbs_authenticate u p) (fun _ _ => True) R.
Proof.
  intros s _. unfold bbs_authenticate, external, bind, next_reply, log,
    set_logged_in, ret.
  destruct (replies s) as [|r rest]; simpl.
  - exact I.
  - destruct (res r =? 0); exact I.
Qed.

Lemma triple_memzero (pw0 : list Z) (R : login_state -> Prop) :
  triple (fun _ => True) bbs_memzero_password (fun _ => clean pw0) R.
Proof.
  intros s _. unfold bbs_memzero_password, bind, log, set_password. simpl.
  left. reflexivity.
Qed.

Lemma triple_get_password (P : login_state -> Prop) (R : login_state -> Prop) :
  triple P get_password (fun _ => P) R.
Proof. intros s Hs. exact Hs. Qed.

Ltac after tac := eapply triple_bind; [tac | intros ?; cbv beta].

Lemma triple_password_login (pw0 : list Z) (u : string) :
  triple (clean pw0) (password_login u) (fun _ => clean pw0) (ends pw0).
Proof.
  unfold password_login.
  after ltac:(apply triple_neutral; neutral_tac).
  after ltac:(apply triple_neutral; neutral_tac).
  after ltac:(apply triple_read_password).
  after ltac:(apply triple_get_password).
  after ltac:(apply triple_authenticate).
  after ltac:(apply triple_memzero).
  apply triple_neutral. neutral_tac.
Qed.

Lemma triple_attempt (tdd ag gai : bool) (pw0 : list Z) :
  triple (clean pw0) (attempt tdd ag gai) (fun _ => clean pw0) (ends pw0).
Proof.
  unfold attempt.
  after ltac:(apply triple_neutral; neutral_tac).
  after ltac:(apply triple_neutral; neutral_tac).
  after ltac:(apply triple_neutral; neutral_tac).
  after ltac:(apply triple_neutral; unfold NONPOS_RETURN;
              apply neutral_bind; [apply neutral_read_username|intros; neutral_tac]).
  after ltac:(apply triple_neutral; neutral_tac).
  destruct (same_nocase _ "Quit" || same_nocase _ "Exit").
  { apply triple_neutral. neutral_tac. }
  destruct (same_nocase _ "New").
  { apply triple_neutral. neutral_tac. }
  destruct (same_nocase _ "Guest").
  { apply triple_neutral. apply neutral_guest_login. }
  apply triple_password_login.
Qed.

Lemma triple_attempts_loop (tdd ag gai : bool) (pw0 : list Z) (fuel : nat) :
  forall attempts,
  triple (clean pw0) (attempts_loop tdd ag gai fuel attempts)
    (fun _ => clean pw0) (ends pw0).
Proof.
  induction fuel as [|fuel IH]; intros attempts; simpl.
  - apply triple_neutral. neutral_tac.
  - eapply triple_bind; [apply triple_attempt|].
    intros [|]; [apply triple_neutral; neutral_tac | apply IH].
Qed.

(** However [authenticate] ends, the password buffer is clean, or a
    read of the password that gave up was the last thing that happened. *)
Lemma authenticate_ends (tdd ag gai : bool) (s : login_state) :
  password_was_read s = false ->
  ends (password s) (snd (authenticate tdd ag gai s)).
Proof.
  intros Hr.
  assert (Ht : triple (clean (password s)) (authenticate tdd ag gai)
                 (fun _ => clean (password s)) (ends (password s))).
  { unfold authenticate.
    after ltac:(apply triple_neutral; neutral_tac).
    after ltac:(apply triple_neutral; neutral_tac).
    after ltac:(apply triple_attempts_loop).
    apply triple_neutral. neutral_tac. }
  assert (Hs : clean (password s) s) by (right; split; [reflexivity | exact Hr]).
  specialize (Ht s Hs).
  destruct (authenticate tdd ag gai s) as [[a| r | w] s'];
    [left; exact Ht | exact Ht | exact Ht].
Qed.

(** [authenticate] never falls off its end: it returns, or its final
    assertion stops it. *)
Lemma authenticate_returns (tdd ag gai : bool) (s : login_state) :
  match fst (authenticate tdd ag gai s) with
  | Next _ => False
  | Return _ => True
  | Stop _ => True
  end.
Proof.
  unfold authenticate.
  generalize (attempts_loop tdd ag gai (Z.to_nat MAX_AUTH_ATTEMPTS) 0) as loop.
  intros loop. unfold bind, get_logged_in, log, ret, return_, stop_.
  destruct (logged_in s); simpl;
    match goal with |- context [loop ?st] => destruct (loop st) as [[x| r | w] s1] end;
    simpl; try exact I;
    destruct (x >=? MAX_AUTH_ATTEMPTS); simpl; try exact I;
    destruct (logged_in s1); exact I.
Qed.

End LoginFacts.

(** ** Lists of channels *)
Module ChannelFacts.
Import CInt CIntFacts Irc.

Lemma wrap_uint_succ (n : Z) : wrap_uint (wrap_uint n + 1) = wrap_uint (n + 1).
Proof. unfold wrap_uint. apply Zplus_mod_idemp_l. Qed.

Lemma wrap_uint_pred (n : Z) : wrap_uint (wrap_uint n - 1) = wrap_uint (n - 1).
Proof. unfold wrap_uint. apply Zminus_mod_idemp_l. Qed.

Lemma is_member_spec (u : Z) (ch : irc_channel) :
  is_member u ch = true <-> In u (map m_user (members ch)).
Proof.
  unfold is_member. rewrite existsb_exists, in_map_iff. split.
  - intros (m & Hm & He). apply Z.eqb_eq in He. exists m. auto.
  - intros (m & He & Hm). exists m. split; [assumption|]. apply Z.eqb_eq. exact He.
Qed.

Lemma drop_member_length (u : Z) (ms : list irc_member) :
  existsb (fun m => m_user m =? u) ms = true ->
  length ms = S (length (drop_member u ms)).
Proof.
  induction ms as [|m ms IH]; simpl; [discriminate|].
  destruct (m_user m =? u); simpl; [reflexivity|].
  intros H. rewrite IH by exact H. reflexivity.
Qed.

Lemma drop_member_in (u v : Z) (ms : list irc_member) :
  In v (map m_user (drop_member u ms)) -> In v (map m_user ms).
Proof.
  induction ms as [|m ms IH]; simpl; [auto|].
  destruct (m_user m =? u); simpl; intuition.
Qed.

Lemma drop_member_nodup (u : Z) (ms : list irc_member) :
  NoDup (map m_user ms) -> NoDup (map m_user (drop_member u ms)).
Proof.
  induction ms as [|m ms IH]; simpl; intros H; [exact H|].
  inversion H as [|? ? Hn Hd]; subst.
  destruct (m_user m =? u); simpl; [exact Hd|].
  constructor; [|apply IH; exact Hd].
  intros Hin. apply Hn. eapply drop_member_in; eauto.
Qed.

Lemma drop_member_gone (u : Z) (ms : list irc_member) :
  NoDup (map m_user ms) -> ~ In u (map m_user (drop_member u ms)).
Proof.
  induction ms as [|m ms IH]; simpl; intros H; [auto|].
  inversion H as [|? ? Hn Hd]; subst.
  destruct (m_user m =? u) eqn:E; simpl.
  - apply Z.eqb_eq in E. subst u. exact Hn.
  - apply Z.eqb_neq in E. intros [Hm|Hin]; [contradiction|].
    eapply IH; eauto.
Qed.

Lemma drop_member_other (u v : Z) (ms : list irc_member) :
  v <> u -> (In v (map m_user (drop_member u ms)) <-> In v (map m_user ms)).
Proof.
  intros Hne. induction ms as [|m ms IH]; simpl; [tauto|].
  destruct (m_user m =? u) eqn:E; simpl.
  - apply Z.eqb_eq in E. split; [auto|]. intros [Hm|Hin]; [congruence|exact Hin].
  - rewrite IH. tauto.
Qed.

(** Whether the user is still a member after [u] was taken out. *)
Lemma is_member_without (u v : Z) (ch : irc_channel) :
  NoDup (map m_user (members ch)) ->
  is_member v (without_member u ch) = (if v =? u then false else is_member v ch).
Proof.
  intros Hnd. destruct (v =? u) eqn:E.
  - apply Z.eqb_eq in E. subst v.
    destruct (is_member u (without_member u ch)) eqn:Em; [|reflexivity].
    apply is_member_spec in Em. simpl in Em.
    exfalso. eapply drop_member_gone; eauto.
  - apply Z.eqb_neq in E.
    destruct (is_member v ch) eqn:Em.
    + apply is_member_spec. simpl. apply drop_member_other; [assumption|].
      apply is_member_spec. exact Em.
    + destruct (is_member v (without_member u ch)) eqn:Em'; [|reflexivity].
      apply is_member_spec in Em'. simpl in Em'.
      apply drop_member_other in Em'; [|assumption].
      apply is_member_spec in Em'. congruence.
Qed.

Lemma is_member_with (m : irc_member) (v : Z) (ch : irc_channel) :
  is_member v (with_member m ch) = (m_user m =? v) || is_member v ch.
Proof. reflexivity. Qed.

(** *** Channels by name *)

Lemma find_channel_in (nm : string) (l : list irc_channel) (ch : irc_channel) :
  find_channel nm l = Some ch -> In ch l /\ name ch = nm.
Proof.
  unfold find_channel. intros H. apply find_some in H.
  destruct H as [Hin He]. apply String.eqb_eq in He. auto.
Qed.

Lemma find_channel_none (nm : string) (l : list irc_channel) :
  find_channel nm l = None -> ~ In nm (map name l).
Proof.
  unfold find_channel. intros H Hin. apply in_map_iff in Hin.
  destruct Hin as (c & Hc & Hin).
  pose proof (find_none _ _ H c Hin) as Hf. simpl in Hf.
  rewrite Hc, String.eqb_refl in Hf. discriminate.
Qed.

Lemma find_channel_unique (l : list irc_channel) (ch : irc_channel) :
  NoDup (map name l) -> In ch l -> find_channel (name ch) l = Some ch.
Proof.
  unfold find_channel. induction l as [|c l IH]; simpl; intros Hnd Hin; [contradiction|].
  inversion Hnd as [|? ? Hn Hd]; subst.
  destruct (String.eqb (name c) (name ch)) eqn:E.
  - apply String.eqb_eq in E. destruct Hin as [->|Hin]; [reflexivity|].
    exfalso. apply Hn. rewrite E. apply in_map. exact Hin.
  - destruct Hin as [->|Hin]; [rewrite String.eqb_refl in E; discriminate|].
    apply IH; assumption.
Qed.

Lemma put_channel_names (ch' : irc_channel) (l : list irc_channel) :
  map name (put_channel ch' l) = map name l.
Proof.
  induction l as [|c l IH]; simpl; [reflexivity|].
  destruct (String.eqb (name c) (name ch')) eqn:E; simpl.
  - apply String.eqb_eq in E. congruence.
  - rewrite IH. reflexivity.
Qed.

Lemma put_channel_forall (P : irc_channel -> Prop) (ch' : irc_channel)
    (l : list irc_channel) :
  Forall P l -> P ch' -> Forall P (put_channel ch' l).
Proof.
  intros Hl Hc. induction Hl as [|c l Hc0 Hl IH]; simpl; [constructor|].
  destruct (String.eqb (name c) (name ch')); constructor; assumption.
Qed.

Lemma drop_channel_forall (P : irc_channel -> Prop) (nm : string)
    (l : list irc_channel) :
  Forall P l -> Forall P (drop_channel nm l).
Proof.
  intros Hl. induction Hl as [|c l Hc0 Hl IH]; simpl; [constructor|].
  destruct (String.eqb (name c) nm); [assumption | constructor; assumption].
Qed.

Lemma drop_channel_names_in (nm x : string) (l : list irc_channel) :
  In x (map name (drop_channel nm l)) -> In x (map name l).
Proof.
  induction l as [|c l IH]; simpl; [auto|].
  destruct (String.eqb (name c) nm); simpl; intuition.
Qed.

Lemma drop_channel_nodup (nm : string) (l : list irc_channel) :
  NoDup (map name l) -> NoDup (map name (drop_channel nm l)).
Proof.
  induction l as [|c l IH]; simpl; intros H; [exact H|].
  inversion H as [|? ? Hn Hd]; subst.
  destruct (String.eqb (name c) nm); simpl; [exact Hd|].
  constructor; [|apply IH; exact Hd].
  intros Hin. apply Hn. eapply drop_channel_names_in; eauto.
Qed.

Lemma count_in_cons (u : Z) (c : irc_channel) (l : list irc_channel) :
  count_in u (c :: l) = b2z (is_member u c) + count_in u l.
Proof.
  unfold count_in. simpl. destruct (is_member u c); simpl b2z; simpl length; lia.
Qed.

Lemma count_in_nonneg (u : Z) (l : list irc_channel) : 0 <= count_in u l.
Proof. unfold count_in. lia. Qed.

(** Replacing a channel changes the count by what the channel changed. *)
Lemma count_in_put (u : Z) (ch ch' : irc_channel) (l : list irc_channel) :
  NoDup (map name l) -> In ch l -> name ch' = name ch ->
  count_in u (put_channel ch' l) =
  count_in u l - b2z (is_member u ch) + b2z (is_member u ch').
Proof.
  intros Hnd Hin Hname. induction l as [|c l IH]; simpl; [contradiction|].
  inversion Hnd as [|? ? Hn Hd]; subst.
  destruct (String.eqb (name c) (name ch')) eqn:E.
  - apply String.eqb_eq in E. rewrite !count_in_cons.
    destruct Hin as [->|Hin]; [lia|].
    exfalso. apply Hn. rewrite E, Hname. apply in_map. exact Hin.
  - rewrite !count_in_cons.
    destruct Hin as [->|Hin]; [rewrite Hname, String.eqb_refl in E; discriminate|].
    rewrite IH by assumption. lia.
Qed.

Lemma count_in_drop (u : Z) (ch : irc_channel) (l : list irc_channel) :
  NoDup (map name l) -> In ch l ->
  count_in u (drop_channel (name ch) l) = count_in u l - b2z (is_member u ch).
Proof.
  intros Hnd Hin. induction l as [|c l IH]; simpl; [contradiction|].
  inversion Hnd as [|? ? Hn Hd]; subst.
  destruct (String.eqb (name c) (name ch)) eqn:E.
  - apply String.eqb_eq in E. rewrite count_in_cons.
    destruct Hin as [->|Hin]; [lia|].
    exfalso. apply Hn. rewrite E. apply in_map. exact Hin.
  - rewrite !count_in_cons.
    destruct Hin as [->|Hin]; [rewrite String.eqb_refl in E; discriminate|].
    rewrite IH by assumption. lia.
Qed.

Lemma put_channel_in (ch ch' : irc_channel) (l : list irc_channel) :
  In ch l -> name ch' = name ch -> In ch' (put_channel ch' l).
Proof.
  intros Hin Hname. induction l as [|c l IH]; simpl; [contradiction|].
  destruct (String.eqb (name c) (name ch')) eqn:E; [left; reflexivity|].
  destruct Hin as [->|Hin]; [rewrite Hname, String.eqb_refl in E; discriminate|].
  right. apply IH. exact Hin.
Qed.

(** Other channels are where they were. *)
Lemma put_channel_other (c ch' : irc_channel) (l : list irc_channel) :
  In c l -> name c <> name ch' -> In c (put_channel ch' l).
Proof.
  intros Hin Hne. induction l as [|x l IH]; simpl; [contradiction|].
  destruct (String.eqb (name x) (name ch')) eqn:E.
  - destruct Hin as [->|Hin]; [|right; exact Hin].
    apply String.eqb_eq in E. contradiction.
  - destruct Hin as [->|Hin]; [left; reflexivity | right; apply IH; exact Hin].
Qed.

Lemma drop_channel_other (c : irc_channel) (nm : string) (l : list irc_channel) :
  In c l -> name c <> nm -> In c (drop_channel nm l).
Proof.
  intros Hin Hne. induction l as [|x l IH]; simpl; [contradiction|].
  destruct (String.eqb (name x) nm) eqn:E.
  - destruct Hin as [->|Hin]; [|exact Hin].
    apply String.eqb_eq in E. contradiction.
  - destruct Hin as [->|Hin]; [left; reflexivity | right; apply IH; exact Hin].
Qed.

(** *** Taking a member out *)

Lemma without_member_ok (u : Z) (ch : irc_channel) :
  chan_ok ch -> is_member u ch = true ->
  members (without_member u ch) <> [] -> chan_ok (without_member u ch).
Proof.
  intros [Hne Hc Hd] Hm Hne'. constructor; simpl.
  - exact Hne'.
  - rewrite Hc, wrap_uint_pred. f_equal.
    rewrite (drop_member_length u (members ch)) by exact Hm. lia.
  - apply drop_member_nodup. exact Hd.
Qed.

Lemma without_member_last (u : Z) (ch : irc_channel) :
  chan_ok ch -> is_member u ch = true ->
  members (without_member u ch) = [] -> membercount (without_member u ch) = 0.
Proof.
  intros [Hne Hc Hd] Hm He. simpl in *.
  rewrite Hc, wrap_uint_pred.
  rewrite (drop_member_length u (members ch)) by exact Hm. rewrite He. reflexivity.
Qed.

Lemma channels_without_ok (u : Z) (ch : irc_channel) (l : list irc_channel) :
  Forall chan_ok l -> In ch l -> is_member u ch = true ->
  Forall chan_ok (channels_without u ch l).
Proof.
  intros Hl Hin Hm. unfold channels_without.
  assert (Hch : chan_ok ch) by (rewrite Forall_forall in Hl; auto).
  destruct (members (without_member u ch)) as [|m ms] eqn:E.
  - clear E. induction l as [|c l IH]; simpl; [constructor|].
    inversion Hl as [|? ? Hc Hl']; subst.
    change (name (without_member u ch)) with (name ch).
    destruct (String.eqb (name c) (name ch)) eqn:En; simpl.
    + rewrite String.eqb_refl. exact Hl'.
    + rewrite En. constructor; [exact Hc|].
      destruct Hin as [->|Hin]; [rewrite String.eqb_refl in En; discriminate|].
      apply IH; assumption.
  - apply put_channel_forall; [exact Hl|].
    apply without_member_ok; [assumption|assumption|].
    rewrite E. discriminate.
Qed.

Lemma channels_without_names (u : Z) (ch : irc_channel) (l : list irc_channel) :
  NoDup (map name l) -> NoDup (map name (channels_without u ch l)).
Proof.
  intros Hnd. unfold channels_without.
  destruct (members (without_member u ch)).
  - apply drop_channel_nodup. rewrite put_channel_names. exact Hnd.
  - rewrite put_channel_names. exact Hnd.
Qed.

(** The user taken out is in one channel less; everyone else is where
    he was. *)
Lemma channels_without_count (u v : Z) (ch : irc_channel) (l : list irc_channel) :
  Forall chan_ok l -> NoDup (map name l) -> In ch l -> is_member u ch = true ->
  count_in v (channels_without u ch l) =
  count_in v l - (if v =? u then 1 else 0).
Proof.
  intros Hl Hnd Hin Hm. unfold channels_without.
  assert (Hch : chan_ok ch) by (rewrite Forall_forall in Hl; auto).
  assert (Hw : is_member v (without_member u ch)
               = (if v =? u then false else is_member v ch))
    by (apply is_member_without; apply (ok_distinct _ Hch)).
  assert (Hput : count_in v (put_channel (without_member u ch) l)
                 = count_in v l - b2z (is_member v ch)
                   + b2z (is_member v (without_member u ch)))
    by (apply count_in_put; auto).
  destruct (members (without_member u ch)) as [|m ms] eqn:E.
  - assert (Hf : is_member v (without_member u ch) = false)
      by (unfold is_member; rewrite E; reflexivity).
    rewrite (count_in_drop v (without_member u ch)).
    + rewrite Hput, Hf. rewrite Hf in Hw. destruct (v =? u) eqn:Ev; simpl b2z.
      * apply Z.eqb_eq in Ev. subst v. rewrite Hm. simpl. lia.
      * rewrite <- Hw. simpl. lia.
    + rewrite put_channel_names. exact Hnd.
    + eapply put_channel_in; eauto.
  - rewrite Hput, Hw. destruct (v =? u) eqn:Ev; simpl b2z.
    + apply Z.eqb_eq in Ev. subst v. rewrite Hm. simpl. lia.
    + lia.
Qed.

Lemma channels_without_other (u : Z) (c ch : irc_channel) (l : list irc_channel) :
  In c l -> name c <> name ch -> In c (channels_without u ch l).
Proof.
  intros Hin Hne. unfold channels_without.
  destruct (members (without_member u ch)).
  - apply drop_channel_other; [|exact Hne]. apply put_channel_other; assumption.
  - apply put_channel_other; assumption.
Qed.

End ChannelFacts.

(** ** Running the IRC functions *)
Module IrcRunFacts.
Import CInt CIntFacts CMonad CMonadFacts Irc ChannelFacts.
Local Open Scope cfun_scope.

Lemma add_sent_nil (st : irc_state) : add_sent [] st = st.
Proof. destruct st. unfold add_sent. simpl. rewrite app_nil_r. reflexivity. Qed.

Lemma add_sent_app (e1 e2 : list event) (st : irc_state) :
  add_sent e2 (add_sent e1 st) = add_sent (e1 ++ e2) st.
Proof. unfold add_sent. simpl. rewrite app_assoc. reflexivity. Qed.

Lemma bind_eq {A B : Type} (c : I A) (k : A -> I B) (st : irc_state) :
  bind c k st =
  match c st with
  | (Next a, s') => k a s'
  | (Return r, s') => (Return r, s')
  | (Stop w, s') => (Stop w, s')
  end.
Proof. reflexivity. Qed.

Lemma bind_next {A B : Type} (c : I A) (k : A -> I B) (st st1 : irc_state) (a : A) :
  c st = (Next a, st1) -> bind c k st = k a st1.
Proof. intros H. unfold bind. rewrite H. reflexivity. Qed.

Lemma emit_run (e : event) (st : irc_state) : emit e st = (Next tt, add_sent [e] st).
Proof. reflexivity. Qed.

Lemma lock_user_run (u : Z) (st : irc_state) :
  held st = [] ->
  lock_user u st =
  (Next tt, mk_state (user_at st) (users st) (channels st) (channels_wrlocked st)
              (observed st) [u] (sent st)).
Proof.
  intros H. unfold lock_user, bind, get, holds. rewrite H. simpl.
  unfold modify. rewrite H. reflexivity.
Qed.

Lemma send_reply_run (u : Z) (m : irc_msg) (st : irc_state) :
  held st = [] -> send_reply u m st = (Next tt, add_sent [EvSend u m] st).
Proof.
  intros H. unfold send_reply. rewrite (bind_next _ _ _ _ _ (lock_user_run u st H)).
  unfold bind, emit, unlock_user, modify, add_sent. simpl.
  rewrite Z.eqb_refl. simpl. rewrite H. reflexivity.
Qed.

Lemma send_numeric_run (u n : Z) (t : string) (st : irc_state) :
  held st = [] ->
  send_numeric u n t st = (Next tt, add_sent [EvSend u (Numeric n t)] st).
Proof. apply send_reply_run. Qed.

Lemma user_setactive_run (u now : Z) (st : irc_state) :
  held st = [] -> user_setactive u now st = (Next tt, touch u now st).
Proof.
  intros H. unfold user_setactive. rewrite (bind_next _ _ _ _ _ (lock_user_run u st H)).
  unfold bind, update_user, unlock_user, modify, touch. simpl.
  rewrite Z.eqb_refl. simpl. rewrite H. reflexivity.
Qed.

(** *** Functions that only write to clients *)

Lemma quiet_ret {A : Type} (a : A) : quiet (ret a).
Proof. intros st _. exists a, []. rewrite add_sent_nil. reflexivity. Qed.

Lemma quiet_bind {A B : Type} (c : I A) (k : A -> I B) :
  quiet c -> (forall a, quiet (k a)) -> quiet (bind c k).
Proof.
  intros Hc Hk st Hst. destruct (Hc st Hst) as (a & e1 & H1).
  destruct (Hk a (add_sent e1 st) Hst) as (b & e2 & H2).
  exists b, (e1 ++ e2). rewrite (bind_next _ _ _ _ _ H1), H2, add_sent_app.
  reflexivity.
Qed.

Lemma quiet_get {A : Type} (k : irc_state -> I A) :
  (forall s0, quiet (k s0)) -> quiet (bind get k).
Proof. intros Hk st Hst. unfold bind, get. apply Hk. exact Hst. Qed.

Lemma quiet_emit (e : event) : quiet (emit e).
Proof. intros st _. exists tt, [e]. reflexivity. Qed.

Lemma quiet_send_reply (u : Z) (m : irc_msg) : quiet (send_reply u m).
Proof. intros st Hst. exists tt, [EvSend u m]. apply send_reply_run. exact Hst. Qed.

Lemma quiet_send_numeric (u n : Z) (t : string) : quiet (send_numeric u n t).
Proof. apply quiet_send_reply. Qed.

Lemma quiet_for_each {A : Type} (l : list A) (body : A -> I unit) :
  (forall x, quiet (body x)) -> quiet (for_each l body).
Proof.
  intros Hb. induction l as [|x l IH]; simpl.
  - apply quiet_ret.
  - apply quiet_bind; [apply Hb | intros _; exact IH].
Qed.

Ltac quiet_step :=
  match goal with
  | |- quiet (bind get _) => apply quiet_get; intros
  | |- quiet (bind _ _) => apply quiet_bind; [|intros]
  | |- quiet (ret _) => apply quiet_ret
  | |- quiet (emit _) => apply quiet_emit
  | |- quiet (send_reply _ _) => apply quiet_send_reply
  | |- quiet (send_numeric _ _ _) => apply quiet_send_numeric
  | |- quiet (for_each _ _) => apply quiet_for_each; intros
  | |- quiet (if ?b then _ else _) => destruct b
  | |- quiet (match ?x with Some _ => _ | None => _ end) => destruct x
  end.

Ltac quiet_tac := repeat quiet_step.

Lemma quiet_send_to_member (member : irc_member) (m : irc_msg) :
  quiet (lock_user (m_user member) ;; emit (EvSend (m_user member) m) ;;
         unlock_user (m_user member)).
Proof. apply (quiet_send_reply (m_user member) m). Qed.

Lemma quiet_channel_broadcast (ch : irc_channel) (ex : option Z) (mm : Z) (m : irc_msg) :
  quiet (channel_broadcast ch ex mm m).
Proof.
  unfold channel_broadcast.
  apply quiet_bind; [|intros; quiet_tac].
  apply quiet_for_each. intros member.
  destruct (skipped ex mm member); [apply quiet_ret | apply quiet_send_to_member].
Qed.

Lemma quiet_names_loop (user : Z) (s0 : irc_state) (ms : list irc_member) :
  forall buf len, quiet (names_loop user s0 ms buf len).
Proof.
  induction ms as [|member ms IH]; intros buf len; simpl.
  - apply quiet_ret.
  - destruct (_ >=? 400); [|apply IH].
    apply quiet_bind; [apply quiet_send_numeric | intros _; apply IH].
Qed.

Lemma quiet_send_channel_members (user : Z) (ch : irc_channel) :
  quiet (send_channel_members user ch).
Proof.
  unfold send_channel_members. apply quiet_get. intros s0.
  apply quiet_bind; [apply quiet_names_loop | intros; quiet_tac].
Qed.

Lemma quiet_channel_print_topic (user : Z) (ch : irc_channel) :
  quiet (channel_print_topic user ch).
Proof. unfold channel_print_topic. quiet_tac. Qed.

(** What [join_channel] does once the lists are unlocked again. *)
Lemma join_announce_run (user : Z) (ch' : irc_channel) (member : irc_member)
    (st : irc_state) :
  held st = [] ->
  exists ev,
    (channel_broadcast ch' None 0 (MsgJoin user (name ch')) ;;
     (match topic ch' with
      | Some _ => channel_print_topic user ch'
      | None => ret tt
      end) ;;
     send_channel_members user ch' ;;
     (match get_channel_user_modes member with
      | Some modestr =>
        channel_broadcast ch' None 0 (MsgMode (name ch') modestr user) ;; ret tt
      | None => ret tt
      end) ;;
     return_ 0) st = (@Return Z 0, add_sent ev st).
Proof.
  intros Hh.
  destruct (quiet_channel_broadcast ch' None 0 (MsgJoin user (name ch')) st Hh)
    as (a1 & e1 & H1).
  rewrite (bind_next _ _ _ _ _ H1).
  assert (Q2 : quiet (match topic ch' with
                      | Some _ => channel_print_topic user ch'
                      | None => ret tt
                      end))
    by (destruct (topic ch'); [apply quiet_channel_print_topic | apply quiet_ret]).
  destruct (Q2 (add_sent e1 st) Hh) as (a2 & e2 & H2).
  rewrite (bind_next _ _ _ _ _ H2), add_sent_app.
  destruct (quiet_send_channel_members user ch' (add_sent (e1 ++ e2) st) Hh)
    as (a3 & e3 & H3).
  rewrite (bind_next _ _ _ _ _ H3), add_sent_app.
  assert (Q4 : quiet (match get_channel_user_modes member with
                      | Some modestr =>
                        channel_broadcast ch' None 0 (MsgMode (name ch') modestr user) ;;
                        ret tt
                      | None => ret tt
                      end)).
  { destruct (get_channel_user_modes member); [|apply quiet_ret].
    apply quiet_bind; [apply quiet_channel_broadcast | intros; apply quiet_ret]. }
  destruct (Q4 (add_sent ((e1 ++ e2) ++ e3) st) Hh) as (a4 & e4 & H4).
  rewrite (bind_next _ _ _ _ _ H4), add_sent_app.
  eexists. reflexivity.
Qed.

(** *** Taking a member out of a channel *)

#[local] Arguments channel_broadcast : simpl never.
#[local] Arguments send_reply : simpl never.
#[local] Arguments send_numeric : simpl never.
#[local] Arguments user_setactive : simpl never.

Lemma set_channels_run (l : list irc_channel) (st : irc_state) :
  set_channels l st = (Next tt, store_channels l st).
Proof. reflexivity. Qed.

Lemma update_user_run (u : Z) (f : irc_user -> irc_user) (st : irc_state) :
  update_user u f st = (Next tt, store_user u f st).
Proof. reflexivity. Qed.

(** With no member left, the channel leaves the list. *)
Lemma remove_if_empty_run (ch' : irc_channel) (st : irc_state) :
  In ch' (channels st) -> NoDup (map name (channels st)) ->
  (members ch' = [] -> membercount ch' = 0) ->
  remove_if_empty ch' st =
  (Next tt,
   match members ch' with
   | [] => store_channels (drop_channel (name ch') (channels st)) st
   | _ :: _ => st
   end).
Proof.
  intros Hin Hnd Hz. unfold remove_if_empty.
  destruct (members ch') as [|m ms]; [|reflexivity].
  unfold remove_channel, bind, get.
  rewrite (find_channel_unique _ _ Hnd Hin).
  rewrite set_channels_run. unfold channel_free. rewrite (Hz eq_refl).
  reflexivity.
Qed.

(** [kick_member] on a member of the channel. *)
Lemma kick_member_run (ch : irc_channel) (kicker kicked : Z) (why : string)
    (st : irc_state) :
  held st = [] -> In ch (channels st) -> NoDup (map name (channels st)) ->
  chan_ok ch -> is_member kicked ch = true ->
  exists ev,
    kick_member ch kicker kicked why st =
    (Next tt,
     match members (without_member kicked ch) with
     | [] => store_channels
               (drop_channel (name ch)
                  (put_channel (without_member kicked ch) (channels st)))
               (add_sent ev
                  (store_channels (put_channel (without_member kicked ch) (channels st)) st))
     | _ :: _ =>
       add_sent ev (store_channels (put_channel (without_member kicked ch) (channels st)) st)
     end).
Proof.
  intros Hh Hin Hnd Hok Hm. unfold kick_member. rewrite Hm.
  fold (without_member kicked ch).
  set (ch' := without_member kicked ch).
  set (st1 := store_channels (put_channel ch' (channels st)) st).
  destruct (quiet_channel_broadcast ch' None 0 (MsgKick kicker kicked (name ch) why) st1 Hh)
    as (a & ev & Hb).
  exists ev.
  unfold bind at 1. unfold bind at 1. unfold get at 1.
  rewrite (bind_next _ _ _ _ _ (set_channels_run _ st)). fold st1.
  rewrite (bind_next _ _ _ _ _ Hb). unfold ret at 1.
  rewrite remove_if_empty_run.
  - destruct (members ch'); reflexivity.
  - simpl. eapply put_channel_in; eauto.
  - simpl. rewrite put_channel_names. exact Hnd.
  - intros He. apply without_member_last; assumption.
Qed.

(** [kick_member] on someone who is not in the channel. *)
Lemma kick_member_absent (ch : irc_channel) (kicker kicked : Z) (why : string)
    (st : irc_state) :
  chan_ok ch -> is_member kicked ch = false ->
  kick_member ch kicker kicked why st = (Next tt, st).
Proof.
  intros Hok Hm. unfold kick_member. rewrite Hm.
  unfold bind, ret, remove_if_empty.
  destruct (members ch) eqn:E; [|reflexivity].
  exfalso. apply (ok_nonempty _ Hok). exact E.
Qed.

Lemma kick_member_summary (ch : irc_channel) (kicker kicked : Z) (why : string)
    (st : irc_state) :
  held st = [] -> In ch (channels st) -> NoDup (map name (channels st)) ->
  chan_ok ch -> is_member kicked ch = true ->
  exists st',
    kick_member ch kicker kicked why st = (Next tt, st') /\
    channels st' = channels_without kicked ch (channels st) /\
    user_at st' = user_at st /\ held st' = [] /\
    channels_wrlocked st' = channels_wrlocked st.
Proof.
  intros Hh Hin Hnd Hok Hm.
  destruct (kick_member_run ch kicker kicked why st Hh Hin Hnd Hok Hm) as (ev & Hrun).
  eexists. split; [exact Hrun|].
  unfold channels_without.
  destruct (members (without_member kicked ch)); simpl; repeat split; auto.
Qed.

(** [drop_member_if_present] on a member of the channel. *)
Lemma drop_member_summary (ch : irc_channel) (user : Z) (why : reason)
    (st : irc_state) :
  held st = [] -> In ch (channels st) -> NoDup (map name (channels st)) ->
  chan_ok ch -> is_member user ch = true ->
  exists st',
    drop_member_if_present ch user why st = (Next tt, st') /\
    channels st' = channels_without user ch (channels st) /\
    (forall k, counted k st' =
               if k =? user then wrap_int (counted k st - 1) else counted k st) /\
    held st' = [] /\
    channels_wrlocked st' = channels_wrlocked st /\
    (channels_wrlocked st = true -> observed st' = observed st).
Proof.
  intros Hh Hin Hnd Hok Hm. unfold drop_member_if_present. rewrite Hm.
  fold (without_member user ch).
  set (ch' := without_member user ch).
  set (st1 := store_channels (put_channel ch' (channels st)) st).
  set (st2 := store_user user
                (fun x => set_channelcount (wrap_int (channelcount x - 1)) x) st1).
  destruct (quiet_channel_broadcast ch' (Some user) 0 (MsgQuit user (name ch) why) st2 Hh)
    as (a & ev & Hb).
  unfold bind at 1. unfold bind at 1. unfold get at 1.
  rewrite (bind_next _ _ _ _ _ (set_channels_run _ st)). fold st1.
  rewrite (bind_next _ _ _ _ _ (update_user_run _ _ st1)). fold st2.
  rewrite (bind_next _ _ _ _ _ Hb). unfold ret at 1.
  rewrite remove_if_empty_run.
  - eexists. split; [reflexivity|].
    unfold channels_without. fold ch'.
    destruct (members ch'); simpl; unfold counted; simpl;
      (repeat split; auto;
       [intros k; destruct (k =? user); reflexivity | intros ->; reflexivity]).
  - simpl. eapply put_channel_in; eauto.
  - simpl. rewrite put_channel_names. exact Hnd.
  - intros He. apply without_member_last; assumption.
Qed.

Lemma drop_member_absent (ch : irc_channel) (user : Z) (why : reason)
    (st : irc_state) :
  chan_ok ch -> is_member user ch = false ->
  drop_member_if_present ch user why st = (Next tt, st).
Proof.
  intros Hok Hm. unfold drop_member_if_present. rewrite Hm.
  unfold bind, ret, remove_if_empty.
  destruct (members ch) eqn:E; [|reflexivity].
  exfalso. apply (ok_nonempty _ Hok). exact E.
Qed.

(** The loop of [leave_all_channels] over the channels [l] still to be
    visited. *)
Lemma drop_all_run (user : Z) (why : reason) (l : list irc_channel) :
  forall st,
  held st = [] -> channels_wrlocked st = true ->
  Forall chan_ok (channels st) -> NoDup (map name (channels st)) ->
  NoDup (map name l) -> incl l (channels st) ->
  count_in user l <= counted user st <= INT_MAX ->
  exists st',
    for_each l (fun ch => drop_member_if_present ch user why) st = (Next tt, st') /\
    Forall chan_ok (channels st') /\ NoDup (map name (channels st')) /\
    held st' = [] /\ channels_wrlocked st' = true /\ observed st' = observed st /\
    (forall k, k <> user ->
       counted k st' = counted k st /\
       count_in k (channels st') = count_in k (channels st)) /\
    counted user st' = counted user st - count_in user l /\
    count_in user (channels st') = count_in user (channels st) - count_in user l.
Proof.
  induction l as [|ch l IH]; intros st Hh Hw Hok Hnd Hl Hincl Hc.
  - exists st. simpl. unfold count_in. simpl.
    repeat split; auto; lia.
  - simpl for_each.
    assert (Hin : In ch (channels st)) by (apply Hincl; left; reflexivity).
    assert (Hch : chan_ok ch) by (rewrite Forall_forall in Hok; auto).
    inversion Hl as [|? ? Hn Hl']; subst.
    rewrite count_in_cons in *.
    pose proof (count_in_nonneg user l) as Hpos.
    destruct (is_member user ch) eqn:Hm.
    + destruct (drop_member_summary ch user why st Hh Hin Hnd Hch Hm)
        as (st1 & Hrun & Hchs & Hcnt & Hh1 & Hw1 & Ho1).
      rewrite (bind_next _ _ _ _ _ Hrun).
      simpl b2z in Hc.
      assert (Hc1 : counted user st1 = counted user st - 1).
      { rewrite Hcnt, Z.eqb_refl. apply wrap_int_id. unfold INT_MAX in *. lia. }
      destruct (IH st1) as (st' & Hrun' & Hok' & Hnd' & Hh' & Hw' & Ho' & Hoth & Hcu & Hci).
      * exact Hh1.
      * rewrite Hw1. exact Hw.
      * rewrite Hchs. apply channels_without_ok; assumption.
      * rewrite Hchs. apply channels_without_names. exact Hnd.
      * exact Hl'.
      * intros c Hc'. rewrite Hchs. apply channels_without_other.
        -- apply Hincl. right. exact Hc'.
        -- intros He. apply Hn. rewrite <- He. apply in_map. exact Hc'.
      * rewrite Hc1. lia.
      * exists st'. split; [exact Hrun'|].
        repeat split; auto.
        -- rewrite Ho'. apply Ho1. exact Hw.
        -- destruct (Hoth k H) as [H1 _]. rewrite H1, Hcnt.
           destruct (k =? user) eqn:E; [apply Z.eqb_eq in E; contradiction | reflexivity].
        -- destruct (Hoth k H) as [_ H2]. rewrite H2, Hchs.
           rewrite channels_without_count by assumption.
           destruct (k =? user) eqn:E; [apply Z.eqb_eq in E; contradiction | lia].
        -- rewrite Hcu, Hc1. simpl b2z. lia.
        -- rewrite Hci, Hchs. rewrite channels_without_count by assumption.
           rewrite Z.eqb_refl. simpl b2z. lia.
    + rewrite (bind_next _ _ _ _ _ (drop_member_absent ch user why st Hch Hm)).
      simpl b2z in *.
      assert (Hincl' : incl l (channels st))
        by (intros c Hc'; apply Hincl; right; exact Hc').
      assert (Hc' : count_in user l <= counted user st <= INT_MAX) by lia.
      destruct (IH st Hh Hw Hok Hnd Hl' Hincl' Hc')
        as (st' & Hrun' & Hok' & Hnd' & Hh' & Hw' & Ho' & Hoth & Hcu & Hci).
      exists st'. split; [exact Hrun'|].
      repeat split; auto; try lia; apply Hoth; assumption.
Qed.

(** *** The commands *)

Lemma wrlock_channels_run (st : irc_state) :
  channels_wrlocked st = false ->
  wrlock_channels st =
  (Next tt, mk_state (user_at st) (users st) (channels st) true (observed st)
              (held st) (sent st)).
Proof.
  intros H. unfold wrlock_channels, bind, get. rewrite H. reflexivity.
Qed.

Lemma unlock_channels_run (st : irc_state) :
  unlock_channels st =
  (Next tt, mk_state (user_at st) (users st) (channels st) false
              (observed st ++ [channels st]) (held st) (sent st)).
Proof. reflexivity. Qed.

Lemma call_next (c : I Z) (st st' : irc_state) (r : Z) :
  c st = (Next r, st') -> call c st = (Next r, st').
Proof. intros H. unfold call. rewrite H. reflexivity. Qed.

Lemma call_return (c : I Z) (st st' : irc_state) (r : Z) :
  c st = (Return r, st') -> call c st = (Next r, st').
Proof. intros H. unfold call. rewrite H. reflexivity. Qed.

(** QUIT: the user leaves every channel he is in, and his count goes
    down by their number. *)
Lemma leave_all_channels_run (user : Z) (why : reason) (st : irc_state) :
  state_ok st ->
  exists st',
    leave_all_channels user why st = (Next 0, st') /\
    Forall chan_ok (channels st') /\ NoDup (map name (channels st')) /\
    idle st' /\
    observed st' = observed st ++ [channels st'] /\
    memberships user st' = 0 /\
    counted user st' = counted user st - memberships user st /\
    (forall k, k <> user ->
       counted k st' = counted k st /\ memberships k st' = memberships k st).
Proof.
  intros [Hok Hnd Hcnt [Hh Hw]].
  unfold leave_all_channels.
  rewrite (bind_next _ _ _ _ _ (wrlock_channels_run st Hw)).
  unfold bind at 1. unfold get at 1.
  set (st0 := mk_state (user_at st) (users st) (channels st) true (observed st)
                (held st) (sent st)).
  destruct (drop_all_run user why (channels st) st0)
    as (st1 & Hrun & Hok1 & Hnd1 & Hh1 & Hw1 & Ho1 & Hoth & Hcu & Hci); auto.
  { apply incl_refl. }
  { destruct (Hcnt user) as [H1 H2]. unfold memberships, counted in *.
    simpl. unfold INT_MAX, MAX_CHANNELS in *. lia. }
  rewrite (bind_next _ _ _ _ _ Hrun).
  rewrite (bind_next _ _ _ _ _ (unlock_channels_run st1)).
  eexists. split; [reflexivity|]. unfold idle, memberships. simpl.
  repeat split; auto.
  - rewrite Ho1. reflexivity.
  - rewrite Hci. simpl. lia.
  - apply Hoth. assumption.
  - apply Hoth. assumption.
Qed.

(** PART *)
Lemma leave_channel_run (user : Z) (nm : string) (now : Z) (st : irc_state) :
  state_ok st ->
  exists r st',
    call (leave_channel user nm now) st = (Next r, st') /\
    idle st' /\
    match find_channel nm (channels st) with
    | Some ch =>
      if is_member user ch then
        r = 0 /\
        channels st' = channels_without user ch (channels st) /\
        observed st' = observed st ++ [channels st'] /\
        (forall k, counted k st' = if k =? user then counted k st - 1 else counted k st)
      else
        r = -1 /\ channels st' = channels st /\
        observed st' = observed st ++ [channels st] /\
        (forall k, counted k st' = counted k st)
    | None =>
      r = -1 /\ channels st' = channels st /\
      observed st' = observed st ++ [channels st] /\
      (forall k, counted k st' = counted k st)
    end.
Proof.
  intros [Hok Hnd Hcnt [Hh Hw]].
  unfold call, leave_channel.
  rewrite (bind_next _ _ _ _ _ (user_setactive_run user now st Hh)).
  rewrite (bind_next _ _ _ _ _ (wrlock_channels_run (touch user now st) Hw)).
  unfold bind at 1. unfold get at 1. cbn [channels touch].
  set (st0 := mk_state _ _ _ true _ _ _).
  assert (Hh0 : held st0 = []) by exact Hh.
  assert (Hcc : forall k, counted k st0 = counted k st).
  { intros k. unfold counted, st0. simpl. destruct (k =? user); reflexivity. }
  destruct (find_channel nm (channels st)) as [ch|] eqn:Ef.
  - destruct (find_channel_in _ _ _ Ef) as [Hin Hname].
    assert (Hch : chan_ok ch) by (rewrite Forall_forall in Hok; auto).
    destruct (is_member user ch) eqn:Hm.
    + (* the user is in the channel *)
      set (ch' := without_member user ch).
      destruct (quiet_channel_broadcast ch None 0 (MsgPart user (name ch)) st0 Hh0)
        as (a & ev & Hb).
      unfold bind at 1. unfold bind at 1. rewrite Hb.
      unfold bind at 1. unfold get at 1.
      rewrite (bind_next _ _ _ _ _ (set_channels_run _ _)).
      rewrite (bind_next _ _ _ _ _ (update_user_run _ _ _)).
      unfold ret at 1. fold (without_member user ch). fold ch'.
      set (st2 := store_user _ _ _).
      rewrite (bind_next _ _ _ _ _ (remove_if_empty_run ch' st2
                 ltac:(simpl; eapply put_channel_in; eauto)
                 ltac:(simpl; rewrite put_channel_names; exact Hnd)
                 ltac:(intros He; apply without_member_last; assumption))).
      rewrite (bind_next _ _ _ _ _ (unlock_channels_run _)).
      exists 0. eexists. split; [reflexivity|].
      unfold idle, channels_without. fold ch'.
      destruct (members ch'); simpl; unfold counted; simpl;
        (repeat split; auto; intros k; destruct (k =? user) eqn:E;
         [ apply Z.eqb_eq in E; subst k;
           apply wrap_int_id; destruct (Hcnt user) as [H1 H2];
           unfold counted, memberships, INT_MAX, MAX_CHANNELS in *;
           pose proof (count_in_nonneg user (channels st)); lia
         | reflexivity ]).
    + (* the user is not in the channel *)
      unfold bind at 1. unfold bind at 1. unfold ret at 1.
      assert (Hre : remove_if_empty ch st0 = (Next tt, st0)).
      { unfold remove_if_empty. destruct (members ch) eqn:E; [|reflexivity].
        exfalso. apply (ok_nonempty _ Hch). exact E. }
      rewrite Hre.
      rewrite (bind_next _ _ _ _ _ (unlock_channels_run _)).
      set (st3 := mk_state _ _ _ false _ _ _).
      assert (Hh3 : held st3 = []) by exact Hh.
      rewrite (bind_next _ _ _ _ _ (send_numeric_run user _ _ st3 Hh3)).
      exists (-1). eexists. split; [reflexivity|].
      unfold idle. simpl. repeat split; auto.
  - rewrite (bind_next _ _ _ _ _ (unlock_channels_run _)).
    set (st3 := mk_state _ _ _ false _ _ _).
    assert (Hh3 : held st3 = []) by exact Hh.
    rewrite (bind_next _ _ _ _ _ (send_numeric_run user _ _ st3 Hh3)).
    exists (-1). eexists. split; [reflexivity|].
    unfold idle. simpl. repeat split; auto.
Qed.

(** The checks on an existing channel let the user through, or unlock
    the list, answer and return -1. *)
Lemma join_checks_run (user : Z) (u : irc_user) (ch : irc_channel) (st : irc_state) :
  held st = [] ->
  join_checks user u ch st = (Next tt, st) \/
  exists ev,
    join_checks user u ch st =
    (Return (-1),
     add_sent ev (mk_state (user_at st) (users st) (channels st) false
                    (observed st ++ [channels st]) (held st) (sent st))).
Proof.
  intros Hh. unfold join_checks.
  assert (Hreject : forall n t,
            exists ev,
              (unlock_channels ;; send_numeric user n t ;; @return_ _ unit (-1)) st =
              (Return (-1),
               add_sent ev (mk_state (user_at st) (users st) (channels st) false
                              (observed st ++ [channels st]) (held st) (sent st)))).
  { intros n t.
    rewrite (bind_next _ _ _ _ _ (unlock_channels_run _)).
    set (s3 := mk_state _ _ _ false _ _ _).
    assert (Hh3 : held s3 = []) by exact Hh.
    rewrite (bind_next _ _ _ _ _ (send_numeric_run user _ _ s3 Hh3)).
    eexists. reflexivity. }
  destruct (has (cmodes ch) CHANNEL_MODE_TLS_ONLY && negb (has (umodes u) USER_MODE_SECURE));
    [right; apply Hreject|].
  destruct (has (cmodes ch) CHANNEL_MODE_REGISTERED_ONLY && negb (registered u));
    [right; apply Hreject|].
  destruct (has (cmodes ch) CHANNEL_MODE_LIMIT && negb (limit ch =? 0)
            && (membercount ch >=? limit ch));
    [right; apply Hreject|].
  left. reflexivity.
Qed.

(** JOIN *)
Lemma join_channel_run (user : Z) (nm : string) (now : Z) (logfile : bool)
    (st : irc_state) :
  state_ok st ->
  exists r st',
    call (join_channel user nm now logfile) st = (Next r, st') /\
    idle st' /\
    (untouched st st' \/
     (r = 0 /\ counted user st <= MAX_CHANNELS /\
      exists ch m,
        m_user m = user /\ is_member user ch = false /\
        ((find_channel nm (channels st) = Some ch /\
          channels st' = put_channel (with_member m ch) (channels st)) \/
         (find_channel nm (channels st) = None /\ name ch = nm /\
          members ch = [] /\ membercount ch = 0 /\
          channels st' = with_member m ch :: channels st)) /\
        observed st' = observed st ++ [channels st'] /\
        (forall k, counted k st' = if k =? user then counted k st + 1 else counted k st))).
Proof.
  intros [Hok Hnd Hcnt [Hh Hw]].
  unfold call, join_channel.
  destruct (negb (VALID_CHANNEL_NAME nm) || (strlen nm >? MAX_CHANNEL_LENGTH)
            || negb (valid_channame nm)).
  { rewrite (bind_next _ _ _ _ _ (send_numeric_run user _ _ st Hh)).
    exists 0. eexists. split; [reflexivity|].
    split; [split; assumption|]. left. unfold untouched. simpl. auto. }
  unfold bind at 1. unfold gets at 1.
  destruct (channelcount (user_at st user) >? MAX_CHANNELS) eqn:Ecap.
  { rewrite (bind_next _ _ _ _ _ (send_numeric_run user _ _ st Hh)).
    exists 0. eexists. split; [reflexivity|].
    split; [split; assumption|]. left. unfold untouched. simpl. auto. }
  assert (Hcap : counted user st <= MAX_CHANNELS).
  { unfold counted. destruct (Z.gtb_spec (channelcount (user_at st user)) MAX_CHANNELS);
      [discriminate | lia]. }
  rewrite (bind_next _ _ _ _ _ (wrlock_channels_run st Hw)).
  unfold bind at 1. unfold get at 1. cbn [channels].
  set (u := user_at st user).
  set (st0 := mk_state _ _ _ true _ _ _).
  assert (Hh0 : held st0 = []) by exact Hh.
  (* the tail after the channel has been found or made *)
  assert (Htail : forall (newchan : bool) (ch : irc_channel) (s1 : irc_state),
            held s1 = [] -> channels_wrlocked s1 = true ->
            is_member user ch = false ->
            exists st',
              (let member := new_member user u newchan in
               let ch' := with_members (member :: members ch)
                            (wrap_uint (membercount ch + 1)) ch in
               st1 <- get ;;
               set_channels (put_channel ch' (channels st1)) ;;
               update_user user
                 (fun x => set_channelcount (wrap_int (channelcount x + 1)) x) ;;
               unlock_channels ;;
               user_setactive user now ;;
               channel_broadcast ch' None 0 (MsgJoin user (name ch')) ;;
               (match topic ch' with
                | Some _ => channel_print_topic user ch'
                | None => ret tt
                end) ;;
               send_channel_members user ch' ;;
               (match get_channel_user_modes member with
                | Some modestr =>
                  channel_broadcast ch' None 0 (MsgMode (name ch') modestr user) ;; ret tt
                | None => ret tt
                end) ;;
               return_ 0) s1 = (@Return Z 0, st') /\
              idle st' /\
              channels st' =
                put_channel (with_member (new_member user u newchan) ch) (channels s1) /\
              observed st' = observed s1 ++ [channels st'] /\
              (forall k, counted k st' =
                 if k =? user then wrap_int (counted k s1 + 1) else counted k s1)).
  { intros newchan ch s1 Hh1 Hw1 Hm. cbv zeta.
    unfold bind at 1. unfold get at 1.
    rewrite (bind_next _ _ _ _ _ (set_channels_run _ _)).
    rewrite (bind_next _ _ _ _ _ (update_user_run _ _ _)).
    rewrite (bind_next _ _ _ _ _ (unlock_channels_run _)).
    set (s2 := mk_state _ _ _ false _ _ _).
    assert (Hh2 : held s2 = []) by exact Hh1.
    rewrite (bind_next _ _ _ _ _ (user_setactive_run user now s2 Hh2)).
    destruct (join_announce_run user
                (with_members (new_member user u newchan :: members ch)
                   (wrap_uint (membercount ch + 1)) ch)
                (new_member user u newchan) (touch user now s2) Hh2) as (ev & Ha).
    rewrite Ha. eexists. split; [reflexivity|].
    unfold idle. simpl. rewrite Hw1.
    repeat split; auto.
    intros k. unfold counted. simpl. destruct (k =? user); reflexivity. }
  destruct (find_channel nm (channels st)) as [ch|] eqn:Ef.
  - (* the channel exists *)
    destruct (find_channel_in _ _ _ Ef) as [Hin Hname].
    unfold bind at 1. unfold bind at 1.
    destruct (join_checks_run user u ch st0 Hh0) as [Hjc|(ev & Hjc)]; rewrite Hjc.
    2: { exists (-1). eexists. split; [reflexivity|].
         split; [split; [exact Hh | reflexivity]|].
         left. unfold untouched, st0. simpl. auto. }
    change (ret (false, ch) st0) with (Next (false, ch), st0). cbv beta iota.
    destruct (is_member user ch) eqn:Hm.
    + rewrite (bind_next _ _ _ _ _ (send_numeric_run user _ _ st0 Hh0)).
      rewrite (bind_next _ _ _ _ _ (unlock_channels_run _)).
      exists (-1). eexists. split; [reflexivity|].
      split; [split; [exact Hh | reflexivity]|].
      left. unfold untouched, st0. simpl. auto.
    + destruct (Htail false ch st0 Hh0 eq_refl Hm) as (st' & Hrun & Hi & Hchs & Hobs & Hcc).
      cbv zeta in Hrun. rewrite Hrun.
      exists 0, st'. split; [reflexivity|]. split; [exact Hi|]. right.
      split; [reflexivity|]. split; [exact Hcap|].
      exists ch, (new_member user u false).
      repeat split; auto.
      intros k. rewrite Hcc. destruct (k =? user) eqn:E; [|reflexivity].
      apply Z.eqb_eq in E. subst k.
      change (counted user st0) with (counted user st).
      apply wrap_int_id. destruct (Hcnt user) as [[H1 H2] H3].
      unfold INT_MAX, MAX_CHANNELS in *. lia.
  - (* the channel is made *)
    unfold bind at 1. unfold bind at 1.
    rewrite set_channels_run. cbv beta iota.
    set (ch := new_channel nm u logfile).
    change (ret (true, ch) (store_channels (ch :: channels st) st0))
      with (Next (true, ch), store_channels (ch :: channels st) st0).
    cbv beta iota.
    set (s1 := store_channels (ch :: channels st) st0).
    assert (Hm : is_member user ch = false) by reflexivity.
    rewrite Hm.
    destruct (Htail true ch s1 Hh0 eq_refl Hm) as (st' & Hrun & Hi & Hchs & Hobs & Hcc).
    cbv zeta in Hrun. rewrite Hrun.
    exists 0, st'. split; [reflexivity|]. split; [exact Hi|]. right.
    split; [reflexivity|]. split; [exact Hcap|].
    exists ch, (new_member user u true).
    assert (Hput : channels st' = with_member (new_member user u true) ch :: channels st).
    { rewrite Hchs. simpl. rewrite String.eqb_refl. reflexivity. }
    split; [reflexivity|]. split; [exact Hm|].
    split; [right; repeat split; auto|].
    split; [rewrite Hobs; reflexivity|].
    intros k. rewrite Hcc. destruct (k =? user) eqn:E; [|reflexivity].
    { apply Z.eqb_eq in E. subst k.
      change (counted user s1) with (counted user st).
      apply wrap_int_id. destruct (Hcnt user) as [[H1 H2] H3].
      unfold INT_MAX, MAX_CHANNELS in *. lia. }
Qed.

End IrcRunFacts.

(** ** What the commands keep *)
Module IrcInvariants.
Import CInt CIntFacts CMonad CMonadFacts Irc ChannelFacts IrcRunFacts.
Local Open Scope cfun_scope.

Lemma completes_unique (c : I Z) (st st1 st2 : irc_state) (r : Z) :
  call c st = (Next r, st1) -> completes c st st2 -> st2 = st1.
Proof. intros H1 (r2 & H2). congruence. Qed.

Lemma fresh_ok (st : irc_state) : fresh st -> state_ok st.
Proof.
  intros (Hc & Hz & Hi). constructor.
  - rewrite Hc. constructor.
  - rewrite Hc. constructor.
  - intros u. unfold memberships, count_in. rewrite Hc, Hz. simpl.
    unfold MAX_CHANNELS. lia.
  - exact Hi.
Qed.

Lemma untouched_ok (st st' : irc_state) :
  state_ok st -> idle st' -> untouched st st' ->
  state_ok st' /\ forall u, excess u st' = excess u st.
Proof.
  intros [Hok Hnd Hcnt _] Hi (Hc & Hk & _). split.
  - constructor; try (rewrite Hc; assumption); try assumption.
    intros u. unfold memberships. rewrite Hc, Hk. apply Hcnt.
  - intros u. unfold excess, memberships. rewrite Hc, Hk. reflexivity.
Qed.

Lemma with_member_ok (m : irc_member) (ch : irc_channel) :
  membercount ch = wrap_uint (Z.of_nat (length (members ch))) ->
  NoDup (map m_user (members ch)) ->
  is_member (m_user m) ch = false ->
  chan_ok (with_member m ch).
Proof.
  intros Hc Hd Hm. constructor; simpl.
  - discriminate.
  - rewrite Hc, wrap_uint_succ. f_equal. lia.
  - constructor; [|exact Hd].
    intros Hin. apply is_member_spec in Hin. congruence.
Qed.

(** JOIN keeps the state well formed and everybody's excess. *)
Lemma join_keeps (user : Z) (nm : string) (now : Z) (logfile : bool)
    (st st' : irc_state) :
  state_ok st -> completes (join_channel user nm now logfile) st st' ->
  state_ok st' /\ forall u, excess u st' = excess u st.
Proof.
  intros Hst Hrun.
  destruct (join_channel_run user nm now logfile st Hst)
    as (r & st1 & Hcall & Hi & Hres).
  rewrite (completes_unique _ _ _ _ _ Hcall Hrun). clear Hrun Hcall st'.
  destruct Hres as [Hu|(_ & Hcap & ch & m & Hmu & Hm & Hcase & _ & Hcc)];
    [apply untouched_ok; assumption|].
  destruct Hst as [Hok Hnd Hcnt _].
  assert (Hmem : forall k, is_member k (with_member m ch) = (user =? k) || is_member k ch)
    by (intros k; rewrite is_member_with, Hmu; reflexivity).
  assert (Hmk : forall k, memberships k st1 =
                          memberships k st + (if k =? user then 1 else 0)).
  { intros k. unfold memberships.
    destruct Hcase as [(Hf & ->)|(Hf & Hname & Hms & Hmc & ->)].
    - destruct (find_channel_in _ _ _ Hf) as [Hin _].
      rewrite (count_in_put k ch) by auto. rewrite Hmem.
      rewrite (Z.eqb_sym user k).
      unfold b2z. destruct (k =? user) eqn:E; cbn [orb].
      + apply Z.eqb_eq in E. subst k. rewrite Hm. simpl. lia.
      + lia.
    - rewrite count_in_cons, Hmem. rewrite (Z.eqb_sym user k).
      assert (Hk : is_member k ch = false) by (unfold is_member; rewrite Hms; reflexivity).
      rewrite Hk. unfold b2z. destruct (k =? user); cbn [orb]; lia. }
  split.
  - constructor.
    + destruct Hcase as [(Hf & ->)|(Hf & Hname & Hms & Hmc & ->)].
      * destruct (find_channel_in _ _ _ Hf) as [Hin _].
        assert (Hch : chan_ok ch) by (rewrite Forall_forall in Hok; auto).
        apply put_channel_forall; [exact Hok|].
        apply with_member_ok; [apply Hch | apply Hch | rewrite Hmu; exact Hm].
      * constructor; [|exact Hok].
        apply with_member_ok.
        -- rewrite Hmc, Hms. reflexivity.
        -- rewrite Hms. constructor.
        -- rewrite Hmu. exact Hm.
    + destruct Hcase as [(Hf & ->)|(Hf & Hname & Hms & Hmc & ->)].
      * rewrite put_channel_names. exact Hnd.
      * simpl. constructor; [|exact Hnd].
        rewrite Hname. apply find_channel_none. exact Hf.
    + intros u. rewrite Hmk, Hcc. destruct (Hcnt u) as [[H1 H2] H3].
      destruct (u =? user) eqn:E.
      * apply Z.eqb_eq in E. subst u. lia.
      * lia.
    + exact Hi.
  - intros u. unfold excess. rewrite Hmk, Hcc. destruct (u =? user); lia.
Qed.

(** PART keeps the state well formed and everybody's excess. *)
Lemma part_keeps (user : Z) (nm : string) (now : Z) (st st' : irc_state) :
  state_ok st -> completes (leave_channel user nm now) st st' ->
  state_ok st' /\ forall u, excess u st' = excess u st.
Proof.
  intros Hst Hrun.
  destruct (leave_channel_run user nm now st Hst) as (r & st1 & Hcall & Hi & Hres).
  rewrite (completes_unique _ _ _ _ _ Hcall Hrun). clear Hrun Hcall st'.
  destruct (find_channel nm (channels st)) as [ch|] eqn:Ef.
  - destruct (is_member user ch) eqn:Hm.
    + destruct Hres as (_ & Hchs & _ & Hcc).
      destruct (find_channel_in _ _ _ Ef) as [Hin _].
      destruct Hst as [Hok Hnd Hcnt _].
      assert (Hmk : forall k, memberships k st1 =
                              memberships k st - (if k =? user then 1 else 0)).
      { intros k. unfold memberships. rewrite Hchs.
        apply channels_without_count; assumption. }
      split.
      * constructor.
        -- rewrite Hchs. apply channels_without_ok; assumption.
        -- rewrite Hchs. apply channels_without_names. exact Hnd.
        -- intros u. rewrite Hmk, Hcc. destruct (Hcnt u) as [[H1 H2] H3].
           pose proof (count_in_nonneg u (channels st1)) as Hpos.
           fold (memberships u st1) in Hpos. rewrite Hmk in Hpos.
           destruct (u =? user); lia.
        -- exact Hi.
      * intros u. unfold excess. rewrite Hmk, Hcc. destruct (u =? user); lia.
    + destruct Hres as (_ & Hchs & Hobs & Hcc).
      apply untouched_ok; [assumption|assumption|].
      unfold untouched. auto.
  - destruct Hres as (_ & Hchs & Hobs & Hcc).
    apply untouched_ok; [assumption|assumption|].
    unfold untouched. auto.
Qed.

(** QUIT keeps the state well formed and everybody's excess. *)
Lemma quit_keeps (user : Z) (why : reason) (st st' : irc_state) :
  state_ok st -> completes (leave_all_channels user why) st st' ->
  state_ok st' /\ forall u, excess u st' = excess u st.
Proof.
  intros Hst Hrun.
  destruct (leave_all_channels_run user why st Hst)
    as (st1 & Hcall & Hok1 & Hnd1 & Hi & _ & Hm0 & Hcu & Hoth).
  rewrite (completes_unique _ _ _ _ _ (call_next _ _ _ _ Hcall) Hrun).
  clear Hrun Hcall st'.
  destruct Hst as [Hok Hnd Hcnt _].
  split.
  - constructor; try assumption.
    intros u. destruct (Z.eq_dec u user) as [->|Hne].
    + rewrite Hm0, Hcu. destruct (Hcnt user) as [[H1 H2] H3]. lia.
    + destruct (Hoth u Hne) as [H1 H2]. rewrite H1, H2. apply Hcnt.
  - intros u. unfold excess. destruct (Z.eq_dec u user) as [->|Hne].
    + rewrite Hm0, Hcu. lia.
    + destruct (Hoth u Hne) as [H1 H2]. rewrite H1, H2. reflexivity.
Qed.

(** A kick keeps the state well formed; the excess of the user who was
    kicked grows by one when he was in the channel. *)
Lemma kick_keeps (ch : irc_channel) (kicker kicked : Z) (why : string)
    (st st' : irc_state) :
  state_ok st -> In ch (channels st) ->
  completes (kick_member ch kicker kicked why ;; ret 0) st st' ->
  state_ok st' /\
  (forall u, excess u st' =
             excess u st + (if (u =? kicked) && is_member kicked ch then 1 else 0)) /\
  (forall u, counted u st' = counted u st) /\
  channels st' = (if is_member kicked ch
                  then channels_without kicked ch (channels st)
                  else channels st).
Proof.
  intros Hst Hin (r & Hrun).
  destruct Hst as [Hok Hnd Hcnt [Hh Hw]].
  assert (Hch : chan_ok ch) by (rewrite Forall_forall in Hok; auto).
  unfold call in Hrun.
  destruct (is_member kicked ch) eqn:Hm.
  - destruct (kick_member_summary ch kicker kicked why st Hh Hin Hnd Hch Hm)
      as (st1 & Hk & Hchs & Hua & Hh1 & Hw1).
    rewrite (bind_next _ _ _ _ _ Hk) in Hrun. unfold ret in Hrun.
    injection Hrun as _ <-.
    assert (Hcc : forall u, counted u st1 = counted u st)
      by (intros u; unfold counted; rewrite Hua; reflexivity).
    assert (Hmk : forall k, memberships k st1 =
                            memberships k st - (if k =? kicked then 1 else 0)).
    { intros k. unfold memberships. rewrite Hchs.
      apply channels_without_count; assumption. }
    split; [|split; [|split]].
    + constructor.
      * rewrite Hchs. apply channels_without_ok; assumption.
      * rewrite Hchs. apply channels_without_names. exact Hnd.
      * intros u. rewrite Hmk, Hcc. destruct (Hcnt u) as [[H1 H2] H3].
        pose proof (count_in_nonneg u (channels st1)) as Hpos.
        fold (memberships u st1) in Hpos. rewrite Hmk in Hpos.
        destruct (u =? kicked); lia.
      * split; [exact Hh1 | rewrite Hw1; exact Hw].
    + intros u. unfold excess. rewrite Hmk, Hcc.
      destruct (u =? kicked); simpl; lia.
    + exact Hcc.
    + exact Hchs.
  - rewrite (bind_next _ _ _ _ _ (kick_member_absent ch kicker kicked why st Hch Hm)) in Hrun.
    unfold ret in Hrun. injection Hrun as _ <-.
    split; [constructor; auto; split; assumption|].
    split; [|split; reflexivity].
    intros u. rewrite andb_false_r. lia.
Qed.

(** Every command keeps the state well formed and lowers nobody's
    excess. *)
Lemma step_keeps (st st' : irc_state) :
  state_ok st -> step st st' ->
  state_ok st' /\ forall u, excess u st <= excess u st'.
Proof.
  intros Hst Hstep. destruct Hstep as
    [ user nm now logfile st st' Hrun
    | user nm now st st' Hrun
    | user why st st' Hrun
    | ch kicker kicked why st st' Hin Hrun ].
  - destruct (join_keeps _ _ _ _ _ _ Hst Hrun) as [H1 H2].
    split; [exact H1|]. intros u. rewrite H2. lia.
  - destruct (part_keeps _ _ _ _ _ Hst Hrun) as [H1 H2].
    split; [exact H1|]. intros u. rewrite H2. lia.
  - destruct (quit_keeps _ _ _ _ Hst Hrun) as [H1 H2].
    split; [exact H1|]. intros u. rewrite H2. lia.
  - destruct (kick_keeps _ _ _ _ _ _ Hst Hin Hrun) as (H1 & H2 & _).
    split; [exact H1|]. intros u. rewrite H2.
    destruct ((u =? kicked) && is_member kicked ch); lia.
Qed.

Lemma steps_keep (st st' : irc_state) :
  state_ok st -> steps st st' ->
  state_ok st' /\ forall u, excess u st <= excess u st'.
Proof.
  intros Hst Hsteps. induction Hsteps as [st|st st1 st2 Hsteps IH Hstep].
  - split; [exact Hst|]. intros u. lia.
  - destruct (IH Hst) as [Hok1 Hex1].
    destruct (step_keeps _ _ Hok1 Hstep) as [Hok2 Hex2].
    split; [exact Hok2|]. intros u. specialize (Hex1 u). specialize (Hex2 u). lia.
Qed.

End IrcInvariants.

(** ** Claims about the channel engine *)
Module IrcClaims.
Import CInt CIntFacts CMonad CMonadFacts Irc ChannelFacts IrcRunFacts IrcInvariants.
Local Open Scope cfun_scope.

Lemma completes_after (c : I Z) (st : irc_state) (r : Z) :
  fst (call c st) = Next r -> completes c st (after c st).
Proof.
  intros H. exists r. unfold after.
  destruct (call c st) as [f s]. simpl in *. subst f. reflexivity.
Qed.

Lemma sample_start_fresh : fresh sample_start.
Proof.
  split; [reflexivity|]. split; [|split; reflexivity].
  intros u. unfold counted, sample_start, sample_users. simpl.
  destruct (u =? 1); [reflexivity|]. destruct (u =? 2); reflexivity.
Qed.

Lemma solo_state_reachable : steps sample_start solo_state.
Proof.
  eapply steps_step; [apply steps_refl|].
  apply (step_join 1 "#solo" 10 false).
  apply (completes_after _ _ 0). vm_compute. reflexivity.
Qed.

Lemma room_state_reachable : steps sample_start room_state.
Proof.
  eapply steps_step; [eapply steps_step; [apply steps_refl|]|].
  - apply (step_join 1 "#room" 10 false).
    apply (completes_after _ _ 0). vm_compute. reflexivity.
  - apply (step_join 2 "#room" 11 false).
    apply (completes_after _ _ 0). vm_compute. reflexivity.
Qed.


(** With the count over the limit JOIN answers 405 and does nothing
    else. *)
Lemma join_over_cap (user : Z) (nm : string) (now : Z) (logfile : bool)
    (st : irc_state) :
  held st = [] ->
  negb (VALID_CHANNEL_NAME nm) || (strlen nm >? MAX_CHANNEL_LENGTH)
    || negb (valid_channame nm) = false ->
  MAX_CHANNELS < counted user st ->
  call (join_channel user nm now logfile) st =
  (Next 0, add_sent [EvSend user (Numeric 405 "You have joined too many channels")] st).
Proof.
  intros Hh Hname Hcap. unfold call, join_channel. rewrite Hname.
  unfold gets at 1. rewrite bind_eq. cbv beta iota.
  fold (counted user st).
  replace (counted user st >? MAX_CHANNELS) with true
    by (symmetry; apply Z.gtb_lt; exact Hcap).
  rewrite (bind_next _ _ _ _ _ (send_numeric_run _ _ _ _ Hh)).
  reflexivity.
Qed.

(** PART takes the user out of the channel and lowers the count. *)
Lemma part_decrements_both (user : Z) (nm : string) (now : Z) (c : irc_channel)
    (st st' : irc_state) :
  state_ok st -> find_channel nm (channels st) = Some c ->
  is_member user c = true ->
  completes (leave_channel user nm now) st st' ->
  channels st' = channels_without user c (channels st) /\
  memberships user st' = memberships user st - 1 /\
  counted user st' = counted user st - 1.
Proof.
  intros Hst Hf Hm Hrun.
  destruct (leave_channel_run user nm now st Hst) as (r & st1 & Hcall & _ & Hres).
  rewrite (completes_unique _ _ _ _ _ Hcall Hrun). clear Hrun Hcall st'.
  rewrite Hf, Hm in Hres. destruct Hres as (_ & Hchs & _ & Hcc).
  destruct (find_channel_in _ _ _ Hf) as [Hin _].
  split; [exact Hchs|]. split.
  - unfold memberships. rewrite Hchs.
    rewrite channels_without_count by (try apply Hst; assumption).
    rewrite Z.eqb_refl. reflexivity.
  - rewrite Hcc, Z.eqb_refl. reflexivity.
Qed.

(** QUIT takes the user out of every channel and lowers the count by
    as many. *)
Lemma quit_decrements_both (user : Z) (why : reason) (st st' : irc_state) :
  state_ok st -> completes (leave_all_channels user why) st st' ->
  memberships user st' = 0 /\
  counted user st' = counted user st - memberships user st.
Proof.
  intros Hst Hrun.
  destruct (leave_all_channels_run user why st Hst)
    as (st1 & Hcall & _ & _ & _ & _ & Hm0 & Hcu & _).
  rewrite (completes_unique _ _ _ _ _ (call_next _ _ _ _ Hcall) Hrun).
  split; assumption.
Qed.

(** C10. In a state that JOIN, PART, QUIT and kicks have led to from
    the empty server, a kick takes the user out of the channel (whose
    member count goes down by one, the channel going with its last
    member) and leaves the channel count of the user as it was, while
    PART and QUIT in the same state lower the count together with the
    memberships. From the
    kick on, whatever is joined, left or kicked, the count of the kicked
    user is above the number of channels the user is in; and it is the
    count that JOIN compares with the limit: once it is over
    MAX_CHANNELS, JOIN to a well-formed name answers 405 and changes
    nothing. *)
Theorem kick_leaves_channelcount
    (st0 st st1 st2 : irc_state) (ch : irc_channel) (kicker kicked : Z)
    (why : string) :
  fresh st0 -> steps st0 st ->
  In ch (channels st) -> is_member kicked ch = true ->
  completes (kick_member ch kicker kicked why ;; ret 0) st st1 ->
  steps st1 st2 ->
  (channels st1 = channels_without kicked ch (channels st) /\
   is_member kicked (without_member kicked ch) = false /\
   Z.of_nat (length (members (without_member kicked ch)))
     = Z.of_nat (length (members ch)) - 1 /\
   membercount (without_member kicked ch) = wrap_uint (membercount ch - 1) /\
   memberships kicked st1 = memberships kicked st - 1 /\
   counted kicked st1 = counted kicked st) /\
  (forall user nm now c s',
     find_channel nm (channels st) = Some c -> is_member user c = true ->
     completes (leave_channel user nm now) st s' ->
     memberships user s' = memberships user st - 1 /\
     counted user s' = counted user st - 1) /\
  (forall user reason s',
     completes (leave_all_channels user reason) st s' ->
     memberships user s' = 0 /\
     counted user s' = counted user st - memberships user st) /\
  memberships kicked st2 < counted kicked st2 /\
  (forall nm now logfile,
     negb (VALID_CHANNEL_NAME nm) || (strlen nm >? MAX_CHANNEL_LENGTH)
       || negb (valid_channame nm) = false ->
     MAX_CHANNELS < counted kicked st2 ->
     call (join_channel kicked nm now logfile) st2 =
     (Next 0, add_sent [EvSend kicked (Numeric 405 "You have joined too many channels")] st2)).
Proof.
  intros Hfresh Hreach Hin Hm Hkick Hsteps.
  assert (Hst : state_ok st).
  { apply (steps_keep st0 st); [apply fresh_ok; exact Hfresh | exact Hreach]. }
  destruct (kick_keeps _ _ _ _ _ _ Hst Hin Hkick) as (Hok1 & Hex & Hcc & Hchs).
  rewrite Hm in Hchs, Hex.
  destruct (steps_keep _ _ Hok1 Hsteps) as [Hok2 Hmono].
  assert (Hch : chan_ok ch).
  { destruct Hst as [Hok _ _ _]. rewrite Forall_forall in Hok. auto. }
  split; [|split; [|split; [|split]]].
  - split; [exact Hchs|]. split.
    { rewrite is_member_without by apply Hch. rewrite Z.eqb_refl. reflexivity. }
    split.
    { unfold without_member. simpl.
      rewrite (drop_member_length kicked (members ch)) by exact Hm. lia. }
    split; [reflexivity|]. split; [|apply Hcc].
    specialize (Hex kicked). rewrite Z.eqb_refl in Hex. simpl in Hex.
    unfold excess in Hex. rewrite Hcc in Hex. lia.
  - intros user nm now c s' Hf Hmc Hrun.
    destruct (part_decrements_both _ _ _ _ _ _ Hst Hf Hmc Hrun) as (_ & H1 & H2).
    split; assumption.
  - intros user reason s' Hrun. exact (quit_decrements_both _ _ _ _ Hst Hrun).
  - specialize (Hex kicked). rewrite Z.eqb_refl in Hex. simpl in Hex.
    specialize (Hmono kicked).
    destruct Hst as [_ _ Hcnt _]. specialize (Hcnt kicked).
    unfold excess in *. lia.
  - intros nm now logfile Hname Hcap.
    apply join_over_cap; [apply Hok2 | exact Hname | exact Hcap].
Qed.

Lemma kick_leaves_channelcount_witness :
  memberships 2 room_kicked_state < counted 2 room_kicked_state.
Proof.
  refine (proj1 (proj2 (proj2 (proj2
            (kick_leaves_channelcount sample_start room_state room_kicked_state
               room_kicked_state room_channel 1 2 "out" _ _ _ _ _ _))))).
  - exact sample_start_fresh.
  - exact room_state_reachable.
  - vm_compute. left. reflexivity.
  - vm_compute. reflexivity.
  - apply (completes_after _ _ 0). vm_compute. reflexivity.
  - apply steps_refl.
Defined.

(** alice has created #solo and has been kicked from it 51 times: she is
    in no channel, and JOIN turns her away. *)
Example kicked_out_of_everything :
  let st := join_and_kick 51 sample_start in
  memberships 1 st = 0 /\ counted 1 st = 51 /\
  fst (call (join_channel 1 "#solo" 10 false) st) = Next 0 /\
  channels (after (join_channel 1 "#solo" 10 false) st) = [] /\
  last (sent (after (join_channel 1 "#solo" 10 false) st)) (EvWarning "")
    = EvSend 1 (Numeric 405 "You have joined too many channels").
Proof. vm_compute. repeat split. Qed.

(** In every state that JOIN, PART, QUIT and kicks lead to, the channels
    of the list have members, as many as their count says. *)
Lemma reachable_channels_ok (st0 st : irc_state) :
  fresh st0 -> steps st0 st -> Forall chan_ok (channels st).
Proof.
  intros H0 Hsteps.
  apply (steps_keep st0 st (fresh_ok st0 H0) Hsteps).
Qed.

(** JOIN, PART and QUIT never show a channel without members. *)
Lemma locked_step_seen_ok (st st' : irc_state) :
  state_ok st -> seen_ok st -> locked_step st st' -> seen_ok st'.
Proof.
  intros Hst Hseen Hstep. unfold seen_ok in *.
  assert (Hnow : Forall chan_ok (channels st)) by apply Hst.
  destruct Hstep as
    [ user nm now logfile st st' Hrun
    | user nm now st st' Hrun
    | user why st st' Hrun ].
  - destruct (join_keeps _ _ _ _ _ _ Hst Hrun) as [Hok' _].
    destruct (join_channel_run user nm now logfile st Hst)
      as (r & st1 & Hcall & _ & Hres).
    rewrite (completes_unique _ _ _ _ _ Hcall Hrun) in *.
    destruct Hres as [(_ & _ & [Ho|Ho])|(_ & _ & ch & m & _ & _ & _ & Ho & _)];
      rewrite Ho; try assumption; apply Forall_app; split; auto.
    constructor; [apply Hok' | constructor].
  - destruct (part_keeps _ _ _ _ _ Hst Hrun) as [Hok' _].
    destruct (leave_channel_run user nm now st Hst) as (r & st1 & Hcall & _ & Hres).
    rewrite (completes_unique _ _ _ _ _ Hcall Hrun) in *.
    assert (Ho : observed st1 = observed st ++ [channels st] \/
                 observed st1 = observed st ++ [channels st1]).
    { destruct (find_channel nm (channels st)) as [ch|];
        [destruct (is_member user ch)|]; intuition. }
    destruct Ho as [Ho|Ho]; rewrite Ho; apply Forall_app; split; auto.
    constructor; [apply Hok' | constructor].
  - destruct (quit_keeps _ _ _ _ Hst Hrun) as [Hok' _].
    destruct (leave_all_channels_run user why st Hst)
      as (st1 & Hcall & _ & _ & _ & Ho & _).
    rewrite (completes_unique _ _ _ _ _ (call_next _ _ _ _ Hcall) Hrun) in *.
    rewrite Ho. apply Forall_app; split; auto.
    constructor; [apply Hok' | constructor].
Qed.

(** A kick of the only member of a channel: before the channel is taken
    out of the list, the list shows it without members. *)
Lemma kick_of_sole_member_seen (ch : irc_channel) (kicker kicked : Z) (why : string)
    (st : irc_state) :
  state_ok st -> In ch (channels st) -> is_member kicked ch = true ->
  members (without_member kicked ch) = [] ->
  let shown := put_channel (without_member kicked ch) (channels st) in
  In shown (observed (snd (kick_member ch kicker kicked why st))) /\
  In (without_member kicked ch) shown /\
  channels (snd (kick_member ch kicker kicked why st))
    = drop_channel (name ch) shown.
Proof.
  intros [Hok Hnd _ [Hh Hw]] Hin Hm Hempty shown.
  assert (Hch : chan_ok ch) by (rewrite Forall_forall in Hok; auto).
  destruct (kick_member_run ch kicker kicked why st Hh Hin Hnd Hch Hm) as (ev & Hrun).
  rewrite Hrun, Hempty. fold shown.
  split; [|split].
  - unfold store_channels, add_sent. cbn. rewrite Hw.
    apply in_or_app. left. apply in_or_app. right. left. reflexivity.
  - unfold shown. eapply put_channel_in; [exact Hin | reflexivity].
  - reflexivity.
Qed.

(** KICK from an operator of the channel, for a user who is on it. *)
Lemma handle_kick_run (user : Z) (channame kickusername why : string)
    (member kickuser : irc_member) (kickchan : irc_channel) (st : irc_state) :
  get_member_by_channel_name user channame st = Some member ->
  authorized_atleast member CHANNEL_USER_MODE_HALFOP <> 0 ->
  find_channel channame (channels st) = Some kickchan ->
  get_member_by_username kickusername (name kickchan) st = Some kickuser ->
  handle_kick user channame kickusername why st =
  (kick_member kickchan user (m_user kickuser) why ;; ret 0) st.
Proof.
  intros Hm Hauth Hf Hk. unfold handle_kick.
  unfold get at 1. rewrite bind_eq. cbv beta iota.
  rewrite Hm. apply Z.eqb_neq in Hauth. rewrite Hauth, Hf, Hk. reflexivity.
Qed.

(** C3. In every state that JOIN, PART, QUIT and kicks lead to from the
    empty server, the channels of the list have members and a count that
    agrees with them, and this is so again after a kick. But the kick
    does not hold the write lock of the list while it works: when it
    takes the last member out of a channel, the list shows that channel
    with no member and a count of 0 before the channel is taken out of
    it, and a reader has seen a channel without members. *)
Theorem kick_of_last_member_is_seen
    (st0 st : irc_state) (ch : irc_channel) (kicker kicked : Z) (why : string) :
  fresh st0 -> steps st0 st ->
  In ch (channels st) -> is_member kicked ch = true ->
  members (without_member kicked ch) = [] ->
  let st' := snd (kick_member ch kicker kicked why st) in
  Forall chan_ok (channels st) /\
  fst (kick_member ch kicker kicked why st) = Next tt /\
  Forall chan_ok (channels st') /\
  (exists shown,
     In shown (observed st') /\ In (without_member kicked ch) shown /\
     membercount (without_member kicked ch) = 0) /\
  ~ seen_ok st'.
Proof.
  intros Hfresh Hreach Hin Hm Hempty st'.
  assert (Hst : state_ok st).
  { apply (steps_keep st0 st); [apply fresh_ok; exact Hfresh | exact Hreach]. }
  assert (Hch : chan_ok ch).
  { destruct Hst as [Hok _ _ _]. rewrite Forall_forall in Hok. auto. }
  destruct (kick_of_sole_member_seen ch kicker kicked why st Hst Hin Hm Hempty)
    as (Hseen & Hshown & _).
  fold st' in Hseen.
  destruct (kick_member_summary ch kicker kicked why st
              (proj1 (ok_idle _ Hst)) Hin (ok_names _ Hst) Hch Hm)
    as (st1 & Hrun & Hchs & _).
  split; [apply Hst|]. split; [rewrite Hrun; reflexivity|]. split.
  - unfold st'. rewrite Hrun. cbn [snd]. rewrite Hchs.
    apply channels_without_ok; [apply Hst | exact Hin | exact Hm].
  - split.
    + eexists. split; [exact Hseen|]. split; [exact Hshown|].
      apply without_member_last; assumption.
    + intros Hall. unfold seen_ok in Hall. rewrite Forall_forall in Hall.
      specialize (Hall _ Hseen). rewrite Forall_forall in Hall.
      specialize (Hall _ Hshown). apply (ok_nonempty _ Hall). exact Hempty.
Qed.

Lemma kick_of_last_member_is_seen_witness :
  ~ seen_ok (snd (kick_member solo_channel 1 1 "bye" solo_state)).
Proof.
  refine (proj2 (proj2 (proj2 (proj2
            (kick_of_last_member_is_seen sample_start solo_state solo_channel
               1 1 "bye" _ _ _ _ _))))).
  - exact sample_start_fresh.
  - exact solo_state_reachable.
  - vm_compute. left. reflexivity.
  - vm_compute. reflexivity.
  - vm_compute. reflexivity.
Defined.

(** The command that does it: alice, alone in #solo, sends
    KICK #solo alice. The command returns, #solo is gone from the list,
    and in between the list has shown #solo with no member and a count
    of 0; before, nobody had seen such a channel. *)
Example kick_command_shows_empty_channel :
  seen_ok solo_state /\
  fst (call (handle_kick 1 "#solo" "alice" "bye") solo_state) = Next 0 /\
  step solo_state solo_kicked_state /\
  channels solo_kicked_state = [] /\
  channels_wrlocked solo_kicked_state = false /\
  exists l ch,
    In l (observed solo_kicked_state) /\ In ch l /\
    name ch = "#solo"%string /\ members ch = [] /\ membercount ch = 0.
Proof.
  split.
  { apply (locked_step_seen_ok sample_start).
    - apply fresh_ok. exact sample_start_fresh.
    - constructor.
    - apply (locked_join 1 "#solo" 10 false).
      apply (completes_after _ _ 0). vm_compute. reflexivity. }
  split; [vm_compute; reflexivity|].
  split.
  { apply (step_kick solo_channel 1 1 "bye").
    - vm_compute. left. reflexivity.
    - unfold solo_kicked_state, after, call.
      rewrite (handle_kick_run 1 "#solo" "alice" "bye"
                 (mk_member 1 (Z.lor CHANNEL_USER_MODE_OP CHANNEL_USER_MODE_FOUNDER))
                 (mk_member 1 (Z.lor CHANNEL_USER_MODE_OP CHANNEL_USER_MODE_FOUNDER))
                 solo_channel);
        [| vm_compute; reflexivity | vm_compute; discriminate
         | vm_compute; reflexivity | vm_compute; reflexivity].
      apply (completes_after _ _ 0). vm_compute. reflexivity. }
  split; [vm_compute; reflexivity|].
  split; [vm_compute; reflexivity|].
  exists (nth 1 (observed solo_kicked_state) []).
  exists (hd solo_channel (nth 1 (observed solo_kicked_state) [])).
  vm_compute. repeat split; auto.
Qed.

(** *** PRIVMSG and NOTICE *)

Lemma broadcast_loop_run (ex : option Z) (mm : Z) (m : irc_msg)
    (ms : list irc_member) (st : irc_state) :
  held st = [] ->
  for_each ms
    (fun member =>
       if skipped ex mm member then ret tt
       else lock_user (m_user member) ;; emit (EvSend (m_user member) m) ;;
            unlock_user (m_user member)) st
  = (Next tt,
     add_sent (map (fun u => EvSend u m)
                 (map m_user (filter (fun x => negb (skipped ex mm x)) ms))) st).
Proof.
  revert st. induction ms as [|member ms IH]; intros st Hh.
  - simpl. rewrite add_sent_nil. reflexivity.
  - cbn [for_each filter]. destruct (skipped ex mm member); cbn [negb].
    + rewrite (bind_next _ _ st st tt) by reflexivity. apply IH. exact Hh.
    + change (lock_user (m_user member) ;; emit (EvSend (m_user member) m) ;;
              unlock_user (m_user member))
        with (send_reply (m_user member) m).
      rewrite (bind_next _ _ _ _ _ (send_reply_run _ _ _ Hh)).
      rewrite IH by exact Hh. rewrite add_sent_app. reflexivity.
Qed.

Lemma channel_broadcast_run (ch : irc_channel) (ex : option Z) (mm : Z)
    (m : irc_msg) (st : irc_state) :
  held st = [] ->
  channel_broadcast ch ex mm m st = (Next 0, add_sent (broadcast_events ch ex mm m) st).
Proof.
  intros Hh. unfold channel_broadcast, broadcast_events, recipients.
  rewrite (bind_next _ _ _ _ _ (broadcast_loop_run ex mm m (members ch) st Hh)).
  rewrite <- !add_sent_app.
  destruct (fp ch);
    destruct (forallb (skipped ex mm) (members ch)
              && match ex with None => true | Some _ => false end);
    unfold bind, emit, modify, ret, add_sent; cbn; rewrite ?app_nil_r; reflexivity.
Qed.

Section Privmsg.

Variables (user : Z) (channame : string) (notice : bool) (message : string) (now : Z).
Variable st : irc_state.
Hypothesis Hidle : held st = [].

Lemma privmsg_start (k : I Z) :
  (user_setactive user now ;; k) st = k (touch user now st).
Proof.
  rewrite (bind_next _ _ _ _ _ (user_setactive_run _ _ _ Hidle)). reflexivity.
Qed.

Lemma privmsg_reject (n : Z) (t : string) :
  (send_numeric user n t ;; return_ (-1)) (touch user now st) = rejected user now st n t.
Proof.
  rewrite (bind_next _ _ _ _ _ (send_numeric_run _ _ _ (touch user now st) Hidle)).
  reflexivity.
Qed.

(** An empty message is answered with 412. *)
Lemma privmsg_empty :
  strlen message = 0 ->
  privmsg user channame notice message now st = rejected user now st 412 "No text to send".
Proof.
  intros H. unfold privmsg. rewrite privmsg_start, H. cbn [Z.eqb].
  apply privmsg_reject.
Qed.

(** A message of 510 bytes or more is answered with 416. *)
Lemma privmsg_too_long :
  510 <= strlen message ->
  privmsg user channame notice message now st = rejected user now st 416 "Input too large".
Proof.
  intros H. unfold privmsg. rewrite privmsg_start.
  replace (strlen message =? 0) with false by (symmetry; apply Z.eqb_neq; lia).
  replace (strlen message >=? 510) with true by (symmetry; apply Z.geb_le; lia).
  apply privmsg_reject.
Qed.

Variable ch : irc_channel.
Hypothesis Hlen : 0 < strlen message < 510.
Hypothesis Hname : IS_CHANNEL_NAME channame = true.
Hypothesis Hfind : find_channel channame (channels st) = Some ch.

Lemma privmsg_to_channel :
  privmsg user channame notice message now st =
  (let m := find_member user (members ch) in
   if match m with None => true | Some _ => false end
      && has (cmodes ch) CHANNEL_MODE_NO_EXTERNAL
   then send_numeric user 442 "You're not on that channel" ;; return_ (-1)
   else
     minmode <-
       (if has (cmodes ch) CHANNEL_MODE_MODERATED then
          match m with
          | None => stop_ NullDeref
          | Some mm =>
            if authorized_atleast mm CHANNEL_USER_MODE_VOICE =? 0 then
              if has (cmodes ch) CHANNEL_MODE_REDUCED_MODERATION
              then ret CHANNEL_USER_MODE_HALFOP
              else
                send_numeric user 489
                  "You're neither voiced nor a channel operator" ;;
                return_ (-1)
            else ret CHANNEL_USER_MODE_NONE
          end
        else ret CHANNEL_USER_MODE_NONE) ;;
     channel_broadcast ch (Some user) minmode
       (MsgPrivmsg notice user (name ch) message) ;;
     return_ 0) (touch user now st).
Proof.
  unfold privmsg. rewrite privmsg_start.
  replace (strlen message =? 0) with false by (symmetry; apply Z.eqb_neq; lia).
  replace (strlen message >=? 510) with false
    by (symmetry; rewrite Z.geb_leb; apply Z.leb_gt; lia).
  rewrite Hname. cbn [negb].
  unfold get at 1. rewrite bind_eq. cbv beta iota.
  change (channels (touch user now st)) with (channels st).
  rewrite Hfind. reflexivity.
Qed.

(** Somebody who is not on a channel that takes no messages from
    outside is answered with 442. *)
Lemma privmsg_not_on_channel :
  find_member user (members ch) = None ->
  has (cmodes ch) CHANNEL_MODE_NO_EXTERNAL = true ->
  privmsg user channame notice message now st =
  rejected user now st 442 "You're not on that channel".
Proof.
  intros Hm Hn. rewrite privmsg_to_channel. cbv zeta. rewrite Hm, Hn.
  cbn [andb]. apply privmsg_reject.
Qed.

(** A member without voice is answered with 489 on a moderated
    channel. *)
Lemma privmsg_voiceless (mm : irc_member) :
  find_member user (members ch) = Some mm ->
  has (cmodes ch) CHANNEL_MODE_MODERATED = true ->
  authorized_atleast mm CHANNEL_USER_MODE_VOICE = 0 ->
  has (cmodes ch) CHANNEL_MODE_REDUCED_MODERATION = false ->
  privmsg user channame notice message now st =
  rejected user now st 489 "You're neither voiced nor a channel operator".
Proof.
  intros Hm Hmod Hv Hr. rewrite privmsg_to_channel. cbv zeta.
  rewrite Hm, Hmod, Hv, Hr. cbn [andb Z.eqb].
  rewrite bind_eq.
  rewrite (bind_next _ _ _ _ _ (send_numeric_run _ _ _ (touch user now st) Hidle)).
  reflexivity.
Qed.

(** With reduced moderation the message of a member without voice goes
    to the half-operators and above, and to nobody else. *)
Lemma privmsg_reduced (mm : irc_member) :
  find_member user (members ch) = Some mm ->
  has (cmodes ch) CHANNEL_MODE_MODERATED = true ->
  authorized_atleast mm CHANNEL_USER_MODE_VOICE = 0 ->
  has (cmodes ch) CHANNEL_MODE_REDUCED_MODERATION = true ->
  privmsg user channame notice message now st =
  (Return 0,
   add_sent (broadcast_events ch (Some user) CHANNEL_USER_MODE_HALFOP
               (MsgPrivmsg notice user (name ch) message))
     (touch user now st)).
Proof.
  intros Hm Hmod Hv Hr. rewrite privmsg_to_channel. cbv zeta.
  rewrite Hm, Hmod, Hv, Hr. cbn [andb Z.eqb].
  rewrite (bind_next _ _ (touch user now st) (touch user now st) CHANNEL_USER_MODE_HALFOP)
    by reflexivity.
  rewrite (bind_next _ _ _ _ _ (channel_broadcast_run _ _ _ _ (touch user now st) Hidle)).
  reflexivity.
Qed.

(** A member with voice, or any member when the channel is not
    moderated, is heard by all the others. *)
Lemma privmsg_delivered (mm : irc_member) :
  find_member user (members ch) = Some mm ->
  has (cmodes ch) CHANNEL_MODE_MODERATED = false \/
  authorized_atleast mm CHANNEL_USER_MODE_VOICE <> 0 ->
  privmsg user channame notice message now st =
  (Return 0,
   add_sent (broadcast_events ch (Some user) CHANNEL_USER_MODE_NONE
               (MsgPrivmsg notice user (name ch) message))
     (touch user now st)).
Proof.
  intros Hm Hcase. rewrite privmsg_to_channel. cbv zeta.
  rewrite Hm. cbn [andb].
  assert (Hmin :
    (if has (cmodes ch) CHANNEL_MODE_MODERATED then
       if authorized_atleast mm CHANNEL_USER_MODE_VOICE =? 0 then
         if has (cmodes ch) CHANNEL_MODE_REDUCED_MODERATION
         then ret CHANNEL_USER_MODE_HALFOP
         else
           send_numeric user 489 "You're neither voiced nor a channel operator" ;;
           return_ (-1)
       else ret CHANNEL_USER_MODE_NONE
     else ret CHANNEL_USER_MODE_NONE) (touch user now st)
    = (Next CHANNEL_USER_MODE_NONE, touch user now st)).
  { destruct Hcase as [Hmod|Hv].
    - rewrite Hmod. reflexivity.
    - apply Z.eqb_neq in Hv. rewrite Hv.
      destruct (has (cmodes ch) CHANNEL_MODE_MODERATED); reflexivity. }
  rewrite (bind_next _ _ _ _ _ Hmin).
  rewrite (bind_next _ _ _ _ _ (channel_broadcast_run _ _ _ _ (touch user now st) Hidle)).
  reflexivity.
Qed.

(** Somebody who is not on the channel writes to a moderated channel
    that takes messages from outside: [authorized_atleast] is handed
    the null pointer that the search for the member returned. *)
Lemma privmsg_null_member :
  find_member user (members ch) = None ->
  has (cmodes ch) CHANNEL_MODE_NO_EXTERNAL = false ->
  has (cmodes ch) CHANNEL_MODE_MODERATED = true ->
  privmsg user channame notice message now st =
  (Stop NullDeref, touch user now st).
Proof.
  intros Hm Hn Hmod. rewrite privmsg_to_channel. cbv zeta.
  rewrite Hm, Hn, Hmod. reflexivity.
Qed.

End Privmsg.

(** C4. An empty message, one of 510 bytes or more, one from outside to
    a channel that takes none, and one from a member without voice to a
    moderated channel are turned away as the lemmas above say, and
    reduced moderation hands the last one to the half-operators and
    above. But when somebody who is not on the channel writes to a
    channel that is moderated and takes messages from outside, no member
    record is found, the check for voice reads through the null pointer,
    and the sender gets no answer. *)
Theorem privmsg_outsider_to_moderated_channel
    (user : Z) (channame : string) (notice : bool) (message : string) (now : Z)
    (st : irc_state) (ch : irc_channel) :
  held st = [] ->
  0 < strlen message < 510 ->
  IS_CHANNEL_NAME channame = true ->
  find_channel channame (channels st) = Some ch ->
  find_member user (members ch) = None ->
  has (cmodes ch) CHANNEL_MODE_NO_EXTERNAL = false ->
  has (cmodes ch) CHANNEL_MODE_MODERATED = true ->
  fst (privmsg user channame notice message now st) = Stop NullDeref /\
  sent (snd (privmsg user channame notice message now st)) = sent st /\
  channels (snd (privmsg user channame notice message now st)) = channels st.
Proof.
  intros Hh Hlen Hname Hfind Hm Hn Hmod.
  rewrite (privmsg_null_member user channame notice message now st Hh ch
             Hlen Hname Hfind Hm Hn Hmod).
  repeat split.
Qed.

(** bob, who is not on #room, writes to it after alice has set -n and
    +m. *)
Lemma privmsg_outsider_to_moderated_channel_witness :
  fst (privmsg 2 "#room" false "hello" 20 moderated_state) = Stop NullDeref /\
  sent (snd (privmsg 2 "#room" false "hello" 20 moderated_state)) = [] /\
  channels (snd (privmsg 2 "#room" false "hello" 20 moderated_state))
    = [moderated_room].
Proof.
  apply (privmsg_outsider_to_moderated_channel 2 "#room" false "hello" 20
           moderated_state moderated_room).
  - reflexivity.
  - vm_compute. split; reflexivity.
  - reflexivity.
  - reflexivity.
  - reflexivity.
  - reflexivity.
  - reflexivity.
Defined.

(** *** The ping pass *)

Lemma ping_user_pings (now user : Z) (st : irc_state) :
  held st = [] ->
  lastping (user_at st user) = 0 \/
  wrap_int (now - PING_TIME) <= lastpong (user_at st user) ->
  ping_user now user st = (Next tt, pinged now st user).
Proof.
  intros Hh Hcond. destruct st as [ua us chs wl obs h snt].
  simpl in Hh, Hcond. subst h.
  unfold ping_user, pinged, store_user, add_sent, bind, lock_user, get, gets,
    holds, modify, emit, update_user, unlock_user.
  cbn -[wrap_int PING_TIME Z.eqb Z.ltb].
  replace (negb (lastping (ua user) =? 0)
           && (lastpong (ua user) <? wrap_int (now - PING_TIME))) with false.
  - unfold modify. cbn -[Z.eqb]. rewrite Z.eqb_refl. reflexivity.
  - symmetry. destruct Hcond as [H0|Hp].
    + rewrite H0. reflexivity.
    + apply andb_false_iff. right. apply Z.ltb_ge. exact Hp.
Qed.

Lemma pinged_all_sent (now : Z) (l : list Z) (st : irc_state) :
  sent (fold_left (pinged now) l st)
  = sent st ++ map (fun u => EvSend u (MsgPing now)) l.
Proof.
  revert st. induction l as [|u l IH]; intros st; simpl.
  - rewrite app_nil_r. reflexivity.
  - rewrite IH. simpl. rewrite <- app_assoc. reflexivity.
Qed.

Lemma pinged_all_frame (now : Z) (l : list Z) (st : irc_state) :
  let st' := fold_left (pinged now) l st in
  channels st' = channels st /\ users st' = users st /\ held st' = held st /\
  observed st' = observed st /\
  (forall u, lastpong (user_at st' u) = lastpong (user_at st u)) /\
  (forall u, ~ In u l -> user_at st' u = user_at st u).
Proof.
  revert st. induction l as [|v l IH]; intros st; simpl.
  - repeat split; auto.
  - destruct (IH (pinged now st v)) as (H1 & H2 & H3 & H4 & H5 & H6).
    rewrite H1, H2, H3, H4. repeat split.
    + intros u. rewrite H5. simpl. destruct (u =? v); reflexivity.
    + intros u Hu. rewrite H6 by tauto. simpl.
      destruct (Z.eqb_spec u v); [subst; tauto | reflexivity].
Qed.

Lemma pinged_all_user (now : Z) (l : list Z) (st : irc_state) (u : Z) :
  NoDup l -> In u l ->
  user_at (fold_left (pinged now) l st) u = set_lastping now (user_at st u).
Proof.
  revert st. induction l as [|v l IH]; intros st Hnd Hin; [destruct Hin|].
  inversion Hnd as [|? ? Hv Hl]; subst. simpl.
  destruct Hin as [->|Hin].
  - destruct (pinged_all_frame now l (pinged now st u)) as (_ & _ & _ & _ & _ & H6).
    rewrite H6 by exact Hv. simpl. rewrite Z.eqb_refl. reflexivity.
  - rewrite IH by assumption. simpl.
    destruct (Z.eqb_spec u v) as [->|Hne]; [contradiction | reflexivity].
Qed.

Lemma ping_each_run (now : Z) (l : list Z) (st : irc_state) :
  held st = [] -> NoDup l ->
  (forall u, In u l ->
     lastping (user_at st u) = 0 \/
     wrap_int (now - PING_TIME) <= lastpong (user_at st u)) ->
  for_each l (ping_user now) st = (Next tt, fold_left (pinged now) l st).
Proof.
  revert st. induction l as [|v l IH]; intros st Hh Hnd Hcond; [reflexivity|].
  inversion Hnd as [|? ? Hv Hl]; subst.
  cbn [for_each fold_left].
  rewrite (bind_next _ _ _ _ _ (ping_user_pings now v st Hh (Hcond v (or_introl eq_refl)))).
  apply IH; [exact Hh | exact Hl |].
  intros u Hu. simpl.
  destruct (Z.eqb_spec u v) as [->|Hne]; [tauto|].
  apply Hcond. right. exact Hu.
Qed.

Lemma for_each_app {A : Type} (l1 l2 : list A) (body : A -> I unit)
    (st st1 : irc_state) :
  for_each l1 body st = (Next tt, st1) ->
  for_each (l1 ++ l2) body st = for_each l2 body st1.
Proof.
  revert st. induction l1 as [|x l1 IH]; intros st H; simpl in *.
  - injection H as <-. reflexivity.
  - rewrite bind_eq in *. destruct (body x st) as [[[]|r|w] s]; try discriminate.
    apply IH. exact H.
Qed.

(** The words of the contract fail at a user who has never been pinged:
    [lastpong] is 0, long before now, and the pass pings. *)
Lemma ping_contract_as_worded_fails :
  ~ ping_contract_as_worded 120 /\ ~ ping_contract_as_worded PING_TIME.
Proof.
  assert (Hok : state_ok sample_start) by (apply fresh_ok; exact sample_start_fresh).
  assert (Hin : In 1 (users sample_start)) by (left; reflexivity).
  assert (Hnow : 0 <= 1000000 <= INT_MAX) by (unfold INT_MAX; lia).
  split; intros H; specialize (H 1000000 sample_start 1 Hok Hin Hnow);
    vm_compute in H; destruct H as [H|H]; [discriminate H|destruct H| discriminate H|destruct H].
Qed.

(** C8, amended. The pass goes through the users in the order of the
    list. As long as the users it comes to have never been pinged, or
    have sent a PONG that is not older than now minus the interval, each
    of them is sent PING :<now> and has [lastping] set to now, and
    nothing else changes, for them, for the other users or for the
    channels; the pass then goes on with the rest of the list. The interval may be two minutes in seconds, or the number the
    code subtracts. *)
Theorem ping_pass_pings
    (now interval : Z) (st : irc_state) (reached rest : list Z) :
  held st = [] -> 0 <= now <= INT_MAX -> 0 <= interval <= PING_TIME ->
  users st = reached ++ rest -> NoDup reached ->
  (forall u, In u reached ->
     lastping (user_at st u) = 0 \/ now - interval <= lastpong (user_at st u)) ->
  exists st1,
    ping_pass now st = for_each rest (ping_user now) st1 /\
    sent st1 = sent st ++ map (fun u => EvSend u (MsgPing now)) reached /\
    (forall u, In u reached -> user_at st1 u = set_lastping now (user_at st u)) /\
    (forall u, ~ In u reached -> user_at st1 u = user_at st u) /\
    channels st1 = channels st /\ held st1 = [].
Proof.
  intros Hh Hnow Hint Hus Hnd Hcond.
  exists (fold_left (pinged now) reached st).
  assert (Hrun : for_each reached (ping_user now) st
                 = (Next tt, fold_left (pinged now) reached st)).
  { apply ping_each_run; [exact Hh | exact Hnd |].
    intros u Hu. destruct (Hcond u Hu) as [H0|Hp]; [left; exact H0|right].
    rewrite wrap_int_id; unfold PING_TIME, MIN_MS, INT_MAX in *; lia. }
  destruct (pinged_all_frame now reached st) as (Hc & _ & Hheld & _ & _ & Hother).
  split; [|split; [|split; [|split; [|split]]]].
  - unfold ping_pass, get. rewrite bind_eq. cbv beta iota. rewrite Hus.
    apply for_each_app. exact Hrun.
  - apply pinged_all_sent.
  - intros u Hu. apply pinged_all_user; assumption.
  - exact Hother.
  - exact Hc.
  - rewrite Hheld. exact Hh.
Qed.

Lemma ping_pass_pings_witness :
  exists st1,
    ping_pass 1000000 sample_start = for_each [] (ping_user 1000000) st1 /\
    sent st1 = sent sample_start
               ++ map (fun u => EvSend u (MsgPing 1000000)) [1; 2; 3] /\
    (forall u, In u [1; 2; 3] ->
       user_at st1 u = set_lastping 1000000 (user_at sample_start u)) /\
    (forall u, ~ In u [1; 2; 3] -> user_at st1 u = user_at sample_start u) /\
    channels st1 = channels sample_start /\ held st1 = [].
Proof.
  apply (ping_pass_pings 1000000 120 sample_start [1; 2; 3] []).
  - reflexivity.
  - unfold INT_MAX. lia.
  - vm_compute. split; discriminate.
  - reflexivity.
  - repeat constructor; simpl; intuition discriminate.
  - intros u _. left. unfold sample_start, sample_users. simpl.
    destruct (u =? 1); [reflexivity|]. destruct (u =? 2); reflexivity.
Defined.

(** bob was pinged at 1000 and has not answered. The pass takes him out
    of his channels and then waits for the mutex of bob that it holds
    itself: the error is not written and the socket is not shut down. *)
Example ping_timeout_blocks :
  fst (ping_user 1000000 2 silent_state) = Stop Deadlock /\
  sent (snd (ping_user 1000000 2 silent_state)) = [] /\
  held (snd (ping_user 1000000 2 silent_state)) = [2].
Proof. vm_compute. repeat split. Qed.

(** [PING_TIME] is in milliseconds, the time stamps are in seconds: a
    user who has not answered the ping of an hour ago is pinged once
    more. *)
Example ping_after_an_hour :
  let bob := mk_irc_user 0 "bob" "bob" USER_MODE_NONE 0 1000000 999990 false ""
               true 2 102 in
  let late := mk_state (fun _ => bob) [2] [] false [] [] [] in
  lastpong (user_at late 2) < 1003600 - 120 /\
  ping_user 1003600 2 late = (Next tt, pinged 1003600 late 2).
Proof.
  split; [vm_compute; reflexivity|].
  apply ping_user_pings; [reflexivity|]. right. vm_compute. discriminate.
Qed.
End IrcClaims.

(** ** Claims about passwords in memory *)
Module PasswordClaims.
Import CInt CMonad.

Lemma asked_app (a b : list Sasl.call) :
  Sasl.asked (a ++ b) = Sasl.asked a || Sasl.asked b.
Proof. apply existsb_app. Qed.

Lemma freed_app (a b : list Sasl.call) :
  Sasl.freed (a ++ b) = Sasl.freed a ++ Sasl.freed b.
Proof. apply flat_map_app. Qed.

(** [memset] with the length of the block leaves nothing but zeros. *)
Lemma memset_whole (block : list Z) :
  Sasl.memset block 0 (Z.of_nat (length block)) = repeat 0 (length block).
Proof.
  unfold Sasl.memset. rewrite Nat2Z.id, Nat.min_id, skipn_all, app_nil_r.
  reflexivity.
Qed.

Lemma bind_get {A : Type} (k : Sasl.sasl_state -> Sasl.S A) (st : Sasl.sasl_state) :
  bind get k st = k st st.
Proof. reflexivity. Qed.

(** Once [do_sasl_auth] has asked [bbs_authenticate], the one block it
    gives back holds zeros from end to end. *)
Lemma do_sasl_auth_frees_zeroed
    (base64_decode : string -> option (list Z)) (beyond : list Z)
    (authenticate : list Z -> list Z -> Z) (s : string) (st : Sasl.sasl_state) :
  Sasl.asked (Sasl.calls st) = false -> Sasl.freed (Sasl.calls st) = [] ->
  Sasl.asked (Sasl.calls (snd (Sasl.do_sasl_auth base64_decode beyond authenticate s st)))
    = true ->
  exists decoded,
    base64_decode (Sasl.encoded s) = Some decoded /\
    Sasl.freed (Sasl.calls (snd (Sasl.do_sasl_auth base64_decode beyond authenticate s st)))
      = [repeat 0 (length decoded)].
Proof.
  intros Ha Hf. unfold Sasl.do_sasl_auth.
  destruct (negb (Sasl.STARTS_WITH s "AUTHENTICATE ")).
  { cbn. rewrite asked_app, Ha. discriminate. }
  destruct (base64_decode (Sasl.encoded s)) as [decoded|].
  2:{ cbn. rewrite Ha. discriminate. }
  cbv zeta.
  set (mem := decoded ++ beyond).
  set (nick := Sasl.string_at 0 mem).
  set (runlen := wrap_int (0 + (Sasl.strlen nick + 1))).
  destruct (runlen >=? Z.of_nat (length decoded)).
  { cbn. rewrite !asked_app, Ha. discriminate. }
  set (uname := Sasl.string_at runlen mem).
  set (runlen' := wrap_int (runlen + (Sasl.strlen uname + 1))).
  destruct (runlen' >=? Z.of_nat (length decoded)).
  { cbn. rewrite !asked_app, Ha. discriminate. }
  set (password := Sasl.string_at runlen' mem).
  rewrite bind_get.
  destruct (list_eq_dec Z.eq_dec nick (Sasl.nickname st)) as [Hnick|Hnick];
    cbn [negb].
  2:{ cbn. rewrite !asked_app, Ha. discriminate. }
  intros _. exists decoded. split; [reflexivity|].
  rewrite memset_whole.
  destruct (negb (authenticate uname password =? 0));
    cbn; rewrite !freed_app, Hf; reflexivity.
Qed.

Lemma reserved_false (u : string) :
  Login.reserved u = false ->
  Login.same_nocase u "Quit" = false /\ Login.same_nocase u "Exit" = false /\
  Login.same_nocase u "New" = false /\ Login.same_nocase u "Guest" = false.
Proof.
  unfold Login.reserved. intros H.
  apply orb_false_iff in H. destruct H as [H Hg].
  apply orb_false_iff in H. destruct H as [H Hn].
  apply orb_false_iff in H. destruct H as [Hq He].
  auto.
Qed.

(** The dialogue of [gives_up_at_password], step by step: the function
    returns -1 from the read, and [bbs_memzero] is not among its calls. *)
Lemma gives_up_run (tdd ag gai : bool) (n : Z) (u : string) (r : Z) (got : string)
    (more : list Login.reply) (ug : string) (pg : list Z) :
  0 < n -> r <= 0 -> Login.reserved u = false ->
  exists cs,
    Login.authenticate tdd ag gai
      (Login.initial (Login.gives_up_at_password tdd ag n u r got ++ more) ug pg)
    = (Return (-1),
       Login.mk_login more u (Login.store_partial (Login.bytes_of got) pg) false cs) /\
    existsb Login.is_memzero cs = false.
Proof.
  intros Hn Hr Hu. apply reserved_false in Hu. destruct Hu as (Hq & He & Hw & Hg).
  assert (Hn' : (n <=? 0) = false) by (apply Z.leb_gt; exact Hn).
  assert (Hr' : (r <=? 0) = true) by (apply Z.leb_le; exact Hr).
  assert (Hr2 : (0 <? r) = false) by (apply Z.ltb_ge; exact Hr).
  unfold Login.authenticate.
  change (Z.to_nat Login.MAX_AUTH_ATTEMPTS) with 3%nat.
  unfold Login.attempts_loop, Login.attempt, Login.password_login,
    Login.gives_up_at_password, Login.initial, Login.NEG_RETURN,
    Login.NONPOS_RETURN, Login.bbs_node_buffer, Login.bbs_node_writef,
    Login.bbs_node_echo_off, Login.bbs_node_readline, Login.external, bind,
    Login.next_reply, Login.log, Login.get_logged_in, Login.get_username,
    Login.set_username, Login.get_password, Login.set_password, ret, return_.
  destruct tdd, ag;
    repeat (progress
              (cbn -[Login.same_nocase Z.leb Z.ltb Login.store_partial Login.bytes_of];
               rewrite ?Z.ltb_irrefl, ?Hn', ?Hq, ?He, ?Hw, ?Hg, ?Hr', ?Hr2));
    eexists; (split; [reflexivity|]); reflexivity.
Qed.

(** What a read that gave up has put into a buffer is at its start. *)
Lemma store_partial_start (data buf : list Z) :
  (length data < length buf)%nat ->
  firstn (length data) (Login.store_partial data buf) = data.
Proof.
  intros Hl. unfold Login.store_partial.
  rewrite (firstn_all2 (n := (length buf - 1)%nat) data) by lia.
  rewrite firstn_app, Nat.sub_diag, firstn_all. simpl. apply app_nil_r.
Qed.

(** C6. [authenticate] does not zero the password buffer whatever the
    outcome. When the read of the password gives up (its result is 0 or
    negative) after characters have come in, the function returns -1
    from that read: [bbs_memzero] is not called, and the characters are
    still at the start of the buffer. On every other way out the buffer
    holds zeros, or it holds what it held at the start and nothing was
    read into it; the one exception is a return from a read of the
    password that gave up. And when [do_sasl_auth] has gone past the
    comparison of the nicknames, so that [bbs_authenticate] was asked,
    the decoded block is given back once, with zeros over its whole
    length, whatever the verdict was. *)
Theorem password_stays_after_failed_read :
  (forall (tdd allow_guest guest_ask_info : bool) (n : Z) (u : string) (r : Z)
          (got : string) (more : list Login.reply) (user_garbage : string)
          (pw_garbage : list Z),
     0 < n -> r <= 0 -> Login.reserved u = false ->
     (length (Login.bytes_of got) < length pw_garbage)%nat ->
     let run := Login.authenticate tdd allow_guest guest_ask_info
                  (Login.initial
                     (Login.gives_up_at_password tdd allow_guest n u r got ++ more)
                     user_garbage pw_garbage) in
     fst run = Return (-1) /\
     existsb Login.is_memzero (Login.calls (snd run)) = false /\
     Login.password (snd run)
       = Login.store_partial (Login.bytes_of got) pw_garbage /\
     firstn (length (Login.bytes_of got)) (Login.password (snd run))
       = Login.bytes_of got) /\
  (forall (tdd allow_guest guest_ask_info : bool) (rs : list Login.reply)
          (user_garbage : string) (pw_garbage : list Z),
     let s' := snd (Login.authenticate tdd allow_guest guest_ask_info
                      (Login.initial rs user_garbage pw_garbage)) in
     Login.clean pw_garbage s' \/ Login.left_by_failed_read pw_garbage s') /\
  (forall (base64_decode : string -> option (list Z)) (beyond : list Z)
          (authenticate : list Z -> list Z -> Z) (s : string) (nick : list Z),
     let st' := snd (Sasl.do_sasl_auth base64_decode beyond authenticate s
                       (Sasl.start nick)) in
     Sasl.asked (Sasl.calls st') = true ->
     exists decoded,
       base64_decode (Sasl.encoded s) = Some decoded /\
       Sasl.freed (Sasl.calls st') = [repeat 0 (length decoded)]).
Proof.
  split; [|split].
  - intros tdd ag gai n u r got more ug pg Hn Hr Hu Hl run.
    destruct (gives_up_run tdd ag gai n u r got more ug pg Hn Hr Hu)
      as (cs & Hrun & Hcs).
    subst run. rewrite Hrun. simpl.
    repeat split; [exact Hcs | apply store_partial_start; exact Hl].
  - intros tdd ag gai rs ug pg s'.
    apply (LoginFacts.authenticate_ends tdd ag gai (Login.initial rs ug pg)).
    reflexivity.
  - intros b64 beyond auth s nick st'.
    apply do_sasl_auth_frees_zeroed; reflexivity.
Qed.

Lemma password_stays_after_failed_read_witness :
  (fst (Login.authenticate false true false
          (Login.initial
             (Login.gives_up_at_password false true 5 "alice" 0 "secr" ++ [])
             "" (repeat 7 Login.PASSWORD_SIZE)))
   = Return (-1) /\
   firstn (length (Login.bytes_of "secr"))
     (Login.password
        (snd (Login.authenticate false true false
                (Login.initial
                   (Login.gives_up_at_password false true 5 "alice" 0 "secr" ++ [])
                   "" (repeat 7 Login.PASSWORD_SIZE)))))
   = Login.bytes_of "secr") /\
  Sasl.freed
    (Sasl.calls
       (snd (Sasl.do_sasl_auth (fun _ => Some Sasl.plain_alice) [] (fun _ _ => 0)
               "AUTHENTICATE YWxpY2UAYWxpY2UAc2VjcmV0"
               (Sasl.start (Sasl.bytes_of "alice")))))
  = [repeat 0 (length Sasl.plain_alice)].
Proof.
  destruct password_stays_after_failed_read as (Hread & _ & Hsasl). split.
  - assert (Hn : 0 < 5) by reflexivity.
    assert (Hr : 0 <= 0) by discriminate.
    assert (Hu : Login.reserved "alice" = false) by reflexivity.
    assert (Hl : (length (Login.bytes_of "secr")
                  < length (repeat 7 Login.PASSWORD_SIZE))%nat)
      by (vm_compute; lia).
    destruct (Hread false true false 5 "alice"%string 0 "secr"%string []
                ""%string (repeat 7 Login.PASSWORD_SIZE) Hn Hr Hu Hl)
      as (Hret & _ & _ & Hstart).
    split; [exact Hret | exact Hstart].
  - destruct (Hsasl (fun _ => Some Sasl.plain_alice) [] (fun _ _ => 0)
                "AUTHENTICATE YWxpY2UAYWxpY2UAc2VjcmV0"%string
                (Sasl.bytes_of "alice")) as (decoded & Hd & Hf).
    + vm_compute. reflexivity.
    + injection Hd as <-. exact Hf.
Defined.

(** The same dialogue with a password that comes in as a line: the
    buffer holds zeros at the end. *)
Example password_zeroed_after_line :
  Login.zeroed
    (snd (Login.authenticate false true false
            (Login.initial Login.two_attempts "" (repeat 7 Login.PASSWORD_SIZE)))).
Proof. vm_compute. reflexivity. Qed.

(** The read of the password gives up after four characters: they are
    in the buffer when [authenticate] has returned. *)
Example password_left_in_buffer :
  Login.password
    (snd (Login.authenticate false true false
            (Login.initial
               (Login.gives_up_at_password false true 5 "alice" 0 "secr")
               "" (repeat 7 Login.PASSWORD_SIZE))))
  = [115; 101; 99; 114] ++ repeat 7 60.
Proof. vm_compute. reflexivity. Qed.

(** Before that comparison the block goes back as it is: a client that
    names another nickname leaves its password in freed memory. *)
Example sasl_wrong_nickname_not_zeroed :
  Sasl.freed
    (Sasl.calls
       (snd (Sasl.do_sasl_auth (fun _ => Some Sasl.plain_alice) [] (fun _ _ => 0)
               "AUTHENTICATE YWxpY2UAYWxpY2UAc2VjcmV0"
               (Sasl.start (Sasl.bytes_of "bob")))))
  = [Sasl.plain_alice].
Proof. vm_compute. reflexivity. Qed.

End PasswordClaims.

(** ** Claims about SFTP READ *)
Module SftpClaims.
Import CInt CIntFacts Sftp.

Lemma cap_value : Z.shiftl 2 15 = 65536.
Proof. reflexivity. Qed.

(** A seek to a place of the stream goes there. *)
Lemma fseeko_seekable (f : stream) (off : Z) :
  0 <= off <= seekable f -> fseeko f off = Some off.
Proof.
  intros H. unfold fseeko.
  replace (off <? 0) with false by (symmetry; apply Z.ltb_ge; lia).
  replace (seekable f <? off) with false by (symmetry; apply Z.ltb_ge; lia).
  reflexivity.
Qed.

(** The places inside the file are places of the stream. *)
Lemma fseeko_inside (f : stream) (off : Z) :
  0 <= off <= 9223372036854775807 ->
  off <= Z.of_nat (length (contents f)) ->
  fseeko f off = Some off.
Proof.
  intros H Hin. apply fseeko_seekable. unfold seekable, OFF_T_MAX. lia.
Qed.

(** The buffer has the length that was asked for, up to 65536 bytes. *)
Lemma handle_read_allocates (alloc_ok : bool) (msg : sftp_client_message)
    (info : sftp_info) :
  handle msg = Some info -> info_type info = TYPE_FILE -> 1 <= len msg ->
  allocated (snd (handle_read alloc_ok msg)) = Some (Z.min (len msg) 65536).
Proof.
  intros Hh Ht Hl. unfold handle_read. rewrite Hh, Ht, cap_value.
  cbn [Z.eqb TYPE_FILE negb Pos.eqb].
  replace (len msg <? 1) with false by (symmetry; apply Z.ltb_ge; lia).
  assert (Hmin : (if len msg >? 65536 then 65536 else len msg) = Z.min (len msg) 65536).
  { destruct (Z.gtb_spec (len msg) 65536); lia. }
  rewrite Hmin.
  destruct alloc_ok; cbn [negb]; [|reflexivity].
  destruct (fseeko (file info) (to_off_t (offset msg))); reflexivity.
Qed.

(** C7. The comment in the code and the contract say 32768, the
    comparison says [2 << 15]: a READ for more than 32768 and up to
    65536 bytes, at a place where the file has as many, gets a buffer of
    the length it asked for, and that many bytes are read and sent. *)
Theorem handle_read_cap_is_65536 (msg : sftp_client_message) (info : sftp_info) :
  handle msg = Some info -> info_type info = TYPE_FILE ->
  read_error (file info) = None ->
  32768 < len msg <= 65536 ->
  0 <= offset msg <= 9223372036854775807 ->
  offset msg + len msg <= Z.of_nat (length (contents (file info))) ->
  fst (handle_read true msg) = 0 /\
  allocated (snd (handle_read true msg)) = Some (len msg) /\
  returned (snd (handle_read true msg))
    = firstn (Z.to_nat (len msg)) (skipn (Z.to_nat (offset msg)) (contents (file info))) /\
  Z.of_nat (length (returned (snd (handle_read true msg)))) = len msg.
Proof.
  intros Hh Ht He Hlen Hoff Hfile.
  assert (Hcap : (if len msg >? 65536 then 65536 else len msg) = len msg).
  { destruct (Z.gtb_spec (len msg) 65536); lia. }
  assert (Hseek : to_off_t (offset msg) = offset msg).
  { unfold to_off_t. rewrite Z.mod_small by lia. lia. }
  set (data := firstn (Z.to_nat (len msg))
                 (skipn (Z.to_nat (offset msg)) (contents (file info)))).
  assert (Hdata : Z.of_nat (length data) = len msg).
  { unfold data. rewrite length_firstn, length_skipn. lia. }
  assert (Hrun : handle_read true msg
                 = (0, [EvMalloc (len msg); EvReplyData data (len msg); EvFree])).
  { unfold handle_read. rewrite Hh, Ht, cap_value, Hcap, Hseek.
    cbn [Z.eqb TYPE_FILE negb Pos.eqb].
    replace (len msg <? 1) with false by (symmetry; apply Z.ltb_ge; lia).
    rewrite (fseeko_inside (file info) (offset msg)) by lia.
    unfold fread. rewrite He.
    fold data. rewrite Hdata.
    replace (len msg <=? 0) with false by (symmetry; apply Z.leb_gt; lia).
    rewrite wrap_int_id by (unfold INT_MAX; lia). reflexivity. }
  rewrite Hrun. cbn [fst snd allocated returned flat_map app].
  rewrite app_nil_r. auto.
Qed.

Lemma handle_read_cap_is_65536_witness :
  Z.of_nat (length (returned (snd (handle_read true (mk_msg 40000 0 (Some big_file))))))
  = 40000.
Proof.
  refine (proj2 (proj2 (proj2
            (handle_read_cap_is_65536 (mk_msg 40000 0 (Some big_file)) big_file
               eq_refl eq_refl eq_refl _ _ _)))).
  - cbn [len]. lia.
  - cbn [offset]. lia.
  - cbn [len offset big_file file contents]. rewrite repeat_length. lia.
Defined.

(** Only beyond 65536 is the length cut down. *)
Example handle_read_cuts_at_65536 :
  allocated (snd (handle_read true (mk_msg 100000 0 (Some big_file)))) = Some 65536.
Proof.
  rewrite (handle_read_allocates true (mk_msg 100000 0 (Some big_file)) big_file
             eq_refl eq_refl);
    [reflexivity | cbn [len]; lia].
Qed.

End SftpClaims.

(** ** More of bbs/node.c *)
Module NodeOpsFacts.
Import CInt CIntFacts SortedFacts Node RegistryFacts NodeOps.

(** *** Counting *)

Lemma count_fold (l : list bbs_node) (c : Z) :
  0 <= c -> c + Z.of_nat (length l) <= UINT_MAX ->
  fold_left (fun count (_ : bbs_node) => wrap_uint (count + 1)) l c
  = c + Z.of_nat (length l).
Proof.
  revert c. induction l as [|x l IH]; intros c Hc Hb; simpl in *; [lia|].
  rewrite IH.
  - rewrite wrap_uint_id by lia. lia.
  - rewrite wrap_uint_id by lia. lia.
  - rewrite wrap_uint_id by lia. lia.
Qed.

Lemma mod_count_fold (md : Z) (l : list bbs_node) (c : Z) :
  0 <= c -> c + Z.of_nat (length l) <= UINT_MAX ->
  fold_left (fun count n => if module n =? md then wrap_uint (count + 1) else count) l c
  = c + Z.of_nat (length (filter (fun n => module n =? md) l)).
Proof.
  revert c. induction l as [|x l IH]; intros c Hc Hb; simpl in *; [lia|].
  destruct (module x =? md); simpl.
  - rewrite IH; rewrite wrap_uint_id by lia; lia.
  - rewrite IH; lia.
Qed.

Lemma last_default (l : list Z) (x a b : Z) : last (x :: l) a = last (x :: l) b.
Proof.
  revert x. induction l as [|y l IH]; intros x; [reflexivity|].
  change (last (y :: l) a = last (y :: l) b). apply IH.
Qed.

Lemma max_fold (l : list bbs_node) (a : Z) :
  fold_left (fun (_ : Z) n => id n) l a = last (map id l) a.
Proof.
  revert a. induction l as [|x l IH]; intros a; [reflexivity|].
  simpl fold_left. rewrite IH. destruct l as [|y l]; [reflexivity|].
  simpl map. rewrite (last_default _ _ (id x) a). reflexivity.
Qed.

Lemma sorted_last_max (l : list Z) (a : Z) :
  StronglySorted Z.lt l -> forall x, In x l -> x <= last l a.
Proof.
  induction l as [|y l IH]; intros Hs x Hin; [destruct Hin|].
  apply StronglySorted_inv in Hs. destruct Hs as [Hs' Hall].
  destruct l as [|z l].
  - destruct Hin as [Hx|[]]. subst x. simpl. lia.
  - change (last (y :: z :: l) a) with (last (z :: l) a).
    destruct Hin as [Hx|Hin].
    + subst x. rewrite Forall_forall in Hall.
      assert (y < z) by (apply Hall; left; reflexivity).
      specialize (IH Hs' z (or_introl eq_refl)). lia.
    + apply IH; assumption.
Qed.

Lemma last_in (l : list Z) (a : Z) : l <> [] -> In (last l a) l.
Proof.
  induction l as [|y l IH]; intros Hne; [congruence|].
  destruct l as [|z l]; [left; reflexivity|].
  right. apply IH. discriminate.
Qed.

(** X1. On every registry that the node functions lead to, the count of
    nodes is the number of live nodes, and [bbs_max_nodenum], which
    returns the number of the last node of the list, returns the
    greatest number in use (0 when there is none); the count is never
    above it, nor above [maxnodes]. *)
Theorem node_count_and_max_nodenum (max : Z) (st : registry) :
  0 <= max <= UINT_MAX -> reachable max st ->
  bbs_node_count st = Z.of_nat (length (nodes st)) /\
  (forall n, In n (nodes st) -> id n <= bbs_max_nodenum st) /\
  (nodes st <> [] -> In (bbs_max_nodenum st) (ids st)) /\
  (nodes st = [] -> bbs_max_nodenum st = 0) /\
  bbs_node_count st <= bbs_max_nodenum st /\
  bbs_node_count st <= max.
Proof.
  intros Hmax Hreach.
  destruct (reachable_ok max st Hmax Hreach) as [Hok Hm].
  pose proof (registry_length_bound st (ok_sorted _ Hok) (ok_range _ Hok)) as Hlen.
  assert (Hcount : bbs_node_count st = Z.of_nat (length (nodes st))).
  { unfold bbs_node_count. rewrite count_fold; lia. }
  assert (Hlast : bbs_max_nodenum st = last (ids st) 0).
  { unfold bbs_max_nodenum, ids. apply max_fold. }
  assert (Hle : forall n, In n (nodes st) -> id n <= bbs_max_nodenum st).
  { intros n Hn. rewrite Hlast. apply sorted_last_max; [apply Hok|].
    unfold ids. apply in_map. exact Hn. }
  split; [exact Hcount|]. split; [exact Hle|]. split; [|split; [|split]].
  - intros Hne. rewrite Hlast. apply last_in. unfold ids.
    destruct (nodes st); [congruence | discriminate].
  - intros He. rewrite Hlast. unfold ids. rewrite He. reflexivity.
  - rewrite Hcount.
    assert (Hcase : nodes st = [] \/ exists x, In x (nodes st)).
    { destruct (nodes st) as [|x l]; [left; reflexivity|].
      right. exists x. left. reflexivity. }
    assert (Hb : Z.of_nat (length (ids st)) <= bbs_max_nodenum st - 1 + 1).
    { destruct Hcase as [E|(x & Hx)].
      - rewrite Hlast. unfold ids. rewrite E. simpl. lia.
      - pose proof (ok_range _ Hok) as Hr. rewrite Forall_forall in Hr.
        apply sorted_length_bound; [apply Hok | |].
        + unfold ids. rewrite Forall_forall. intros z Hz.
          apply in_map_iff in Hz. destruct Hz as (n & <- & Hn).
          specialize (Hr n Hn). specialize (Hle n Hn). lia.
        + specialize (Hr x Hx). specialize (Hle x Hx). lia. }
    unfold ids in Hb. rewrite length_map in Hb. lia.
  - rewrite Hcount, <- Hm. apply Hok.
Qed.

Lemma node_count_and_max_nodenum_witness :
  bbs_node_count s5_registry = 3 /\ bbs_max_nodenum s5_registry = 5 /\
  bbs_node_count s5_registry <= bbs_max_nodenum s5_registry.
Proof.
  assert (H64 : 0 <= 64 <= UINT_MAX) by (unfold UINT_MAX; lia).
  pose proof (node_count_and_max_nodenum 64 s5_registry H64
                RegistryClaims.s5_reachable) as (_ & _ & _ & _ & Hle & _).
  split; [vm_compute; reflexivity|]. split; [vm_compute; reflexivity|]. exact Hle.
Defined.


(** *** Kicking *)

Lemma remove_by_id_missing (k : Z) (l : list bbs_node) :
  ~ In k (map id l) -> remove_by_id k l = (None, l).
Proof.
  induction l as [|x l IH]; intros Hk; [reflexivity|].
  simpl in *. destruct (Z.eqb_spec (id x) k) as [E|E]; [tauto|].
  rewrite IH by tauto. reflexivity.
Qed.

Lemma remove_by_id_found (k : Z) (l : list bbs_node) :
  StronglySorted Z.lt (map id l) -> In k (map id l) ->
  exists a x b,
    l = a ++ x :: b /\ id x = k /\ remove_by_id k l = (Some x, a ++ b) /\
    ~ In k (map id (a ++ b)).
Proof.
  induction l as [|y l IH]; intros Hs Hin; [destruct Hin|].
  simpl map in Hs. apply StronglySorted_inv in Hs. destruct Hs as [Hs Hall].
  rewrite Forall_forall in Hall.
  simpl. destruct (Z.eqb_spec (id y) k) as [E|E].
  - exists [], y, l. repeat split; auto.
    simpl. intros Hk. specialize (Hall k Hk). lia.
  - destruct Hin as [Hy|Hin]; [contradiction|].
    destruct (IH Hs Hin) as (a & x & b & Hl & Hx & Hr & Hn).
    exists (y :: a), x, b. rewrite Hr. repeat split; auto.
    + simpl. rewrite Hl. reflexivity.
    + simpl. intros [Hk|Hk]; [contradiction | exact (Hn Hk)].
Qed.

(** X2. Kicking node [k] from a registry that the node functions lead
    to: when [k] is live the call returns 0 and exactly the node with
    that number leaves the list, the others staying as they are and in
    order; when it is not, the call returns -1 and the list is as it
    was. After a kick the number [k] is free again: the next node that
    is granted gets a number that is at most [k], and it gets [k] itself
    when every smaller number is in use. *)
Theorem shutdown_node_frees_the_number (max : Z) (st : registry) (now k : Z) :
  0 <= max <= UINT_MAX -> reachable max st ->
  let r := fst (fst (bbs_node_shutdown_node now k st)) in
  let st' := snd (fst (bbs_node_shutdown_node now k st)) in
  (In k (ids st) ->
     r = 0 /\
     (exists a x b, nodes st = a ++ x :: b /\ id x = k /\ nodes st' = a ++ b) /\
     (forall j, In j (ids st') <-> In j (ids st) /\ j <> k) /\
     (forall fd0 pn md now' node st'',
        __bbs_node_request fd0 pn md now' true st' = Done (Some node, st'') ->
        id node <= k /\
        ((forall j, 1 <= j < k -> In j (ids st)) -> id node = k))) /\
  (~ In k (ids st) -> r = -1 /\ nodes st' = nodes st) /\
  StronglySorted Z.lt (ids st').
Proof.
  intros Hmax Hreach r st'.
  destruct (reachable_ok max st Hmax Hreach) as [Hok Hm].
  assert (Hok' : registry_ok st') by (apply shutdown_node_ok; exact Hok).
  split; [|split; [|apply Hok']].
  - intros Hin.
    destruct (remove_by_id_found k (nodes st) (ok_sorted _ Hok) Hin)
      as (a & x & b & Hl & Hx & Hr & Hnot).
    assert (Hst' : nodes st' = a ++ b).
    { unfold st', bbs_node_shutdown_node. rewrite Hr. reflexivity. }
    assert (Hids : forall j, In j (ids st') <-> In j (ids st) /\ j <> k).
    { intros j. unfold ids. rewrite Hst', Hl, !map_app. simpl map.
      rewrite !in_app_iff. simpl. split.
      - intros H. split; [tauto|]. intros ->. apply Hnot.
        rewrite map_app. apply in_app_iff. exact H.
      - intros [[H|[H|H]] Hne]; auto. congruence. }
    split; [unfold r, bbs_node_shutdown_node; rewrite Hr; reflexivity|].
    split; [exists a, x, b; auto|]. split; [exact Hids|].
    intros fd0 pn md now' node st'' Hreq.
    destruct (request_granted _ _ _ _ _ _ _ _ Hok' Hreq)
      as (pre & post & Hn & _ & Hnode & Hpre & Hall & Hpost & _).
    assert (Hid : id node = 1 + Z.of_nat (length pre)) by (subst node; reflexivity).
    assert (Hfree : ~ In (id node) (ids st')).
    { unfold ids. rewrite Hn, map_app. intros H. apply in_app_or in H.
      rewrite Forall_forall in Hpre, Hpost.
      destruct H as [H|H]; apply in_map_iff in H; destruct H as (n & Hn1 & Hn2).
      - specialize (Hpre n Hn2). lia.
      - specialize (Hpost n Hn2). lia. }
    assert (Hbelow : forall j, 1 <= j < id node -> In j (ids st')).
    { intros j Hj. unfold ids. rewrite Hn, map_app. apply in_or_app. left.
      apply Hall. lia. }
    assert (Hk1 : 1 <= k).
    { pose proof (ok_range _ Hok) as Hr'. rewrite Forall_forall in Hr'.
      specialize (Hr' x). rewrite Hl in Hr'.
      assert (In x (a ++ x :: b)) by (apply in_or_app; right; left; reflexivity).
      specialize (Hr' H). lia. }
    assert (Hle : id node <= k).
    { destruct (Z_le_gt_dec (id node) k) as [H|H]; [exact H|].
      exfalso. assert (Hk : In k (ids st')) by (apply Hbelow; lia).
      apply Hids in Hk. tauto. }
    split; [exact Hle|].
    intros Hfull. destruct (Z.eq_dec (id node) k) as [E|E]; [exact E|].
    exfalso. apply Hfree. apply Hids. split; [apply Hfull; lia | exact E].
  - intros Hnot. unfold r, st', bbs_node_shutdown_node.
    rewrite (remove_by_id_missing k (nodes st) Hnot). split; reflexivity.
Qed.

Lemma shutdown_node_frees_the_number_witness :
  fst (fst (bbs_node_shutdown_node 300 3 s5_registry)) = 0 /\
  ids (snd (fst (bbs_node_shutdown_node 300 3 s5_registry))) = [1; 5] /\
  fst (fst (bbs_node_shutdown_node 300 4 s5_registry)) = -1.
Proof.
  assert (H64 : 0 <= 64 <= UINT_MAX) by (unfold UINT_MAX; lia).
  pose proof (shutdown_node_frees_the_number 64 s5_registry 300 3 H64
                RegistryClaims.s5_reachable) as (Hlive & _ & _).
  pose proof (shutdown_node_frees_the_number 64 s5_registry 300 4 H64
                RegistryClaims.s5_reachable) as (_ & Hdead & _).
  assert (Hin : In 3 (ids s5_registry)) by (vm_compute; tauto).
  assert (Hout : ~ In 4 (ids s5_registry)) by (vm_compute; intuition discriminate).
  destruct (Hlive Hin) as (H0 & _).
  destruct (Hdead Hout) as (Hm1 & _).
  split; [exact H0|]. split; [vm_compute; reflexivity | exact Hm1].
Defined.

Lemma remove_by_module_spec (md : Z) (l : list bbs_node) :
  (exists a x b,
     l = a ++ x :: b /\ module x = md /\
     Forall (fun n => module n <> md) a /\
     remove_by_module md l = (Some x, a ++ b)) \/
  (Forall (fun n => module n <> md) l /\ remove_by_module md l = (None, l)).
Proof.
  induction l as [|y l IH]; [right; split; [constructor | reflexivity]|].
  simpl. destruct (Z.eqb_spec (module y) md) as [E|E]; simpl.
  - left. exists [], y, l. repeat split; auto.
  - destruct IH as [(a & x & b & Hl & Hx & Ha & Hr)|[Hall Hr]].
    + left. exists (y :: a), x, b. rewrite Hr. subst l. repeat split; auto.
    + right. rewrite Hr. split; [constructor; assumption | reflexivity].
Qed.

Lemma filter_none (md : Z) (l : list bbs_node) :
  Forall (fun n => module n <> md) l -> filter (fun n => module n =? md) l = [].
Proof.
  induction 1 as [|x l Hx _ IH]; [reflexivity|].
  simpl. destruct (Z.eqb_spec (module x) md); [contradiction | exact IH].
Qed.

(** X3. [bbs_node_shutdown_mod] shuts down one node at most: it returns 1
    when some live node belongs to the module, and then the first such
    node, and no other, leaves the list; it returns 0 and changes
    nothing when there is none. The number [bbs_node_mod_count] reports
    for the module goes down by what was returned, so that nodes of the
    module stay live when there were two or more. *)
Theorem shutdown_mod_takes_one_node (max : Z) (st : registry) (now md : Z) :
  0 <= max <= UINT_MAX -> reachable max st ->
  let r := fst (fst (bbs_node_shutdown_mod now md st)) in
  let st' := snd (fst (bbs_node_shutdown_mod now md st)) in
  (r = 0 \/ r = 1) /\
  (r = 1 <-> exists n, In n (nodes st) /\ module n = md) /\
  (r = 0 -> nodes st' = nodes st) /\
  (r = 1 ->
     exists a x b,
       nodes st = a ++ x :: b /\ nodes st' = a ++ b /\ module x = md /\
       Forall (fun n => module n <> md) a) /\
  bbs_node_mod_count md st' = bbs_node_mod_count md st - r /\
  (2 <= bbs_node_mod_count md st -> exists n, In n (nodes st') /\ module n = md) /\
  StronglySorted Z.lt (ids st').
Proof.
  intros Hmax Hreach r st'.
  destruct (reachable_ok max st Hmax Hreach) as [Hok Hm].
  pose proof (registry_length_bound st (ok_sorted _ Hok) (ok_range _ Hok)) as Hlen.
  assert (Hcount : forall l, Z.of_nat (length l) <= UINT_MAX ->
            fold_left (fun count n => if module n =? md then wrap_uint (count + 1) else count) l 0
            = Z.of_nat (length (filter (fun n => module n =? md) l))).
  { intros l Hl. rewrite mod_count_fold by lia. lia. }
  unfold bbs_node_mod_count.
  destruct (remove_by_module_spec md (nodes st))
    as [(a & x & b & Hl & Hx & Ha & Hr)|[Hall Hr]].
  - assert (Hr1 : r = 1) by (unfold r, bbs_node_shutdown_mod; rewrite Hr; reflexivity).
    assert (Hst' : nodes st' = a ++ b)
      by (unfold st', bbs_node_shutdown_mod; rewrite Hr; reflexivity).
    assert (Hlen' : Z.of_nat (length (a ++ b)) <= UINT_MAX).
    { rewrite Hl in Hlen. rewrite length_app in *. simpl in Hlen. lia. }
    assert (Hfx : filter (fun n => module n =? md) (nodes st)
                  = x :: filter (fun n => module n =? md) b).
    { rewrite Hl, filter_app, (filter_none md a Ha). simpl.
      rewrite Hx, Z.eqb_refl. reflexivity. }
    assert (Hfx' : filter (fun n => module n =? md) (nodes st')
                   = filter (fun n => module n =? md) b).
    { rewrite Hst', filter_app, (filter_none md a Ha). reflexivity. }
    rewrite Hr1. split; [right; reflexivity|]. split; [|split; [|split; [|split; [|split]]]].
    + split; [|reflexivity]. intros _. exists x. split; [|exact Hx].
      rewrite Hl. apply in_or_app. right. left. reflexivity.
    + discriminate.
    + intros _. exists a, x, b. auto.
    + rewrite !Hcount by (try rewrite Hst'; assumption).
      rewrite Hfx, Hfx'. simpl length. lia.
    + rewrite Hcount by assumption. rewrite Hfx. simpl length. intros H2.
      destruct (filter (fun n => module n =? md) b) as [|y rest] eqn:Ef;
        [simpl in H2; lia|].
      assert (Hy : In y (filter (fun n => module n =? md) b))
        by (rewrite Ef; left; reflexivity).
      apply filter_In in Hy. destruct Hy as [Hyb Hym].
      exists y. split; [rewrite Hst'; apply in_or_app; right; exact Hyb|].
      apply Z.eqb_eq. exact Hym.
    + assert (Hok' : registry_ok (with_nodes (a ++ b) st))
        by (eapply registry_ok_delete; eauto).
      replace (ids st') with (ids (with_nodes (a ++ b) st))
        by (unfold ids; rewrite Hst'; reflexivity).
      apply Hok'.
  - assert (Hr0 : r = 0) by (unfold r, bbs_node_shutdown_mod; rewrite Hr; reflexivity).
    assert (Hst' : nodes st' = nodes st)
      by (unfold st', bbs_node_shutdown_mod; rewrite Hr; reflexivity).
    rewrite Hr0. split; [left; reflexivity|]. split; [|split; [|split; [|split; [|split]]]].
    + split; [discriminate|]. intros (n & Hn & Hmd). exfalso.
      rewrite Forall_forall in Hall. exact (Hall n Hn Hmd).
    + intros _. exact Hst'.
    + discriminate.
    + rewrite Hst'. lia.
    + rewrite Hcount by assumption. rewrite (filter_none md _ Hall). simpl. lia.
    + unfold ids. rewrite Hst'. apply Hok.
Qed.

Lemma shutdown_mod_takes_one_node_witness :
  fst (fst (bbs_node_shutdown_mod 300 1 s5_registry)) = 1 /\
  bbs_node_mod_count 1 s5_registry = 1 /\
  bbs_node_mod_count 1 (snd (fst (bbs_node_shutdown_mod 300 1 s5_registry))) = 0.
Proof.
  assert (H64 : 0 <= 64 <= UINT_MAX) by (unfold UINT_MAX; lia).
  pose proof (shutdown_mod_takes_one_node 64 s5_registry 300 1 H64
                RegistryClaims.s5_reachable) as (_ & _ & _ & _ & Hc & _).
  split; [vm_compute; reflexivity|]. split; [vm_compute; reflexivity|].
  rewrite Hc. vm_compute. reflexivity.
Defined.

(** X4. [cli_kickall] empties the list and leaves the shutdown flag at 0,
    even if a shutdown had set it: afterwards every request with a
    descriptor above 2 is granted (given memory and room for one node),
    and the node gets number 1. *)
Theorem kickall_starts_over (max : Z) (st : registry) (now : Z) :
  0 <= max <= UINT_MAX -> reachable max st -> 1 <= max ->
  let st' := snd (fst (cli_kickall now st)) in
  fst (fst (cli_kickall now st)) = 0 /\
  nodes st' = [] /\ shutting_down st' = 0 /\
  snd (cli_kickall now st)
    = flat_map (fun n => snd (node_shutdown 0 now n 0)) (nodes st) /\
  forall fd0 pn md now',
    2 < fd0 ->
    exists node st'',
      __bbs_node_request fd0 pn md now' true st' = Done (Some node, st'') /\
      id node = 1 /\ nodes st'' = [node].
Proof.
  intros Hmax Hreach H1 st'.
  destruct (reachable_ok max st Hmax Hreach) as [Hok Hm].
  unfold st', cli_kickall, bbs_node_shutdown_all. cbn [fst snd nodes shutting_down].
  repeat split.
  intros fd0 pn md now' Hfd.
  unfold __bbs_node_request. cbn [shutting_down nodes maxnodes traverse count
    newnodenumber prev keeplooking lifetime_nodes next_ptr].
  replace (fd0 <=? 2) with false by (symmetry; apply Z.leb_gt; lia).
  cbn [Z.eqb negb].
  replace (0 >=? maxnodes st) with false
    by (symmetry; rewrite Z.geb_leb; apply Z.leb_gt; lia).
  cbn [negb]. eexists. eexists. split; [reflexivity|]. split; reflexivity.
Qed.

Lemma kickall_starts_over_witness :
  nodes (snd (fst (cli_kickall 300 s5_registry))) = [] /\
  exists node st'',
    __bbs_node_request 20 "Telnet"%string 1 301 true
      (snd (fst (cli_kickall 300 s5_registry))) = Done (Some node, st'') /\
    id node = 1 /\ nodes st'' = [node].
Proof.
  assert (H64 : 0 <= 64 <= UINT_MAX) by (unfold UINT_MAX; lia).
  assert (H1 : 1 <= 64) by lia.
  pose proof (kickall_starts_over 64 s5_registry 300 H64
                RegistryClaims.s5_reachable H1) as (_ & Hn & _ & _ & Hreq).
  split; [exact Hn|].
  apply (Hreq 20 "Telnet"%string 1 301). lia.
Defined.

(** *** Input translation *)

Lemma find_replace_none (c : Z) (t : list (Z * Z)) :
  find_replace c t = None <-> ~ In c (map fst t).
Proof.
  induction t as [|[k v] t IH]; simpl; [tauto|].
  destruct (Z.eqb_spec k c) as [E|E].
  - split; [discriminate|]. intros H. exfalso. apply H. left. exact E.
  - rewrite IH. tauto.
Qed.

Lemma find_replace_in (c v : Z) (t : list (Z * Z)) :
  find_replace c t = Some v -> In (c, v) t.
Proof.
  induction t as [|[k w] t IH]; simpl; [discriminate|].
  destruct (Z.eqb_spec k c) as [E|E].
  - intros H. injection H as <-. left. congruence.
  - intros H. right. apply IH. exact H.
Qed.

Lemma in_replaced (n : io_node) (c : Z) :
  In c (replaced n) <-> In c (map fst (ioreplace n)) /\ c <> 0.
Proof.
  unfold replaced. rewrite filter_In, negb_true_iff, Z.eqb_neq. tauto.
Qed.

(** Whatever the counter says, a table in order translates by its
    pairs. *)
Lemma translate_spec (n : io_node) (c : Z) :
  io_ok n ->
  bbs_node_input_translate n c =
  match find_replace c (ioreplace n) with Some v => v | None => c end.
Proof.
  intros [Hfree _ Hcnt _]. unfold bbs_node_input_translate.
  destruct (Z.eqb_spec (ioreplaces n) 0) as [E|E]; [|reflexivity].
  cbn [negb]. destruct (find_replace c (ioreplace n)) as [v|] eqn:Ef; [|reflexivity].
  apply find_replace_in in Ef.
  destruct (Z.eq_dec c 0) as [->|Hc]; [symmetry; apply Hfree; exact Ef|].
  exfalso. assert (Hin : In c (replaced n)).
  { apply in_replaced. split; [|exact Hc].
    apply in_map_iff. exists (c, v). split; [reflexivity | exact Ef]. }
  rewrite E in Hcnt. destruct (replaced n); [destruct Hin | simpl in Hcnt; lia].
Qed.

Lemma find_set_first_same (k v : Z) (t : list (Z * Z)) :
  k <> 0 -> find_replace k t = None -> find_replace 0 t <> None ->
  find_replace k (set_first 0 (k, v) t) = Some v.
Proof.
  intros Hk. induction t as [|[k' w] t IH]; simpl; [congruence|].
  destruct (Z.eqb_spec k' k) as [E|E]; [discriminate|].
  destruct (Z.eqb_spec k' 0) as [E0|E0]; simpl.
  - intros _ _. rewrite Z.eqb_refl. reflexivity.
  - intros H1 H2. destruct (Z.eqb_spec k' k); [contradiction|]. apply IH; assumption.
Qed.

Lemma find_set_first_other (c k v : Z) (t : list (Z * Z)) :
  c <> k -> c <> 0 ->
  find_replace c (set_first 0 (k, v) t) = find_replace c t.
Proof.
  intros Hck Hc0. induction t as [|[k' w] t IH]; simpl; [reflexivity|].
  destruct (Z.eqb_spec k' 0) as [E0|E0]; simpl.
  - destruct (Z.eqb_spec k c); [congruence|].
    destruct (Z.eqb_spec k' c); [congruence | reflexivity].
  - destruct (Z.eqb_spec k' c); [reflexivity | exact IH].
Qed.

Lemma in_set_first (p q : Z * Z) (k : Z) (t : list (Z * Z)) :
  In p (set_first k q t) -> p = q \/ In p t.
Proof.
  induction t as [|[k' w] t IH]; simpl; [tauto|].
  destruct (k' =? k); simpl; intuition.
Qed.

Lemma replaced_set_first (k v : Z) (t : list (Z * Z)) :
  k <> 0 -> find_replace 0 t <> None ->
  exists a b,
    filter (fun x => negb (x =? 0)) (map fst t) = a ++ b /\
    filter (fun x => negb (x =? 0)) (map fst (set_first 0 (k, v) t)) = a ++ k :: b.
Proof.
  intros Hk. induction t as [|[k' w] t IH]; simpl; [congruence|].
  destruct (Z.eqb_spec k' 0) as [E0|E0]; simpl.
  - intros _. exists [], (filter (fun x => negb (x =? 0)) (map fst t)).
    destruct (Z.eqb_spec k 0); [contradiction|]. simpl. split; reflexivity.
  - intros H. destruct (IH H) as (a & b & H1 & H2).
    assert (Hb : (k' =? 0) = false) by (apply Z.eqb_neq; exact E0).
    exists (k' :: a), b. rewrite ?Hb. cbn [negb]. rewrite H1, H2. split; reflexivity.
Qed.

Lemma length_set_first (k : Z) (p : Z * Z) (t : list (Z * Z)) :
  length (set_first k p t) = length t.
Proof.
  induction t as [|[k' w] t IH]; simpl; [reflexivity|].
  destruct (k' =? k); simpl; congruence.
Qed.

Lemma replaced_below_size (t : list (Z * Z)) :
  find_replace 0 t <> None ->
  (length (filter (fun x => negb (Z.eqb x 0)) (map fst t)) < length t)%nat.
Proof.
  induction t as [|[k' w] t IH]; simpl; [congruence|].
  destruct (Z.eqb_spec k' 0) as [E0|E0]; simpl.
  - intros _. pose proof (filter_length_le (fun x => negb (x =? 0)) (map fst t)) as H.
    rewrite length_map in H. lia.
  - intros H. specialize (IH H). lia.
Qed.

(** What a call that returned 0 found. *)
Lemma replace_granted (n : io_node) (c_in c_out : Z) :
  fst (fst (bbs_node_input_replace n c_in c_out)) = 0 ->
  c_in <> 0 /\ find_replace c_in (ioreplace n) = None /\
  find_replace 0 (ioreplace n) <> None /\
  snd (fst (bbs_node_input_replace n c_in c_out))
    = mk_io (set_first 0 (c_in, c_out) (ioreplace n)) (wrap_uint (ioreplaces n + 1)).
Proof.
  unfold bbs_node_input_replace.
  destruct (find_replace c_in (ioreplace n)) eqn:E1; [discriminate|].
  destruct (find_replace 0 (ioreplace n)) eqn:E2; [|discriminate].
  intros _. split; [intros ->; congruence|].
  split; [reflexivity|]. split; [discriminate | reflexivity].
Qed.

Lemma replace_keeps_ok (n : io_node) (c_in c_out : Z) :
  io_ok n -> fst (fst (bbs_node_input_replace n c_in c_out)) = 0 ->
  io_ok (snd (fst (bbs_node_input_replace n c_in c_out))).
Proof.
  intros Hok Hres. destruct (replace_granted n c_in c_out Hres) as (Hk & Hnew & Hfree & ->).
  destruct Hok as [Hf Hd Hc Hs].
  destruct (replaced_set_first c_in c_out (ioreplace n) Hk Hfree) as (a & b & Ha & Hb).
  pose proof (replaced_below_size (ioreplace n) Hfree) as Hlt.
  constructor; unfold replaced in *; cbn [ioreplace ioreplaces].
  - intros v Hin. apply in_set_first in Hin. destruct Hin as [Hin|Hin]; [congruence|].
    apply Hf. exact Hin.
  - rewrite Hb. apply (NoDup_Add (Add_app c_in a b)). rewrite <- Ha. split; [exact Hd|].
    intros Hin. apply filter_In in Hin. apply find_replace_none in Hnew. tauto.
  - rewrite Hb, Hc, Ha, !length_app. simpl length.
    rewrite Ha, length_app in Hlt.
    rewrite wrap_uint_id by lia. lia.
  - rewrite length_set_first. exact Hs.
Qed.

(** X5. When [bbs_node_input_replace] returns 0, the character is from
    then on delivered as its replacement, and every other character is
    delivered as it was before the call. *)
Theorem input_replace_then_translate (n : io_node) (c_in c_out : Z) :
  io_ok n ->
  fst (fst (bbs_node_input_replace n c_in c_out)) = 0 ->
  let n' := snd (fst (bbs_node_input_replace n c_in c_out)) in
  bbs_node_input_translate n' c_in = c_out /\
  (forall c, c <> c_in ->
     bbs_node_input_translate n' c = bbs_node_input_translate n c) /\
  io_ok n'.
Proof.
  intros Hok Hres n'.
  pose proof (replace_keeps_ok n c_in c_out Hok Hres) as Hok'. fold n' in Hok'.
  destruct (replace_granted n c_in c_out Hres) as (Hk & Hnew & Hfree & Hn').
  fold n' in Hn'.
  split; [|split; [|exact Hok']].
  - rewrite (translate_spec n' c_in Hok'), Hn'. cbn [ioreplace].
    rewrite find_set_first_same by assumption. reflexivity.
  - intros c Hc. rewrite (translate_spec n' c Hok'), (translate_spec n c Hok).
    destruct (Z.eq_dec c 0) as [->|Hc0].
    + assert (H0 : forall m, io_ok m ->
                match find_replace 0 (ioreplace m) with Some v => v | None => 0 end = 0).
      { intros m Hm. destruct (find_replace 0 (ioreplace m)) as [v|] eqn:E; [|reflexivity].
        apply (io_free m Hm). apply find_replace_in. exact E. }
      rewrite (H0 n' Hok'), (H0 n Hok). reflexivity.
    + rewrite Hn'. cbn [ioreplace]. rewrite find_set_first_other by assumption.
      reflexivity.
Qed.

Lemma input_replace_then_translate_witness :
  let n' := snd (fst (bbs_node_input_replace (io_fresh 10) 33 64)) in
  bbs_node_input_translate n' 33 = 64 /\ bbs_node_input_translate n' 34 = 34.
Proof.
  assert (Hok : io_ok (io_fresh 10)).
  { constructor.
    - intros v Hin. apply repeat_spec in Hin. congruence.
    - constructor.
    - reflexivity.
    - unfold UINT_MAX. simpl. lia. }
  assert (Hres : fst (fst (bbs_node_input_replace (io_fresh 10) 33 64)) = 0)
    by reflexivity.
  pose proof (input_replace_then_translate (io_fresh 10) 33 64 Hok Hres) as (H1 & H2 & _).
  split; [exact H1|]. rewrite H2 by discriminate. reflexivity.
Defined.

(** X6. [bbs_node_input_replace] returns -1, and leaves the table and
    the counter as they were, exactly when the character is already
    entered in the table or the table has no free pair; the character 0
    is refused by every table. Otherwise it returns 0. *)
Theorem input_replace_refusals (n : io_node) (c_in c_out : Z) :
  let r := fst (fst (bbs_node_input_replace n c_in c_out)) in
  (r = -1 <->
     In c_in (map fst (ioreplace n)) \/ ~ In 0 (map fst (ioreplace n))) /\
  (r = -1 -> snd (fst (bbs_node_input_replace n c_in c_out)) = n) /\
  (r = -1 \/ r = 0) /\
  (c_in = 0 -> r = -1).
Proof.
  intros r. unfold r, bbs_node_input_replace.
  pose proof (find_replace_none c_in (ioreplace n)) as H1.
  pose proof (find_replace_none 0 (ioreplace n)) as H2.
  assert (Hdec : forall c, In c (map fst (ioreplace n)) \/ ~ In c (map fst (ioreplace n))).
  { intros c. destruct (in_dec Z.eq_dec c (map fst (ioreplace n))); tauto. }
  destruct (find_replace c_in (ioreplace n)) as [v|] eqn:E1;
    [|destruct (find_replace 0 (ioreplace n)) as [w|] eqn:E2]; cbn [fst snd].
  - assert (Hin : In c_in (map fst (ioreplace n))).
    { destruct (Hdec c_in) as [H|H]; [exact H|]. apply H1 in H. discriminate. }
    repeat split; auto.
  - assert (Hno : ~ In c_in (map fst (ioreplace n))) by (apply H1; reflexivity).
    assert (Hz : In 0 (map fst (ioreplace n))).
    { destruct (Hdec 0) as [H|H]; [exact H|]. apply H2 in H. discriminate. }
    repeat split; try discriminate; auto.
    + intros [H|H]; contradiction.
    + intros ->. contradiction.
  - assert (Hz : ~ In 0 (map fst (ioreplace n))) by (apply H2; reflexivity).
    repeat split; auto.
Qed.

Lemma set_first_undo (k v : Z) (t : list (Z * Z)) :
  k <> 0 -> find_replace k t = None ->
  (forall w, In (0, w) t -> w = 0) ->
  set_first k (0, 0) (set_first 0 (k, v) t) = t.
Proof.
  intros Hk. induction t as [|[k' w] t IH]; simpl; [reflexivity|].
  destruct (Z.eqb_spec k' k) as [E|E]; [discriminate|].
  intros Hnew Hfree.
  destruct (Z.eqb_spec k' 0) as [E0|E0]; simpl.
  - rewrite Z.eqb_refl. subst k'. rewrite (Hfree w) by (left; reflexivity). reflexivity.
  - destruct (Z.eqb_spec k' k); [contradiction|].
    rewrite IH; auto.
Qed.

(** X7. [bbs_node_input_unreplace] undoes [bbs_node_input_replace]: after
    a replacement that returned 0, taking the same character out again
    returns 0 and leaves the table and the counter exactly as they were
    before. A character other than 0 that is not in the table is
    refused with -1 and nothing changes. *)
Theorem input_unreplace_undoes_replace (n : io_node) (c_in c_out : Z) :
  io_ok n ->
  (fst (fst (bbs_node_input_replace n c_in c_out)) = 0 ->
   fst (bbs_node_input_unreplace
          (snd (fst (bbs_node_input_replace n c_in c_out))) c_in) = (0, n)) /\
  (c_in <> 0 -> ~ In c_in (replaced n) ->
   fst (bbs_node_input_unreplace n c_in) = (-1, n)).
Proof.
  intros Hok. split.
  - intros Hres.
    destruct (replace_granted n c_in c_out Hres) as (Hk & Hnew & Hfree & ->).
    unfold bbs_node_input_unreplace. cbn [ioreplace ioreplaces].
    rewrite find_set_first_same by assumption. cbn [fst].
    rewrite set_first_undo by (try assumption; apply Hok).
    pose proof (replaced_below_size (ioreplace n) Hfree) as Hlt.
    pose proof (io_counter n Hok) as Hc. pose proof (io_size n Hok) as Hs.
    unfold replaced in Hc.
    rewrite (wrap_uint_id (ioreplaces n + 1)) by lia.
    rewrite wrap_uint_id by lia.
    replace (ioreplaces n + 1 - 1) with (ioreplaces n) by lia.
    destruct n; reflexivity.
  - intros Hk Hnot. unfold bbs_node_input_unreplace.
    assert (Hnone : find_replace c_in (ioreplace n) = None).
    { apply find_replace_none. intros Hin. apply Hnot. apply in_replaced. tauto. }
    rewrite Hnone. reflexivity.
Qed.

Lemma input_unreplace_undoes_replace_witness :
  fst (bbs_node_input_unreplace
         (snd (fst (bbs_node_input_replace (io_fresh 10) 33 64))) 33)
  = (0, io_fresh 10) /\
  fst (bbs_node_input_unreplace (io_fresh 10) 33) = (-1, io_fresh 10).
Proof.
  assert (Hok : io_ok (io_fresh 10)).
  { constructor.
    - intros v Hin. apply repeat_spec in Hin. congruence.
    - constructor.
    - reflexivity.
    - unfold UINT_MAX. simpl. lia. }
  pose proof (input_unreplace_undoes_replace (io_fresh 10) 33 64 Hok) as (H1 & H2).
  split; [apply H1; reflexivity|].
  apply H2; [discriminate | intros H; exact H].
Defined.

(** *** Emulated speed *)

(** X8. [bbs_node_set_speed]: 0 bits per second switches the emulation
    off. For a speed of 1 to 4294967288 the pause between characters,
    in microseconds, is never longer than the speed asks for (pause
    times speed is at most 8000000) and is the longest whole number of
    microseconds that the rounding leaves; it is at least 1 up to
    8000000 bits per second and 0 above. For the seven highest values
    of an unsigned int the sum [bps + 7] wraps and the function divides
    by zero. *)
Theorem set_speed_pause (bps : Z) :
  (bps = 0 -> bbs_node_set_speed bps = Some (0, 0)) /\
  (1 <= bps <= UINT_MAX - 7 ->
     exists pause,
       bbs_node_set_speed bps = Some (bps, pause) /\
       0 <= pause /\ pause * bps <= 8000000 /\
       8000000 < (pause + 1) * (bps + 7) /\
       (bps <= 8000000 -> 1 <= pause) /\
       (8000000 < bps -> pause = 0)) /\
  (UINT_MAX - 6 <= bps <= UINT_MAX -> bbs_node_set_speed bps = None).
Proof.
  unfold bbs_node_set_speed, UINT_MAX. split; [intros ->; reflexivity|]. split.
  - intros Hb.
    replace (bps =? 0) with false by (symmetry; apply Z.eqb_neq; lia).
    rewrite wrap_uint_id by (unfold UINT_MAX; lia).
    set (cps := (bps + (8 - 1)) / 8).
    assert (Hc1 : 8 * cps <= bps + 7) by (unfold cps; apply Z.mul_div_le; lia).
    assert (Hc2 : bps + 7 < 8 * (cps + 1)).
    { unfold cps. replace (8 - 1) with 7 by lia.
      pose proof (Z.mul_succ_div_gt (bps + 7) 8 ltac:(lia)). lia. }
    assert (Hcpos : 1 <= cps) by lia.
    replace (cps =? 0) with false by (symmetry; apply Z.eqb_neq; lia).
    set (pause := 1000000 / cps).
    assert (Hp1 : cps * pause <= 1000000) by (unfold pause; apply Z.mul_div_le; lia).
    assert (Hp2 : 1000000 < cps * (pause + 1)).
    { unfold pause. pose proof (Z.mul_succ_div_gt 1000000 cps ltac:(lia)). lia. }
    assert (Hp0 : 0 <= pause) by (unfold pause; apply Z.div_pos; lia).
    exists pause. split; [reflexivity|]. split; [exact Hp0|].
    split; [nia|]. split; [nia|]. split.
    + intros Hle. assert (cps <= 1000000) by lia.
      unfold pause. apply Z.div_le_lower_bound; lia.
    + intros Hgt. assert (1000000 < cps) by lia.
      unfold pause. apply Z.div_small. lia.
  - intros Hb.
    replace (bps =? 0) with false by (symmetry; apply Z.eqb_neq; lia).
    assert (Hw : wrap_uint (bps + (8 - 1)) = bps + 7 - 4294967296).
    { unfold wrap_uint.
      replace (bps + (8 - 1)) with ((bps + 7 - 4294967296) + 1 * 4294967296) by lia.
      rewrite Z.mod_add by lia. apply Z.mod_small. lia. }
    rewrite Hw. rewrite Z.div_small by lia. reflexivity.
Qed.

Lemma set_speed_pause_witness :
  bbs_node_set_speed 300 = Some (300, 26315) /\
  bbs_node_set_speed 4294967295 = None.
Proof.
  pose proof (set_speed_pause 300) as (_ & H300 & _).
  pose proof (set_speed_pause 4294967295) as (_ & _ & Hmax).
  split; [reflexivity|].
  apply Hmax. unfold UINT_MAX. lia.
Defined.
End NodeOpsFacts.

(** ** More of the login dialogue *)
Module LoginOpsFacts.
Import CInt CMonad CMonadFacts Login LoginOps.
Local Open Scope cfun_scope.

(** *** Counting the calls of the backend *)

Lemma same_auth_refl (s : login_state) : same_auth_calls s s.
Proof. reflexivity. Qed.

Lemma same_auth_trans (a b c : login_state) :
  same_auth_calls a b -> same_auth_calls b c -> same_auth_calls a c.
Proof. unfold same_auth_calls. congruence. Qed.

Lemma silent_log (c : call) :
  is_authenticate c = false -> keeps same_auth_calls (log c).
Proof.
  intros Hc s. unfold log, same_auth_calls, auth_calls. simpl.
  rewrite filter_app. simpl. rewrite Hc, app_nil_r. reflexivity.
Qed.

Lemma silent_bind {A B : Type} (c : M A) (k : A -> M B) :
  keeps same_auth_calls c -> (forall a, keeps same_auth_calls (k a)) ->
  keeps same_auth_calls (bind c k).
Proof. apply keeps_bind. exact same_auth_trans. Qed.

Lemma silent_next_reply : keeps same_auth_calls next_reply.
Proof. intros s. unfold next_reply. destruct (replies s); reflexivity. Qed.

Lemma silent_external (mk : Z -> call) :
  (forall z, is_authenticate (mk z) = false) -> keeps same_auth_calls (external mk).
Proof.
  intros Hmk. unfold external.
  apply silent_bind; [apply silent_next_reply|]. intros r.
  apply silent_bind; [apply silent_log, Hmk|]. intros _.
  apply keeps_ret. exact same_auth_refl.
Qed.

Lemma silent_readline (into : buffer_name) (ms : Z) :
  keeps same_auth_calls (bbs_node_readline into ms).
Proof.
  intros s. unfold bbs_node_readline, bind, next_reply, log, ret, set_username,
    get_password, set_password, same_auth_calls, auth_calls.
  destruct (replies s) as [|r rest]; destruct into; simpl;
    rewrite filter_app, app_nil_r; reflexivity.
Qed.

Ltac silent_step :=
  match goal with
  | |- keeps _ (bind _ _) => apply silent_bind; [|intros]
  | |- keeps _ (ret _) => apply keeps_ret; exact same_auth_refl
  | |- keeps _ (return_ _) => apply keeps_return; exact same_auth_refl
  | |- keeps _ (stop_ _) => apply keeps_stop; exact same_auth_refl
  | |- keeps _ (if ?b then _ else _) => destruct b
  | |- keeps _ (external _) => apply silent_external; intros; reflexivity
  | |- keeps _ (log _) => apply silent_log; reflexivity
  | |- keeps _ (bbs_node_readline _ _) => apply silent_readline
  | |- keeps _ next_reply => apply silent_next_reply
  | |- keeps _ _ => solve [intros ?; reflexivity]
  | |- keeps _ _ =>
    progress unfold NEG_RETURN, NONPOS_RETURN, NONZERO_NEGRETURN,
      bbs_node_buffer, bbs_node_writef, bbs_node_echo_off, bbs_node_echo_on,
      bbs_user_register, bbs_get_response, bbs_memzero_password
  end.

Ltac silent_tac := repeat silent_step.

Lemma triple_silent {A : Type} (n : nat) (c : M A) :
  keeps same_auth_calls c ->
  triple (asked_at_most n) c (fun _ => asked_at_most n) (asked_at_most n).
Proof.
  intros Hc. apply (triple_keeps same_auth_calls); [|exact Hc].
  intros s s' H Hs. unfold asked_at_most, same_auth_calls in *. lia.
Qed.


Lemma asked_more (n : nat) (s : login_state) :
  asked_at_most n s -> asked_at_most (S n) s.
Proof. unfold asked_at_most. lia. Qed.

Lemma triple_silent_up {A : Type} (n : nat) (c : M A) :
  keeps same_auth_calls c ->
  triple (asked_at_most n) c (fun _ => asked_at_most n) (asked_at_most (S n)).
Proof.
  intros Hc. eapply triple_weaken; [apply (triple_silent n c Hc) | | |]; auto.
  intros s. apply asked_more.
Qed.

(** The one place where the backend is asked. *)
Lemma triple_ask (n : nat) (u : option string) (p : option (list Z)) :
  triple (asked_at_most n) (bbs_authenticate u p)
    (fun _ => asked_at_most (S n)) (asked_at_most (S n)).
Proof.
  intros s Hs. unfold bbs_authenticate, external, bind, next_reply, log,
    set_logged_in, ret, asked_at_most, auth_calls in *.
  destruct (replies s) as [|r rest]; simpl.
  - rewrite filter_app, length_app. simpl. lia.
  - destruct (res r =? 0); simpl; rewrite filter_app, length_app; simpl; lia.
Qed.

Ltac then_ tac := eapply triple_bind; [tac | intros ?; cbv beta].

Lemma triple_guest_login_asks (tdd ag gai : bool) (n : nat) :
  triple (asked_at_most n) (guest_login tdd ag gai)
    (fun _ => asked_at_most (S n)) (asked_at_most (S n)).
Proof.
  unfold guest_login. destruct ag.
  - destruct gai.
    + then_ ltac:(apply triple_silent_up; silent_tac).
      then_ ltac:(apply triple_silent_up; destruct tdd; silent_tac).
      then_ ltac:(apply triple_silent_up; silent_tac).
      unfold NEG_RETURN.
      then_ ltac:(then_ ltac:(apply triple_ask);
                  apply triple_silent; silent_tac).
      apply triple_silent. silent_tac.
    + unfold NEG_RETURN.
      then_ ltac:(then_ ltac:(apply triple_ask);
                  apply triple_silent; silent_tac).
      apply triple_silent. silent_tac.
  - eapply triple_weaken;
      [apply (triple_silent n); silent_tac | auto | | ]; intros; apply asked_more; auto.
Qed.

Lemma triple_password_login_asks (u : string) (n : nat) :
  triple (asked_at_most n) (password_login u)
    (fun _ => asked_at_most (S n)) (asked_at_most (S n)).
Proof.
  unfold password_login.
  then_ ltac:(apply triple_silent_up; silent_tac).
  then_ ltac:(apply triple_silent_up; silent_tac).
  then_ ltac:(apply triple_silent_up; silent_tac).
  then_ ltac:(apply triple_silent_up; silent_tac).
  then_ ltac:(apply triple_ask).
  apply triple_silent. silent_tac.
Qed.

Lemma triple_attempt_asks (tdd ag gai : bool) (n : nat) :
  triple (asked_at_most n) (attempt tdd ag gai)
    (fun _ => asked_at_most (S n)) (asked_at_most (S n)).
Proof.
  unfold attempt.
  then_ ltac:(apply triple_silent_up; silent_tac).
  then_ ltac:(apply triple_silent_up; silent_tac).
  then_ ltac:(apply triple_silent_up; silent_tac).
  then_ ltac:(apply triple_silent_up; silent_tac).
  then_ ltac:(apply triple_silent_up; silent_tac).
  destruct (same_nocase _ "Quit" || same_nocase _ "Exit").
  { eapply triple_weaken;
      [apply (triple_silent n); silent_tac | auto | | ]; intros; apply asked_more; auto. }
  destruct (same_nocase _ "New").
  { eapply triple_weaken;
      [apply (triple_silent n); silent_tac | auto | | ]; intros; apply asked_more; auto. }
  destruct (same_nocase _ "Guest").
  { apply triple_guest_login_asks. }
  apply triple_password_login_asks.
Qed.

Lemma triple_loop_asks (tdd ag gai : bool) (fuel : nat) :
  forall n attempts,
  triple (asked_at_most n) (attempts_loop tdd ag gai fuel attempts)
    (fun _ => asked_at_most (n + fuel)) (asked_at_most (n + fuel)).
Proof.
  induction fuel as [|fuel IH]; intros n attempts; simpl.
  - rewrite Nat.add_0_r. apply triple_silent. silent_tac.
  - eapply triple_bind.
    + eapply triple_weaken; [apply (triple_attempt_asks tdd ag gai n) | auto | |].
      * intros a s H. exact H.
      * intros s H. unfold asked_at_most in *. lia.
    + intros [|].
      * eapply triple_weaken;
          [apply (triple_silent (S n)); silent_tac | auto | |];
          intros; unfold asked_at_most in *; lia.
      * replace (n + S fuel)%nat with (S n + fuel)%nat by lia. apply IH.
Qed.

(** X9. However the dialogue goes, one call of [authenticate] asks the
    authentication backend three times at most. *)
Theorem authenticate_asks_three_times (tdd allow_guest guest_ask_info : bool)
    (s : login_state) :
  (auth_calls (snd (authenticate tdd allow_guest guest_ask_info s))
   <= auth_calls s + 3)%nat.
Proof.
  assert (Ht : triple (asked_at_most (auth_calls s))
                 (authenticate tdd allow_guest guest_ask_info)
                 (fun _ => asked_at_most (auth_calls s + 3))
                 (asked_at_most (auth_calls s + 3))).
  { assert (Hup : forall s0, asked_at_most (auth_calls s) s0 ->
                             asked_at_most (auth_calls s + 3) s0)
      by (unfold asked_at_most; intros; lia).
    unfold authenticate.
    then_ ltac:(eapply triple_weaken;
                [apply (triple_silent (auth_calls s)); silent_tac | auto | | exact Hup];
                intros ? ? H; exact H).
    then_ ltac:(eapply triple_weaken;
                [apply (triple_silent (auth_calls s)); silent_tac | auto | | exact Hup];
                intros ? ? H; exact H).
    then_ ltac:(apply (triple_loop_asks tdd allow_guest guest_ask_info
                         (Z.to_nat MAX_AUTH_ATTEMPTS))).
    apply triple_silent. silent_tac. }
  specialize (Ht s (Nat.le_refl _)).
  destruct (authenticate tdd allow_guest guest_ask_info s) as [[a|r|w] s'];
    exact Ht.
Qed.

(** *** The value returned *)

Lemma rw_bind {A B : Type} (P : Z -> login_state -> Prop) (c : M A) (k : A -> M B) :
  returns_with P c -> (forall a, returns_with P (k a)) ->
  returns_with P (bind c k).
Proof.
  intros Hc Hk s. unfold bind. specialize (Hc s).
  destruct (c s) as [[a|r|w] s']; auto. apply Hk.
Qed.

Lemma rw_return {A : Type} (P : Z -> login_state -> Prop) (r : Z) :
  (forall s, P r s) -> returns_with P (@return_ login_state A r).
Proof. intros H s. apply H. Qed.

Lemma rw_external (P : Z -> login_state -> Prop) (mk : Z -> call) :
  returns_with P (external mk).
Proof.
  intros s. unfold external, bind, next_reply, log, ret.
  destruct (replies s); exact I.
Qed.

Lemma rw_readline (P : Z -> login_state -> Prop) (into : buffer_name) (ms : Z) :
  returns_with P (bbs_node_readline into ms).
Proof.
  intros s. unfold bbs_node_readline, bind, next_reply, log, ret, set_username,
    get_password, set_password.
  destruct (replies s) as [|r rest]; destruct into; exact I.
Qed.

Ltac rw_step :=
  match goal with
  | |- returns_with _ (bind _ _) => apply rw_bind; [|intros]
  | |- returns_with _ (return_ _) => apply rw_return; intros; reflexivity
  | |- returns_with _ (if ?b then _ else _) => destruct b
  | |- returns_with _ (external _) => apply rw_external
  | |- returns_with _ (bbs_node_readline _ _) => apply rw_readline
  | |- returns_with _ _ => solve [intros ?; exact I]
  | |- returns_with _ _ =>
    progress unfold NEG_RETURN, NONPOS_RETURN, NONZERO_NEGRETURN,
      bbs_node_buffer, bbs_node_writef, bbs_node_echo_off, bbs_node_echo_on,
      bbs_user_register, bbs_get_response, bbs_memzero_password, bbs_authenticate
  end.

Ltac rw_tac := repeat rw_step.

Lemma rw_attempt (tdd ag gai : bool) :
  returns_with (fun r _ => r = -1) (attempt tdd ag gai).
Proof.
  unfold attempt, guest_login, password_login. rw_tac.
Qed.

Lemma rw_loop (tdd ag gai : bool) (fuel : nat) :
  forall attempts,
  returns_with (fun r _ => r = -1) (attempts_loop tdd ag gai fuel attempts).
Proof.
  induction fuel as [|fuel IH]; intros attempts; simpl.
  - intros s. exact I.
  - apply rw_bind; [apply rw_attempt|]. intros [|]; [intros s; exact I | apply IH].
Qed.

(** X10. [authenticate] returns 0 only when the node is logged in, and
    every other value it returns is -1. *)
Theorem authenticate_returns_logged_in (tdd allow_guest guest_ask_info : bool)
    (s : login_state) (r : Z) :
  fst (authenticate tdd allow_guest guest_ask_info s) = Return r ->
  (r = 0 /\ logged_in (snd (authenticate tdd allow_guest guest_ask_info s)) = true)
  \/ r = -1.
Proof.
  assert (H : returns_with login_result (authenticate tdd allow_guest guest_ask_info)).
  { unfold authenticate.
    apply rw_bind; [intros ?; exact I|]. intros li.
    apply rw_bind; [destruct li; intros ?; exact I|]. intros _.
    apply rw_bind.
    - intros s0. pose proof (rw_loop tdd allow_guest guest_ask_info
                               (Z.to_nat MAX_AUTH_ATTEMPTS) 0 s0) as Hl.
      destruct (attempts_loop _ _ _ _ _ s0) as [[a|r0|w] s']; auto.
      right. exact Hl.
    - intros attempts. destruct (attempts >=? MAX_AUTH_ATTEMPTS).
      + apply rw_return. intros; right; reflexivity.
      + intros s0. unfold bind, get_logged_in.
        destruct (logged_in s0) eqn:E; simpl; [|exact I].
        left. split; [reflexivity | exact E]. }
  intros Hr. specialize (H s).
  destruct (authenticate tdd allow_guest guest_ask_info s) as [[a|r0|w] s'];
    simpl in Hr; try discriminate.
  injection Hr as ->. exact H.
Qed.

Lemma authenticate_returns_logged_in_witness :
  logged_in (snd (authenticate false true false
                    (initial two_attempts "" (repeat 7 PASSWORD_SIZE)))) = true.
Proof.
  destruct (authenticate_returns_logged_in false true false
              (initial two_attempts "" (repeat 7 PASSWORD_SIZE)) 0) as [[_ H]|H].
  - vm_compute. reflexivity.
  - exact H.
  - discriminate H.
Defined.
End LoginOpsFacts.

(* ================================================================== *)
(** * nets/net_irc.c: names, privileges, and who gets what *)
(* ================================================================== *)

Module IrcOpsFacts.
Import CInt CIntFacts CMonad CMonadFacts Irc IrcCommands ChannelFacts IrcRunFacts
  IrcInvariants IrcClaims.
Local Open Scope cfun_scope.

(** After the first character a name is made of letters, digits and
    hyphens. *)
Lemma valid_channame_tail (t : string) :
  valid_channame_from false t = true <->
  Forall (fun x => isalnum x = true \/ x = "-"%char) (list_ascii_of_string t).
Proof.
  induction t as [|c rest IH]; simpl.
  - split; [constructor | reflexivity].
  - destruct (isalnum c) eqn:Ea; simpl.
    + rewrite IH. split.
      * intros H. constructor; [left; exact Ea | exact H].
      * intros H. inversion H; assumption.
    + destruct (Ascii.eqb_spec c "-") as [->|Hne]; simpl.
      * rewrite IH. split.
        -- intros H. constructor; [right; reflexivity | exact H].
        -- intros H. inversion H; assumption.
      * split; [discriminate|].
        intros H. inversion H as [|? ? [Hx|Hx] ?]; subst; congruence.
Qed.

(** X11. JOIN takes a name exactly when it starts with # or &, is at
    most 50 characters long and goes on with letters, digits and
    hyphens only; any other name is answered with 479 and nothing else
    happens. *)
Theorem join_name_rule (nm : string) :
  (negb (VALID_CHANNEL_NAME nm) || (strlen nm >? MAX_CHANNEL_LENGTH)
     || negb (valid_channame nm) = false <->
   exists c rest,
     nm = String c rest /\ (c = "#"%char \/ c = "&"%char) /\
     (String.length rest < 50)%nat /\
     Forall (fun x => isalnum x = true \/ x = "-"%char) (list_ascii_of_string rest)) /\
  (forall user now logfile st,
     held st = [] ->
     negb (VALID_CHANNEL_NAME nm) || (strlen nm >? MAX_CHANNEL_LENGTH)
       || negb (valid_channame nm) = true ->
     call (join_channel user nm now logfile) st =
     (Next 0, add_sent [EvSend user (Numeric 479 "Illegal channel name")] st)).
Proof.
  split.
  - destruct nm as [|c rest].
    + split; [discriminate | intros (c & rest & H & _); discriminate].
    + unfold VALID_CHANNEL_NAME, valid_channame, IS_CHANNEL_NAME, strlen,
        MAX_CHANNEL_LENGTH.
      cbn [valid_channame_from String.length].
      assert (Hz : (Z.of_nat (S (String.length rest)) =? 0) = false)
        by (apply Z.eqb_neq; lia).
      rewrite Hz. cbn [negb andb].
      split.
      * intros H. apply orb_false_iff in H. destruct H as [H Hv].
        apply orb_false_iff in H. destruct H as [Hh Hl].
        apply negb_false_iff in Hh. apply negb_false_iff in Hv.
        rewrite Hh in Hv. cbn [andb negb] in Hv.
        rewrite andb_false_r in Hv. cbn [andb] in Hv.
        exists c, rest. split; [reflexivity|].
        split.
        { unfold is_hash_or_amp in Hh. apply orb_true_iff in Hh.
          destruct Hh as [Hh|Hh]; apply Ascii.eqb_eq in Hh; auto. }
        split.
        { destruct (Z.gtb_spec (Z.of_nat (S (String.length rest))) 50);
            [discriminate | lia]. }
        apply valid_channame_tail. exact Hv.
      * intros (c' & rest' & Heq & Hc & Hlen & Hall).
        injection Heq as -> ->.
        assert (Hh : is_hash_or_amp c' = true).
        { unfold is_hash_or_amp. destruct Hc as [-> | ->]; reflexivity. }
        rewrite Hh. cbn [negb andb orb].
        rewrite andb_false_r. cbn [andb].
        apply valid_channame_tail in Hall. rewrite Hall. cbn [negb].
        rewrite orb_false_r.
        destruct (Z.gtb_spec (Z.of_nat (S (String.length rest'))) 50);
          [lia | reflexivity].
  - intros user now logfile st Hh Hbad.
    unfold call, join_channel. rewrite Hbad.
    rewrite (bind_next _ _ _ _ _ (send_numeric_run user _ _ st Hh)).
    reflexivity.
Qed.

Lemma join_name_rule_witness :
  call (join_channel 2 "room" 10 false) sample_start =
  (Next 0, add_sent [EvSend 2 (Numeric 479 "Illegal channel name")] sample_start).
Proof.
  apply (proj2 (join_name_rule "room") 2 10 false sample_start); reflexivity.
Defined.

(** A mode bit of a member, as a condition. *)
Lemma land_has (modes bit : Z) : Z.land modes bit <> 0 <-> has modes bit = true.
Proof.
  unfold has. rewrite negb_true_iff, Z.eqb_neq. reflexivity.
Qed.

(** X12. The privilege levels are ordered: a member passes for voice
    with any of the five modes, for half-operator with any but voice,
    for operator with operator, admin or founder, for admin with admin
    or founder, and for founder with founder only; so whoever passes a
    level passes every lower one. *)
Theorem authorized_atleast_levels (member : irc_member) :
  let holds_ b := has (m_modes member) b = true in
  let passes level := authorized_atleast member level <> 0 in
  (passes CHANNEL_USER_MODE_FOUNDER <-> holds_ CHANNEL_USER_MODE_FOUNDER) /\
  (passes CHANNEL_USER_MODE_ADMIN <->
   holds_ CHANNEL_USER_MODE_ADMIN \/ passes CHANNEL_USER_MODE_FOUNDER) /\
  (passes CHANNEL_USER_MODE_OP <->
   holds_ CHANNEL_USER_MODE_OP \/ passes CHANNEL_USER_MODE_ADMIN) /\
  (passes CHANNEL_USER_MODE_HALFOP <->
   holds_ CHANNEL_USER_MODE_HALFOP \/ passes CHANNEL_USER_MODE_OP) /\
  (passes CHANNEL_USER_MODE_VOICE <->
   holds_ CHANNEL_USER_MODE_VOICE \/ passes CHANNEL_USER_MODE_HALFOP).
Proof.
  cbv zeta.
  assert (Hlor : forall a b, Z.lor a b <> 0 <-> a <> 0 \/ b <> 0).
  { intros a b. rewrite Z.lor_eq_0_iff.
    destruct (Z.eq_dec a 0), (Z.eq_dec b 0); intuition lia. }
  unfold authorized_atleast. cbv zeta.
  change (CHANNEL_USER_MODE_FOUNDER =? CHANNEL_USER_MODE_VOICE) with false.
  change (CHANNEL_USER_MODE_FOUNDER =? CHANNEL_USER_MODE_HALFOP) with false.
  change (CHANNEL_USER_MODE_FOUNDER =? CHANNEL_USER_MODE_OP) with false.
  change (CHANNEL_USER_MODE_FOUNDER =? CHANNEL_USER_MODE_ADMIN) with false.
  change (CHANNEL_USER_MODE_FOUNDER =? CHANNEL_USER_MODE_FOUNDER) with true.
  change (CHANNEL_USER_MODE_ADMIN =? CHANNEL_USER_MODE_VOICE) with false.
  change (CHANNEL_USER_MODE_ADMIN =? CHANNEL_USER_MODE_HALFOP) with false.
  change (CHANNEL_USER_MODE_ADMIN =? CHANNEL_USER_MODE_OP) with false.
  change (CHANNEL_USER_MODE_ADMIN =? CHANNEL_USER_MODE_ADMIN) with true.
  change (CHANNEL_USER_MODE_OP =? CHANNEL_USER_MODE_VOICE) with false.
  change (CHANNEL_USER_MODE_OP =? CHANNEL_USER_MODE_HALFOP) with false.
  change (CHANNEL_USER_MODE_OP =? CHANNEL_USER_MODE_OP) with true.
  change (CHANNEL_USER_MODE_HALFOP =? CHANNEL_USER_MODE_VOICE) with false.
  change (CHANNEL_USER_MODE_HALFOP =? CHANNEL_USER_MODE_HALFOP) with true.
  change (CHANNEL_USER_MODE_VOICE =? CHANNEL_USER_MODE_VOICE) with true.
  cbv iota.
  split; [apply land_has|].
  split; [rewrite ?Hlor, <- ?land_has; tauto|].
  split; [rewrite ?Hlor, <- ?land_has; tauto|].
  split; [rewrite ?Hlor, <- ?land_has; tauto|].
  rewrite ?Hlor, <- ?land_has; tauto.
Qed.


Lemma put_channel_same (ch : irc_channel) (l : list irc_channel) :
  find_channel (name ch) l = Some ch -> put_channel ch l = l.
Proof.
  unfold find_channel. induction l as [|c rest IH]; simpl; [reflexivity|].
  destruct (String.eqb (name c) (name ch)) eqn:E.
  - intros H. injection H as ->. reflexivity.
  - intros H. rewrite (IH H). reflexivity.
Qed.

Lemma put_channel_twice (ch ch' : irc_channel) (l : list irc_channel) :
  name ch' = name ch -> put_channel ch (put_channel ch' l) = put_channel ch l.
Proof.
  intros Hn. induction l as [|c rest IH]; simpl; [reflexivity|].
  rewrite Hn.
  destruct (String.eqb (name c) (name ch)) eqn:E; simpl.
  - rewrite Hn, String.eqb_refl. reflexivity.
  - rewrite E, IH. reflexivity.
Qed.

Lemma find_channel_put (ch ch' : irc_channel) (l : list irc_channel) :
  find_channel (name ch) l = Some ch -> name ch' = name ch ->
  find_channel (name ch) (put_channel ch' l) = Some ch'.
Proof.
  unfold find_channel. intros Hf Hn.
  induction l as [|c rest IH]; simpl in *; [discriminate|].
  rewrite Hn.
  destruct (String.eqb (name c) (name ch)) eqn:E; simpl.
  - rewrite Hn, String.eqb_refl. reflexivity.
  - rewrite E. apply IH. exact Hf.
Qed.

(** Taking out the member that was put in gives the channel back. *)
Lemma without_with_member (m : irc_member) (ch : irc_channel) :
  membercount ch = wrap_uint (Z.of_nat (length (members ch))) ->
  without_member (m_user m) (with_member m ch) = ch.
Proof.
  intros Hc. unfold without_member, with_member, with_members. simpl.
  rewrite Z.eqb_refl.
  rewrite wrap_uint_pred.
  replace (membercount ch + 1 - 1) with (membercount ch) by lia.
  assert (Hid : wrap_uint (membercount ch) = membercount ch).
  { rewrite Hc. unfold wrap_uint. apply Z.mod_mod. lia. }
  rewrite Hid. destruct ch; reflexivity.
Qed.

(** X13. A JOIN that took effect is undone by the PART that follows it:
    the list of channels and every user's channel count are what they
    were before, whether the channel was there or was made by the
    JOIN. *)
Theorem join_then_part_restores (user : Z) (nm : string) (now now' : Z)
    (logfile : bool) (st st1 st2 : irc_state) :
  state_ok st ->
  completes (join_channel user nm now logfile) st st1 ->
  channels st1 <> channels st ->
  completes (leave_channel user nm now') st1 st2 ->
  memberships user st1 = memberships user st + 1 /\
  channels st2 = channels st /\
  (forall k, counted k st2 = counted k st) /\
  state_ok st2.
Proof.
  intros Hok Hjoin Hdiff Hpart.
  destruct (join_keeps _ _ _ _ _ _ Hok Hjoin) as [Hok1 Hex1].
  destruct (part_keeps _ _ _ _ _ Hok1 Hpart) as [Hok2 Hex2].
  destruct (join_channel_run user nm now logfile st Hok)
    as (r & s1 & Hrun & Hidle1 & Hcase).
  assert (s1 = st1) by (symmetry; eapply completes_unique; eauto). subst s1.
  destruct Hcase as [(Hsame & _)|(Hr & Hcap & ch & m & Hmu & Hnot & Hchs & Hobs & Hcnt)];
    [contradiction|].
  destruct Hok as [Hchans Hnames Hcounted Hidle].
  assert (Hfind1 : find_channel nm (channels st1) = Some (with_member m ch) /\
                   channels_without user (with_member m ch) (channels st1) = channels st).
  { destruct Hchs as [(Hf & Hput)|(Hf & Hname & Hmem & Hmc & Hput)].
    - destruct (find_channel_in _ _ _ Hf) as [Hin Hn]. subst nm.
      assert (Hcok : chan_ok ch) by (rewrite Forall_forall in Hchans; auto).
      rewrite Hput. split.
      + apply find_channel_put; [exact Hf | reflexivity].
      + rewrite <- Hmu. unfold channels_without.
        rewrite (without_with_member m ch (ok_count _ Hcok)).
        destruct (members ch) eqn:Em; [destruct (ok_nonempty _ Hcok Em)|].
        rewrite put_channel_twice by reflexivity.
        apply put_channel_same. exact Hf.
    - rewrite Hput. split.
      + unfold find_channel. simpl. rewrite Hname, String.eqb_refl. reflexivity.
      + assert (Hback : without_member user (with_member m ch) = ch).
        { rewrite <- Hmu. apply without_with_member. rewrite Hmc, Hmem. reflexivity. }
        unfold channels_without. rewrite Hback, Hmem. simpl.
        rewrite !String.eqb_refl. simpl. rewrite String.eqb_refl. reflexivity. }
  destruct Hfind1 as [Hfind1 Hback].
  assert (Hmem1 : is_member user (with_member m ch) = true).
  { rewrite is_member_with. rewrite Hmu, Z.eqb_refl. reflexivity. }
  destruct (part_decrements_both user nm now' _ st1 st2 Hok1 Hfind1 Hmem1 Hpart)
    as (Hch2 & Hm2 & Hc2).
  destruct (leave_channel_run user nm now' st1 Hok1) as (r2 & s2 & Hrun2 & _ & Hcase2).
  assert (s2 = st2) by (symmetry; eapply completes_unique; eauto). subst s2.
  rewrite Hfind1, Hmem1 in Hcase2.
  destruct Hcase2 as (_ & _ & _ & Hcnt2).
  split.
  { pose proof (Hex1 user) as He. unfold excess in He.
    rewrite Hcnt in He. rewrite Z.eqb_refl in He. lia. }
  split; [rewrite Hch2; exact Hback|].
  split; [|exact Hok2].
  intros k. rewrite Hcnt2, Hcnt. destruct (k =? user); lia.
Qed.

Lemma room_made_ok : state_ok room_made_state.
Proof.
  apply (join_keeps 1 "#room" 10 false sample_start).
  - apply fresh_ok, sample_start_fresh.
  - apply (completes_after _ _ 0). vm_compute. reflexivity.
Qed.

Lemma join_then_part_restores_witness :
  let st1 := after (join_channel 2 "#room" 11 false) room_made_state in
  let st2 := after (leave_channel 2 "#room" 12) st1 in
  memberships 2 st1 = memberships 2 room_made_state + 1 /\
  channels st2 = channels room_made_state /\
  (forall k, counted k st2 = counted k room_made_state) /\
  state_ok st2.
Proof.
  intros st1 st2.
  apply (join_then_part_restores 2 "#room" 11 12 false room_made_state st1 st2).
  - apply room_made_ok.
  - apply (completes_after _ _ 0). vm_compute. reflexivity.
  - vm_compute. discriminate.
  - apply (completes_after _ _ 0). vm_compute. reflexivity.
Defined.


Lemma skipped_sender (user : Z) (m : irc_member) :
  skipped (Some user) CHANNEL_USER_MODE_NONE m = (m_user m =? user).
Proof.
  unfold skipped. change (CHANNEL_USER_MODE_NONE =? 0) with true.
  cbn [negb andb]. rewrite orb_false_r. apply Z.eqb_sym.
Qed.

Lemma recipients_but_sender (user : Z) (ch : irc_channel) :
  recipients (Some user) CHANNEL_USER_MODE_NONE ch =
  filter (fun u => negb (u =? user)) (map m_user (members ch)).
Proof.
  unfold recipients. induction (members ch) as [|m ms IH]; [reflexivity|].
  cbn [filter map]. rewrite skipped_sender.
  destruct (m_user m =? user); cbn [negb map]; rewrite IH; reflexivity.
Qed.

(** X14. A message to a channel from a member who may speak there is
    written once to every other member, in the order of the member
    list, and to the log file of the channel if it has one; nothing is
    written back to the sender, and the channels stay as they are. *)
Theorem privmsg_reaches_the_others
    (user : Z) (channame : string) (notice : bool) (message : string) (now : Z)
    (st : irc_state) (ch : irc_channel) (mm : irc_member) :
  held st = [] ->
  0 < strlen message < 510 ->
  IS_CHANNEL_NAME channame = true ->
  find_channel channame (channels st) = Some ch ->
  find_member user (members ch) = Some mm ->
  has (cmodes ch) CHANNEL_MODE_MODERATED = false \/
  authorized_atleast mm CHANNEL_USER_MODE_VOICE <> 0 ->
  let line := MsgPrivmsg notice user (name ch) message in
  let st' := snd (privmsg user channame notice message now st) in
  fst (privmsg user channame notice message now st) = Return 0 /\
  channels st' = channels st /\
  exists ev,
    sent st' = sent st ++ ev /\
    ev = map (fun u => EvSend u line)
           (filter (fun u => negb (u =? user)) (map m_user (members ch)))
         ++ (if fp ch then [EvLogLine (name ch) line] else []) /\
    (forall m, ~ In (EvSend user m) ev) /\
    (forall u, is_member u ch = true -> u <> user -> In (EvSend u line) ev).
Proof.
  intros Hh Hlen Hname Hfind Hm Hcase line st'.
  pose proof (privmsg_delivered user channame notice message now st Hh ch Hlen Hname
                Hfind mm Hm Hcase) as Hrun.
  subst st'. rewrite Hrun. cbn [fst snd].
  split; [reflexivity|]. split; [reflexivity|].
  eexists. split.
  { unfold add_sent, touch. cbn [sent]. reflexivity. }
  assert (Hev : broadcast_events ch (Some user) CHANNEL_USER_MODE_NONE line =
                map (fun u => EvSend u line)
                  (filter (fun u => negb (u =? user)) (map m_user (members ch)))
                ++ (if fp ch then [EvLogLine (name ch) line] else [])).
  { unfold broadcast_events. rewrite recipients_but_sender.
    rewrite andb_false_r. rewrite app_nil_r. reflexivity. }
  fold line. rewrite Hev.
  split; [reflexivity|]. split.
  - intros m Hin. apply in_app_or in Hin. destruct Hin as [Hin|Hin].
    + apply in_map_iff in Hin. destruct Hin as (u & Hu & Hin).
      injection Hu as Hu _. subst u.
      apply filter_In in Hin. destruct Hin as [_ Hne].
      rewrite Z.eqb_refl in Hne. discriminate.
    + destruct (fp ch); [|contradiction].
      destruct Hin as [Hin|[]]. discriminate.
  - intros u Hu Hne. apply in_or_app. left.
    apply (in_map (fun x => EvSend x line)). apply filter_In. split.
    + apply is_member_spec. exact Hu.
    + apply negb_true_iff. apply Z.eqb_neq. exact Hne.
Qed.

Lemma privmsg_reaches_the_others_witness :
  let st := after (join_channel 2 "#room" 11 false) room_made_state in
  fst (privmsg 2 "#room" false "hello" 20 st) = Return 0 /\
  channels (snd (privmsg 2 "#room" false "hello" 20 st)) = channels st /\
  exists ev,
    sent (snd (privmsg 2 "#room" false "hello" 20 st)) = sent st ++ ev /\
    ev = [EvSend 1 (MsgPrivmsg false 2 "#room" "hello")] /\
    (forall m, ~ In (EvSend 2 m) ev) /\
    (forall u, is_member u (room_with 2) = true -> u <> 2 ->
               In (EvSend u (MsgPrivmsg false 2 "#room" "hello")) ev).
Proof.
  intros st.
  apply (privmsg_reaches_the_others 2 "#room" false "hello" 20 st (room_with 2)
           (mk_member 2 CHANNEL_USER_MODE_NONE)).
  - reflexivity.
  - vm_compute. split; reflexivity.
  - reflexivity.
  - vm_compute. reflexivity.
  - vm_compute. reflexivity.
  - left. vm_compute. reflexivity.
Defined.



End IrcOpsFacts.

(* ================================================================== *)
(** * nets/net_irc.c: MODE, TOPIC, AWAY, PONG, PRIVMSG *)
(* ================================================================== *)

Module IrcCommandsFacts.
Import CInt CIntFacts CMonad CMonadFacts Irc IrcCommands ChannelFacts IrcRunFacts
  IrcInvariants IrcClaims IrcOpsFacts.
Local Open Scope cfun_scope.

(** ** Commands that leave the members alone *)

Lemma same_refl (st : irc_state) : same_members st st.
Proof. split; auto. Qed.

Lemma same_trans (a b c : irc_state) :
  same_members a b -> same_members b c -> same_members a c.
Proof.
  intros [H1 H2] [H3 H4]. split; [congruence|].
  intros k. rewrite H4. apply H2.
Qed.

Lemma same_frame (st st' : irc_state) :
  channels st' = channels st ->
  (forall k, channelcount (user_at st' k) = channelcount (user_at st k)) ->
  same_members st st'.
Proof. intros Hc Hu. split; [rewrite Hc; reflexivity | exact Hu]. Qed.

Lemma same_bind {A B : Type} (c : I A) (k : A -> I B) :
  keeps same_members c -> (forall a, keeps same_members (k a)) ->
  keeps same_members (bind c k).
Proof. apply keeps_bind. exact same_trans. Qed.

Lemma same_ret {A : Type} (a : A) : keeps same_members (ret a : I A).
Proof. apply keeps_ret. exact same_refl. Qed.

Lemma same_return {A : Type} (r : Z) : keeps same_members (return_ r : I A).
Proof. intros s. apply same_refl. Qed.

Lemma same_stop {A : Type} (w : stop) : keeps same_members (stop_ w : I A).
Proof. apply keeps_stop. exact same_refl. Qed.

Lemma same_get : keeps same_members (get : I irc_state).
Proof. apply keeps_get. exact same_refl. Qed.

Lemma same_emit (e : event) : keeps same_members (emit e).
Proof. intros s. apply same_frame; reflexivity. Qed.

Lemma same_lock_user (u : Z) : keeps same_members (lock_user u).
Proof.
  intros s. unfold lock_user, bind, get. destruct (holds u s); simpl.
  - apply same_refl.
  - apply same_frame; reflexivity.
Qed.

Lemma same_unlock_user (u : Z) : keeps same_members (unlock_user u).
Proof. intros s. apply same_frame; reflexivity. Qed.

Lemma same_update_user (u : Z) (f : irc_user -> irc_user) :
  (forall x, channelcount (f x) = channelcount x) ->
  keeps same_members (update_user u f).
Proof.
  intros Hf s. apply same_frame; [reflexivity|].
  intros k. simpl. destruct (k =? u); [apply Hf | reflexivity].
Qed.

Lemma same_send_reply (u : Z) (m : irc_msg) : keeps same_members (send_reply u m).
Proof.
  unfold send_reply.
  apply same_bind; [apply same_lock_user | intros _].
  apply same_bind; [apply same_emit | intros _]. apply same_unlock_user.
Qed.

Lemma same_send_numeric (u n : Z) (t : string) : keeps same_members (send_numeric u n t).
Proof. apply same_send_reply. Qed.

Lemma same_for_each {A : Type} (l : list A) (body : A -> I unit) :
  (forall x, keeps same_members (body x)) -> keeps same_members (for_each l body).
Proof. apply keeps_for_each; [exact same_refl | exact same_trans]. Qed.

Lemma same_channel_broadcast (ch : irc_channel) (ex : option Z) (mm : Z) (m : irc_msg) :
  keeps same_members (channel_broadcast ch ex mm m).
Proof.
  unfold channel_broadcast.
  apply same_bind.
  { apply same_for_each. intros x. destruct (skipped ex mm x); [apply same_ret|].
    apply same_bind; [apply same_lock_user | intros _].
    apply same_bind; [apply same_emit | intros _]. apply same_unlock_user. }
  intros _. apply same_bind.
  { destruct (fp ch); [apply same_emit | apply same_ret]. }
  intros _. apply same_bind; [|intros _; apply same_ret].
  destruct (forallb (skipped ex mm) (members ch) && _); [apply same_emit | apply same_ret].
Qed.

(** A write to a channel that keeps its roster. *)
Lemma roster_put (ch ch' : irc_channel) (l : list irc_channel) :
  find_channel (name ch) l = Some ch -> roster ch' = roster ch ->
  map roster (put_channel ch' l) = map roster l.
Proof.
  unfold find_channel. intros Hf Hr.
  assert (Hn : name ch' = name ch) by (unfold roster in Hr; congruence).
  induction l as [|c rest IH]; simpl in *; [reflexivity|].
  rewrite Hn. destruct (String.eqb (name c) (name ch)) eqn:E; simpl.
  - injection Hf as ->. rewrite Hr. reflexivity.
  - rewrite (IH Hf). reflexivity.
Qed.

Lemma same_store (nm : string) (ch ch' : irc_channel) (s : irc_state) :
  find_channel nm (channels s) = Some ch -> roster ch' = roster ch ->
  same_members s (store_channels (put_channel ch' (channels s)) s).
Proof.
  intros Hf Hr. destruct (find_channel_in _ _ _ Hf) as [_ Hn]. subst nm.
  split; [|reflexivity].
  unfold store_channels. cbn [channels]. apply (roster_put ch); assumption.
Qed.

Lemma existsb_map_user (k : Z) (ms : list irc_member) :
  existsb (Z.eqb k) (map m_user ms) = existsb (fun m => m_user m =? k) ms.
Proof.
  induction ms as [|m rest IH]; simpl; [reflexivity|].
  rewrite IH, (Z.eqb_sym k). reflexivity.
Qed.

Lemma map_user_set_modes (u v : Z) (ms : list irc_member) :
  map m_user (set_member_modes u v ms) = map m_user ms.
Proof.
  induction ms as [|m rest IH]; simpl; [reflexivity|].
  destruct (m_user m =? u); simpl; [reflexivity | rewrite IH; reflexivity].
Qed.

Lemma same_set_channel_mode (channel_name : string) (set : bool) (mode changed : Z) :
  keeps same_members (set_channel_mode channel_name set mode changed).
Proof.
  intros s. unfold set_channel_mode, bind, get.
  destruct (find_channel channel_name (channels s)) as [ch|] eqn:Ef; [|apply same_refl].
  destruct (set_mode (cmodes ch) set mode); [|apply same_refl].
  rewrite set_channels_run. simpl snd.
  apply (same_store channel_name ch); [exact Ef | reflexivity].
Qed.

Lemma same_set_target_mode (channel_name : string) (target : Z) (set : bool)
    (mode changed : Z) :
  keeps same_members (set_target_mode channel_name target set mode changed).
Proof.
  intros s. unfold set_target_mode, bind, get.
  destruct (find_channel channel_name (channels s)) as [ch|] eqn:Ef; [|apply same_refl].
  destruct (find_member target (members ch)); [|apply same_refl].
  destruct (set_mode (m_modes i) set mode); [|apply same_refl].
  rewrite set_channels_run. simpl snd.
  apply (same_store channel_name ch); [exact Ef|].
  unfold roster, with_members. simpl. rewrite map_user_set_modes. reflexivity.
Qed.

Lemma same_broadcast_mode (channel_name modestr : string) (whom : Z) :
  keeps same_members (broadcast_mode channel_name modestr whom).
Proof.
  unfold broadcast_mode.
  apply same_bind; [apply same_get | intros st].
  destruct (find_channel channel_name (channels st)); [|apply same_stop].
  apply same_bind; [apply same_channel_broadcast | intros _; apply same_ret].
Qed.

Lemma same_after_channel_mode (user : Z) (channel_name : string)
    (target : option string) (set : bool) (mode : ascii) (changed : Z) :
  keeps same_members (after_channel_mode user channel_name target set mode changed).
Proof.
  unfold after_channel_mode. destruct target; [apply same_ret|].
  destruct (changed =? 0); [apply same_ret|].
  apply same_bind; [apply same_broadcast_mode | intros _; apply same_ret].
Qed.

Lemma same_member_mode (user : Z) (channel_name : string) (target : option string)
    (targetmember : option Z) (set : bool) (mode : ascii) (changed : Z) :
  keeps same_members (member_mode user channel_name target targetmember set mode changed).
Proof.
  unfold member_mode. destruct target.
  2: { apply same_bind; [apply same_send_numeric | intros _; apply same_ret]. }
  destruct targetmember.
  2: { apply same_bind; [apply same_send_numeric | intros _; apply same_ret]. }
  apply same_bind; [apply same_set_target_mode | intros c].
  apply same_bind.
  { destruct (c =? 0); [apply same_ret | apply same_broadcast_mode]. }
  intros _. apply same_after_channel_mode.
Qed.

Lemma same_plain_mode (user : Z) (channel_name : string) (target : option string)
    (set : bool) (mode : ascii) (bit changed : Z) :
  keeps same_members (plain_mode user channel_name target set mode bit changed).
Proof.
  unfold plain_mode.
  apply same_bind; [apply same_set_channel_mode | intros c].
  apply same_after_channel_mode.
Qed.

Lemma same_founder_mode (user : Z) (channel_name : string) (target : option string)
    (targetmember : option Z) (set : bool) (mode : ascii) (changed : Z) :
  keeps same_members (founder_mode user channel_name target targetmember set mode changed).
Proof.
  unfold founder_mode.
  apply same_bind; [apply same_get | intros st].
  destruct (get_member_by_channel_name user channel_name st); [|apply same_stop].
  destruct (authorized_atleast i CHANNEL_USER_MODE_FOUNDER =? 0).
  - apply same_bind; [apply same_send_numeric | intros _; apply same_ret].
  - apply same_member_mode.
Qed.

Lemma same_limit_mode (user : Z) (channel_name : string) (target : option string)
    (set : bool) (mode : ascii) (changed : Z) :
  keeps same_members (limit_mode user channel_name target set mode changed).
Proof.
  unfold limit_mode. destruct (set && strlen_zero target).
  { apply same_bind; [apply same_send_numeric | intros _; apply same_ret]. }
  apply same_bind; [apply same_set_channel_mode | intros c].
  intros s. unfold bind at 1. unfold get at 1.
  destruct (find_channel channel_name (channels s)) as [ch|] eqn:Ef; [|apply same_refl].
  unfold bind at 1. rewrite set_channels_run.
  eapply same_trans.
  - apply (same_store channel_name ch
             (set_limit (if set then match target with
                                     | Some t => wrap_uint (atoi t)
                                     | None => 0
                                     end else 0) ch)); [exact Ef | reflexivity].
  - apply same_after_channel_mode.
Qed.

Lemma same_unknown_mode (user : Z) (channel_name : string) (target : option string)
    (set : bool) (mode : ascii) (changed : Z) :
  keeps same_members (unknown_mode user channel_name target set mode changed).
Proof.
  unfold unknown_mode.
  apply same_bind; [apply same_emit | intros _].
  apply same_bind; [apply same_send_numeric | intros _].
  apply same_after_channel_mode.
Qed.

(** The [switch] of [channel_mode], case by case. *)
Lemma channel_mode_cases (user : Z) (channel_name : string) (target : option string)
    (targetmember : option Z) (set : bool) (mode : ascii) (changed : Z) :
  (exists bit, In (mode, bit) plain_channel_modes /\
     channel_mode user channel_name target targetmember set mode changed =
     plain_mode user channel_name target set mode bit changed) \/
  ((mode = "q" \/ mode = "a")%char /\
   channel_mode user channel_name target targetmember set mode changed =
   founder_mode user channel_name target targetmember set mode changed) \/
  ((mode = "o" \/ mode = "h" \/ mode = "v")%char /\
   channel_mode user channel_name target targetmember set mode changed =
   member_mode user channel_name target targetmember set mode changed) \/
  (mode = "l"%char /\
   channel_mode user channel_name target targetmember set mode changed =
   limit_mode user channel_name target set mode changed) \/
  ((forall bit, ~ In (mode, bit) (plain_channel_modes ++ member_modes)) /\
   mode <> "l"%char /\
   channel_mode user channel_name target targetmember set mode changed =
   unknown_mode user channel_name target set mode changed).
Proof.
  destruct mode as [[] [] [] [] [] [] [] []];
    first
      [ left; eexists; split; [|reflexivity]; simpl; tauto
      | right; left; split; [tauto | reflexivity]
      | right; right; left; split; [tauto | reflexivity]
      | right; right; right; left; split; reflexivity
      | right; right; right; right; split; [|split; [discriminate | reflexivity]];
        intros bit Hin; simpl in Hin;
        repeat (destruct Hin as [Hin|Hin]; [discriminate Hin|]); exact Hin ].
Qed.

Lemma same_channel_mode (user : Z) (channel_name : string) (target : option string)
    (targetmember : option Z) (set : bool) (mode : ascii) (changed : Z) :
  keeps same_members (channel_mode user channel_name target targetmember set mode changed).
Proof.
  destruct (channel_mode_cases user channel_name target targetmember set mode changed)
    as [(bit & _ & ->)|[(_ & ->)|[(_ & ->)|[(_ & ->)|(_ & _ & ->)]]]].
  - apply same_plain_mode.
  - apply same_founder_mode.
  - apply same_member_mode.
  - apply same_limit_mode.
  - apply same_unknown_mode.
Qed.


Lemma same_set_user_mode (user : Z) (set : bool) (mode changed : Z) :
  keeps same_members (set_user_mode user set mode changed).
Proof.
  unfold set_user_mode.
  apply same_bind; [apply same_get | intros st].
  destruct (set_mode (umodes (user_at st user)) set mode); [|apply same_ret].
  apply same_bind; [|intros _; apply same_ret].
  apply same_update_user. reflexivity.
Qed.

Lemma same_user_mode_switch (user : Z) (set : bool) (mode : ascii) (changed : Z) :
  keeps same_members (user_mode_switch user set mode changed).
Proof.
  assert (Hunknown : keeps same_members
            (emit (EvWarning "Unknown user mode") ;;
             send_numeric user 472 "is an unknown mode char to me" ;;
             (ret changed : I Z))).
  { apply same_bind; [apply same_emit | intros _].
    apply same_bind; [apply same_send_numeric | intros _; apply same_ret]. }
  assert (Hoper : keeps same_members
            (st <- get ;;
             if node_user_id (user_at st user) =? 1
             then set_user_mode user set USER_MODE_OPERATOR changed
             else
               send_numeric user 491
                 "No appropriate operator blocks were found for your host" ;;
               ret changed)).
  { apply same_bind; [apply same_get | intros st].
    destruct (node_user_id (user_at st user) =? 1); [apply same_set_user_mode|].
    apply same_bind; [apply same_send_numeric | intros _; apply same_ret]. }
  destruct mode as [[] [] [] [] [] [] [] []];
    first [exact Hunknown | exact Hoper | apply same_set_user_mode].
Qed.

Lemma same_user_mode (user : Z) (set : bool) (mode : ascii) (changed : Z) :
  keeps same_members (user_mode user set mode changed).
Proof.
  unfold user_mode.
  apply same_bind; [apply same_user_mode_switch | intros c].
  destruct (c =? 0); [apply same_ret|].
  apply same_bind; [apply same_get | intros st].
  apply same_bind; [apply same_send_reply | intros _; apply same_ret].
Qed.

Lemma same_modes_loop (letter : ascii -> Z -> I Z) (modes : string) :
  (forall mode changed, keeps same_members (letter mode changed)) ->
  forall changed, keeps same_members (modes_loop letter modes changed).
Proof.
  intros Hl. induction modes as [|mode rest IH]; intros changed; simpl.
  - apply same_ret.
  - apply same_bind; [apply Hl | intros c; apply IH].
Qed.

Lemma same_show_modes (user : Z) (channel_name : string) :
  keeps same_members (show_modes user channel_name).
Proof.
  unfold show_modes.
  apply same_bind; [apply same_get | intros st].
  destruct (IS_CHANNEL_NAME channel_name).
  - apply same_bind; [|intros _; apply same_ret].
    unfold print_channel_mode.
    destruct (find_channel channel_name (channels st)).
    + apply same_bind; [apply same_send_reply | intros _; apply same_ret].
    + apply same_bind; [apply same_send_numeric | intros _; apply same_ret].
  - destruct (negb (channel_name =? username (user_at st user))%string).
    + apply same_send_numeric.
    + apply same_bind; [|intros _; apply same_ret].
      unfold print_user_mode.
      apply same_bind; [apply same_get | intros st1].
      apply same_bind; [apply same_send_reply | intros _; apply same_ret].
Qed.

Lemma same_change_modes (user : Z) (channel_name modes : string)
    (target : option string) :
  keeps same_members (change_modes user channel_name modes target).
Proof.
  unfold change_modes.
  apply same_bind; [apply same_get | intros st].
  destruct modes as [|sign letters]; [apply same_send_numeric|].
  destruct (negb (Ascii.eqb sign "+") && negb (Ascii.eqb sign "-"));
    [apply same_send_numeric|].
  cbv zeta.
  destruct (IS_CHANNEL_NAME channel_name).
  - destruct (get_member_by_channel_name user channel_name st);
      [|apply same_send_numeric].
    destruct (authorized_atleast i CHANNEL_USER_MODE_OP =? 0);
      [apply same_send_numeric|].
    destruct (find_channel channel_name (channels st)); [|apply same_send_numeric].
    apply same_modes_loop. intros mode changed. apply same_channel_mode.
  - destruct (negb (nickname (user_at st user) =? channel_name)%string);
      [apply same_send_numeric|].
    apply same_modes_loop. intros mode changed. apply same_user_mode.
Qed.

Lemma same_handle_modes (user : Z) (s : option string) :
  keeps same_members (handle_modes user s).
Proof.
  unfold handle_modes.
  destruct (strsep s " ") as [[channel_name|] s1]; [|apply same_stop].
  destruct (strsep s1 " ") as [modes s2].
  destruct (skip_colon modes); [apply same_change_modes | apply same_show_modes].
Qed.

Lemma same_channel_print_topic (user : Z) (ch : irc_channel) :
  keeps same_members (channel_print_topic user ch).
Proof.
  unfold channel_print_topic. destruct (topic ch).
  - apply same_bind; [apply same_send_numeric | intros _; apply same_send_numeric].
  - apply same_send_numeric.
Qed.

Lemma same_handle_topic (user : Z) (s : option string) :
  keeps same_members (handle_topic user s).
Proof.
  unfold handle_topic.
  destruct (strsep s " ") as [channame s1].
  intros st. unfold bind at 1. unfold get at 1.
  destruct channame as [channame|].
  2: { destruct (channels st); [apply same_send_numeric | apply same_refl]. }
  destruct (find_channel channame (channels st)) as [channel|] eqn:Ef;
    [|apply same_send_numeric].
  destruct (skip_colon s1) as [t|]; [|apply same_channel_print_topic].
  destruct (strlen t >? MAX_TOPIC_LENGTH); [apply same_send_numeric|].
  match goal with |- context [if ?c then _ else _] => destruct c end;
    [apply same_send_numeric|].
  unfold bind at 1. rewrite set_channels_run.
  eapply same_trans.
  - apply (same_store channame channel (set_topic (Some t) channel));
      [exact Ef | reflexivity].
  - unfold channel_broadcast_topic. cbn [topic set_topic].
    apply same_bind; [apply same_channel_broadcast | intros _].
    apply same_bind; [apply same_channel_broadcast | intros _; apply same_ret].
Qed.

Lemma same_handle_away (user : Z) (s : option string) :
  keeps same_members (handle_away user s).
Proof.
  assert (Hanswer : keeps same_members
            (st <- get ;;
             if away (user_at st user)
             then send_numeric user 306 "You have been marked as being away"
             else send_numeric user 305 "You are no longer marked as being away")).
  { apply same_bind; [apply same_get | intros st].
    destruct (away (user_at st user)); apply same_send_numeric. }
  unfold handle_away. destruct s as [t|].
  - destruct (negb (strlen t =? 0) && (strlen t >? MAX_AWAY_LEN));
      [apply same_send_numeric|].
    apply same_bind; [apply same_lock_user | intros _].
    apply same_bind.
    { apply same_update_user. intros x. destruct (strlen t =? 0); reflexivity. }
    intros _. apply same_bind; [apply same_unlock_user | intros _; exact Hanswer].
  - apply same_bind; [apply same_lock_user | intros _].
    apply same_bind; [apply same_update_user; reflexivity | intros _].
    apply same_bind; [apply same_unlock_user | intros _; exact Hanswer].
Qed.

Lemma same_handle_pong (user now : Z) : keeps same_members (handle_pong user now).
Proof.
  unfold handle_pong.
  apply same_bind; [apply same_lock_user | intros _].
  apply same_bind; [apply same_update_user; reflexivity | intros _].
  apply same_unlock_user.
Qed.

Lemma same_privmsg (user : Z) (channame : string) (notice : bool) (message : string)
    (now : Z) :
  keeps same_members (privmsg user channame notice message now).
Proof.
  assert (Hno : forall n t, keeps same_members
                  (send_numeric user n t ;; (return_ (-1) : I Z))).
  { intros n t. apply same_bind; [apply same_send_numeric | intros _; apply same_return]. }
  unfold privmsg.
  apply same_bind.
  { unfold user_setactive.
    apply same_bind; [apply same_lock_user | intros _].
    apply same_bind; [apply same_update_user; reflexivity | intros _].
    apply same_unlock_user. }
  intros _.
  destruct (strlen message =? 0); [apply Hno|].
  destruct (strlen message >=? 510); [apply Hno|].
  destruct (negb (IS_CHANNEL_NAME channame)).
  - apply same_bind; [apply same_get | intros st].
    destruct (get_user channame st) as [user2|]; [|apply Hno].
    apply same_bind; [apply same_lock_user | intros _].
    apply same_bind; [apply same_emit | intros _].
    apply same_bind; [apply same_unlock_user | intros _].
    apply same_bind; [|intros _; apply same_return].
    destruct (away (user_at st user2)); [apply same_send_numeric | apply same_ret].
  - apply same_bind; [apply same_get | intros st].
    destruct (find_channel channame (channels st)) as [channel|]; [|apply Hno].
    cbv zeta.
    match goal with |- context [if ?c then _ else _] => destruct c end; [apply Hno|].
    apply same_bind.
    { destruct (has (cmodes channel) CHANNEL_MODE_MODERATED); [|apply same_ret].
      destruct (find_member user (members channel)); [|apply same_stop].
      destruct (authorized_atleast i CHANNEL_USER_MODE_VOICE =? 0); [|apply same_ret].
      destruct (has (cmodes channel) CHANNEL_MODE_REDUCED_MODERATION);
        [apply same_ret | apply Hno]. }
    intros minmode.
    apply same_bind; [apply same_channel_broadcast | intros _; apply same_return].
Qed.

Lemma same_handle_privmsg (user : Z) (notice : bool) (s : option string) (now : Z) :
  keeps same_members (handle_privmsg user notice s now).
Proof.
  unfold handle_privmsg.
  destruct (strsep s " ") as [[channel|] s1]; [|apply same_ret].
  destruct s1 as [t|]; [|apply same_stop].
  apply same_bind; [|intros _; apply same_ret].
  apply keeps_call. apply same_privmsg.
Qed.

Lemma same_memberships (st st' : irc_state) :
  same_members st st' -> forall k, memberships k st' = memberships k st.
Proof.
  intros [Hr _] k. unfold memberships, count_in. f_equal.
  remember (channels st) as l eqn:El. clear El.
  remember (channels st') as l' eqn:El'. clear El'.
  revert l' Hr. induction l as [|c rest IH]; intros [|c' rest'] Hr;
    simpl in Hr; try discriminate; [reflexivity|].
  injection Hr as Hn Hmc Hu Hrest. simpl.
  assert (Hm : is_member k c' = is_member k c).
  { unfold is_member.
    rewrite <- (existsb_map_user k (members c')), <- (existsb_map_user k (members c)).
    rewrite Hu. reflexivity. }
  rewrite Hm. destruct (is_member k c); simpl; rewrite (IH rest' Hrest); reflexivity.
Qed.

(** X16. MODE, TOPIC, AWAY, PONG, PRIVMSG and NOTICE never change who
    is on which channel: whatever the arguments and however the command
    ends, the list holds the same channels with the same users and the
    same member counts, and every user has the channel count and the
    number of memberships he had. *)
Theorem commands_keep_members (user : Z) (s : option string) (notice : bool)
    (now : Z) (st : irc_state) :
  let kept st' :=
    same_members st st' /\ forall k, memberships k st' = memberships k st in
  kept (snd (handle_modes user s st)) /\
  kept (snd (handle_topic user s st)) /\
  kept (snd (handle_away user s st)) /\
  kept (snd (handle_pong user now st)) /\
  kept (snd (handle_privmsg user notice s now st)).
Proof.
  cbv zeta.
  pose proof (same_handle_modes user s st) as H1.
  pose proof (same_handle_topic user s st) as H2.
  pose proof (same_handle_away user s st) as H3.
  pose proof (same_handle_pong user now st) as H4.
  pose proof (same_handle_privmsg user notice s now st) as H5.
  repeat split;
    first [assumption | apply H1 | apply H2 | apply H3 | apply H4 | apply H5
          | apply same_memberships; assumption].
Qed.


(** ** What MODE changes *)

Lemma split_at_word (w rest : string) :
  one_word w = true -> split_at " " (w ++ String " " rest) = (w, Some rest).
Proof.
  induction w as [|c w IH]; simpl; [reflexivity|].
  intros H. apply andb_true_iff in H. destruct H as [Hc Hw].
  apply negb_true_iff in Hc. rewrite Hc, (IH Hw). reflexivity.
Qed.

Lemma split_at_end (w : string) :
  one_word w = true -> split_at " " w = (w, None).
Proof.
  induction w as [|c w IH]; simpl; [reflexivity|].
  intros H. apply andb_true_iff in H. destruct H as [Hc Hw].
  apply negb_true_iff in Hc. rewrite Hc, (IH Hw). reflexivity.
Qed.

Lemma append_empty (w : string) : (w ++ "")%string = w.
Proof. induction w as [|c w IH]; simpl; [|rewrite IH]; reflexivity. Qed.

(** MODE with a channel, a sign with letters and maybe a target comes
    down to [change_modes] on these. *)
Lemma handle_modes_args (user : Z) (channel_name : string) (set : bool)
    (letters : string) (target : option string) :
  one_word channel_name = true -> one_word letters = true ->
  handle_modes user (Some (mode_args channel_name set letters target)) =
  change_modes user channel_name (mode_change_sign set letters) target.
Proof.
  intros Hc Hl. unfold handle_modes, mode_args, strsep.
  change (channel_name ++ " " ++ mode_change_sign set letters
          ++ match target with Some t => " " ++ t | None => "" end)%string
    with (channel_name ++ String " " (mode_change_sign set letters
          ++ match target with Some t => " " ++ t | None => "" end))%string.
  rewrite (split_at_word _ _ Hc).
  assert (Hw : one_word (mode_change_sign set letters) = true).
  { unfold mode_change_sign. simpl. rewrite Hl. destruct set; reflexivity. }
  destruct target as [t|].
  - change (mode_change_sign set letters ++ " " ++ t)%string
      with (mode_change_sign set letters ++ String " " t)%string.
    rewrite (split_at_word _ _ Hw). destruct set; reflexivity.
  - rewrite append_empty. rewrite (split_at_end _ Hw). destruct set; reflexivity.
Qed.

Lemma bind_get_run {A : Type} (k : irc_state -> I A) (st : irc_state) :
  bind get k st = k st st.
Proof. reflexivity. Qed.

(** An operator's MODE for a channel comes down to the loop over the
    letters. *)
Lemma change_modes_operator (user : Z) (channel_name : string) (set : bool)
    (letters : string) (target : option string) (st : irc_state)
    (ch : irc_channel) (member : irc_member) :
  IS_CHANNEL_NAME channel_name = true ->
  find_channel channel_name (channels st) = Some ch ->
  find_member user (members ch) = Some member ->
  authorized_atleast member CHANNEL_USER_MODE_OP <> 0 ->
  change_modes user channel_name (mode_change_sign set letters) target st =
  modes_loop
    (channel_mode user channel_name target
       (match target with
        | Some t => option_map m_user (get_member_by_username t channel_name st)
        | None => None
        end) set) letters 0 st.
Proof.
  intros Hname Hfind Hmember Hauth.
  unfold change_modes, mode_change_sign. rewrite bind_get_run.
  assert (Hsign : negb (Ascii.eqb (if set then "+" else "-") "+")
                  && negb (Ascii.eqb (if set then "+" else "-") "-") = false)
    by (destruct set; reflexivity).
  rewrite Hsign. cbv zeta. rewrite Hname.
  unfold get_member_by_channel_name. rewrite Hfind, Hmember.
  apply Z.eqb_neq in Hauth. rewrite Hauth.
  destruct set; reflexivity.
Qed.

(** X17. MODE with a sign for a channel, from somebody who is not on
    the channel or is on it with less than operator, is answered with
    482 and nothing else happens, whatever the letters and the target. *)
Theorem mode_needs_operator (user : Z) (channel_name : string) (set : bool)
    (letters : string) (target : option string) (st : irc_state) :
  held st = [] ->
  one_word channel_name = true -> one_word letters = true ->
  IS_CHANNEL_NAME channel_name = true ->
  (forall member,
     get_member_by_channel_name user channel_name st = Some member ->
     authorized_atleast member CHANNEL_USER_MODE_OP = 0) ->
  handle_modes user (Some (mode_args channel_name set letters target)) st =
  (Next tt, add_sent [EvSend user (Numeric 482 "You're not a channel operator")] st).
Proof.
  intros Hh Hc Hl Hname Hno.
  rewrite (handle_modes_args user channel_name set letters target Hc Hl).
  unfold change_modes, mode_change_sign. rewrite bind_get_run.
  assert (Hsign : negb (Ascii.eqb (if set then "+" else "-") "+")
                  && negb (Ascii.eqb (if set then "+" else "-") "-") = false)
    by (destruct set; reflexivity).
  rewrite Hsign. cbv zeta. rewrite Hname.
  destruct (get_member_by_channel_name user channel_name st) as [member|] eqn:Em.
  - rewrite (Hno member eq_refl). cbn [Z.eqb].
    apply send_numeric_run. exact Hh.
  - apply send_numeric_run. exact Hh.
Qed.

Lemma mode_needs_operator_witness :
  let st := after (join_channel 2 "#room" 11 false) room_made_state in
  handle_modes 2 (Some "#room -n"%string) st =
  (Next tt, add_sent [EvSend 2 (Numeric 482 "You're not a channel operator")] st).
Proof.
  intros st.
  apply (mode_needs_operator 2 "#room" false "n" None st); try reflexivity.
  intros member Hm. vm_compute in Hm. injection Hm as <-. reflexivity.
Defined.

End IrcCommandsFacts.

Module IrcModeFacts.
Import CInt CIntFacts CMonad CMonadFacts Irc IrcCommands ChannelFacts IrcRunFacts
  IrcInvariants IrcClaims IrcOpsFacts IrcCommandsFacts.
Local Open Scope cfun_scope.

(** A flag is a bit of the mode word. *)
Lemma has_testbit (modes k : Z) :
  0 <= k -> has modes (Z.shiftl 1 k) = Z.testbit modes k.
Proof.
  intros Hk. unfold has. rewrite Z.shiftl_1_l.
  destruct (Z.testbit modes k) eqn:Eb.
  - apply negb_true_iff. apply Z.eqb_neq. intros H0.
    assert (Hb : Z.testbit (Z.land modes (2 ^ k)) k = true).
    { rewrite Z.land_spec, Eb, Z.pow2_bits_true by lia. reflexivity. }
    rewrite H0 in Hb. rewrite Z.bits_0 in Hb. discriminate.
  - apply negb_false_iff. apply Z.eqb_eq. apply Z.bits_inj'. intros n Hn.
    rewrite Z.land_spec, Z.bits_0, Z.pow2_bits_eqb by lia.
    destruct (Z.eqb_spec k n) as [->|Hne]; [rewrite Eb; reflexivity|].
    apply andb_false_r.
Qed.

(** [SET_MODE] writes when the flag is not as asked, and then this flag
    is as asked and every other one as it was. *)
Lemma set_mode_spec (modes : Z) (set : bool) (k : Z) :
  0 <= k ->
  match set_mode modes set (Z.shiftl 1 k) with
  | None => has modes (Z.shiftl 1 k) = set
  | Some v =>
    has modes (Z.shiftl 1 k) = negb set /\
    v = (if set then Z.lor modes (Z.shiftl 1 k)
         else Z.land modes (Z.lnot (Z.shiftl 1 k))) /\
    forall j, 0 <= j ->
      has v (Z.shiftl 1 j) = if j =? k then set else has modes (Z.shiftl 1 j)
  end.
Proof.
  intros Hk. unfold set_mode.
  assert (Hbits : forall j, 0 <= j ->
            has (if set then Z.lor modes (Z.shiftl 1 k)
                 else Z.land modes (Z.lnot (Z.shiftl 1 k))) (Z.shiftl 1 j)
            = if j =? k then set else has modes (Z.shiftl 1 j)).
  { intros j Hj. rewrite !has_testbit by lia.
    destruct set.
    - rewrite Z.lor_spec, Z.shiftl_1_l, Z.pow2_bits_eqb by lia.
      rewrite (Z.eqb_sym k j). destruct (j =? k); [apply orb_true_r | apply orb_false_r].
    - rewrite Z.land_spec, Z.lnot_spec, Z.shiftl_1_l, Z.pow2_bits_eqb by lia.
      rewrite (Z.eqb_sym k j). destruct (j =? k); [apply andb_false_r | apply andb_true_r]. }
  destruct set; cbn [andb negb].
  - destruct (has modes (Z.shiftl 1 k)) eqn:E; cbn [negb]; [reflexivity|].
    split; [reflexivity|]. split; [reflexivity | exact Hbits].
  - destruct (has modes (Z.shiftl 1 k)) eqn:E; [|reflexivity].
    split; [reflexivity|]. split; [reflexivity | exact Hbits].
Qed.

(** A broadcast to everybody reaches every member, in order. *)
Lemma broadcast_to_all (ch : irc_channel) (m : irc_msg) :
  members ch <> [] ->
  broadcast_events ch None 0 m =
  map (fun u => EvSend u m) (map m_user (members ch))
  ++ (if fp ch then [EvLogLine (name ch) m] else []).
Proof.
  intros Hne. unfold broadcast_events, recipients, skipped. cbn [Z.eqb negb andb orb].
  assert (Hf : filter (fun _ : irc_member => true) (members ch) = members ch).
  { clear Hne. induction (members ch) as [|x l IH]; simpl; [|rewrite IH]; reflexivity. }
  rewrite Hf.
  destruct (members ch) as [|x l]; [contradiction|].
  cbn [forallb andb]. rewrite app_nil_r. reflexivity.
Qed.

Lemma find_member_nonempty (u : Z) (ms : list irc_member) (m : irc_member) :
  find_member u ms = Some m -> ms <> [].
Proof. intros H Hn. subst ms. discriminate H. Qed.

Lemma set_channel_mode_run (channel_name : string) (set : bool) (bit changed : Z)
    (st : irc_state) (ch : irc_channel) :
  find_channel channel_name (channels st) = Some ch ->
  set_channel_mode channel_name set bit changed st =
  match set_mode (cmodes ch) set bit with
  | None => (Next changed, st)
  | Some v =>
    (Next (wrap_int (changed + 1)),
     store_channels (put_channel (set_cmodes v ch) (channels st)) st)
  end.
Proof.
  intros Hfind. unfold set_channel_mode. rewrite bind_get_run, Hfind.
  destruct (set_mode (cmodes ch) set bit) as [v|]; [|reflexivity].
  rewrite (bind_next _ _ _ _ _ (set_channels_run _ _)). reflexivity.
Qed.

Lemma broadcast_mode_run (channel_name modestr : string) (whom : Z)
    (st : irc_state) (ch : irc_channel) :
  held st = [] ->
  find_channel channel_name (channels st) = Some ch ->
  broadcast_mode channel_name modestr whom st =
  (Next tt,
   add_sent (broadcast_events ch None 0 (MsgMode channel_name modestr whom)) st).
Proof.
  intros Hh Hfind. destruct (find_channel_in _ _ _ Hfind) as [_ Hn].
  unfold broadcast_mode. rewrite bind_get_run, Hfind.
  rewrite (bind_next _ _ _ _ _ (channel_broadcast_run _ _ _ _ st Hh)).
  rewrite Hn. reflexivity.
Qed.

(** One plain letter, with no target, as the first change of the
    command. *)
Lemma plain_mode_run (user : Z) (channel_name : string) (set : bool) (mode : ascii)
    (bit : Z) (st : irc_state) (ch : irc_channel) :
  held st = [] ->
  find_channel channel_name (channels st) = Some ch ->
  plain_mode user channel_name None set mode bit 0 st =
  match set_mode (cmodes ch) set bit with
  | None => (Next 0, st)
  | Some v =>
    (Next 1,
     add_sent
       (broadcast_events (set_cmodes v ch) None 0
          (MsgMode channel_name (mode_change set mode) user))
       (store_channels (put_channel (set_cmodes v ch) (channels st)) st))
  end.
Proof.
  intros Hh Hfind. destruct (find_channel_in _ _ _ Hfind) as [_ Hn].
  unfold plain_mode.
  pose proof (set_channel_mode_run channel_name set bit 0 st ch Hfind) as Hrun.
  destruct (set_mode (cmodes ch) set bit) as [v|].
  - rewrite (bind_next _ _ _ _ _ Hrun).
    change (wrap_int (0 + 1)) with 1.
    unfold after_channel_mode. cbn [Z.eqb].
    set (st1 := store_channels _ st).
    assert (Hf1 : find_channel channel_name (channels st1) = Some (set_cmodes v ch)).
    { subst st1. unfold store_channels. cbn [channels]. rewrite <- Hn.
      apply find_channel_put; [rewrite Hn; exact Hfind | reflexivity]. }
    assert (Hh1 : held st1 = []) by exact Hh.
    rewrite (bind_next _ _ _ _ _ (broadcast_mode_run _ _ _ st1 _ Hh1 Hf1)).
    reflexivity.
  - rewrite (bind_next _ _ _ _ _ Hrun). reflexivity.
Qed.

(** X18. When an operator of a channel sends MODE with one sign and one
    of the letters S m n p r s t z: if the mode is already as asked,
    nothing at all happens and nobody is told; otherwise that mode, and
    no other, changes in the channel, and every member is sent the MODE
    line once, and so is the log of the channel. *)
Theorem mode_switches_channel_mode (user : Z) (channel_name : string) (set : bool)
    (letter : ascii) (bit : Z) (st : irc_state) (ch : irc_channel)
    (member : irc_member) :
  held st = [] ->
  one_word channel_name = true -> IS_CHANNEL_NAME channel_name = true ->
  find_channel channel_name (channels st) = Some ch ->
  find_member user (members ch) = Some member ->
  authorized_atleast member CHANNEL_USER_MODE_OP <> 0 ->
  In (letter, bit) plain_channel_modes ->
  let run := handle_modes user
               (Some (mode_args channel_name set (String letter "") None)) st in
  let line := MsgMode channel_name (mode_change set letter) user in
  fst run = Next tt /\
  (has (cmodes ch) bit = set -> snd run = st) /\
  (has (cmodes ch) bit <> set ->
   exists ch',
     find_channel channel_name (channels (snd run)) = Some ch' /\
     channels (snd run) = put_channel ch' (channels st) /\
     has (cmodes ch') bit = set /\
     (forall j, 0 <= j -> Z.shiftl 1 j <> bit ->
        has (cmodes ch') (Z.shiftl 1 j) = has (cmodes ch) (Z.shiftl 1 j)) /\
     (members ch', membercount ch', topic ch', limit ch', name ch')
       = (members ch, membercount ch, topic ch, limit ch, name ch) /\
     sent (snd run) =
       sent st ++ map (fun u => EvSend u line) (map m_user (members ch))
       ++ (if fp ch then [EvLogLine channel_name line] else [])).
Proof.
  intros Hh Hword Hname Hfind Hmember Hauth Hin run line.
  destruct (find_channel_in _ _ _ Hfind) as [_ Hn].
  assert (Hk : exists k, 0 <= k /\ bit = Z.shiftl 1 k /\
                 one_word (String letter "") = true /\
                 channel_mode user channel_name None None set letter 0 =
                 plain_mode user channel_name None set letter bit 0).
  { simpl in Hin.
    repeat (destruct Hin as [Hin|Hin];
            [injection Hin as <- <-; eexists;
             split; [|split; [reflexivity|split; reflexivity]]; lia|]).
    contradiction. }
  destruct Hk as (k & Hk & Hbit & Hletter & Hcase).
  assert (Hrun : run =
            match set_mode (cmodes ch) set bit with
            | None => (Next tt, st)
            | Some v =>
              (Next tt,
               add_sent (broadcast_events (set_cmodes v ch) None 0 line)
                 (store_channels (put_channel (set_cmodes v ch) (channels st)) st))
            end).
  { subst run.
    rewrite (handle_modes_args user channel_name set (String letter "") None Hword Hletter).
    rewrite (change_modes_operator user channel_name set _ None st ch member
               Hname Hfind Hmember Hauth).
    cbn [modes_loop]. rewrite Hcase.
    pose proof (plain_mode_run user channel_name set letter bit st ch Hh Hfind) as Hp.
    destruct (set_mode (cmodes ch) set bit) as [v|];
      rewrite (bind_next _ _ _ _ _ Hp); reflexivity. }
  pose proof (set_mode_spec (cmodes ch) set k Hk) as Hspec.
  rewrite <- Hbit in Hspec.
  rewrite Hrun. destruct (set_mode (cmodes ch) set bit) as [v|].
  - destruct Hspec as (Hwas & Hv & Hbits). cbn [fst snd].
    split; [reflexivity|]. split.
    { intros Hset. rewrite Hset in Hwas. destruct set; discriminate. }
    intros _. exists (set_cmodes v ch).
    split.
    { unfold add_sent, store_channels. cbn [channels]. rewrite <- Hn.
      apply find_channel_put; [rewrite Hn; exact Hfind | reflexivity]. }
    split; [reflexivity|]. split.
    { cbn [cmodes set_cmodes]. rewrite Hbit, (Hbits k Hk), Z.eqb_refl. reflexivity. }
    split.
    { intros j Hj Hne. cbn [cmodes set_cmodes]. rewrite (Hbits j Hj).
      destruct (Z.eqb_spec j k) as [->|_]; [congruence | reflexivity]. }
    split; [reflexivity|].
    unfold add_sent, store_channels. cbn [sent].
    rewrite broadcast_to_all.
    + cbn [members set_cmodes fp name]. rewrite Hn. reflexivity.
    + cbn [members set_cmodes]. apply (find_member_nonempty _ _ _ Hmember).
  - cbn [fst snd]. split; [reflexivity|]. split; [reflexivity|].
    intros Hne. contradiction.
Qed.

Lemma mode_switches_channel_mode_witness :
  let run := handle_modes 1 (Some "#room +m"%string) room_made_state in
  let line := MsgMode "#room" "+m" 1 in
  fst run = Next tt /\
  (has (cmodes room_made) CHANNEL_MODE_MODERATED = true -> snd run = room_made_state) /\
  (has (cmodes room_made) CHANNEL_MODE_MODERATED <> true ->
   exists ch',
     find_channel "#room" (channels (snd run)) = Some ch' /\
     channels (snd run) = put_channel ch' (channels room_made_state) /\
     has (cmodes ch') CHANNEL_MODE_MODERATED = true /\
     (forall j, 0 <= j -> Z.shiftl 1 j <> CHANNEL_MODE_MODERATED ->
        has (cmodes ch') (Z.shiftl 1 j) = has (cmodes room_made) (Z.shiftl 1 j)) /\
     (members ch', membercount ch', topic ch', limit ch', name ch')
       = (members room_made, membercount room_made, topic room_made,
          limit room_made, name room_made) /\
     sent (snd run) =
       sent room_made_state ++ map (fun u => EvSend u line) (map m_user (members room_made))
       ++ (if fp room_made then [EvLogLine "#room" line] else [])).
Proof.
  apply (mode_switches_channel_mode 1 "#room" true "m" CHANNEL_MODE_MODERATED
           room_made_state room_made
           (mk_member 1 (Z.lor CHANNEL_USER_MODE_OP CHANNEL_USER_MODE_FOUNDER))).
  - reflexivity.
  - reflexivity.
  - reflexivity.
  - vm_compute. reflexivity.
  - reflexivity.
  - vm_compute. discriminate.
  - simpl. tauto.
Defined.


Lemma set_target_mode_run (channel_name : string) (target : Z) (set : bool)
    (bit changed : Z) (st : irc_state) (ch : irc_channel) (tm : irc_member) :
  find_channel channel_name (channels st) = Some ch ->
  find_member target (members ch) = Some tm ->
  set_target_mode channel_name target set bit changed st =
  match set_mode (m_modes tm) set bit with
  | None => (Next changed, st)
  | Some v =>
    (Next (wrap_int (changed + 1)),
     store_channels
       (put_channel
          (with_members (set_member_modes target v (members ch)) (membercount ch) ch)
          (channels st)) st)
  end.
Proof.
  intros Hfind Hm. unfold set_target_mode. rewrite bind_get_run, Hfind, Hm.
  destruct (set_mode (m_modes tm) set bit) as [v|]; [|reflexivity].
  rewrite (bind_next _ _ _ _ _ (set_channels_run _ _)). reflexivity.
Qed.

Lemma find_member_in (u : Z) (ms : list irc_member) (m : irc_member) :
  find_member u ms = Some m -> m_user m = u.
Proof.
  unfold find_member. intros H. apply find_some in H. destruct H as [_ H].
  apply Z.eqb_eq. exact H.
Qed.

Lemma find_member_set (u tu v : Z) (ms : list irc_member) :
  find_member u (set_member_modes tu v ms) =
  if u =? tu
  then match find_member tu ms with
       | Some _ => Some (mk_member tu v)
       | None => None
       end
  else find_member u ms.
Proof.
  unfold find_member. induction ms as [|m rest IH]; simpl.
  - destruct (u =? tu); reflexivity.
  - destruct (Z.eqb_spec (m_user m) tu) as [Hm|Hm]; simpl.
    + rewrite Hm. destruct (Z.eqb_spec u tu) as [->|Hu].
      * rewrite Z.eqb_refl. reflexivity.
      * rewrite (Z.eqb_sym tu u). apply Z.eqb_neq in Hu. rewrite Hu. reflexivity.
    + destruct (Z.eqb_spec (m_user m) u) as [Hmu|Hmu].
      * destruct (Z.eqb_spec u tu) as [->|Hu]; [contradiction | reflexivity].
      * rewrite IH. reflexivity.
Qed.

(** The letters o, h, v (and q, a for a founder) with a target that is
    on the channel, as the first change of the command. *)
Lemma member_mode_run (user : Z) (channel_name : string) (t : string) (tu : Z)
    (set : bool) (mode : ascii) (bit : Z) (st : irc_state) (ch : irc_channel)
    (tm : irc_member) :
  held st = [] ->
  find_channel channel_name (channels st) = Some ch ->
  find_member tu (members ch) = Some tm ->
  In (mode, bit) member_modes ->
  member_mode user channel_name (Some t) (Some tu) set mode 0 st =
  match set_mode (m_modes tm) set bit with
  | None => (Next 0, st)
  | Some v =>
    let ch' := with_members (set_member_modes tu v (members ch)) (membercount ch) ch in
    (Next 1,
     add_sent
       (broadcast_events ch' None 0 (MsgMode channel_name (mode_change set mode) tu))
       (store_channels (put_channel ch' (channels st)) st))
  end.
Proof.
  intros Hh Hfind Hm Hin. destruct (find_channel_in _ _ _ Hfind) as [_ Hn].
  unfold member_mode.
  assert (Hbit : (if Ascii.eqb mode "q" then CHANNEL_USER_MODE_FOUNDER
                  else if Ascii.eqb mode "a" then CHANNEL_USER_MODE_ADMIN
                  else if Ascii.eqb mode "o" then CHANNEL_USER_MODE_OP
                  else if Ascii.eqb mode "h" then CHANNEL_USER_MODE_HALFOP
                  else CHANNEL_USER_MODE_VOICE) = bit).
  { simpl in Hin.
    repeat (destruct Hin as [Hin|Hin]; [injection Hin as <- <-; reflexivity|]).
    contradiction. }
  cbv zeta. rewrite Hbit.
  pose proof (set_target_mode_run channel_name tu set bit 0 st ch tm Hfind Hm) as Hrun.
  destruct (set_mode (m_modes tm) set bit) as [v|].
  - rewrite (bind_next _ _ _ _ _ Hrun).
    change (wrap_int (0 + 1)) with 1. cbn [Z.eqb].
    set (ch' := with_members _ _ ch).
    set (st1 := store_channels _ st).
    assert (Hf1 : find_channel channel_name (channels st1) = Some ch').
    { subst st1. unfold store_channels. cbn [channels]. rewrite <- Hn.
      apply find_channel_put; [rewrite Hn; exact Hfind | reflexivity]. }
    assert (Hh1 : held st1 = []) by exact Hh.
    rewrite (bind_next _ _ _ _ _ (broadcast_mode_run _ _ _ st1 _ Hh1 Hf1)).
    reflexivity.
  - rewrite (bind_next _ _ _ _ _ Hrun). reflexivity.
Qed.




(** The letter l, as the first change of the command: with + and a
    target that is not empty, or with - and no target. *)
Lemma limit_mode_run (user : Z) (channel_name : string) (set : bool) (t : string)
    (st : irc_state) (ch : irc_channel) :
  held st = [] ->
  find_channel channel_name (channels st) = Some ch ->
  strlen t <> 0 ->
  let target := if set then Some t else None in
  let flags := match set_mode (cmodes ch) set CHANNEL_MODE_LIMIT with
               | Some v => v
               | None => cmodes ch
               end in
  let ch' := set_limit (if set then wrap_uint (atoi t) else 0) (set_cmodes flags ch) in
  exists st',
    limit_mode user channel_name target set "l" 0 st = (Next (if has (cmodes ch) CHANNEL_MODE_LIMIT then if set then 0 else 1 else if set then 1 else 0), st') /\
    channels st' = put_channel ch' (channels st) /\
    user_at st' = user_at st /\ held st' = [] /\
    channels_wrlocked st' = channels_wrlocked st /\
    sent st' =
      sent st
      ++ (if negb set && has (cmodes ch) CHANNEL_MODE_LIMIT
          then broadcast_events ch' None 0 (MsgMode channel_name "-l" user)
          else []).
Proof.
  intros Hh Hfind Ht target flags ch'.
  destruct (find_channel_in _ _ _ Hfind) as [_ Hn].
  unfold limit_mode.
  assert (Hz : set && strlen_zero target = false).
  { subst target. destruct set; [|reflexivity]. simpl.
    apply Z.eqb_neq. exact Ht. }
  rewrite Hz.
  pose proof (set_channel_mode_run channel_name set CHANNEL_MODE_LIMIT 0 st ch Hfind)
    as Hrun.
  pose proof (set_mode_spec (cmodes ch) set 1 ltac:(lia)) as Hspec.
  change (Z.shiftl 1 1) with CHANNEL_MODE_LIMIT in Hspec.
  assert (Hstep : forall (c : Z) (st1 : irc_state) (ch1 : irc_channel),
            held st1 = [] ->
            find_channel channel_name (channels st1) = Some ch1 ->
            exists st',
              (s0 <- get ;;
               match find_channel channel_name (channels s0) with
               | None => stop_ NullDeref
               | Some c0 =>
                 set_channels
                   (put_channel
                      (set_limit (if set
                                  then match target with
                                       | Some t0 => wrap_uint (atoi t0)
                                       | None => 0
                                       end
                                  else 0) c0) (channels s0)) ;;
                 after_channel_mode user channel_name target set "l" c
               end) st1 = (Next c, st') /\
              channels st' =
                put_channel (set_limit (if set then wrap_uint (atoi t) else 0) ch1)
                  (channels st1) /\
              user_at st' = user_at st1 /\ held st' = [] /\
              channels_wrlocked st' = channels_wrlocked st1 /\
              sent st' =
                sent st1
                ++ (if negb set && negb (c =? 0)
                    then broadcast_events
                           (set_limit (if set then wrap_uint (atoi t) else 0) ch1) None 0
                           (MsgMode channel_name "-l" user)
                    else [])).
  { intros c st1 ch1 Hh1 Hf1. destruct (find_channel_in _ _ _ Hf1) as [_ Hn1].
    rewrite bind_get_run, Hf1.
    rewrite (bind_next _ _ _ _ _ (set_channels_run _ _)).
    assert (Hv : (if set then match target with
                              | Some t0 => wrap_uint (atoi t0)
                              | None => 0
                              end else 0)
                 = (if set then wrap_uint (atoi t) else 0))
      by (subst target; destruct set; reflexivity).
    rewrite Hv.
    set (c1 := set_limit _ ch1).
    set (st2 := store_channels _ st1).
    unfold after_channel_mode. subst target. destruct set.
    - eexists. split; [reflexivity|]. cbn [negb andb]. rewrite app_nil_r.
      repeat split; auto.
    - destruct (c =? 0) eqn:Ec.
      + eexists. split; [reflexivity|]. cbn [negb andb]. rewrite app_nil_r.
        repeat split; auto.
      + assert (Hf2 : find_channel channel_name (channels st2) = Some c1).
        { subst st2. unfold store_channels. cbn [channels]. rewrite <- Hn1.
          apply find_channel_put; [rewrite Hn1; exact Hf1 | reflexivity]. }
        assert (Hh2 : held st2 = []) by exact Hh1.
        rewrite (bind_next _ _ _ _ _ (broadcast_mode_run _ _ _ st2 _ Hh2 Hf2)).
        eexists. split; [reflexivity|]. cbn [negb andb].
        repeat split; auto. }
  destruct (set_mode (cmodes ch) set CHANNEL_MODE_LIMIT) as [v|] eqn:Esm.
  - destruct Hspec as (Hwas & _ & _).
    rewrite (bind_next _ _ _ _ _ Hrun).
    set (st1 := store_channels _ st).
    assert (Hf1 : find_channel channel_name (channels st1) = Some (set_cmodes v ch)).
    { subst st1. unfold store_channels. cbn [channels]. rewrite <- Hn.
      apply find_channel_put; [rewrite Hn; exact Hfind | reflexivity]. }
    destruct (Hstep (wrap_int (0 + 1)) st1 (set_cmodes v ch) Hh Hf1)
      as (st' & Hr & Hc & Hu & Hhe & Hw & Hs).
    exists st'. rewrite Hr, Hwas.
    split; [destruct set; reflexivity|].
    split.
    { rewrite Hc. subst st1 ch' flags. unfold store_channels. cbn [channels].
      apply put_channel_twice. reflexivity. }
    split; [exact Hu|]. split; [exact Hhe|]. split; [exact Hw|].
    rewrite Hs. subst ch' flags. destruct set; reflexivity.
  - rewrite (bind_next _ _ _ _ _ Hrun).
    destruct (Hstep 0 st ch Hh Hfind) as (st' & Hr & Hc & Hu & Hhe & Hw & Hs).
    exists st'. rewrite Hr, Hspec.
    split; [destruct set; reflexivity|].
    assert (Hsame : set_cmodes (cmodes ch) ch = ch) by (destruct ch; reflexivity).
    split; [rewrite Hc; subst ch' flags; rewrite Hsame; reflexivity|].
    split; [exact Hu|]. split; [exact Hhe|]. split; [exact Hw|].
    rewrite Hs. cbn [Z.eqb negb andb]. rewrite andb_false_r, app_nil_r.
    destruct set; cbn [negb andb]; rewrite ?app_nil_r; reflexivity.
Qed.




(** What [atoi] makes of a parameter, as the limit: the number when
    it fits an [int]; its low 32 bits when it fits a [long]; all bits
    set when it is past the largest [long]; 0 when there is no number. *)
Example limit_of_a_number : wrap_uint (atoi "25") = 25.
Proof. reflexivity. Qed.

Example limit_of_a_number_past_int : wrap_uint (atoi "4294967297") = 1.
Proof. reflexivity. Qed.

Example limit_of_a_number_past_long :
  wrap_uint (atoi "99999999999999999999") = 4294967295.
Proof. reflexivity. Qed.

Example limit_of_a_negative_number : wrap_uint (atoi "-1") = 4294967295.
Proof. reflexivity. Qed.

Example limit_of_no_number : wrap_uint (atoi "many") = 0.
Proof. reflexivity. Qed.

(** X21. JOIN to a channel that has the limit flag, a limit other than
    0 and at least that many members is answered with 471 and the value
    -1; the channels and the counts stay as they are. This holds for a
    user who passes the checks for a secure connection and for a
    registered account, which come first. *)
Theorem join_refused_when_full (user : Z) (nm : string) (now : Z) (logfile : bool)
    (st : irc_state) (ch : irc_channel) :
  held st = [] -> channels_wrlocked st = false ->
  negb (VALID_CHANNEL_NAME nm) || (strlen nm >? MAX_CHANNEL_LENGTH)
    || negb (valid_channame nm) = false ->
  counted user st <= MAX_CHANNELS ->
  find_channel nm (channels st) = Some ch ->
  has (cmodes ch) CHANNEL_MODE_TLS_ONLY
    && negb (has (umodes (user_at st user)) USER_MODE_SECURE) = false ->
  has (cmodes ch) CHANNEL_MODE_REGISTERED_ONLY
    && negb (registered (user_at st user)) = false ->
  has (cmodes ch) CHANNEL_MODE_LIMIT = true ->
  limit ch <> 0 -> limit ch <= membercount ch ->
  let st' := snd (call (join_channel user nm now logfile) st) in
  fst (call (join_channel user nm now logfile) st) = Next (-1) /\
  channels st' = channels st /\
  user_at st' = user_at st /\
  sent st' =
    sent st
    ++ [EvSend user
          (Numeric 471 "Cannot join channel (+l) - channel is full, try again later")] /\
  held st' = [] /\ channels_wrlocked st' = false.
Proof.
  intros Hh Hw Hnm Hcap Hfind Htls Hreg Hflag Hlim Hfull st'.
  assert (Hrun : call (join_channel user nm now logfile) st =
                 (Next (-1),
                  add_sent
                    [EvSend user
                       (Numeric 471
                          "Cannot join channel (+l) - channel is full, try again later")]
                    (mk_state (user_at st) (users st) (channels st) false
                       (observed st ++ [channels st]) (held st) (sent st)))).
  { unfold call, join_channel. rewrite Hnm.
    unfold bind at 1. unfold gets at 1.
    assert (Hc : (channelcount (user_at st user) >? MAX_CHANNELS) = false).
    { unfold counted in Hcap.
      destruct (Z.gtb_spec (channelcount (user_at st user)) MAX_CHANNELS); [lia|reflexivity]. }
    rewrite Hc.
    rewrite (bind_next _ _ _ _ _ (wrlock_channels_run st Hw)).
    rewrite bind_get_run. cbn [channels]. rewrite Hfind.
    unfold join_checks. rewrite Htls, Hreg, Hflag.
    assert (Hl : negb (limit ch =? 0) && (membercount ch >=? limit ch) = true).
    { apply andb_true_iff. split.
      - apply negb_true_iff. apply Z.eqb_neq. exact Hlim.
      - apply Z.geb_le. exact Hfull. }
    cbn [andb]. rewrite Hl.
    unfold bind at 1. unfold bind at 1.
    rewrite (bind_next _ _ _ _ _ (unlock_channels_run _)).
    set (s3 := mk_state _ _ _ false _ _ _).
    assert (Hh3 : held s3 = []) by exact Hh.
    rewrite (bind_next _ _ _ _ _ (send_numeric_run user _ _ s3 Hh3)).
    reflexivity. }
  subst st'. rewrite Hrun. cbn [fst snd]. unfold add_sent. cbn.
  repeat split; auto.
Qed.

Lemma join_refused_when_full_witness :
  let run := call (join_channel 2 "#room" 30 false) room_limited_state in
  fst run = Next (-1) /\
  channels (snd run) = channels room_limited_state /\
  user_at (snd run) = user_at room_limited_state /\
  sent (snd run) =
    sent room_limited_state
    ++ [EvSend 2
          (Numeric 471 "Cannot join channel (+l) - channel is full, try again later")] /\
  held (snd run) = [] /\ channels_wrlocked (snd run) = false.
Proof.
  apply (join_refused_when_full 2 "#room" 30 false room_limited_state
           (set_limit 1 (set_cmodes (Z.lor (cmodes room_made) CHANNEL_MODE_LIMIT)
                           room_made))).
  - reflexivity.
  - reflexivity.
  - reflexivity.
  - vm_compute. discriminate.
  - vm_compute. reflexivity.
  - vm_compute. reflexivity.
  - vm_compute. reflexivity.
  - vm_compute. reflexivity.
  - vm_compute. discriminate.
  - vm_compute. discriminate.
Defined.

End IrcModeFacts.

Module IrcTopicFacts.
Import CInt CIntFacts CMonad CMonadFacts Irc IrcCommands ChannelFacts IrcRunFacts
  IrcInvariants IrcClaims IrcOpsFacts IrcCommandsFacts IrcModeFacts.
Local Open Scope cfun_scope.

Lemma topic_args (channame t : string) :
  one_word channame = true ->
  strsep (Some (channame ++ " :" ++ t)%string) " " = (Some channame, Some (":" ++ t)%string).
Proof.
  intros Hw. unfold strsep.
  change (channame ++ " :" ++ t)%string with (channame ++ String " " (":" ++ t))%string.
  rewrite (split_at_word _ _ Hw). reflexivity.
Qed.






(** ** AWAY, PONG, PRIVMSG *)

Lemma locked_update_run (u : Z) (f : irc_user -> irc_user) (st : irc_state) :
  held st = [] ->
  (lock_user u ;; update_user u f ;; unlock_user u) st = (Next tt, store_user u f st).
Proof.
  intros Hh.
  rewrite (bind_next _ _ _ _ _ (lock_user_run u st Hh)).
  rewrite (bind_next _ _ _ _ _ (update_user_run _ _ _)).
  unfold unlock_user, modify, store_user. cbn.
  rewrite Z.eqb_refl. cbn. rewrite Hh.
  destruct st; reflexivity.
Qed.


Lemma send_then {A : Type} (u : Z) (m : irc_msg) (k : I A) (st : irc_state) :
  held st = [] ->
  (lock_user u ;; emit (EvSend u m) ;; unlock_user u ;; k) st =
  k (add_sent [EvSend u m] st).
Proof.
  intros Hh. pose proof (send_reply_run u m st Hh) as H.
  unfold send_reply in H. unfold bind in *.
  destruct (lock_user u st) as [[a|r|w] s1]; try discriminate.
  destruct (emit (EvSend u m) s1) as [[a'|r'|w'] s2]; try discriminate.
  rewrite H. reflexivity.
Qed.

Lemma locked_update_then {A : Type} (u : Z) (f : irc_user -> irc_user) (k : I A)
    (st : irc_state) :
  held st = [] ->
  (lock_user u ;; update_user u f ;; unlock_user u ;; k) st = k (store_user u f st).
Proof.
  intros Hh. pose proof (locked_update_run u f st Hh) as H.
  unfold bind in *.
  destruct (lock_user u st) as [[a|r|w] s1]; try discriminate.
  destruct (update_user u f s1) as [[a'|r'|w'] s2]; try discriminate.
  rewrite H. reflexivity.
Qed.

Lemma get_user_frame (nm : string) (st st' : irc_state) :
  users st' = users st ->
  (forall k, username (user_at st' k) = username (user_at st k)) ->
  get_user nm st' = get_user nm st.
Proof.
  intros Hu Hn. unfold get_user. rewrite Hu. clear Hu.
  induction (users st) as [|u rest IH]; simpl; [reflexivity|].
  rewrite Hn, IH. reflexivity.
Qed.

(** A message to a user: to him, and the away message back if he is
    away. *)
Lemma privmsg_to_user (sender : Z) (nick : string) (notice : bool) (message : string)
    (now : Z) (st : irc_state) (user2 : Z) :
  held st = [] ->
  0 < strlen message < 510 ->
  IS_CHANNEL_NAME nick = false ->
  get_user nick st = Some user2 ->
  let u2 := user_at (touch sender now st) user2 in
  privmsg sender nick notice message now st =
  (Return 0,
   add_sent
     (EvSend user2 (MsgPrivmsg notice sender (nickname u2) message)
      :: (if away u2 then [EvSend sender (Numeric 301 (awaymsg u2))] else []))
     (touch sender now st)).
Proof.
  intros Hh Hlen Hname Huser u2. unfold privmsg.
  rewrite (bind_next _ _ _ _ _ (user_setactive_run sender now st Hh)).
  assert (H0 : (strlen message =? 0) = false) by (apply Z.eqb_neq; lia).
  assert (H1 : (strlen message >=? 510) = false).
  { destruct (Z.geb_spec (strlen message) 510); [lia | reflexivity]. }
  rewrite H0, H1, Hname. cbn [negb].
  rewrite bind_get_run.
  assert (Hu : get_user nick (touch sender now st) = Some user2).
  { rewrite <- Huser. apply get_user_frame; [reflexivity|].
    intros k. unfold touch. cbn [user_at]. destruct (k =? sender); reflexivity. }
  rewrite Hu.
  set (s1 := touch sender now st).
  assert (Hh1 : held s1 = []) by exact Hh.
  rewrite (send_then user2 _ _ s1 Hh1).
  set (s2 := add_sent _ s1).
  assert (Hh2 : held s2 = []) by exact Hh.
  subst u2. fold s1.
  destruct (away (user_at s1 user2)).
  - rewrite (bind_next _ _ _ _ _ (send_numeric_run sender _ _ s2 Hh2)).
    subst s2. rewrite add_sent_app. reflexivity.
  - reflexivity.
Qed.

Lemma handle_away_run (user : Z) (s : option string) (st : irc_state) :
  held st = [] ->
  handle_away user s st =
  match s with
  | Some t =>
    if negb (strlen t =? 0) && (strlen t >? MAX_AWAY_LEN) then
      (Next tt, add_sent [EvSend user (Numeric 416 "Input too large")] st)
    else if strlen t =? 0 then
      (Next tt,
       add_sent [EvSend user (Numeric 305 "You are no longer marked as being away")]
         (store_user user (set_away false "") st))
    else
      (Next tt,
       add_sent [EvSend user (Numeric 306 "You have been marked as being away")]
         (store_user user (set_away true t) st))
  | None =>
    (Next tt,
     add_sent [EvSend user (Numeric 305 "You are no longer marked as being away")]
       (store_user user (set_away false "") st))
  end.
Proof.
  intros Hh.
  assert (Hset : forall (f : irc_user -> irc_user) (a : bool),
            (forall x, away (f x) = a) ->
            (lock_user user ;; update_user user f ;; unlock_user user ;;
             st0 <- get ;;
             if away (user_at st0 user)
             then send_numeric user 306 "You have been marked as being away"
             else send_numeric user 305 "You are no longer marked as being away") st =
            (Next tt,
             add_sent
               [EvSend user
                  (if a then Numeric 306 "You have been marked as being away"
                   else Numeric 305 "You are no longer marked as being away")]
               (store_user user f st))).
  { intros f a Hf.
    rewrite (locked_update_then user f _ st Hh).
    rewrite bind_get_run. unfold store_user at 1. cbn [user_at].
    rewrite Z.eqb_refl, Hf.
    assert (Hh1 : held (store_user user f st) = []) by exact Hh.
    destruct a; apply send_numeric_run; exact Hh1. }
  unfold handle_away. destruct s as [t|].
  - destruct (negb (strlen t =? 0) && (strlen t >? MAX_AWAY_LEN));
      [apply send_numeric_run; exact Hh|].
    destruct (strlen t =? 0).
    + apply (Hset (set_away false "") false). reflexivity.
    + apply (Hset (set_away true t) true). reflexivity.
  - apply (Hset (set_away false "") false). reflexivity.
Qed.




(** X25. A client whose PONG came no longer ago than the ping interval
    is pinged by the next pass of the ping thread, not dropped: the
    PONG sets the time of the last answer, and the pass over that user
    writes PING and notes its time. *)
Theorem pong_keeps_the_connection (user answered now : Z) (st : irc_state) :
  held st = [] ->
  0 <= now <= INT_MAX ->
  now - PING_TIME <= answered ->
  let st1 := snd (handle_pong user answered st) in
  handle_pong user answered st = (Next tt, store_user user (set_lastpong answered) st) /\
  lastpong (user_at st1 user) = answered /\
  ping_user now user st1 = (Next tt, pinged now st1 user) /\
  sent (snd (ping_user now user st1)) = sent st ++ [EvSend user (MsgPing now)] /\
  channels (snd (ping_user now user st1)) = channels st.
Proof.
  intros Hh Hnow Hrecent st1.
  assert (Hrun : handle_pong user answered st =
                 (Next tt, store_user user (set_lastpong answered) st)).
  { unfold handle_pong. apply locked_update_run. exact Hh. }
  assert (H1 : st1 = store_user user (set_lastpong answered) st)
    by (subst st1; rewrite Hrun; reflexivity).
  assert (Hlast : lastpong (user_at st1 user) = answered).
  { rewrite H1. unfold store_user. cbn [user_at]. rewrite Z.eqb_refl. reflexivity. }
  assert (Hh1 : held st1 = []) by (rewrite H1; exact Hh).
  assert (Hping : ping_user now user st1 = (Next tt, pinged now st1 user)).
  { apply ping_user_pings; [exact Hh1|]. right. rewrite Hlast.
    rewrite wrap_int_id; [exact Hrecent|].
    unfold PING_TIME, MIN_MS, INT_MAX in *. lia. }
  split; [exact Hrun|]. split; [exact Hlast|]. split; [exact Hping|].
  rewrite Hping. cbn [snd]. rewrite H1. split; reflexivity.
Qed.

Lemma pong_keeps_the_connection_witness :
  ping_user 1000100 2 (snd (handle_pong 2 1000000 silent_state)) =
  (Next tt, pinged 1000100 (snd (handle_pong 2 1000000 silent_state)) 2).
Proof.
  assert (Hnow : 0 <= 1000100 <= INT_MAX) by (vm_compute; split; discriminate).
  assert (Hrecent : 1000100 - PING_TIME <= 1000000) by (vm_compute; discriminate).
  destruct (pong_keeps_the_connection 2 1000000 1000100 silent_state eq_refl Hnow Hrecent)
    as (_ & _ & H & _).
  exact H.
Defined.

(** X26. PRIVMSG and NOTICE with a target and no text stop the thread
    on a null pointer before anything is written; with nothing after
    the command they do nothing; with a target and a text they are
    [privmsg] on the target and the text, less a colon at its start. *)
Theorem privmsg_command_without_text (user : Z) (notice : bool) (target text : string)
    (now : Z) (st : irc_state) :
  one_word target = true ->
  handle_privmsg user notice (Some target) now st = (Stop NullDeref, st) /\
  handle_privmsg user notice None now st = (Next tt, st) /\
  handle_privmsg user notice (Some (target ++ " :" ++ text)%string) now st =
    (call (privmsg user target notice text now) ;; ret tt) st /\
  (forall c rest, text = String c rest -> c <> ":"%char ->
     handle_privmsg user notice (Some (target ++ " " ++ text)%string) now st =
     (call (privmsg user target notice text now) ;; ret tt) st).
Proof.
  intros Hw. split; [|split; [reflexivity|split]].
  - unfold handle_privmsg, strsep. rewrite (split_at_end _ Hw). reflexivity.
  - unfold handle_privmsg. rewrite (topic_args target text Hw). reflexivity.
  - intros c rest -> Hc. unfold handle_privmsg, strsep.
    change (target ++ " " ++ String c rest)%string
      with (target ++ String " " (String c rest))%string.
    rewrite (split_at_word _ _ Hw).
    destruct (Ascii.eqb_spec c ":") as [->|_]; [contradiction|].
    destruct c as [[] [] [] [] [] [] [] []]; try reflexivity.
    contradiction Hc. reflexivity.
Qed.

Lemma privmsg_command_without_text_witness :
  handle_privmsg 2 false (Some "#room"%string) 20 room_made_state
  = (Stop NullDeref, room_made_state).
Proof.
  apply (proj1 (privmsg_command_without_text 2 false "#room" "" 20 room_made_state
                  eq_refl)).
Defined.

End IrcTopicFacts.

Module SaslFacts.
Import CInt CIntFacts CMonad CMonadFacts Sasl PasswordClaims.
Local Open Scope cfun_scope.

Lemma c_string_app (a rest : list Z) :
  ~ In 0 a -> c_string (a ++ rest) = a ++ c_string rest.
Proof.
  induction a as [|c a IH]; simpl; [reflexivity|].
  intros Hn. destruct (Z.eqb_spec c 0) as [->|_]; [exfalso; apply Hn; left; reflexivity|].
  rewrite IH; [reflexivity|]. intros H. apply Hn. right. exact H.
Qed.

Lemma c_string_field (a rest : list Z) :
  ~ In 0 a -> c_string (a ++ 0 :: rest) = a.
Proof.
  intros Hn. rewrite (c_string_app a _ Hn). simpl. apply app_nil_r.
Qed.

Lemma skipn_field (a rest : list Z) (n : Z) :
  n = Z.of_nat (length a) + 1 ->
  skipn (Z.to_nat n) (a ++ 0 :: rest) = rest.
Proof.
  intros ->.
  replace (Z.to_nat (Z.of_nat (length a) + 1)) with (length a + 1)%nat by lia.
  replace (a ++ 0 :: rest) with ((a ++ [0]) ++ rest) by (rewrite <- app_assoc; reflexivity).
  rewrite skipn_app.
  assert (Hl : length (a ++ [0]) = (length a + 1)%nat) by (rewrite length_app; reflexivity).
  rewrite <- Hl. rewrite skipn_all, Nat.sub_diag. reflexivity.
Qed.

(** X27. SASL PLAIN. When the decoded block is nickname, NUL, user
    name, NUL and a password that is not empty: if the nickname is not
    the one the client gave with NICK, the backend is not asked, the
    user name stays as it was and the result is -1; if it is, the
    backend is asked once, with the user name and with the password
    followed by whatever bytes lie behind the block up to the next NUL,
    the user name is stored whatever the verdict, the block is given
    back zeroed, and the result is 0 with 903 and 900 when the backend
    says 0, and -1 with 904 otherwise. *)
Theorem sasl_plain_fields
    (base64_decode : string -> option (list Z)) (beyond : list Z)
    (authenticate : list Z -> list Z -> Z) (s : string) (st : sasl_state)
    (nick user pass : list Z) :
  STARTS_WITH s "AUTHENTICATE " = true ->
  base64_decode (encoded s) = Some (nick ++ 0 :: user ++ 0 :: pass) ->
  ~ In 0 nick -> ~ In 0 user -> ~ In 0 pass -> pass <> [] ->
  Z.of_nat (length (nick ++ 0 :: user ++ 0 :: pass)) <= INT_MAX ->
  let run := do_sasl_auth base64_decode beyond authenticate s st in
  let password := pass ++ c_string beyond in
  let res := authenticate user password in
  (nick <> nickname st ->
   fst run = Return (-1) /\
   username (snd run) = username st /\
   calls (snd run) =
     calls st ++ [CWarning "Nickname received does not match initial nick";
                  CFree (nick ++ 0 :: user ++ 0 :: pass)]) /\
  (nick = nickname st ->
   fst run = Return (if res =? 0 then 0 else -1) /\
   username (snd run) = Some user /\
   calls (snd run) =
     calls st
     ++ [CStrdup user; CAuthenticate user password res;
         CFree (repeat 0 (length (nick ++ 0 :: user ++ 0 :: pass)))]
     ++ (if res =? 0
         then [CNumeric 903 "SASL authentication successful";
               CNumeric 900 "You are now logged in"]
         else [CNumeric 904 "SASL authentication failed"])).
Proof.
  intros Hpre Hdec Hn Hu Hp Hpass Hfit run password res.
  set (block := nick ++ 0 :: user ++ 0 :: pass) in *.
  assert (Hlen : Z.of_nat (length block) =
                 Z.of_nat (length nick) + 1 + Z.of_nat (length user) + 1
                 + Z.of_nat (length pass)).
  { subst block. rewrite length_app. cbn [length]. rewrite length_app. cbn [length]. lia. }
  assert (Hpl : 0 < Z.of_nat (length pass)).
  { destruct pass; [contradiction | cbn [length]; lia]. }
  assert (Hmem : block ++ beyond = nick ++ 0 :: (user ++ 0 :: (pass ++ beyond))).
  { subst block. rewrite <- !app_assoc. cbn [app]. rewrite <- !app_assoc. reflexivity. }
  assert (Hnick : string_at 0 (block ++ beyond) = nick).
  { unfold string_at. cbn [Z.to_nat skipn]. rewrite Hmem. apply c_string_field. exact Hn. }
  assert (Hrun1 : wrap_int (0 + (strlen nick + 1)) = Z.of_nat (length nick) + 1).
  { unfold strlen. apply wrap_int_id. unfold INT_MAX in *. lia. }
  assert (Huser : string_at (Z.of_nat (length nick) + 1) (block ++ beyond) = user).
  { unfold string_at. rewrite Hmem. rewrite (skipn_field nick _ _ eq_refl).
    apply c_string_field. exact Hu. }
  assert (Hrun2 : wrap_int (Z.of_nat (length nick) + 1 + (strlen user + 1))
                  = Z.of_nat (length nick) + 1 + Z.of_nat (length user) + 1).
  { unfold strlen. rewrite wrap_int_id; unfold INT_MAX in *; lia. }
  assert (Hpw : string_at (Z.of_nat (length nick) + 1 + Z.of_nat (length user) + 1)
                  (block ++ beyond) = password).
  { unfold string_at. rewrite Hmem.
    replace (Z.to_nat (Z.of_nat (length nick) + 1 + Z.of_nat (length user) + 1))
      with (Z.to_nat (Z.of_nat (length user) + 1) + Z.to_nat (Z.of_nat (length nick) + 1))%nat
      by lia.
    rewrite <- skipn_skipn.
    rewrite (skipn_field nick _ _ eq_refl), (skipn_field user _ _ eq_refl).
    apply c_string_app. exact Hp. }
  assert (Hshape : run =
            (st0 <- get ;;
             if negb (if list_eq_dec Z.eq_dec nick (nickname st0) then true else false) then
               log (CWarning "Nickname received does not match initial nick") ;;
               log (CFree block) ;;
               return_ (-1)
             else
               log (CStrdup user) ;;
               set_username user ;;
               log (CAuthenticate user password res) ;;
               log (CFree (memset block 0 (Z.of_nat (length block)))) ;;
               if negb (res =? 0) then
                 log (CNumeric 904 "SASL authentication failed") ;;
                 return_ (-1)
               else
                 log (CNumeric 903 "SASL authentication successful") ;;
                 log (CNumeric 900 "You are now logged in") ;;
                 return_ 0) st).
  { subst run. unfold do_sasl_auth. rewrite Hpre, Hdec. cbn [negb]. cbv zeta.
    fold block. rewrite Hnick, Hrun1.
    assert (H1 : (Z.of_nat (length nick) + 1 >=? Z.of_nat (length block)) = false).
    { destruct (Z.geb_spec (Z.of_nat (length nick) + 1) (Z.of_nat (length block)));
        [lia | reflexivity]. }
    rewrite H1, Huser, Hrun2.
    assert (H2 : (Z.of_nat (length nick) + 1 + Z.of_nat (length user) + 1
                  >=? Z.of_nat (length block)) = false).
    { destruct (Z.geb_spec (Z.of_nat (length nick) + 1 + Z.of_nat (length user) + 1)
                  (Z.of_nat (length block))); [lia | reflexivity]. }
    rewrite H2, Hpw. reflexivity. }
  rewrite Hshape, bind_get.
  split.
  - intros Hne.
    destruct (list_eq_dec Z.eq_dec nick (nickname st)) as [He|_]; [contradiction|].
    cbn. rewrite <- app_assoc. repeat split; reflexivity.
  - intros He.
    destruct (list_eq_dec Z.eq_dec nick (nickname st)) as [_|Hne]; [|contradiction].
    cbn [negb]. rewrite memset_whole.
    destruct (res =? 0); cbn; rewrite <- !app_assoc; repeat split; reflexivity.
Qed.

Lemma sasl_plain_fields_witness :
  let run := do_sasl_auth (fun _ => Some plain_alice) [] (fun _ _ => 0)
               "AUTHENTICATE YWxpY2UAYWxpY2UAc2VjcmV0" (start (bytes_of "alice")) in
  fst run = Return 0 /\ username (snd run) = Some (bytes_of "alice").
Proof.
  intros run.
  assert (Hn : ~ In 0 (bytes_of "alice")) by (vm_compute; intuition discriminate).
  assert (Hp : ~ In 0 (bytes_of "secret")) by (vm_compute; intuition discriminate).
  assert (Hne : bytes_of "secret" <> []) by (vm_compute; discriminate).
  assert (Hfit : Z.of_nat (length (bytes_of "alice" ++ 0 :: bytes_of "alice"
                                     ++ 0 :: bytes_of "secret")) <= INT_MAX)
    by (vm_compute; discriminate).
  destruct (sasl_plain_fields (fun _ => Some plain_alice) [] (fun _ _ => 0)
              "AUTHENTICATE YWxpY2UAYWxpY2UAc2VjcmV0" (start (bytes_of "alice"))
              (bytes_of "alice") (bytes_of "alice") (bytes_of "secret")
              eq_refl eq_refl Hn Hn Hp Hne Hfit) as [_ H].
  destruct (H eq_refl) as (H1 & H2 & _).
  split; [exact H1 | exact H2].
Defined.

End SaslFacts.

(* ================================================================== *)
(** * nets/net_ssh.c: what SFTP READ and WRITE send and hand over *)
(* ================================================================== *)

Module SftpOpsFacts.
Import CInt CIntFacts Sftp SftpOps SftpClaims.


Lemma to_off_t_id (z : Z) : 0 <= z <= 9223372036854775807 -> to_off_t z = z.
Proof. intros H. unfold to_off_t. rewrite Z.mod_small by lia. lia. Qed.

Lemma to_off_t_negative (z : Z) :
  9223372036854775808 <= z < 18446744073709551616 -> to_off_t z < 0.
Proof.
  intros H. unfold to_off_t.
  replace (z + 9223372036854775808)
    with (z - 9223372036854775808 + 1 * 18446744073709551616) by lia.
  rewrite Z.mod_add by lia. rewrite Z.mod_small by lia. lia.
Qed.

Lemma fseeko_some (f : stream) (off pos : Z) :
  fseeko f off = Some pos -> pos = off /\ 0 <= off <= seekable f.
Proof.
  unfold fseeko. intros H.
  destruct (Z.ltb_spec off 0); [discriminate|].
  destruct (Z.ltb_spec (seekable f) off); [discriminate|].
  cbn [orb] in H. injection H as <-. split; [reflexivity | lia].
Qed.

Lemma fseeko_beyond (f : stream) (off : Z) :
  off < 0 \/ seekable f < off -> fseeko f off = None.
Proof.
  intros H. unfold fseeko.
  destruct (Z.ltb_spec off 0); [reflexivity|].
  destruct (Z.ltb_spec (seekable f) off); [reflexivity|]. lia.
Qed.

Lemma seekable_off_t (f : stream) : seekable f <= 9223372036854775807.
Proof. unfold seekable, OFF_T_MAX. lia. Qed.

(** X29. A READ on an open file that can be read, for at least one
    byte. When the seek to the offset succeeds, the client gets the
    bytes of the file from the offset on, as many as it asked for but
    not more than 65536 and not more than the file has; it gets the
    status EOF instead exactly when the offset is at or behind the end
    of the file. When the seek fails, the answer is a bad message, the
    buffer is given back and the result is -1; the seek fails for every
    offset behind the last place of the stream the file system takes,
    so for every offset of 2^63 or more. *)
Theorem handle_read_gives_the_slice (msg : sftp_client_message) (info : sftp_info) :
  handle msg = Some info -> info_type info = TYPE_FILE ->
  read_error (file info) = None ->
  1 <= len msg ->
  0 <= offset msg < 18446744073709551616 ->
  let r := fst (handle_read true msg) in
  let ev := snd (handle_read true msg) in
  let size := Z.of_nat (length (contents (file info))) in
  let seek := fseeko (file info) (to_off_t (offset msg)) in
  (seek <> None ->
   r = 0 /\
   returned ev =
     firstn (Z.to_nat (Z.min (len msg) 65536))
       (skipn (Z.to_nat (offset msg)) (contents (file info))) /\
   Z.of_nat (length (returned ev))
     = Z.max 0 (Z.min (Z.min (len msg) 65536) (size - offset msg)) /\
   (size <= offset msg <-> status_sent ev = Some SSH_FX_EOF) /\
   (offset msg < size -> status_sent ev = None)) /\
  (seek = None ->
   r = -1 /\ status_sent ev = Some SSH_FX_BAD_MESSAGE /\
   returned ev = [] /\ frees ev = 1%nat) /\
  (seekable (file info) < offset msg -> seek = None).
Proof.
  intros Hh Ht Herr Hlen Hu64 r ev size seek.
  assert (Hcap : (if len msg >? Z.shiftl 2 15 then Z.shiftl 2 15 else len msg)
                 = Z.min (len msg) 65536).
  { rewrite cap_value. destruct (Z.gtb_spec (len msg) 65536); lia. }
  assert (Hl1 : (len msg <? 1) = false) by (apply Z.ltb_ge; lia).
  assert (Hstep : handle_read true msg =
            match seek with
            | None =>
              (-1, [EvMalloc (Z.min (len msg) 65536); EvError "fseeko failed";
                    EvReplyStatus SSH_FX_BAD_MESSAGE (Some "Offset failed"%string);
                    EvFree])
            | Some pos =>
              let data := fread (file info) pos (Z.min (len msg) 65536) in
              (0, [EvMalloc (Z.min (len msg) 65536)]
                  ++ (if Z.of_nat (length data) <=? 0
                      then [EvReplyStatus SSH_FX_EOF (Some "EOF"%string)]
                      else [EvReplyData data (wrap_int (Z.of_nat (length data)))])
                  ++ [EvFree])
            end).
  { unfold handle_read. rewrite Hh, Ht. cbn [Z.eqb negb TYPE_FILE Pos.eqb].
    rewrite Hl1, Hcap. cbn [negb]. fold seek. rewrite Herr. reflexivity. }
  split; [|split].
  - intros Hseek.
    destruct seek as [pos|] eqn:Es; [clear Hseek | exfalso; apply Hseek; reflexivity].
    apply fseeko_some in Es. destruct Es as [-> Hpos].
    pose proof (seekable_off_t (file info)) as Hmax.
    assert (Hid : to_off_t (offset msg) = offset msg).
    { destruct (Z_le_gt_dec (offset msg) 9223372036854775807) as [Hle|Hgt].
      - apply to_off_t_id. lia.
      - assert (to_off_t (offset msg) < 0) by (apply to_off_t_negative; lia). lia. }
    rewrite Hid in Hstep, Hpos.
    unfold fread in Hstep. rewrite Herr in Hstep. cbv zeta in Hstep.
    set (slice := firstn (Z.to_nat (Z.min (len msg) 65536))
                    (skipn (Z.to_nat (offset msg)) (contents (file info)))) in *.
    assert (Hsl : Z.of_nat (length slice)
                  = Z.max 0 (Z.min (Z.min (len msg) 65536) (size - offset msg))).
    { subst slice size. rewrite length_firstn, length_skipn. lia. }
    subst r ev. rewrite Hstep. cbn [fst snd].
    split; [reflexivity|].
    destruct (Z.leb_spec (Z.of_nat (length slice)) 0) as [Hz|Hnz].
    + assert (Hnil : slice = []) by (destruct slice; [reflexivity | cbn [length] in Hz; lia]).
      split; [rewrite Hnil; reflexivity|]. split; [rewrite <- Hsl, Hnil; reflexivity|].
      split; [split; [reflexivity | intros _; lia]|].
      intros Hlt. lia.
    + split; [cbn; rewrite app_nil_r; reflexivity|].
      split; [cbn; rewrite app_nil_r; exact Hsl|].
      split; [split; [intros Hge; lia | discriminate]|].
      reflexivity.
  - intros Hseek. subst r ev. rewrite Hstep, Hseek. cbn. repeat split; reflexivity.
  - intros Hoff. subst seek. apply fseeko_beyond.
    destruct (Z_le_gt_dec (offset msg) 9223372036854775807) as [Hle|Hgt].
    + right. rewrite to_off_t_id by lia. exact Hoff.
    + left. apply to_off_t_negative. lia.
Qed.

Lemma handle_read_gives_the_slice_witness :
  returned (snd (handle_read true (mk_msg 100 4 (Some small_file)))) = [5; 6; 7; 8; 9; 10] /\
  status_sent (snd (handle_read true (mk_msg 100 10 (Some small_file)))) = Some SSH_FX_EOF /\
  status_sent (snd (handle_read true (mk_msg 100 4611686018427387904 (Some small_file))))
  = Some SSH_FX_BAD_MESSAGE.
Proof.
  assert (Hlen : 1 <= 100) by lia.
  assert (Hu1 : 0 <= 4 < 18446744073709551616) by lia.
  assert (Hu2 : 0 <= 10 < 18446744073709551616) by lia.
  assert (Hu3 : 0 <= 4611686018427387904 < 18446744073709551616) by lia.
  destruct (handle_read_gives_the_slice (mk_msg 100 4 (Some small_file)) small_file
              eq_refl eq_refl eq_refl Hlen Hu1) as [H1 _].
  destruct (handle_read_gives_the_slice (mk_msg 100 10 (Some small_file)) small_file
              eq_refl eq_refl eq_refl Hlen Hu2) as [H2 _].
  destruct (handle_read_gives_the_slice
              (mk_msg 100 4611686018427387904 (Some small_file)) small_file
              eq_refl eq_refl eq_refl Hlen Hu3) as (_ & H3 & Hb).
  assert (Hs1 : fseeko (file small_file) (to_off_t 4) <> None) by (vm_compute; discriminate).
  assert (Hs2 : fseeko (file small_file) (to_off_t 10) <> None) by (vm_compute; discriminate).
  assert (Hs3 : seekable (file small_file) < 4611686018427387904) by (vm_compute; reflexivity).
  destruct (H1 Hs1) as (_ & Hr & _).
  destruct (H2 Hs2) as (_ & _ & _ & He & _).
  destruct (H3 (Hb Hs3)) as (_ & Hbad & _).
  split; [exact Hr|]. split; [|exact Hbad]. apply He. vm_compute. discriminate.
Defined.


Lemma write_loop_handed (taken : list Z) (e : errno) (data : list Z) :
  forall len bytes,
    In bytes (handed (snd (write_loop taken e data len))) ->
    exists n, bytes = firstn n data.
Proof.
  induction taken as [|r0 rest IH]; intros len bytes Hin.
  - cbn in Hin. destruct Hin as [<-|[]]. eexists. reflexivity.
  - cbn [write_loop] in Hin.
    destruct ((Z.max 0 (Z.min r0 len) <=? 0) && (0 <? len)).
    { cbn in Hin. destruct Hin as [<-|[]]. eexists. reflexivity. }
    destruct (0 <? len - Z.max 0 (Z.min r0 len)).
    + destruct (write_loop rest e data (len - Z.max 0 (Z.min r0 len))) as [res ev] eqn:E.
      cbn in Hin. destruct Hin as [<-|Hin]; [eexists; reflexivity|].
      apply (IH (len - Z.max 0 (Z.min r0 len))). rewrite E. exact Hin.
    + cbn in Hin. destruct Hin as [<-|[]]. eexists. reflexivity.
Qed.

Lemma firstn_whole (data : list Z) :
  firstn (Z.to_nat (Z.of_nat (length data))) data = data.
Proof. rewrite Nat2Z.id. apply firstn_all. Qed.



End SftpOpsFacts.
